(** * DevPattern documentation worker: a shallow embedding and its properties

    The development follows the TypeScript sources of the doc-worker:

    - [prompts/batch-session.ts]: the delimiter protocol of multi-session
      responses ([parseBatchResponse], [extractSection], [extractTags]);
    - [config.ts]: the configuration and how it is read from the environment;
    - [storage.ts]: the session store and its content hash;
    - [batch-processor.ts]: the batch accumulator;
    - [summarizer.ts] and [prompts/staged-summary.ts]: single-pass and staged
      summarization;
    - [worker.ts]: event intake, retry scheduling and dead-lettering;
    - [idle-scanner.ts]: the idle session scanner.

    Modelling conventions.

    - A JavaScript string is a sequence of UTF-16 code units; here a string is
      a Rocq [string], its characters read as the code units below 256.
    - A [Date] is its epoch value in milliseconds, an integer.
    - Asynchronous methods are functions in a state-and-exception monad over
      a [World] that holds the files of the store, the two Redis structures,
      the fields of the worker objects and a chronological trace of the calls
      made to the outside.
    - The text-generation client is an oracle: the n-th request receives the
      reply [anthropic n request].
    - The Redis commands, the publication of an event and a write into the
      directory of a session that is on file are taken to succeed; in the
      sources each of them is awaited and a rejection would end the calling
      method.  What is stated of a method that returns normally is stated of
      the runs in which they do. *)

From Stdlib Require Import ZArith List String Ascii Bool Lia Arith Permutation.
From Stdlib Require Import DecimalString.
From Stdlib Require HexadecimalString HexadecimalZ DecimalZ.
From stdpp Require Import base option gmap strings list.

Local Open Scope string_scope.

(* ===================================================================== *)
(** * Part I: definitions *)
(* ===================================================================== *)

(** ** JavaScript strings *)

Module Js.

(** [\s] in a regular expression and the characters removed by [trim()]:
    TAB, LF, VT, FF, CR, SPACE and NBSP (the code units below 256 of the
    WhiteSpace and LineTerminator productions). *)
Definition is_space (c : ascii) : bool :=
  let n := nat_of_ascii c in
  ((9 <=? n)%nat && (n <=? 13)%nat) || (n =? 32)%nat || (n =? 160)%nat.

(** Canonicalize of the [i] flag (no [u] flag): the upper-case mapping of a
    single code unit, kept only when it is a single code unit and does not
    take a non-ASCII character to an ASCII one.  Below 256 this moves [a-z]
    and the lower-case Latin-1 letters (except the division sign, sharp s,
    micro sign and y-diaeresis, whose images are outside or not single) by
    32. *)
Definition canonicalize (c : ascii) : ascii :=
  let n := nat_of_ascii c in
  if ((97 <=? n)%nat && (n <=? 122)%nat)
     || ((224 <=? n)%nat && (n <=? 254)%nat && negb (n =? 247)%nat)
  then ascii_of_nat (n - 32) else c.

(** [strip_prefix lit s]: the rest of [s] after the literal [lit], when [s]
    starts with it. *)
Fixpoint strip_prefix (lit s : string) : option string :=
  match lit with
  | EmptyString => Some s
  | String a lit' =>
      match s with
      | EmptyString => None
      | String b s' => if Ascii.eqb a b then strip_prefix lit' s' else None
      end
  end.

(** The same under the [i] flag. *)
Fixpoint strip_prefix_ci (lit s : string) : option string :=
  match lit with
  | EmptyString => Some s
  | String a lit' =>
      match s with
      | EmptyString => None
      | String b s' =>
          if Ascii.eqb (canonicalize a) (canonicalize b)
          then strip_prefix_ci lit' s' else None
      end
  end.

Definition starts_with (lit s : string) : bool :=
  match strip_prefix lit s with Some _ => true | None => false end.

Definition starts_with_ci (lit s : string) : bool :=
  match strip_prefix_ci lit s with Some _ => true | None => false end.

(** Greedy [\s*] followed by something that cannot start with white space:
    drop all leading white space. *)
Fixpoint skip_space (s : string) : string :=
  match s with
  | EmptyString => EmptyString
  | String c s' => if is_space c then skip_space s' else s
  end.

(** The maximal run of non-space characters at the start of [s], and what
    follows it. *)
Fixpoint span_nonspace (s : string) : string * string :=
  match s with
  | EmptyString => (EmptyString, EmptyString)
  | String c s' =>
      if is_space c then (EmptyString, s)
      else let '(run, rest) := span_nonspace s' in (String c run, rest)
  end.

Fixpoint take (n : nat) (s : string) : string :=
  match n, s with
  | S n', String c s' => String c (take n' s')
  | _, _ => EmptyString
  end.

Fixpoint drop (n : nat) (s : string) : string :=
  match n, s with
  | S n', String _ s' => drop n' s'
  | _, _ => s
  end.

(** [break_at p s]: the leftmost split [s = pre ++ suf] whose right part
    satisfies [p] (the empty right part included).  This is how a regular
    expression engine looks for the first position at which the rest of the
    pattern matches, and how a lazy [[\s\S]*?] grows until what follows it
    matches. *)
Fixpoint break_at (p : string -> bool) (s : string) : option (string * string) :=
  if p s then Some (EmptyString, s)
  else match s with
       | EmptyString => None
       | String c s' =>
           match break_at p s' with
           | Some (pre, suf) => Some (String c pre, suf)
           | None => None
           end
       end.

(** [String.prototype.trim]. *)
Fixpoint trim_end (s : string) : string :=
  match s with
  | EmptyString => EmptyString
  | String c s' =>
      match trim_end s' with
      | EmptyString => if is_space c then EmptyString else String c EmptyString
      | t => String c t
      end
  end.

Definition trim (s : string) : string := trim_end (skip_space s).

(** [s.split(sep)] for a one-character separator: never empty. *)
Fixpoint split (sep : ascii) (s : string) : list string :=
  match s with
  | EmptyString => [EmptyString]
  | String c s' =>
      if Ascii.eqb c sep then EmptyString :: split sep s'
      else match split sep s' with
           | piece :: pieces => String c piece :: pieces
           | [] => [String c EmptyString]
           end
  end.

(** A string in a condition: the empty string is falsy. *)
Definition truthy (s : string) : bool :=
  match s with EmptyString => false | _ => true end.

(** [a || b] on strings. *)
Definition or_else (a b : string) : string := if truthy a then a else b.

(** Decimal rendering of a length inside a template literal. *)
Definition of_nat (n : nat) : string := NilEmpty.string_of_uint (Nat.to_uint n).

End Js.

(** ** JavaScript [Map] with string keys

    A [Map] iterates in insertion order and [set] on a present key keeps the
    key's position, so it is an association list without duplicate keys. *)

Module JsMap.

Section WithValue.
Context {V : Type}.

Definition t := list (string * V).

Definition empty : t := [].

Fixpoint set (k : string) (v : V) (m : t) : t :=
  match m with
  | [] => [(k, v)]
  | (k', v') :: m' => if String.eqb k' k then (k, v) :: m' else (k', v') :: set k v m'
  end.

Fixpoint get (k : string) (m : t) : option V :=
  match m with
  | [] => None
  | (k', v') :: m' => if String.eqb k' k then Some v' else get k m'
  end.

Definition delete (k : string) (m : t) : t :=
  List.filter (fun kv => negb (String.eqb (fst kv) k)) m.

Definition keys (m : t) : list string := List.map fst m.
Definition values (m : t) : list V := List.map snd m.
Definition size (m : t) : nat := List.length m.

End WithValue.

Arguments t : clear implicits.

End JsMap.

(** ** prompts/batch-session.ts: the response protocol *)

Record ParsedBatchDoc := {
  pd_sessionId : string;
  pd_content : string;
  pd_executiveSummary : string;
  pd_problemStatement : string;
  pd_approach : string;
  pd_outcome : string;
  pd_keyInsights : string;
  pd_tags : list string
}.

Definition SESSION_START : string := "===SESSION_START:".
Definition SESSION_END : string := "===SESSION_END===".
Definition HEADER_MARK : string := "## ".

(** [extractSection]: the pattern is
    [## <sectionName>\s*([\s\S]*?)(?=## |$)] with the [i] flag.  The engine
    takes the leftmost position where the header matches; [\s*] then takes
    all the white space (it never has to give any back, since the lazy
    group may start anywhere), and the lazy group grows to the first
    position followed by ["## "] or to the end of the input.  The result is
    the group, trimmed, or the empty string when the header is absent.
    [sectionName] is a literal name: the callers pass letters and spaces
    only. *)
Definition section_end (s : string) : bool :=
  Js.starts_with HEADER_MARK s || negb (Js.truthy s).

Definition extractSection (content sectionName : string) : string :=
  let header := HEADER_MARK ++ sectionName in
  match Js.break_at (Js.starts_with_ci header) content with
  | None => EmptyString
  | Some (_, at_header) =>
      match Js.strip_prefix_ci header at_header with
      | None => EmptyString
      | Some after =>
          match Js.break_at section_end (Js.skip_space after) with
          | Some (group, _) => Js.trim group
          | None => EmptyString
          end
      end
  end.

Definition extractTags (content : string) : list string :=
  let tagsSection := extractSection content "Tags" in
  if negb (Js.truthy tagsSection) then []
  else List.filter (fun t => (0 <? String.length t)%nat)
         (List.map Js.trim (Js.split "," tagsSection)).

(** One attempt of
    [===SESSION_START:\s*(\S+)\s*===([\s\S]*?)===SESSION_END===] at the start
    of [s].  After the literal and the first [\s*], the greedy [(\S+)] takes
    the whole run of non-space characters and gives characters back one at a
    time; [id_backtrack k] tries the identifiers of length [k], [k-1], ..., 1.
    With the whole run taken the second [\s*] takes all the white space that
    follows, with a shorter identifier it is empty.  Then ["==="] must
    follow, and the lazy group stops at the first [===SESSION_END===].
    The result is the identifier, the group and the input after the match. *)
Definition block_tail (s : string) : option (string * string) :=
  match Js.strip_prefix "===" s with
  | None => None
  | Some s' =>
      match Js.break_at (Js.starts_with SESSION_END) s' with
      | None => None
      | Some (group, at_end) =>
          Some (group, Js.drop (String.length SESSION_END) at_end)
      end
  end.

Fixpoint id_backtrack (k : nat) (run after : string) : option (string * string * string) :=
  match k with
  | O => None
  | S k' =>
      let rest :=
        if (k =? String.length run)%nat then Js.skip_space after
        else Js.drop k run ++ after in
      match block_tail rest with
      | Some (group, rest') => Some (Js.take k run, group, rest')
      | None => id_backtrack k' run after
      end
  end.

Definition match_block (s : string) : option (string * string * string) :=
  match Js.strip_prefix SESSION_START s with
  | None => None
  | Some s1 =>
      let '(run, after) := Js.span_nonspace (Js.skip_space s1) in
      id_backtrack (String.length run) run after
  end.

(** [sessionPattern.exec(response)] from the current [lastIndex]: the
    leftmost position of the remaining input where the pattern matches.
    The pattern has no anchor and no look-behind, so the input before
    [lastIndex] plays no role and the search runs on the remaining input. *)
Fixpoint exec_sessionPattern (s : string) : option (string * string * string) :=
  match match_block s with
  | Some m => Some m
  | None =>
      match s with
      | EmptyString => None
      | String _ s' => exec_sessionPattern s'
      end
  end.

Definition parsed_block (sessionId content : string) : ParsedBatchDoc :=
  {| pd_sessionId := sessionId;
     pd_content := content;
     pd_executiveSummary := extractSection content "Executive Summary";
     pd_problemStatement := extractSection content "Problem Statement";
     pd_approach := extractSection content "Approach";
     pd_outcome := extractSection content "Outcome";
     pd_keyInsights := extractSection content "Key Insights";
     pd_tags := extractTags content |}.

(** The [while ((match = sessionPattern.exec(response)) !== null)] loop.
    Every match consumes at least the two delimiters, so the loop runs at
    most [length response] times; [fuel] is that bound (see
    [parse_loop_complete] for the proof that it is never exhausted). *)
Fixpoint parse_loop (fuel : nat) (s : string) (docs : JsMap.t ParsedBatchDoc)
  : JsMap.t ParsedBatchDoc :=
  match fuel with
  | O => docs
  | S fuel' =>
      match exec_sessionPattern s with
      | None => docs
      | Some (sessionId, group, rest) =>
          let content := Js.trim group in
          parse_loop fuel' rest (JsMap.set sessionId (parsed_block sessionId content) docs)
      end
  end.

Local Open Scope list_scope.

(** ** types.ts: the data model *)

Record ThoughtRecord := {
  th_sessionId : string;
  th_thought : string;
  th_thoughtNumber : Z;
  th_totalThoughts : Z;
  th_branchId : option string;
  th_isRevision : option bool;
  th_revisesThought : option Z;
  th_timestamp : Z
}.

Inductive TaskStatus := TaskPending | TaskInProgress | TaskCompleted.

Record TaskCommit := {
  tk_sessionId : string;
  tk_taskId : string;
  tk_taskTitle : string;
  tk_description : option string;
  tk_completedAtThought : Z;
  tk_status : TaskStatus;
  tk_createdAt : Z;
  tk_completedAt : option Z
}.

Inductive SessionStatus := StatusActive | StatusCompleted | StatusFinalized.

Inductive Outcome := OutcomeCompleted | OutcomeAbandoned | OutcomeDeferred.

(** The [tier] fields hold whatever string the JSON carries; the code only
    compares them with ['premium'].  The free-form [metadata] field of a
    session is not used by the worker and is left out. *)
Record Session := {
  s_id : string;
  s_createdAt : Z;
  s_updatedAt : Z;
  s_status : SessionStatus;
  s_outcome : option Outcome;
  s_thoughtCount : Z;
  s_taskCount : Z;
  s_tenantId : option string;
  s_tier : option string;
  s_agentSummary : option string;
  s_autoFinalized : option bool
}.

Record SessionContext := {
  session : Session;
  thoughts : list ThoughtRecord;
  tasks : list TaskCommit
}.

Record DocumentationEntry := {
  d_sessionId : string;
  d_generatedAt : Z;
  d_summary : string;
  d_thoughtCount : Z;
  d_taskCount : Z;
  d_branches : list string;
  d_content : string;
  d_executiveSummary : option string;
  d_problemStatement : option string;
  d_approach : option string;
  d_outcome : option string;
  d_keyInsights : option string;
  d_tags : option (list string)
}.

Inductive EventType :=
  | SessionThought | SessionTaskCompleted | SessionFinalized | SessionIdleTimeout.

Record EventPayload := {
  p_outcome : option Outcome;
  p_agentSummary : option string;
  p_thoughtCount : option Z;
  p_taskCount : option Z;
  p_tier : option string;
  p_retryCount : option Z;
  p_idleMinutes : option Z
}.

Record DevPatternEvent := {
  e_type : EventType;
  e_sessionId : string;
  e_tenantId : option string;
  e_timestamp : Z;
  e_payload : EventPayload
}.

Record DeadLetterEntry := {
  dl_event : DevPatternEvent;
  dl_error : string;
  dl_failedAt : Z;
  dl_retryCount : Z
}.

#[global] Instance Outcome_eq_dec : EqDecision Outcome.
Proof. solve_decision. Defined.
#[global] Instance EventType_eq_dec : EqDecision EventType.
Proof. solve_decision. Defined.
#[global] Instance EventPayload_eq_dec : EqDecision EventPayload.
Proof. solve_decision. Defined.
#[global] Instance DevPatternEvent_eq_dec : EqDecision DevPatternEvent.
Proof. solve_decision. Defined.

(** ** config.ts *)

Record Config := {
  basicModel : string;
  premiumModel : string;
  idleTimeoutMinutes : Z;
  batchSize : Z;
  batchWindowSeconds : Z;
  maxRetries : Z;
  retryDelays : list Z
}.

(** [loadConfig]: the integer settings come from the environment
    ([getEnvIntOrDefault] accepts any integer), the back-off table is
    fixed. *)
Definition loadConfig (basic premium : string)
    (idleTimeout size window retries : Z) : Config :=
  {| basicModel := basic;
     premiumModel := premium;
     idleTimeoutMinutes := idleTimeout;
     batchSize := size;
     batchWindowSeconds := window;
     maxRetries := retries;
     retryDelays := [5000; 30000; 120000]%Z |}.

Definition defaultConfig : Config :=
  loadConfig "claude-3-5-haiku-20241022" "claude-3-5-sonnet-20241022" 10 5 30 3.

(** ** The outside world *)

(** A prompt is kept as the call that builds it: which generator, with which
    arguments.  The wording of the templates is not part of the model. *)
Inductive Prompt :=
  | StagePrompt (chunk : list ThoughtRecord) (stageNumber totalStages : Z)
  | SynthesisPrompt (stageSummaries : list string) (tks : list TaskCommit) (metadata : Session)
  | BatchPrompt (sessions : list SessionContext)
  | SingleSessionPrompt (ctx : SessionContext).

Definition generateStagePrompt := StagePrompt.
Definition generateSynthesisPrompt := SynthesisPrompt.
Definition generateBatchPrompt := BatchPrompt.
Definition generateSingleSessionPrompt := SingleSessionPrompt.

Definition STAGE_SIZE : nat := 20.

Record LlmRequest := {
  rq_model : string;
  rq_max_tokens : Z;
  rq_prompt : Prompt
}.

(** What [anthropic.messages.create] may do: resolve to a message whose
    first content block is text, or some other block, or to a message
    without content, or reject. *)
Inductive LlmReply :=
  | ReplyText (text : string)
  | ReplyOther
  | ReplyEmpty
  | ReplyError (message : string).

(** Calls that leave the process or enter one of the two generation paths,
    in the order they happen. *)
Inductive Effect :=
  | EGenerate (request : LlmRequest)
  | ESaveDocumentation (doc : DocumentationEntry)
  | EUpdateSession (s : Session)
  | EPublish (event : DevPatternEvent)
  | EZadd (score : Z) (member : DevPatternEvent)
  | EZrem (member : DevPatternEvent)
  | ELpush (entry : DeadLetterEntry)
  | EQueueSession (sessionId : string)
  | EGenerateDocumentation (sessionId tier : string).

(** The store is the [sessions/] directory: one sub-directory per session,
    named by the session id, with [session.json], [thoughts.json],
    [tasks.json] and [documentation.json].  [w_sessions] lists the
    [session.json] files in directory order. *)
Record World := mkWorld {
  w_sessions : list Session;
  w_thoughts : gmap string (list ThoughtRecord);
  w_tasks : gmap string (list TaskCommit);
  w_docs : gmap string DocumentationEntry;
  pendingQueue : JsMap.t SessionContext;
  batchTimer : bool;
  retry_queue : list (Z * DevPatternEvent);
  dead_letter : list DeadLetterEntry;
  processedCount : nat;
  apiCalls : nat;
  now : Z;
  trace : list Effect
}.

Definition set_sessions (x : list Session) (w : World) : World :=
  mkWorld x (w_thoughts w) (w_tasks w) (w_docs w) (pendingQueue w) (batchTimer w)
    (retry_queue w) (dead_letter w) (processedCount w) (apiCalls w) (now w) (trace w).
Definition set_docs (x : gmap string DocumentationEntry) (w : World) : World :=
  mkWorld (w_sessions w) (w_thoughts w) (w_tasks w) x (pendingQueue w) (batchTimer w)
    (retry_queue w) (dead_letter w) (processedCount w) (apiCalls w) (now w) (trace w).
Definition set_pendingQueue (x : JsMap.t SessionContext) (w : World) : World :=
  mkWorld (w_sessions w) (w_thoughts w) (w_tasks w) (w_docs w) x (batchTimer w)
    (retry_queue w) (dead_letter w) (processedCount w) (apiCalls w) (now w) (trace w).
Definition set_batchTimer (x : bool) (w : World) : World :=
  mkWorld (w_sessions w) (w_thoughts w) (w_tasks w) (w_docs w) (pendingQueue w) x
    (retry_queue w) (dead_letter w) (processedCount w) (apiCalls w) (now w) (trace w).
Definition set_retry_queue (x : list (Z * DevPatternEvent)) (w : World) : World :=
  mkWorld (w_sessions w) (w_thoughts w) (w_tasks w) (w_docs w) (pendingQueue w) (batchTimer w)
    x (dead_letter w) (processedCount w) (apiCalls w) (now w) (trace w).
Definition set_dead_letter (x : list DeadLetterEntry) (w : World) : World :=
  mkWorld (w_sessions w) (w_thoughts w) (w_tasks w) (w_docs w) (pendingQueue w) (batchTimer w)
    (retry_queue w) x (processedCount w) (apiCalls w) (now w) (trace w).
Definition set_processedCount (x : nat) (w : World) : World :=
  mkWorld (w_sessions w) (w_thoughts w) (w_tasks w) (w_docs w) (pendingQueue w) (batchTimer w)
    (retry_queue w) (dead_letter w) x (apiCalls w) (now w) (trace w).
Definition set_apiCalls (x : nat) (w : World) : World :=
  mkWorld (w_sessions w) (w_thoughts w) (w_tasks w) (w_docs w) (pendingQueue w) (batchTimer w)
    (retry_queue w) (dead_letter w) (processedCount w) x (now w) (trace w).
Definition set_now (x : Z) (w : World) : World :=
  mkWorld (w_sessions w) (w_thoughts w) (w_tasks w) (w_docs w) (pendingQueue w) (batchTimer w)
    (retry_queue w) (dead_letter w) (processedCount w) (apiCalls w) x (trace w).
Definition set_trace (x : list Effect) (w : World) : World :=
  mkWorld (w_sessions w) (w_thoughts w) (w_tasks w) (w_docs w) (pendingQueue w) (batchTimer w)
    (retry_queue w) (dead_letter w) (processedCount w) (apiCalls w) (now w) x.

(** ** Promises: state and exceptions *)

(** [OutOfFuel] is the answer of a loop whose iteration bound was too small;
    the theorems show that no method ever gives it. *)
Inductive Result (A : Type) :=
  | Ok (a : A)
  | Throw (error : string)
  | OutOfFuel.
Arguments Ok {A} a.
Arguments Throw {A} error.
Arguments OutOfFuel {A}.

Definition M (A : Type) : Type := World -> Result A * World.

Definition ret {A} (a : A) : M A := fun w => (Ok a, w).

Definition throw {A} (error : string) : M A := fun w => (Throw error, w).

Definition bind {A B} (m : M A) (k : A -> M B) : M B :=
  fun w =>
    match m w with
    | (Ok a, w') => k a w'
    | (Throw error, w') => (Throw error, w')
    | (OutOfFuel, w') => (OutOfFuel, w')
    end.

Definition gets {A} (f : World -> A) : M A := fun w => (Ok (f w), w).

Definition modify (f : World -> World) : M unit := fun w => (Ok tt, f w).

Definition emit (e : Effect) : M unit :=
  modify (fun w => set_trace (trace w ++ [e]) w).

(** [try { body } catch (error) { handler(error) }]. *)
Definition try_catch {A} (body : M A) (handler : string -> M A) : M A :=
  fun w =>
    match body w with
    | (Throw error, w') => handler error w'
    | other => other
    end.

(** [for (const x of xs) { await body(x) }]. *)
Fixpoint for_of {A} (xs : list A) (body : A -> M unit) : M unit :=
  match xs with
  | [] => ret tt
  | x :: xs' => bind (body x) (fun _ => for_of xs' body)
  end.

(** [await Promise.all([a, b])] for two promises of this model.  Both
    bodies are started and both run to their end, whatever the other does;
    the awaiting caller resumes with a rejection when one of them rejects.
    The two bodies used here work on disjoint sessions, so running [a]
    before [b] gives the final store of every interleaving; when both
    reject the caller is given the rejection of [a].  The trace lists the
    effects of [a] before those of [b], where the sources send the request
    of [b] before the reply to [a] is saved: the statements on traces select
    the effects by kind or by session and do not depend on that order. *)
Definition promise_all2 (a b : M unit) : M unit :=
  fun w =>
    let '(ra, w1) := a w in
    let '(rb, w2) := b w1 in
    (match ra with Ok _ => rb | _ => ra end, w2).

Declare Scope promise_scope.
Delimit Scope promise_scope with promise.
Notation "'let*' x ':=' m 'in' k" := (bind m (fun x => k))
  (at level 10, x name, m at level 100, k at level 200) : promise_scope.
Notation "m ';;' k" := (bind m (fun _ => k))
  (at level 100, k at level 200, right associativity) : promise_scope.

Local Open Scope promise_scope.

(** [parseBatchResponse].  The second argument is the batch that was
    submitted; the function body never reads it. *)
Definition parseBatchResponse (response : string) (sessions : list SessionContext)
  : JsMap.t ParsedBatchDoc :=
  parse_loop (String.length response) response JsMap.empty.

(** ** storage.ts *)

Definition getSession (sessionId : string) : M (option Session) :=
  gets (fun w => List.find (fun s => String.eqb (s_id s) sessionId) (w_sessions w)).

Definition getThoughts (sessionId : string) : M (list ThoughtRecord) :=
  gets (fun w => default [] (w_thoughts w !! sessionId)).

Definition getTasks (sessionId : string) : M (list TaskCommit) :=
  gets (fun w => default [] (w_tasks w !! sessionId)).

Definition getSessionContext (sessionId : string) : M (option SessionContext) :=
  let* s := getSession sessionId in
  match s with
  | None => ret None
  | Some s =>
      let* ths := getThoughts sessionId in
      let* tks := getTasks sessionId in
      ret (Some {| session := s; thoughts := ths; tasks := tks |})
  end.

Definition getDocumentation (sessionId : string) : M (option DocumentationEntry) :=
  gets (fun w => w_docs w !! sessionId).

(** The worker only saves documents of sessions it has loaded, and session
    directories are never removed, so the write finds its directory: the
    write is taken to succeed.  (A write for a session without a directory
    rejects in the sources; the statements that depend on it ask for the
    session to be on file.) *)
Definition saveDocumentation (doc : DocumentationEntry) : M unit :=
  emit (ESaveDocumentation doc);;
  modify (fun w => set_docs (<[d_sessionId doc := doc]> (w_docs w)) w).

Fixpoint replace_session (s : Session) (l : list Session) : list Session :=
  match l with
  | [] => []
  | s' :: l' =>
      if String.eqb (s_id s') (s_id s) then s :: l' else s' :: replace_session s l'
  end.

(** [writeFile] into a directory that does not exist rejects; the message
    here is the one of the sources without the path of the file. *)
Definition updateSession (s : Session) : M unit :=
  let* existing := getSession (s_id s) in
  match existing with
  | None => throw "ENOENT: no such file or directory"
  | Some _ =>
      emit (EUpdateSession s);;
      modify (fun w => set_sessions (replace_session s (w_sessions w)) w)
  end.

Definition is_listed (s : Session) : bool :=
  match s_status s with
  | StatusActive | StatusCompleted => true
  | StatusFinalized => false
  end.

Definition listActiveSessions : M (list Session) :=
  gets (fun w => List.filter is_listed (w_sessions w)).

(** ** Shared pieces of the two summarizers *)

(** [response.content[0].type === 'text' ? response.content[0].text : ''];
    reading [type] of a missing first block is a [TypeError], whose message
    is what the caller sees. *)
Definition first_text (reply : LlmReply) : M string :=
  match reply with
  | ReplyText text => ret text
  | ReplyOther => ret EmptyString
  | ReplyEmpty => throw "Cannot read properties of undefined (reading 'type')"
  | ReplyError message => throw message
  end.

(** [[...new Set(xs)]]: first occurrences, in order. *)
Definition set_spread (xs : list string) : list string :=
  List.fold_left
    (fun acc x => if List.existsb (String.eqb x) acc then acc else acc ++ [x]) xs [].

Definition branches_of (ths : list ThoughtRecord) : list string :=
  set_spread
    (omap (fun t => match th_branchId t with
                    | Some b => if Js.truthy b then Some b else None
                    | None => None
                    end) ths).

Definition is_premium (tier : option string) : bool :=
  match tier with
  | Some t => String.eqb t "premium"
  | None => false
  end.

Section Worker.

Variable config : Config.
Variable anthropic : nat -> LlmRequest -> LlmReply.

(** [await this.anthropic.messages.create({ model, max_tokens, messages })]
    followed by the extraction of the text. *)
Definition messages_create (model : string) (max_tokens : Z) (prompt : Prompt) : M string :=
  let request := {| rq_model := model; rq_max_tokens := max_tokens; rq_prompt := prompt |} in
  emit (EGenerate request);;
  let* n := gets apiCalls in
  modify (set_apiCalls (S n));;
  first_text (anthropic n request).

(** ** batch-processor.ts *)

Definition batch_doc (ctx : SessionContext) (parsed : ParsedBatchDoc) (generatedAt : Z)
  : DocumentationEntry :=
  {| d_sessionId := s_id (session ctx);
     d_generatedAt := generatedAt;
     d_summary :=
       Js.or_else (pd_executiveSummary parsed)
         ("Session with " ++ Js.of_nat (List.length (thoughts ctx)) ++ " thoughts")%string;
     d_thoughtCount := Z.of_nat (List.length (thoughts ctx));
     d_taskCount := Z.of_nat (List.length (tasks ctx));
     d_branches := branches_of (thoughts ctx);
     d_content := pd_content parsed;
     d_executiveSummary := Some (pd_executiveSummary parsed);
     d_problemStatement := Some (pd_problemStatement parsed);
     d_approach := Some (pd_approach parsed);
     d_outcome := Some (pd_outcome parsed);
     d_keyInsights := Some (pd_keyInsights parsed);
     d_tags := Some (pd_tags parsed) |}.

(** The body of the loop [for (const session of sessions)] that saves the
    parsed documents. *)
Definition save_parsed (parsedDocs : JsMap.t ParsedBatchDoc) (ctx : SessionContext)
  : M unit :=
  match JsMap.get (s_id (session ctx)) parsedDocs with
  | Some parsed =>
      let* generatedAt := gets now in
      saveDocumentation (batch_doc ctx parsed generatedAt)
  | None => ret tt
  end.

Definition processTierBatch (sessions : list SessionContext) (model : string) : M unit :=
  match sessions with
  | [] => ret tt
  | _ =>
      let prompt := generateBatchPrompt sessions in
      let* responseText := messages_create model 4000 prompt in
      let parsedDocs := parseBatchResponse responseText sessions in
      for_of sessions (save_parsed parsedDocs)
  end.

(** [xs.slice(0, n)]: a negative [n] counts from the end. *)
Definition slice_to {A} (n : Z) (xs : list A) : list A :=
  if (n <? 0)%Z then List.firstn (List.length xs - Z.to_nat (- n)) xs
  else List.firstn (Z.to_nat n) xs.

Definition processBatch : M unit :=
  modify (set_batchTimer false);;
  let* queue := gets pendingQueue in
  let sessions := slice_to (batchSize config) (JsMap.values queue) in
  modify (fun w =>
    set_pendingQueue
      (List.fold_left (fun q ctx => JsMap.delete (s_id (session ctx)) q) sessions (pendingQueue w))
      w);;
  match sessions with
  | [] => ret tt
  | _ =>
      let basicTier := List.filter (fun ctx => negb (is_premium (s_tier (session ctx)))) sessions in
      let premiumTier := List.filter (fun ctx => is_premium (s_tier (session ctx))) sessions in
      promise_all2
        (processTierBatch basicTier (basicModel config))
        (processTierBatch premiumTier (premiumModel config))
  end.

Definition queueSession (sessionContext : SessionContext) : M unit :=
  emit (EQueueSession (s_id (session sessionContext)));;
  modify (fun w =>
    set_pendingQueue
      (JsMap.set (s_id (session sessionContext)) sessionContext (pendingQueue w)) w);;
  let* size := gets (fun w => JsMap.size (pendingQueue w)) in
  if (batchSize config <=? Z.of_nat size)%Z then processBatch
  else
    let* timer := gets batchTimer in
    if timer then ret tt else modify (set_batchTimer true).

(** The callback of the window timer, run by the environment
    [batchWindowSeconds] after the timer was armed. *)
Definition batchTimerFires : M unit :=
  let* timer := gets batchTimer in
  if timer then processBatch else ret tt.

Definition getPendingCount : M nat := gets (fun w => JsMap.size (pendingQueue w)).

Definition flush : M unit :=
  let* size := getPendingCount in
  if (0 <? size)%nat then processBatch else ret tt.

(** ** summarizer.ts *)

(** [{ sessionId, generatedAt, summary, ..., content, ...parsed }] where
    [parsed = this.parseDocumentation(content)].  The private
    [extractSection] and [extractTags] of the class have the text of the
    functions of [batch-session.ts]. *)
Definition summarizer_doc (ctx : SessionContext) (content : string)
    (generatedAt : Z) (fallback : string) : DocumentationEntry :=
  let executiveSummary := extractSection content "Executive Summary" in
  {| d_sessionId := s_id (session ctx);
     d_generatedAt := generatedAt;
     d_summary := Js.or_else executiveSummary fallback;
     d_thoughtCount := Z.of_nat (List.length (thoughts ctx));
     d_taskCount := Z.of_nat (List.length (tasks ctx));
     d_branches := branches_of (thoughts ctx);
     d_content := content;
     d_executiveSummary := Some executiveSummary;
     d_problemStatement := Some (extractSection content "Problem Statement");
     d_approach := Some (extractSection content "Approach");
     d_outcome := Some (extractSection content "Outcome");
     d_keyInsights := Some (extractSection content "Key Insights");
     d_tags := Some (extractTags content) |}.

Definition singlePassSummarization (ctx : SessionContext) (model : string)
  : M DocumentationEntry :=
  let prompt := generateSingleSessionPrompt ctx in
  let* content := messages_create model 2000 prompt in
  let* generatedAt := gets now in
  let doc :=
    summarizer_doc ctx content generatedAt
      ("Session with " ++ Js.of_nat (List.length (thoughts ctx)) ++ " thoughts")%string in
  saveDocumentation doc;;
  ret doc.

(** [xs.slice(i, j)] for [0 <= i <= j]. *)
Definition slice {A} (i j : nat) (xs : list A) : list A :=
  List.firstn (j - i) (List.skipn i xs).

(** [Math.ceil(n / d)] for a length [n]. *)
Definition ceil_div (n d : nat) : nat :=
  (n / d + (if (n mod d =? 0)%nat then 0 else 1))%nat.

(** The loop [for (let i = 0; i < thoughts.length; i += STAGE_SIZE)] from
    the index [i] on; [fuel] bounds the number of iterations. *)
Fixpoint stage_loop (fuel : nat) (model : string) (ths : list ThoughtRecord)
    (totalStages : Z) (i : nat) (stageSummaries : list string) : M (list string) :=
  if (i <? List.length ths)%nat then
    match fuel with
    | O => fun w => (OutOfFuel, w)
    | S fuel' =>
        let chunk := slice i (i + STAGE_SIZE) ths in
        let stageNum := (Z.of_nat (i / STAGE_SIZE) + 1)%Z in
        let prompt := generateStagePrompt chunk stageNum totalStages in
        let* summary := messages_create model 500 prompt in
        stage_loop fuel' model ths totalStages (i + STAGE_SIZE) (stageSummaries ++ [summary])
    end
  else ret stageSummaries.

Definition stagedSummarization (ctx : SessionContext) (model : string)
  : M DocumentationEntry :=
  let totalStages := Z.of_nat (ceil_div (List.length (thoughts ctx)) STAGE_SIZE) in
  let* stageSummaries :=
    stage_loop (List.length (thoughts ctx)) model (thoughts ctx) totalStages 0 [] in
  let synthesisPrompt := generateSynthesisPrompt stageSummaries (tasks ctx) (session ctx) in
  let* content := messages_create model 3000 synthesisPrompt in
  let* generatedAt := gets now in
  let doc :=
    summarizer_doc ctx content generatedAt
      ("Large session with " ++ Js.of_nat (List.length (thoughts ctx)) ++ " thoughts")%string in
  saveDocumentation doc;;
  ret doc.

Definition generateDocumentation (ctx : SessionContext) (tier : string)
  : M DocumentationEntry :=
  emit (EGenerateDocumentation (s_id (session ctx)) tier);;
  let model := if String.eqb tier "premium" then premiumModel config else basicModel config in
  if (STAGE_SIZE <? List.length (thoughts ctx))%nat
  then stagedSummarization ctx model
  else singlePassSummarization ctx model.

(** ** worker.ts *)

(** Is the stored document up to date?  The condition of the [if] inside
    [if (existingDoc)]. *)
Definition up_to_date (doc : DocumentationEntry) (ctx : SessionContext) : bool :=
  let docTime := d_generatedAt doc in
  let sessionTime := s_updatedAt (session ctx) in
  (sessionTime <? docTime)%Z
  && (d_thoughtCount doc =? Z.of_nat (List.length (thoughts ctx)))%Z
  && (d_taskCount doc =? Z.of_nat (List.length (tasks ctx)))%Z.

Definition processSession (event : DevPatternEvent) : M unit :=
  let* sessionContext := getSessionContext (e_sessionId event) in
  match sessionContext with
  | None => throw ("Session not found: " ++ e_sessionId event)%string
  | Some ctx =>
      let* existingDoc := getDocumentation (e_sessionId event) in
      let skip :=
        match existingDoc with
        | Some doc => up_to_date doc ctx
        | None => false
        end in
      if skip then ret tt
      else if (List.length (thoughts ctx) <=? 20)%nat then queueSession ctx
      else
        let tier :=
          match p_tier (e_payload event) with
          | Some t => Js.or_else t "basic"
          | None => "basic"
          end in
        let* _ := generateDocumentation ctx tier in
        ret tt
  end.

(** The sorted set [devpattern:retry_queue]: members in increasing score
    order.  (Redis orders equal scores by member; here a member with an
    equal score goes behind the older ones.) *)
Fixpoint zinsert (score : Z) (member : DevPatternEvent)
    (q : list (Z * DevPatternEvent)) : list (Z * DevPatternEvent) :=
  match q with
  | [] => [(score, member)]
  | (s, m) :: q' =>
      if (score <? s)%Z then (score, member) :: q else (s, m) :: zinsert score member q'
  end.

Definition zremove (member : DevPatternEvent) (q : list (Z * DevPatternEvent))
  : list (Z * DevPatternEvent) :=
  List.filter (fun x => negb (bool_decide (snd x = member))) q.

(** The commands [zadd], [zrangebyscore], [zrem] and [lpush] of the
    publisher connection; they are taken to succeed. *)
Definition zadd (score : Z) (member : DevPatternEvent) : M unit :=
  emit (EZadd score member);;
  modify (fun w => set_retry_queue (zinsert score member (zremove member (retry_queue w))) w).

Definition zrangebyscore (lo hi : Z) : M (list DevPatternEvent) :=
  gets (fun w =>
    List.map snd (List.filter (fun x => (lo <=? fst x)%Z && (fst x <=? hi)%Z) (retry_queue w))).

Definition zrem (member : DevPatternEvent) : M unit :=
  emit (EZrem member);;
  modify (fun w => set_retry_queue (zremove member (retry_queue w)) w).

Definition lpush (entry : DeadLetterEntry) : M unit :=
  emit (ELpush entry);;
  modify (fun w => set_dead_letter (entry :: dead_letter w) w).

(** [xs[i]] for an integer [i]: [undefined] outside the array. *)
Definition js_index (xs : list Z) (i : Z) : option Z :=
  if (i <? 0)%Z then None else xs !! Z.to_nat i.

(** [a || b] on numbers that may be [undefined]: [0] is falsy. *)
Definition js_or (a b : option Z) : option Z :=
  match a with
  | Some v => if (v =? 0)%Z then b else Some v
  | None => b
  end.

Definition with_retryCount (event : DevPatternEvent) (retryCount : Z) : DevPatternEvent :=
  let p := e_payload event in
  {| e_type := e_type event;
     e_sessionId := e_sessionId event;
     e_tenantId := e_tenantId event;
     e_timestamp := e_timestamp event;
     e_payload :=
       {| p_outcome := p_outcome p;
          p_agentSummary := p_agentSummary p;
          p_thoughtCount := p_thoughtCount p;
          p_taskCount := p_taskCount p;
          p_tier := p_tier p;
          p_retryCount := Some retryCount;
          p_idleMinutes := p_idleMinutes p |} |}.

(** An [undefined] delay makes the score [NaN], which Redis refuses. *)
Definition scheduleRetry (event : DevPatternEvent) (retryCount : Z) : M unit :=
  let delay :=
    js_or (js_index (retryDelays config) (retryCount - 1))
          (js_index (retryDelays config) (Z.of_nat (List.length (retryDelays config)) - 1)) in
  let retryEvent := with_retryCount event retryCount in
  match delay with
  | None => throw "ERR value is not a valid float"
  | Some delay =>
      let* t := gets now in
      let retryAt := (t + delay)%Z in
      zadd retryAt retryEvent
  end.

Definition moveToDeadLetter (event : DevPatternEvent) (error : string) : M unit :=
  let* failedAt := gets now in
  let entry :=
    {| dl_event := event;
       dl_error := error;
       dl_failedAt := failedAt;
       dl_retryCount := maxRetries config |} in
  lpush entry.

Definition is_finalization (t : EventType) : bool :=
  match t with
  | SessionFinalized | SessionIdleTimeout => true
  | SessionThought | SessionTaskCompleted => false
  end.

Definition handleEvent (event : DevPatternEvent) : M unit :=
  if negb (is_finalization (e_type event)) then ret tt
  else
    let retryCount := default 0%Z (p_retryCount (e_payload event)) in
    try_catch
      (processSession event;;
       modify (fun w => set_processedCount (S (processedCount w)) w))
      (fun error =>
         if (retryCount <? maxRetries config)%Z
         then scheduleRetry event (retryCount + 1)
         else moveToDeadLetter event error).

(** The body of the [setInterval] callback of [startRetryProcessor]. *)
Definition retryProcessorTick : M unit :=
  let* t := gets now in
  let* items := zrangebyscore 0 t in
  for_of items (fun event => zrem event;; handleEvent event).

Definition shutdown : M unit := flush.

(** ** idle-scanner.ts *)

Definition is_completed (t : TaskCommit) : bool :=
  match tk_status t with TaskCompleted => true | _ => false end.

Definition finalized (s : Session) (outcome : Outcome) (updatedAt : Z) : Session :=
  {| s_id := s_id s;
     s_createdAt := s_createdAt s;
     s_updatedAt := updatedAt;
     s_status := StatusFinalized;
     s_outcome := Some outcome;
     s_thoughtCount := s_thoughtCount s;
     s_taskCount := s_taskCount s;
     s_tenantId := s_tenantId s;
     s_tier := s_tier s;
     s_agentSummary := s_agentSummary s;
     s_autoFinalized := Some true |}.

Definition idle_timeout_event (s : Session) (outcome : Outcome) (timestamp : Z)
  : DevPatternEvent :=
  {| e_type := SessionIdleTimeout;
     e_sessionId := s_id s;
     e_tenantId := s_tenantId s;
     e_timestamp := timestamp;
     e_payload :=
       {| p_outcome := Some outcome;
          p_agentSummary := None;
          p_thoughtCount := Some (s_thoughtCount s);
          p_taskCount := Some (s_taskCount s);
          p_tier := Some (match s_tier s with
                          | Some t => Js.or_else t "basic"
                          | None => "basic"
                          end);
          p_retryCount := None;
          p_idleMinutes := Some (idleTimeoutMinutes config) |} |}.

Definition autoFinalize (s : Session) : M unit :=
  let* tks := getTasks (s_id s) in
  let completedTasks := List.length (List.filter is_completed tks) in
  let outcome := if (0 <? completedTasks)%nat then OutcomeCompleted else OutcomeAbandoned in
  let* updatedAt := gets now in
  let s' := finalized s outcome updatedAt in
  updateSession s';;
  let* timestamp := gets now in
  let event := idle_timeout_event s' outcome timestamp in
  emit (EPublish event).

(** The body of the loop [for (const session of activeSessions)]; [t] is
    the [now] read before the loop. *)
Definition scan_body (t : Z) (s : Session) : M unit :=
  let idleTimeoutMs := (idleTimeoutMinutes config * 60 * 1000)%Z in
  let lastActivity := s_updatedAt s in
  let idleTime := (t - lastActivity)%Z in
  if (idleTimeoutMs <? idleTime)%Z then autoFinalize s else ret tt.

Definition scan : M unit :=
  let* activeSessions := listActiveSessions in
  let* t := gets now in
  for_of activeSessions (scan_body t).

End Worker.

(** ** Notions used in the statements *)

(** The effects added to the trace between two worlds. *)
Definition new_effects (w w' : World) : list Effect :=
  List.skipn (List.length (trace w)) (trace w').

(** Entering one of the two generation paths of [processSession]. *)
Definition enters_generation (e : Effect) : bool :=
  match e with
  | EQueueSession _ | EGenerateDocumentation _ _ => true
  | _ => false
  end.

Definition is_generate (e : Effect) : bool :=
  match e with EGenerate _ => true | _ => false end.

Definition is_save (e : Effect) : bool :=
  match e with ESaveDocumentation _ => true | _ => false end.

(** What [getSessionContext] reads. *)
Definition sessionContextOf (sessionId : string) (w : World) : option SessionContext :=
  match List.find (fun s => String.eqb (s_id s) sessionId) (w_sessions w) with
  | None => None
  | Some s =>
      Some {| session := s;
              thoughts := default [] (w_thoughts w !! sessionId);
              tasks := default [] (w_tasks w !! sessionId) |}
  end.

(** [Frame R m]: whatever the world, running [m] takes it to a world
    related to it by [R]. *)
Definition Frame (R : relation World) {A} (m : M A) : Prop :=
  forall w, R w (snd (m w)).

(** The trace only grows. *)
Definition trace_grows : relation World :=
  fun w w' => exists new, trace w' = trace w ++ new.

(** The request of one tier group of a batch. *)
Definition batch_request (model : string) (sessions : list SessionContext) : LlmRequest :=
  {| rq_model := model; rq_max_tokens := 4000; rq_prompt := BatchPrompt sessions |}.

(** The generation call of one tier group: none for an empty group. *)
Definition tier_call (model : string) (sessions : list SessionContext) : list Effect :=
  match sessions with
  | [] => []
  | _ => [EGenerate (batch_request model sessions)]
  end.

(** The invariant of [pendingQueue]: keys are distinct and every context is
    stored under the id of its session ([queueSession] is the only writer). *)
Definition keyed_by_id (m : JsMap.t SessionContext) : Prop :=
  forall k ctx, In (k, ctx) m -> k = s_id (session ctx).

Definition pending_wf (m : JsMap.t SessionContext) : Prop :=
  NoDup (JsMap.keys m) /\ keyed_by_id m.

(** The trace grows by effects that satisfy [P], and the pending map stays as
    it is. *)
Definition grows_by (P : Effect -> bool) : relation World :=
  fun w w' =>
    (exists new, trace w' = trace w ++ new /\ List.forallb P new = true)
    /\ pendingQueue w' = pendingQueue w.

(** The sessions a call of [processBatch] takes out of the pending map. *)
Definition batch_of (config : Config) (w : World) : list SessionContext :=
  slice_to (batchSize config) (JsMap.values (pendingQueue w)).

Definition generate_effects (w w' : World) : list Effect :=
  List.filter is_generate (new_effects w w').

(** The two tier groups of a batch, as [processBatch] forms them. *)
Definition tier_calls (config : Config) (batch : list SessionContext) : list Effect :=
  tier_call (basicModel config)
    (List.filter (fun ctx => negb (is_premium (s_tier (session ctx)))) batch)
  ++ tier_call (premiumModel config)
       (List.filter (fun ctx => is_premium (s_tier (session ctx))) batch).

(** Several [queueSession] calls in a row. *)
Definition queue_all (config : Config) (anthropic : nat -> LlmRequest -> LlmReply)
    (ctxs : list SessionContext) (w : World) : World :=
  List.fold_left (fun w ctx => snd (queueSession config anthropic ctx w)) ctxs w.

Definition pending_entry (ctx : SessionContext) : string * SessionContext :=
  (s_id (session ctx), ctx).

Definition context_ids (ctxs : list SessionContext) : list string :=
  List.map (fun ctx => s_id (session ctx)) ctxs.

(** The scanner's view of a session [s] at the time of a scan of [w]: the
    tasks on file, the outcome [autoFinalize] derives from them, whether the
    session is idle beyond the timeout, the record written back and the
    event published. *)
Definition tasks_on_file (sessionId : string) (w : World) : list TaskCommit :=
  default [] (w_tasks w !! sessionId).

Definition auto_outcome (s : Session) (w : World) : Outcome :=
  if (0 <? List.length (List.filter is_completed (tasks_on_file (s_id s) w)))%nat
  then OutcomeCompleted else OutcomeAbandoned.

Definition idle_beyond_timeout (config : Config) (w : World) (s : Session) : bool :=
  (idleTimeoutMinutes config * 60 * 1000 <? now w - s_updatedAt s)%Z.

Definition auto_finalized (s : Session) (w : World) : Session :=
  finalized s (auto_outcome s w) (now w).

Definition auto_event (config : Config) (s : Session) (w : World) : DevPatternEvent :=
  idle_timeout_event config (auto_finalized s w) (auto_outcome s w) (now w).

Definition auto_effects (config : Config) (w : World) (s : Session) : list Effect :=
  [EUpdateSession (auto_finalized s w); EPublish (auto_event config s w)].

Definition session_ids (l : list Session) : list string := List.map s_id l.

(** The tier and the model [processSession] passes on for an event. *)
Definition event_tier (event : DevPatternEvent) : string :=
  match p_tier (e_payload event) with
  | Some t => Js.or_else t "basic"
  | None => "basic"
  end.

Definition tier_model (config : Config) (tier : string) : string :=
  if String.eqb tier "premium" then premiumModel config else basicModel config.

(** [processSession] finds no document that is up to date. *)
Definition needs_generation (event : DevPatternEvent) (ctx : SessionContext) (w : World)
  : Prop :=
  match w_docs w !! e_sessionId event with
  | Some doc => up_to_date doc ctx = false
  | None => True
  end.

(** *** Staged summarization

    The requests of a staged run over the thoughts [ths]: stage [j]
    (counted from 0) is the slice the loop takes at [i = j * STAGE_SIZE]. *)
Definition stage_count (ths : list ThoughtRecord) : nat :=
  ceil_div (List.length ths) STAGE_SIZE.

Definition stage (ths : list ThoughtRecord) (j : nat) : list ThoughtRecord :=
  slice (j * STAGE_SIZE) (j * STAGE_SIZE + STAGE_SIZE) ths.

Definition stages (ths : list ThoughtRecord) : list (list ThoughtRecord) :=
  List.map (stage ths) (List.seq 0 (stage_count ths)).

Definition stage_request (model : string) (ths : list ThoughtRecord) (j : nat) : LlmRequest :=
  {| rq_model := model;
     rq_max_tokens := 500;
     rq_prompt :=
       StagePrompt (stage ths j) (Z.of_nat j + 1) (Z.of_nat (stage_count ths)) |}.

Definition synthesis_request (model : string) (summaries : list string)
    (ctx : SessionContext) : LlmRequest :=
  {| rq_model := model;
     rq_max_tokens := 3000;
     rq_prompt := SynthesisPrompt summaries (tasks ctx) (session ctx) |}.

(** The text [first_text] extracts from a reply that does not fail. *)
Definition reply_text (reply : LlmReply) : string :=
  match reply with ReplyText text => text | _ => EmptyString end.

(** The replies on which [messages_create] rejects, and the error. *)
Definition reply_fails (reply : LlmReply) : bool :=
  match reply with ReplyError _ | ReplyEmpty => true | _ => false end.

Definition reply_error (reply : LlmReply) : string :=
  match reply with
  | ReplyError message => message
  | _ => "Cannot read properties of undefined (reading 'type')"
  end.

(** The reply to stage [j] when the run starts with [base] requests already
    made, and the summaries of the first [m] stages. *)
Definition stage_reply (anthropic : nat -> LlmRequest -> LlmReply) (model : string)
    (ths : list ThoughtRecord) (base j : nat) : LlmReply :=
  anthropic (base + j) (stage_request model ths j).

Definition stage_summaries (anthropic : nat -> LlmRequest -> LlmReply) (model : string)
    (ths : list ThoughtRecord) (base m : nat) : list string :=
  List.map (fun j => reply_text (stage_reply anthropic model ths base j)) (List.seq 0 m).

Definition synthesis_reply (anthropic : nat -> LlmRequest -> LlmReply) (model : string)
    (ctx : SessionContext) (base : nat) : LlmReply :=
  let k := stage_count (thoughts ctx) in
  anthropic (base + k)
    (synthesis_request model (stage_summaries anthropic model (thoughts ctx) base k) ctx).

Definition stage_calls (model : string) (ths : list ThoughtRecord) (m : nat) : list Effect :=
  List.map (fun j => EGenerate (stage_request model ths j)) (List.seq 0 m).

(** The world after [m] more requests that left [effects] in the trace. *)
Definition after_calls (effects : list Effect) (m : nat) (w : World) : World :=
  set_apiCalls (apiCalls w + m) (set_trace (trace w ++ effects) w).

(** The document a staged run saves. *)
Definition staged_doc (ctx : SessionContext) (content : string) (generatedAt : Z)
  : DocumentationEntry :=
  summarizer_doc ctx content generatedAt
    ("Large session with " ++ Js.of_nat (List.length (thoughts ctx)) ++ " thoughts")%string.

(** *** Retries

    The effects of the retry machinery, and the steps that leave the retry
    queue, the dead-letter list and the clock alone. *)
Definition is_bookkeeping (e : Effect) : bool :=
  match e with
  | EZadd _ _ | EZrem _ | ELpush _ => true
  | _ => false
  end.

Definition is_zadd (e : Effect) : bool :=
  match e with EZadd _ _ => true | _ => false end.

Definition is_lpush (e : Effect) : bool :=
  match e with ELpush _ => true | _ => false end.

Definition processing_only : relation World :=
  fun w w' =>
    retry_queue w' = retry_queue w
    /\ dead_letter w' = dead_letter w
    /\ now w' = now w
    /\ exists new,
         trace w' = trace w ++ new
         /\ List.forallb (fun e => negb (is_bookkeeping e)) new = true.

(** Two worlds with the same store and the same worker objects: they may
    differ in the retry queue, the dead-letter list, the clock and the
    trace. *)
Definition same_store (w w' : World) : Prop :=
  w_sessions w' = w_sessions w
  /\ w_thoughts w' = w_thoughts w
  /\ w_tasks w' = w_tasks w
  /\ w_docs w' = w_docs w
  /\ pendingQueue w' = pendingQueue w
  /\ batchTimer w' = batchTimer w
  /\ processedCount w' = processedCount w
  /\ apiCalls w' = apiCalls w.

(** The back-off before delivery number [k] (the [k]-th retry), as the
    retry scheduler is specified: entry [k-1] of the table, the last entry
    beyond the table. *)
Definition backoff (config : Config) (k : nat) : Z :=
  List.nth (k - 1) (retryDelays config) (List.last (retryDelays config) 0%Z).

(** The due time of the [k]-th retry of an event first handled at [t0],
    when every retry is delivered at its due time. *)
Fixpoint due (config : Config) (t0 : Z) (k : nat) : Z :=
  match k with
  | O => t0
  | S k' => (due config t0 k' + backoff config k)%Z
  end.

(** The event as it is delivered the [k]-th time after the first. *)
Definition redelivered (event : DevPatternEvent) (k : nat) : DevPatternEvent :=
  match k with
  | O => event
  | S _ => with_retryCount event (Z.of_nat k)
  end.

(** The environment of the retry processor: the clock reaches the due time
    of the head of the retry queue and the interval callback runs. *)
Definition advance_to (t : Z) (w : World) : World := set_now (Z.max (now w) t) w.

Fixpoint redeliver (config : Config) (anthropic : nat -> LlmRequest -> LlmReply)
    (rounds : nat) (w : World) : World :=
  match rounds with
  | O => w
  | S rounds' =>
      match retry_queue w with
      | [] => w
      | (t, _) :: _ =>
          redeliver config anthropic rounds'
            (snd (retryProcessorTick config anthropic (advance_to t w)))
      end
  end.

(** The number of retries the configuration allows, and the dead-letter
    entry of an event that has used them all. *)
Definition retry_budget (config : Config) : nat := Z.to_nat (maxRetries config).

Definition dead_entry (config : Config) (event : DevPatternEvent) (k : nat)
    (error : string) (failedAt : Z) : DeadLetterEntry :=
  {| dl_event := redelivered event k;
     dl_error := error;
     dl_failedAt := failedAt;
     dl_retryCount := maxRetries config |}.

Definition retry_effect (config : Config) (event : DevPatternEvent) (t0 : Z) (k : nat)
  : Effect :=
  EZadd (due config t0 k) (redelivered event k).

(** *** The response protocol

    A block as the batch prompt asks for it: the start marker, a space, the
    session id, ["==="], the body, the end marker. *)
Definition session_block (id body : string) : string :=
  SESSION_START +:+ " " +:+ id +:+ "===" +:+ body +:+ SESSION_END.

Fixpoint no_space (s : string) : bool :=
  match s with
  | EmptyString => true
  | String c s' => negb (Js.is_space c) && no_space s'
  end.

(** The body starts on a new line (or after other white space) and its
    first visible character is not an equals sign. *)
Definition body_starts_clean (body : string) : Prop :=
  (exists c body', body = String c body' /\ Js.is_space c = true)
  /\ (exists c t, Js.skip_space body = String c t /\ c <> "="%char).

(** The ids of the sessions of a batch, and of the documents saved between
    two worlds. *)
Definition saved_ids (effects : list Effect) : list string :=
  List.flat_map (fun e => match e with
                          | ESaveDocumentation doc => [d_sessionId doc]
                          | _ => []
                          end) effects.


(** Between two worlds the saved documents are those of sessions in [ids],
    and the stored documents of other sessions are as before. *)
Definition saves_within (ids : list string) : relation World :=
  fun w w' =>
    (exists new,
       trace w' = trace w ++ new
       /\ forall k, In k (saved_ids new) -> In k ids)
    /\ forall k, ~ In k ids -> w_docs w' !! k = w_docs w !! k.

(** Staleness as the data model words it: the document was generated before
    the session's last update, or a count differs. *)
Definition stale_as_specified (doc : DocumentationEntry) (ctx : SessionContext) : Prop :=
  (d_generatedAt doc < s_updatedAt (session ctx))%Z
  \/ d_thoughtCount doc <> Z.of_nat (List.length (thoughts ctx))
  \/ d_taskCount doc <> Z.of_nat (List.length (tasks ctx)).

(** Staleness as [processSession] tests it: the document is not strictly
    newer than the session's last update, or a count differs. *)
Definition stale (doc : DocumentationEntry) (ctx : SessionContext) : Prop :=
  (d_generatedAt doc <= s_updatedAt (session ctx))%Z
  \/ d_thoughtCount doc <> Z.of_nat (List.length (thoughts ctx))
  \/ d_taskCount doc <> Z.of_nat (List.length (tasks ctx)).

(** ** Fixtures

    Small worlds in the style of the repository's tests. *)

Definition nl : string := String (ascii_of_nat 10) EmptyString.

(** The response of the test "should parse batch response correctly". *)
Definition mockResponse : string :=
  (nl ++ "===SESSION_START: test-session-1===" ++ nl ++
   "## Executive Summary" ++ nl ++ "This session implemented user authentication." ++ nl ++ nl ++
   "## Problem Statement" ++ nl ++ "Need to add login functionality." ++ nl ++ nl ++
   "## Approach" ++ nl ++ "Used JWT tokens for authentication." ++ nl ++ nl ++
   "## Outcome" ++ nl ++ "Successfully implemented login." ++ nl ++ nl ++
   "## Key Insights" ++ nl ++ "Consider adding refresh tokens." ++ nl ++ nl ++
   "## Tags" ++ nl ++ "authentication, jwt, login" ++ nl ++
   "===SESSION_END===" ++ nl)%string.

Definition fx_session (id : string) (updatedAt : Z) (status : SessionStatus)
    (tier : option string) : Session :=
  {| s_id := id; s_createdAt := 0; s_updatedAt := updatedAt; s_status := status;
     s_outcome := None; s_thoughtCount := 0; s_taskCount := 0; s_tenantId := None;
     s_tier := tier; s_agentSummary := None; s_autoFinalized := None |}.

Definition fx_thought (id : string) (n : nat) : ThoughtRecord :=
  {| th_sessionId := id; th_thought := "thought"; th_thoughtNumber := Z.of_nat n;
     th_totalThoughts := 0; th_branchId := None; th_isRevision := None;
     th_revisesThought := None; th_timestamp := 0 |}.

Definition fx_thoughts (id : string) (n : nat) : list ThoughtRecord :=
  List.map (fx_thought id) (List.seq 1 n).

Definition fx_task (id : string) (status : TaskStatus) : TaskCommit :=
  {| tk_sessionId := id; tk_taskId := "task-1"; tk_taskTitle := "Add login";
     tk_description := None; tk_completedAtThought := 3; tk_status := status;
     tk_createdAt := 0; tk_completedAt := None |}.

Definition fx_doc (id : string) (generatedAt thoughtCount taskCount : Z)
  : DocumentationEntry :=
  {| d_sessionId := id; d_generatedAt := generatedAt; d_summary := "summary";
     d_thoughtCount := thoughtCount; d_taskCount := taskCount; d_branches := [];
     d_content := "content"; d_executiveSummary := None; d_problemStatement := None;
     d_approach := None; d_outcome := None; d_keyInsights := None; d_tags := None |}.

Definition fx_context (id : string) (thoughtCount : nat) (tier : option string)
  : SessionContext :=
  {| session := fx_session id 1000 StatusFinalized tier;
     thoughts := fx_thoughts id thoughtCount;
     tasks := [] |}.

Definition fx_event (id : string) (retryCount : option Z) : DevPatternEvent :=
  {| e_type := SessionFinalized; e_sessionId := id; e_tenantId := None;
     e_timestamp := 0;
     e_payload :=
       {| p_outcome := None; p_agentSummary := None; p_thoughtCount := None;
          p_taskCount := None; p_tier := None; p_retryCount := retryCount;
          p_idleMinutes := None |} |}.

Definition fx_world (sessions : list Session)
    (ths : gmap string (list ThoughtRecord)) (tks : gmap string (list TaskCommit))
    (docs : gmap string DocumentationEntry) (time : Z) : World :=
  {| w_sessions := sessions; w_thoughts := ths; w_tasks := tks; w_docs := docs;
     pendingQueue := []; batchTimer := false; retry_queue := []; dead_letter := [];
     processedCount := 0; apiCalls := 0; now := time; trace := [] |}.

Definition fx_pending (queue : JsMap.t SessionContext) : World :=
  {| w_sessions := []; w_thoughts := ∅; w_tasks := ∅; w_docs := ∅;
     pendingQueue := queue; batchTimer := true; retry_queue := []; dead_letter := [];
     processedCount := 0; apiCalls := 0; now := 5000; trace := [] |}.

(** Oracles: a client that always answers, one that always rejects, one
    that rejects its [k]-th request only. *)
Definition answers (text : string) : nat -> LlmRequest -> LlmReply :=
  fun _ _ => ReplyText text.
Definition rejects : nat -> LlmRequest -> LlmReply :=
  fun _ _ => ReplyError "overloaded".
Definition rejects_at (k : nat) : nat -> LlmRequest -> LlmReply :=
  fun n _ => if (n =? k)%nat then ReplyError "overloaded" else ReplyText "stage summary".

(** A session whose document was generated at the very instant of its last
    update, and one whose document is a second younger. *)
Definition fx_tie : World :=
  fx_world [fx_session "s1" 1000 StatusFinalized None] ∅ ∅
    {[ "s1" := fx_doc "s1" 1000 0 0 ]} 5000.
Definition fx_fresh : World :=
  fx_world [fx_session "s1" 1000 StatusFinalized None] ∅ ∅
    {[ "s1" := fx_doc "s1" 2000 0 0 ]} 5000.

Definition config_with_batchSize (n : Z) : Config :=
  loadConfig "claude-3-5-haiku-20241022" "claude-3-5-sonnet-20241022" 10 n 30 3.

(** A pending map with three sessions, for a batch size of two. *)
Definition fx_three_pending : World :=
  fx_pending [("a", fx_context "a" 1 None); ("b", fx_context "b" 1 (Some "premium"));
              ("c", fx_context "c" 1 None)].

Definition fx_two_pending : World :=
  fx_pending [("a", fx_context "a" 1 None); ("b", fx_context "b" 1 (Some "premium"))].

(** A store for the scanner: at 20:00 (in minutes after midnight, as
    milliseconds), ["idle-done"] was last touched at 19:00 and has a
    completed task, ["idle-open"] was last touched at 19:00 and has only a
    pending task, ["busy"] was touched five minutes ago. *)
Definition fx_scanner : World :=
  fx_world
    [fx_session "idle-done" (1140 * 60000) StatusActive None;
     fx_session "idle-open" (1140 * 60000) StatusActive (Some "premium");
     fx_session "busy" (1195 * 60000) StatusActive None]
    ∅
    {[ "idle-done" := [fx_task "idle-done" TaskPending; fx_task "idle-done" TaskCompleted];
       "idle-open" := [fx_task "idle-open" TaskPending] ]}
    ∅ (1200 * 60000).

(** A session of 45 thoughts, in a store without documents. *)
Definition fx_big : SessionContext := fx_context "big" 45 None.

Definition fx_big_world : World :=
  fx_world [session fx_big] {[ "big" := thoughts fx_big ]} ∅ ∅ 5000.

(** A finalize event for a session that is not in the (empty) store. *)
Definition fx_ghost : DevPatternEvent := fx_event "ghost" None.

Definition fx_empty_store : World := fx_world [] ∅ ∅ ∅ 5000.

Definition no_sessions (w : World) : Prop := w_sessions w = [].

(** Two blocks, for the sessions ["a"] and ["b"], one per line, whose
    bodies contain no white space; and one block whose body opens with a
    line of equals signs. *)
Definition fx_two_blocks : string :=
  "===SESSION_START: a===x===SESSION_END===" +:+ nl +:+
  "===SESSION_START: b===y===SESSION_END===".

Definition fx_ruled_block : string :=
  "===SESSION_START: s1===" +:+ nl +:+ "=== Summary ===" +:+ nl +:+
  "## Executive Summary" +:+ nl +:+ "Done." +:+ nl +:+ "===SESSION_END===".

(** The same two blocks with the line breaks the prompt's template has. *)
Definition fx_two_blocks_spaced : string :=
  "===SESSION_START: a===" +:+ nl +:+ "x" +:+ nl +:+ "===SESSION_END===" +:+ nl +:+
  "===SESSION_START: b===" +:+ nl +:+ "y" +:+ nl +:+ "===SESSION_END===".


(** ** Further notions

    The notions of the properties of the third part: what the parsers
    return on well-written texts, what the worker as a whole keeps, and
    two pieces of the sources that the definitions above leave out, the
    content hash of the store and the reading of the environment. *)

(** *** Clean tags, sections and rendered replies

    The notions of the properties of [extractTags], [extractSection] and
    [parseBatchResponse] on texts that are written the way the prompts ask
    for. *)

(** [s] contains the character [c]. *)
Fixpoint has_char (c : ascii) (s : string) : bool :=
  match s with
  | EmptyString => false
  | String x s' => Ascii.eqb x c || has_char c s'
  end.

(** A tag as a reader of the document expects it: not empty, without a
    comma, without white space at either end. *)
Definition clean_tag (t : string) : Prop :=
  t <> "" /\ has_char "," t = false /\ Js.trim t = t.

(** [lit] occurs in [s]. *)
Definition occurs_in (lit s : string) : Prop := exists pre suf, s = pre +:+ lit +:+ suf.

(** [lit] begins nowhere in [s]: no suffix of [s] starts with [lit], and no
    suffix of [s] shorter than [lit] is the beginning of [lit] (compared as
    the [i] flag does). *)
Fixpoint begins_nowhere (lit s : string) : bool :=
  match s with
  | EmptyString => true
  | String _ s' =>
      negb (Js.starts_with_ci (Js.take (String.length s) lit) s) && begins_nowhere lit s'
  end.

(** Two names that the [i] flag does not tell apart. *)
Definition same_name (a b : string) : Prop :=
  List.map Js.canonicalize (list_ascii_of_string a)
  = List.map Js.canonicalize (list_ascii_of_string b).

(** The syntax characters of a regular expression. *)
Definition is_syntax_character (c : ascii) : bool :=
  List.existsb (Ascii.eqb c) (list_ascii_of_string "^$\.*+?()[]{}|").

(** A section name that, spliced into the pattern of [extractSection],
    stands for itself: it has no syntax character.  The callers pass six
    such names. *)
Fixpoint literal_name (name : string) : bool :=
  match name with
  | EmptyString => true
  | String c name' => negb (is_syntax_character c) && literal_name name'
  end.

(** The header of the section occurs nowhere in the content, in whatever
    letter case. *)
Definition header_absent (name content : string) : Prop :=
  forall before matched rest,
    content = before +:+ matched +:+ rest -> ~ same_name (HEADER_MARK +:+ name) matched.

(** A section written out: the header mark, the name, then the text, which
    begins with the white space that ends the header line. *)
Definition render_section (sec : string * string) : string :=
  HEADER_MARK +:+ fst sec +:+ snd sec.

(** A document made of sections. *)
Definition render_sections (secs : list (string * string)) : string :=
  List.fold_right (fun sec acc => render_section sec +:+ acc) "" secs.

(** A section that the header [## name] does not match. *)
Definition other_section (name : string) (sec : string * string) : Prop :=
  has_char "#" (fst sec) = false
  /\ has_char "#" (snd sec) = false
  /\ forall rest, Js.starts_with_ci name (fst sec +:+ snd sec +:+ rest) = false.

(** A block of a batch reply: the text that precedes it, the session id
    and the body between the two markers. *)
Record ReplyBlock := {
  rb_lead : string;
  rb_id : string;
  rb_body : string
}.

(** The reply made of the blocks, followed by [tail]. *)
Definition render_reply (blocks : list ReplyBlock) (tail : string) : string :=
  List.fold_right
    (fun b acc => rb_lead b +:+ session_block (rb_id b) (rb_body b) +:+ acc) tail blocks.

(** A block that the pattern of [parseBatchResponse] reads as it was
    written: no start marker begins in the text before it, its id is a
    non-empty run without white space, its body starts on a new line (with a
    character other than the equals sign after the white space) and no end
    marker begins in it. *)
Definition clean_block (b : ReplyBlock) : Prop :=
  begins_nowhere SESSION_START (rb_lead b) = true
  /\ rb_id b <> ""
  /\ no_space (rb_id b) = true
  /\ body_starts_clean (rb_body b)
  /\ begins_nowhere SESSION_END (rb_body b) = true.

(** The [Map] that results from one [set] per block, in the order of the
    blocks. *)
Definition parsed_blocks (blocks : list ReplyBlock) : JsMap.t ParsedBatchDoc :=
  List.fold_left
    (fun docs b => JsMap.set (rb_id b) (parsed_block (rb_id b) (Js.trim (rb_body b))) docs)
    blocks JsMap.empty.

(** *** Well-formed documents, and what the worker keeps *)

(** A section field of a document: present, trimmed and without a header
    mark. *)
Definition clean_section (x : option string) : Prop :=
  exists text, x = Some text /\ Js.trim text = text /\ ~ occurs_in HEADER_MARK text.

(** A document as the two summarizers and the batch processor build it. *)
Definition well_formed_doc (doc : DocumentationEntry) : Prop :=
  d_summary doc <> ""
  /\ (0 <= d_thoughtCount doc)%Z
  /\ (0 <= d_taskCount doc)%Z
  /\ NoDup (d_branches doc)
  /\ Forall (fun b => b <> "") (d_branches doc)
  /\ clean_section (d_executiveSummary doc)
  /\ clean_section (d_problemStatement doc)
  /\ clean_section (d_approach doc)
  /\ clean_section (d_outcome doc)
  /\ clean_section (d_keyInsights doc)
  /\ exists tags, d_tags doc = Some tags /\ Forall clean_tag tags.

(** A [saveDocumentation] carries a well-formed document. *)
Definition saved_ok (e : Effect) : Prop :=
  match e with
  | ESaveDocumentation doc => well_formed_doc doc
  | _ => True
  end.

(** Every stored document is filed under its own session id and is well
    formed. *)
Definition docs_ok (w : World) : Prop :=
  forall k doc, w_docs w !! k = Some doc -> d_sessionId doc = k /\ well_formed_doc doc.

(** An effect of processing: no Redis command, and only well-formed
    documents are saved. *)
Definition processing_effect (e : Effect) : Prop :=
  is_bookkeeping e = false /\ saved_ok e.

(** What [processSession] and the batch processor may do: they leave the
    sessions, the Redis structures, the counter of the worker and the clock
    alone and never remove a document. *)
Definition processing (w w' : World) : Prop :=
  w_sessions w' = w_sessions w
  /\ w_thoughts w' = w_thoughts w
  /\ w_tasks w' = w_tasks w
  /\ processedCount w' = processedCount w
  /\ retry_queue w' = retry_queue w
  /\ dead_letter w' = dead_letter w
  /\ now w' = now w
  /\ (forall k, w_docs w !! k <> None -> w_docs w' !! k <> None)
  /\ (docs_ok w -> docs_ok w')
  /\ exists new, trace w' = trace w ++ new /\ Forall processing_effect new.

(** What an operation of the worker may do on top of that: count a
    processed event and add to the dead-letter list. *)
Definition handling (w w' : World) : Prop :=
  w_sessions w' = w_sessions w
  /\ w_thoughts w' = w_thoughts w
  /\ w_tasks w' = w_tasks w
  /\ now w' = now w
  /\ processedCount w <= processedCount w'
  /\ (exists added, dead_letter w' = added ++ dead_letter w)
  /\ (forall k, w_docs w !! k <> None -> w_docs w' !! k <> None)
  /\ (docs_ok w -> docs_ok w')
  /\ exists new, trace w' = trace w ++ new /\ Forall saved_ok new.

(** [m] never runs out of fuel. *)
Definition returns {A} (m : M A) : Prop := forall w, fst (m w) <> OutOfFuel.

(** An entry of the map of [parseBatchResponse]. *)
Definition is_parsed_block (p : ParsedBatchDoc) : Prop :=
  exists id content, p = parsed_block id content.

(** The operations of the worker that something outside starts: an event
    arrives, the retry timer ticks, someone flushes the accumulator, the
    window timer fires, the process shuts down. *)
Definition worker_operations (config : Config) (anthropic : nat -> LlmRequest -> LlmReply)
    (event : DevPatternEvent) : list (M unit) :=
  [handleEvent config anthropic event;
   retryProcessorTick config anthropic;
   flush config anthropic;
   batchTimerFires config anthropic;
   shutdown config anthropic].

(** *** The discipline of the batch accumulator *)

(** A session that [processSession] hands to the batch accumulator. *)
Definition small_context (ctx : SessionContext) : Prop :=
  List.length (thoughts ctx) <= 20.

(** Every pending session is small. *)
Definition small_pending (q : JsMap.t SessionContext) : Prop :=
  Forall (fun kv => small_context (snd kv)) q.

(** The invariant of the batch accumulator. *)
Definition queue_ok (config : Config) (w : World) : Prop :=
  pending_wf (pendingQueue w)
  /\ (Z.of_nat (JsMap.size (pendingQueue w)) < batchSize config)%Z
  /\ (batchTimer w = true <-> pendingQueue w <> [])
  /\ small_pending (pendingQueue w).

(** The shape of the requests the worker sends: the model is one of the
    two configured ones, and the prompt and the token limit belong together. *)
Definition bounded_request (config : Config) (rq : LlmRequest) : Prop :=
  (rq_model rq = basicModel config \/ rq_model rq = premiumModel config)
  /\ match rq_prompt rq with
     | BatchPrompt sessions =>
         rq_max_tokens rq = 4000%Z
         /\ 1 <= List.length sessions
         /\ (Z.of_nat (List.length sessions) <= batchSize config)%Z
         /\ Forall small_context sessions
     | StagePrompt chunk stageNumber totalStages =>
         rq_max_tokens rq = 500%Z
         /\ 1 <= List.length chunk <= STAGE_SIZE
         /\ (1 <= stageNumber <= totalStages)%Z
     | SynthesisPrompt stageSummaries _ _ =>
         rq_max_tokens rq = 3000%Z /\ 2 <= List.length stageSummaries
     | SingleSessionPrompt _ => False
     end.

(** Every request among the effects is bounded. *)
Definition bounded_effect (config : Config) (e : Effect) : Prop :=
  match e with
  | EGenerate rq => bounded_request config rq
  | _ => True
  end.

(** From a state that satisfies the invariant an operation leads to one
    that satisfies it, and sends bounded requests only. *)
Definition disciplined (config : Config) : relation World :=
  fun w w' =>
    queue_ok config w ->
    queue_ok config w'
    /\ exists new, trace w' = trace w ++ new /\ Forall (bounded_effect config) new.

(** *** The result of a scan *)

(** The sessions a scan of [w] finalizes, and what it writes for a
    session. *)
Definition scan_finalizes (config : Config) (w : World) (s : Session) : bool :=
  is_listed s && idle_beyond_timeout config w s.

(** The record of [s] after the scan. *)
Definition scanned (config : Config) (w : World) (s : Session) : Session :=
  if scan_finalizes config w s then auto_finalized s w else s.

(** The world after a scan of [w]: the finalized records are written back
    and each write is followed by its published event. *)
Definition after_scan (config : Config) (w : World) : World :=
  set_trace
    (trace w ++ List.flat_map (auto_effects config w)
                  (List.filter (scan_finalizes config w) (w_sessions w)))
    (set_sessions (List.map (scanned config w) (w_sessions w)) w).

(** No stored document is stamped later than the clock. *)
Definition not_from_the_future (w : World) : Prop :=
  forall k doc, w_docs w !! k = Some doc -> (d_generatedAt doc <= now w)%Z.

(** The sessions after the loop has run over [xs]: those of [xs] that are
    idle beyond the timeout are replaced. *)
Definition scanned_among (w0 : World) (idle : list Session) (y : Session) : Session :=
  if List.existsb (fun x => String.eqb (s_id x) (s_id y)) idle
  then auto_finalized y w0 else y.

(** *** Generated documents *)

(** A document generated for the context [ctx] at the time [t]. *)
Definition generated_for (ctx : SessionContext) (t : Z) (doc : DocumentationEntry) : Prop :=
  d_sessionId doc = s_id (session ctx)
  /\ d_generatedAt doc = t
  /\ d_thoughtCount doc = Z.of_nat (List.length (thoughts ctx))
  /\ d_taskCount doc = Z.of_nat (List.length (tasks ctx))
  /\ d_branches doc = branches_of (thoughts ctx)
  /\ well_formed_doc doc.

(** The session has its [session.json], so its directory exists. *)
Definition session_on_file (sessionId : string) (w : World) : Prop :=
  List.find (fun s => String.eqb (s_id s) sessionId) (w_sessions w) <> None.

(** What a call of [stagedSummarization] or [singlePassSummarization] leaves
    behind. *)
Definition generation_outcome (ctx : SessionContext) (requests : nat)
    (w : World) (run : Result DocumentationEntry * World) : Prop :=
  let w' := snd run in
  w_sessions w' = w_sessions w
  /\ w_thoughts w' = w_thoughts w
  /\ w_tasks w' = w_tasks w
  /\ now w' = now w
  /\ 1 <= List.length (List.filter is_generate (new_effects w w')) <= requests
  /\ ((exists doc,
         fst run = Ok doc
         /\ generated_for ctx (now w) doc
         /\ w_docs w' = <[s_id (session ctx) := doc]> (w_docs w)
         /\ List.filter is_save (new_effects w w') = [ESaveDocumentation doc]
         /\ List.length (List.filter is_generate (new_effects w w')) = requests)
      \/ (exists error,
            fst run = Throw error
            /\ w_docs w' = w_docs w
            /\ List.filter is_save (new_effects w w') = [])).

(** *** The retry processor *)

Local Open Scope Z_scope.

(** An entry of the retry queue that [zrangebyscore 0 now] returns. *)
Definition is_due (t : Z) (x : Z * DevPatternEvent) : bool :=
  (0 <=? fst x) && (fst x <=? t).

(** The events [retryProcessorTick] takes off the queue of [w]. *)
Definition due_events (w : World) : list DevPatternEvent :=
  List.map snd (List.filter (is_due (now w)) (retry_queue w)).

(** The events the worker has settled for now: processed, parked for a retry
    or given up. *)
Definition settled (w : World) : nat :=
  (processedCount w + List.length (dead_letter w)
   + List.length (List.filter is_zadd (trace w)))%nat.

(** The clock stands still, and every entry of the retry queue of [w'] is
    an entry of the queue of [w] or was scheduled at that time, one back-off
    delay ahead. *)
Definition retries_ahead (config : Config) (w w' : World) : Prop :=
  now w' = now w
  /\ forall x, In x (retry_queue w') ->
       In x (retry_queue w)
       \/ exists delay, In delay (retryDelays config) /\ fst x = now w + delay.

Local Close Scope Z_scope.

(** *** The blocks of a reply *)

(** The last block of a reply that carries the id. *)
Definition last_block (id : string) (blocks : list ReplyBlock) : option ReplyBlock :=
  List.find (fun b => String.eqb (rb_id b) id) (List.rev blocks).


(** The document [processTierBatch] files at the time [t] for the session
    of [ctx] from a block with this body, field by field: the summary is the
    executive summary of the body, or a line that counts the thoughts when
    the body has none. *)
Definition document_of_body (ctx : SessionContext) (body : string) (t : Z)
    (doc : DocumentationEntry) : Prop :=
  let content := Js.trim body in
  let executiveSummary := extractSection content "Executive Summary" in
  d_sessionId doc = s_id (session ctx)
  /\ d_generatedAt doc = t
  /\ (executiveSummary <> "" -> d_summary doc = executiveSummary)
  /\ (executiveSummary = "" ->
      d_summary doc
      = ("Session with " ++ Js.of_nat (List.length (thoughts ctx)) ++ " thoughts")%string)
  /\ d_thoughtCount doc = Z.of_nat (List.length (thoughts ctx))
  /\ d_taskCount doc = Z.of_nat (List.length (tasks ctx))
  /\ NoDup (d_branches doc)
  /\ (forall b, In b (d_branches doc)
                <-> b <> "" /\ exists t, In t (thoughts ctx) /\ th_branchId t = Some b)
  /\ d_content doc = content
  /\ d_executiveSummary doc = Some executiveSummary
  /\ d_problemStatement doc = Some (extractSection content "Problem Statement")
  /\ d_approach doc = Some (extractSection content "Approach")
  /\ d_outcome doc = Some (extractSection content "Outcome")
  /\ d_keyInsights doc = Some (extractSection content "Key Insights")
  /\ d_tags doc = Some (extractTags content).

(** ** storage.ts: the content hash *)

Local Open Scope Z_scope.

(** [ToInt32]: the integer taken modulo [2^32] into [[-2^31, 2^31)]. *)
Definition to_int32 (x : Z) : Z := (x + 2 ^ 31) mod 2 ^ 32 - 2 ^ 31.

(** [n.toString(16)] for an integer [n]. *)
Definition to_string_16 (n : Z) : string :=
  HexadecimalString.NilZero.string_of_int (Z.to_hex_int n).

(** One round of the loop of [getContentHash]:
    [hash = ((hash << 5) - hash) + char; hash = hash & hash].  The shift
    wraps to 32 bits, the subtraction and the addition are exact, and
    [hash & hash] wraps again. *)
Definition hash_step (hash char : Z) : Z :=
  let hash := to_int32 (hash * 32) - hash + char in
  to_int32 hash.

(** The loop over the UTF-16 code units of [content]. *)
Definition content_hash (content : list Z) : Z :=
  List.fold_left hash_step content 0.

(** [getContentHash]; [stringify thoughts tasks] stands for the code units of
    [JSON.stringify({ thoughts, tasks })]. *)
Definition getContentHash (stringify : list ThoughtRecord -> list TaskCommit -> list Z)
    (sessionId : string) : M string :=
  let* thoughts := getThoughts sessionId in
  let* tasks := getTasks sessionId in
  let content := stringify thoughts tasks in
  ret (to_string_16 (content_hash content)).

(** The value of [content] as a number written in base 31. *)
Definition base_31 (content : list Z) : Z :=
  List.fold_left (fun acc char => 31 * acc + char) content 0.

Local Close Scope Z_scope.

(** ** config.ts: reading the environment *)

Local Open Scope Z_scope.

(** [process.env]. *)
Definition Env := gmap string string.

(** A decimal digit, and its value. *)
Definition is_digit (c : ascii) : bool :=
  let n := nat_of_ascii c in ((48 <=? n) && (n <=? 57))%nat.

Definition digit_value (c : ascii) : Z := Z.of_nat (nat_of_ascii c - 48).

(** The value of the longest prefix of decimal digits of [s], continuing
    from [acc]; [seen] tells whether a digit was read already.  Without any
    digit there is no number. *)
Fixpoint parse_digits (s : string) (acc : Z) (seen : bool) : option Z :=
  match s with
  | String c s' =>
      if is_digit c then parse_digits s' (10 * acc + digit_value c) true
      else if seen then Some acc else None
  | EmptyString => if seen then Some acc else None
  end.

(** [parseInt(s, 10)]: leading white space (the characters of [trim]), an
    optional sign, then the longest run of digits; [None] is [NaN].  The result is the mathematical
    value, which is the number JavaScript returns up to [2^53] (beyond, it
    rounds to a double). *)
Definition parseInt (s : string) : option Z :=
  match Js.skip_space s with
  | String c s' =>
      if Ascii.eqb c "-" then option_map Z.opp (parse_digits s' 0 false)
      else if Ascii.eqb c "+" then parse_digits s' 0 false
      else parse_digits (String c s') 0 false
  | EmptyString => None
  end.

(** [process.env[key]] is [undefined] for a variable that is not set; the
    empty string is falsy as well. *)
Definition getEnvOrThrow (env : Env) (key : string) : Result string :=
  match env !! key with
  | Some value =>
      if Js.truthy value then Ok value
      else Throw ("Required environment variable " ++ key ++ " is not set")%string
  | None => Throw ("Required environment variable " ++ key ++ " is not set")%string
  end.

(** [process.env[key] || defaultValue]. *)
Definition getEnvOrDefault (env : Env) (key defaultValue : string) : string :=
  match env !! key with
  | Some value => Js.or_else value defaultValue
  | None => defaultValue
  end.

(** [parseInt] of a non-empty value; the default replaces [NaN] only, so
    [0] and negative numbers are returned as they are. *)
Definition getEnvIntOrDefault (env : Env) (key : string) (defaultValue : Z) : Z :=
  match env !! key with
  | Some value =>
      if Js.truthy value
      then match parseInt value with
           | Some parsed => parsed
           | None => defaultValue
           end
      else defaultValue
  | None => defaultValue
  end.

(** [loadConfig()] on the environment [env]: the only field that can throw
    is [anthropicApiKey]. *)
Definition loadConfigFrom (env : Env) : Result Config :=
  match getEnvOrThrow env "ANTHROPIC_API_KEY" with
  | Ok _ =>
      Ok (loadConfig
            (getEnvOrDefault env "BASIC_MODEL" "claude-3-5-haiku-20241022")
            (getEnvOrDefault env "PREMIUM_MODEL" "claude-3-5-sonnet-20241022")
            (getEnvIntOrDefault env "IDLE_TIMEOUT_MINUTES" 10)
            (getEnvIntOrDefault env "BATCH_SIZE" 5)
            (getEnvIntOrDefault env "BATCH_WINDOW_SECONDS" 30)
            (getEnvIntOrDefault env "MAX_RETRIES" 3))
  | Throw error => Throw error
  | OutOfFuel => OutOfFuel
  end.

(** The decimal rendering of an integer, [String(z)]. *)
Definition decimal (z : Z) : string := NilZero.string_of_int (Z.to_int z).

(** What follows a number must not continue it. *)
Definition starts_with_digit (s : string) : bool :=
  match s with String c _ => is_digit c | EmptyString => false end.

(** A variable that is not set, or set to the empty string. *)
Definition unset (env : Env) (key : string) : Prop :=
  env !! key = None \/ env !! key = Some ""%string.

(** The number a [Decimal.uint] stands for, read digit by digit from [acc]
    on, the way [parse_digits] reads its rendering. *)
Fixpoint digits_value (d : Decimal.uint) (acc : Z) : Z :=
  match d with
  | Decimal.Nil => acc
  | Decimal.D0 l => digits_value l (10 * acc + 0)
  | Decimal.D1 l => digits_value l (10 * acc + 1)
  | Decimal.D2 l => digits_value l (10 * acc + 2)
  | Decimal.D3 l => digits_value l (10 * acc + 3)
  | Decimal.D4 l => digits_value l (10 * acc + 4)
  | Decimal.D5 l => digits_value l (10 * acc + 5)
  | Decimal.D6 l => digits_value l (10 * acc + 6)
  | Decimal.D7 l => digits_value l (10 * acc + 7)
  | Decimal.D8 l => digits_value l (10 * acc + 8)
  | Decimal.D9 l => digits_value l (10 * acc + 9)
  end.

Local Close Scope Z_scope.

(** ** More fixtures *)

(** A document of three sections, the second under an upper-case name. *)
Definition fx_sections_before : list (string * string) :=
  [("Summary", nl +:+ "All good." +:+ nl)].

Definition fx_sections_after : list (string * string) :=
  [("Tags", nl +:+ "a, b")].

(** A reply of three blocks with a line of text before the first; the third
    block is a second one for the first session. *)
Definition fx_blocks : list ReplyBlock :=
  [ {| rb_lead := "Here you go:" +:+ nl; rb_id := "s1";
       rb_body := nl +:+ "## Executive Summary" +:+ nl +:+ "One." +:+ nl |};
    {| rb_lead := nl; rb_id := "s2";
       rb_body := nl +:+ "## Executive Summary" +:+ nl +:+ "Two." +:+ nl |};
    {| rb_lead := nl; rb_id := "s1";
       rb_body := nl +:+ "## Executive Summary" +:+ nl +:+ "Again." +:+ nl |} ].

(** A store with the two sessions of [fx_blocks], and their contexts. *)
Definition fx_pair : list SessionContext :=
  [fx_context "s1" 1 None; fx_context "s2" 1 None].

Definition fx_pair_world : World :=
  fx_world (List.map session fx_pair) ∅ ∅ ∅ 5000.

(** A store with one retry that is due and one that is not. *)
Definition fx_retries : World :=
  {| w_sessions := []; w_thoughts := ∅; w_tasks := ∅; w_docs := ∅;
     pendingQueue := []; batchTimer := false;
     retry_queue := [(4000%Z, fx_event "ghost" (Some 1%Z)); (9000%Z, fx_event "late" (Some 1%Z))];
     dead_letter := []; processedCount := 0; apiCalls := 0; now := 5000; trace := [] |}.

(** An environment that sets the batch size to zero, with a unit. *)
Definition fx_env : Env := {[ "BATCH_SIZE" := " 0px" ]}.

(** An environment that sets the batch size to zero. *)
Definition fx_env_zero : Env :=
  {[ "ANTHROPIC_API_KEY" := "sk-test"; "BATCH_SIZE" := "0" ]}.

(** A store with one small session on file. *)
Definition fx_small_store : World :=
  fx_world [session (fx_context "a" 1 None)] {[ "a" := thoughts (fx_context "a" 1 None) ]}
    ∅ ∅ 5000.

(* ===================================================================== *)
(** * Part II: properties *)
(* ===================================================================== *)

(** ** Frame reasoning in the promise monad *)

Section Frame.

Context (R : relation World) `{!PreOrder R}.

Lemma frame_ret {A} (a : A) : Frame R (ret a).
Proof. intros w. reflexivity. Qed.

Lemma frame_throw {A} (error : string) : Frame R (@throw A error).
Proof. intros w. reflexivity. Qed.

Lemma frame_gets {A} (f : World -> A) : Frame R (gets f).
Proof. intros w. reflexivity. Qed.

Lemma frame_out_of_fuel {A} : Frame R (fun w => (@OutOfFuel A, w)).
Proof. intros w. reflexivity. Qed.

Lemma frame_modify (f : World -> World) :
  (forall w, R w (f w)) -> Frame R (modify f).
Proof. intros H w. apply H. Qed.

Lemma frame_bind {A B} (m : M A) (k : A -> M B) :
  Frame R m -> (forall a, Frame R (k a)) -> Frame R (bind m k).
Proof.
  intros Hm Hk w. unfold bind.
  specialize (Hm w). destruct (m w) as [[a | error | ] w1]; simpl in *; auto.
  etransitivity; [exact Hm | apply Hk].
Qed.

Lemma frame_try_catch {A} (body : M A) (handler : string -> M A) :
  Frame R body -> (forall error, Frame R (handler error)) ->
  Frame R (try_catch body handler).
Proof.
  intros Hb Hh w. unfold try_catch.
  specialize (Hb w). destruct (body w) as [[a | error | ] w1]; simpl in *; auto.
  etransitivity; [exact Hb | apply Hh].
Qed.

Lemma frame_for_of {A} (xs : list A) (body : A -> M unit) :
  (forall x, Frame R (body x)) -> Frame R (for_of xs body).
Proof.
  intros Hb. induction xs as [| x xs IH]; simpl.
  - apply frame_ret.
  - apply frame_bind; auto.
Qed.

Lemma frame_promise_all2 (a b : M unit) :
  Frame R a -> Frame R b -> Frame R (promise_all2 a b).
Proof.
  intros Ha Hb w. unfold promise_all2.
  specialize (Ha w). destruct (a w) as [ra w1]. simpl in Ha.
  specialize (Hb w1). destruct (b w1) as [rb w2]. simpl in *.
  etransitivity; eauto.
Qed.

End Frame.

(** The relation is read off the goal, so that its [PreOrder] instance is
    found when the lemma is applied. *)
Ltac f_ret := match goal with |- Frame ?R _ => apply (frame_ret R) end.
Ltac f_throw := match goal with |- Frame ?R _ => apply (frame_throw R) end.
Ltac f_gets := match goal with |- Frame ?R _ => apply (frame_gets R) end.
Ltac f_fuel := match goal with |- Frame ?R _ => apply (frame_out_of_fuel R) end.
Ltac f_modify := match goal with |- Frame ?R _ => apply (frame_modify R) end.
Ltac f_bind := match goal with |- Frame ?R _ => apply (frame_bind R) end.
Ltac f_catch := match goal with |- Frame ?R _ => apply (frame_try_catch R) end.
Ltac f_for := match goal with |- Frame ?R _ => apply (frame_for_of R) end.
Ltac f_all := match goal with |- Frame ?R _ => apply (frame_promise_all2 R) end.

(** Decompose a method into its primitive steps; [prim] closes the goals
    left by [modify]. *)
Ltac frame_steps prim :=
  repeat first
    [ f_ret
    | f_throw
    | f_gets
    | f_fuel
    | f_bind; [ | intros ? ]
    | f_catch; [ | intros ? ]
    | f_for; intros ?
    | f_all
    | f_modify; intros ?; prim
    | match goal with
      | |- Frame _ (match ?x with _ => _ end) => destruct x
      end ].

(** *** The trace only grows *)

#[global] Instance trace_grows_preorder : PreOrder trace_grows.
Proof.
  split.
  - intros w. exists []. now rewrite app_nil_r.
  - intros w1 w2 w3 [n1 H1] [n2 H2]. exists (n1 ++ n2).
    rewrite H2, H1. now rewrite app_assoc.
Qed.

Ltac trace_prim :=
  first [ now (exists []; simpl; rewrite app_nil_r)
        | now (eexists; simpl; reflexivity) ].

Section TraceGrows.

Variable config : Config.
Variable anthropic : nat -> LlmRequest -> LlmReply.

Lemma messages_create_grows model max_tokens prompt :
  Frame trace_grows (messages_create anthropic model max_tokens prompt).
Proof. unfold messages_create, emit, first_text. frame_steps trace_prim. Qed.

Lemma saveDocumentation_grows doc : Frame trace_grows (saveDocumentation doc).
Proof. unfold saveDocumentation, emit. frame_steps trace_prim. Qed.

Lemma processTierBatch_grows sessions model :
  Frame trace_grows (processTierBatch anthropic sessions model).
Proof.
  unfold processTierBatch. destruct sessions as [| ctx sessions]; [f_ret |].
  f_bind; [apply messages_create_grows | intros responseText].
  f_for. intros c. unfold save_parsed.
  destruct (JsMap.get _ _); [| f_ret].
  f_bind; [f_gets | intros ?; apply saveDocumentation_grows].
Qed.

Lemma processBatch_grows : Frame trace_grows (processBatch config anthropic).
Proof.
  unfold processBatch.
  f_bind; [frame_steps trace_prim | intros _].
  f_bind; [f_gets | intros queue].
  f_bind; [frame_steps trace_prim | intros _].
  destruct (slice_to _ _); [f_ret |].
  f_all; apply processTierBatch_grows.
Qed.

Lemma stage_loop_grows fuel model ths totalStages i acc :
  Frame trace_grows (stage_loop anthropic fuel model ths totalStages i acc).
Proof.
  revert i acc. induction fuel as [| fuel IH]; intros i acc; simpl.
  - destruct (i <? _)%nat; [f_fuel | f_ret].
  - destruct (i <? _)%nat; [| f_ret].
    f_bind; [apply messages_create_grows | intros summary; apply IH].
Qed.

Lemma stagedSummarization_grows ctx model :
  Frame trace_grows (stagedSummarization anthropic ctx model).
Proof.
  unfold stagedSummarization.
  f_bind; [apply stage_loop_grows | intros summaries].
  f_bind; [apply messages_create_grows | intros content].
  f_bind; [f_gets | intros t].
  f_bind; [apply saveDocumentation_grows | intros _; f_ret].
Qed.

Lemma singlePassSummarization_grows ctx model :
  Frame trace_grows (singlePassSummarization anthropic ctx model).
Proof.
  unfold singlePassSummarization.
  f_bind; [apply messages_create_grows | intros content].
  f_bind; [f_gets | intros t].
  f_bind; [apply saveDocumentation_grows | intros _; f_ret].
Qed.

End TraceGrows.

(** ** Event intake: the staleness short-circuit *)

Lemma new_effects_same w : new_effects w w = [].
Proof. unfold new_effects. apply List.skipn_all. Qed.

Lemma new_effects_app w w' new :
  trace w' = trace w ++ new -> new_effects w w' = new.
Proof.
  intros H. unfold new_effects. rewrite H.
  rewrite List.skipn_app, List.skipn_all, Nat.sub_diag. reflexivity.
Qed.

Lemma stale_decide doc ctx : up_to_date doc ctx = false <-> stale doc ctx.
Proof.
  unfold up_to_date, stale. rewrite !andb_false_iff, Z.ltb_ge, !Z.eqb_neq. tauto.
Qed.

Lemma not_stale_decide doc ctx : up_to_date doc ctx = true <-> ~ stale doc ctx.
Proof.
  rewrite <- stale_decide. destruct (up_to_date doc ctx); split; congruence.
Qed.

Section Intake.

Variable config : Config.
Variable anthropic : nat -> LlmRequest -> LlmReply.

Lemma getSessionContext_reads sessionId w :
  getSessionContext sessionId w = (Ok (sessionContextOf sessionId w), w).
Proof.
  unfold getSessionContext, sessionContextOf, getSession, getThoughts, getTasks, bind, gets, ret.
  destruct (List.find _ _); reflexivity.
Qed.

Lemma queueSession_enters ctx w :
  exists new,
    trace (snd (queueSession config anthropic ctx w))
    = trace w ++ EQueueSession (s_id (session ctx)) :: new.
Proof.
  unfold queueSession. unfold bind at 1. unfold emit at 1, modify at 1.
  match goal with |- context [snd (?m ?w1)] =>
    assert (Hrest : Frame trace_grows m) end.
  { f_bind; [frame_steps trace_prim | intros _].
    f_bind; [f_gets | intros size].
    destruct (_ <=? _)%Z; [apply processBatch_grows |].
    frame_steps trace_prim. }
  match goal with |- context [snd (?m ?w1)] => destruct (Hrest w1) as [new Hnew] end.
  exists new. rewrite Hnew. simpl. rewrite <- app_assoc. reflexivity.
Qed.

Lemma generateDocumentation_enters ctx tier w :
  exists new,
    trace (snd (generateDocumentation config anthropic ctx tier w))
    = trace w ++ EGenerateDocumentation (s_id (session ctx)) tier :: new.
Proof.
  unfold generateDocumentation. unfold bind at 1. unfold emit at 1, modify at 1.
  match goal with |- context [snd (?m ?w1)] =>
    assert (Hrest : Frame trace_grows m) end.
  { destruct (_ <? _)%nat;
      [apply stagedSummarization_grows | apply singlePassSummarization_grows]. }
  match goal with |- context [snd (?m ?w1)] => destruct (Hrest w1) as [new Hnew] end.
  exists new. rewrite Hnew. simpl. rewrite <- app_assoc. reflexivity.
Qed.

(** The three ways out of [processSession] for a session that has a
    document. *)
Lemma processSession_with_document event w ctx doc :
  sessionContextOf (e_sessionId event) w = Some ctx ->
  w_docs w !! e_sessionId event = Some doc ->
  processSession config anthropic event w =
    if up_to_date doc ctx then (Ok tt, w)
    else if (List.length (thoughts ctx) <=? 20)%nat
         then queueSession config anthropic ctx w
         else bind (generateDocumentation config anthropic ctx
                      (match p_tier (e_payload event) with
                       | Some t => Js.or_else t "basic"
                       | None => "basic"
                       end))
                   (fun _ => ret tt) w.
Proof.
  intros Hctx Hdoc. unfold processSession.
  unfold bind at 1. rewrite getSessionContext_reads, Hctx.
  unfold bind at 1. unfold getDocumentation, gets. rewrite Hdoc.
  destruct (up_to_date doc ctx); [reflexivity |].
  destruct (_ <=? 20)%nat; reflexivity.
Qed.

(** C1, as the code has it: with a stored document, [processSession] stays
    out of both generation paths exactly when the document is not stale,
    where stale means generated no later than the session's last update or
    a count differs; a document strictly newer than the update with
    matching counts leaves the world untouched, so a redelivered event
    makes no generation call. *)
Theorem processSession_skips_iff_not_stale event w ctx doc :
  sessionContextOf (e_sessionId event) w = Some ctx ->
  w_docs w !! e_sessionId event = Some doc ->
  let w' := snd (processSession config anthropic event w) in
  (List.existsb enters_generation (new_effects w w') = false <-> ~ stale doc ctx)
  /\ ((s_updatedAt (session ctx) < d_generatedAt doc)%Z ->
      d_thoughtCount doc = Z.of_nat (List.length (thoughts ctx)) ->
      d_taskCount doc = Z.of_nat (List.length (tasks ctx)) ->
      processSession config anthropic event w = (Ok tt, w)
      /\ new_effects w w' = []).
Proof.
  intros Hctx Hdoc w'. subst w'.
  rewrite (processSession_with_document event w ctx doc Hctx Hdoc).
  split.
  - rewrite <- not_stale_decide.
    destruct (up_to_date doc ctx) eqn:Hup.
    + simpl. rewrite new_effects_same. simpl. tauto.
    + split; [| congruence]. intros Hnone. exfalso.
      destruct (_ <=? 20)%nat.
      * destruct (queueSession_enters ctx w) as [new Hnew].
        rewrite (new_effects_app _ _ _ Hnew) in Hnone. discriminate.
      * match type of Hnone with context [generateDocumentation _ _ _ ?tier] =>
          destruct (generateDocumentation_enters ctx tier w) as [new Hnew] end.
        unfold bind in Hnone.
        destruct (generateDocumentation _ _ _ _ w) as [[d | error |] w1];
          simpl in Hnew, Hnone;
          rewrite (new_effects_app _ _ _ Hnew) in Hnone; discriminate.
  - intros Htime Hth Htk.
    assert (Hup : up_to_date doc ctx = true).
    { unfold up_to_date. rewrite Hth, Htk, !Z.eqb_refl.
      apply Z.ltb_lt in Htime. rewrite Htime. reflexivity. }
    rewrite Hup. simpl. split; [reflexivity | apply new_effects_same].
Qed.

(** [handleEvent] on a finalization event whose processing throws. *)
Lemma handleEvent_catches event w error :
  is_finalization (e_type event) = true ->
  fst (processSession config anthropic event w) = Throw error ->
  handleEvent config anthropic event w
  = (if (default 0%Z (p_retryCount (e_payload event)) <? maxRetries config)%Z
     then scheduleRetry config event (default 0%Z (p_retryCount (e_payload event)) + 1)%Z
     else moveToDeadLetter config event error)
      (snd (processSession config anthropic event w)).
Proof.
  intros Hfinal Hthrow. unfold handleEvent. rewrite Hfinal. cbn [negb].
  unfold try_catch, bind.
  destruct (processSession config anthropic event w) as [r w1]. simpl in Hthrow. subst r.
  reflexivity.
Qed.

(** [handleEvent] on a finalization event whose processing returns. *)
Lemma handleEvent_processes event w :
  is_finalization (e_type event) = true ->
  fst (processSession config anthropic event w) = Ok tt ->
  handleEvent config anthropic event w
  = (Ok tt, set_processedCount
              (S (processedCount (snd (processSession config anthropic event w))))
              (snd (processSession config anthropic event w))).
Proof.
  intros Hfinal Hok. unfold handleEvent. rewrite Hfinal. cbn [negb].
  unfold try_catch, bind.
  destruct (processSession config anthropic event w) as [r w1]. simpl in Hok. subst r.
  reflexivity.
Qed.

End Intake.

(** The witness of [processSession_skips_iff_not_stale]: the redelivered
    event of a session with a fresh document. *)
Lemma processSession_skips_iff_not_stale_witness :
  sessionContextOf "s1" fx_fresh = Some (fx_context "s1" 0 None)
  /\ w_docs fx_fresh !! "s1" = Some (fx_doc "s1" 2000 0 0)
  /\ processSession defaultConfig (answers "") (fx_event "s1" None) fx_fresh
     = (Ok tt, fx_fresh).
Proof.
  assert (H1 : sessionContextOf "s1" fx_fresh = Some (fx_context "s1" 0 None))
    by reflexivity.
  assert (H2 : w_docs fx_fresh !! "s1" = Some (fx_doc "s1" 2000 0 0))
    by (vm_compute; reflexivity).
  split; [exact H1 | split; [exact H2 |]].
  apply (processSession_skips_iff_not_stale defaultConfig (answers "")
           (fx_event "s1" None) fx_fresh _ _ H1 H2); simpl; [lia | reflexivity | reflexivity].
Defined.

(** C1 as worded fails on a tie: the document of [fx_tie] was generated
    exactly at the session's last update and its counts match, so it is not
    stale in the sense of the data model; [processSession] queues the
    session all the same, and with a batch size of one the batch call is
    made at once. *)
Lemma processSession_regenerates_on_tie :
  let event := fx_event "s1" None in
  let w' := snd (processSession (config_with_batchSize 1) (answers "") event fx_tie) in
  sessionContextOf "s1" fx_tie = Some (fx_context "s1" 0 None)
  /\ w_docs fx_tie !! "s1" = Some (fx_doc "s1" 1000 0 0)
  /\ ~ stale_as_specified (fx_doc "s1" 1000 0 0) (fx_context "s1" 0 None)
  /\ List.existsb enters_generation (new_effects fx_tie w') = true
  /\ List.existsb is_generate (new_effects fx_tie w') = true.
Proof.
  cbv zeta. split; [reflexivity |]. split; [vm_compute; reflexivity |].
  split; [unfold stale_as_specified; simpl; lia |].
  split; vm_compute; reflexivity.
Qed.

(** ** The batch accumulator *)

(** *** The [Map] of pending sessions *)

Lemma JsMap_set_fresh {V} (k : string) (v : V) (m : JsMap.t V) :
  ~ In k (JsMap.keys m) -> JsMap.set k v m = m ++ [(k, v)].
Proof.
  induction m as [| [k' v'] m IH]; simpl; intros Hk; [reflexivity |].
  destruct (String.eqb_spec k' k) as [-> | Hne]; [tauto |].
  rewrite IH; [reflexivity | tauto].
Qed.

Lemma JsMap_set_keys {V} (k : string) (v : V) (m : JsMap.t V) :
  In k (JsMap.keys m) -> JsMap.keys (JsMap.set k v m) = JsMap.keys m.
Proof.
  induction m as [| [k' v'] m IH]; simpl; intros Hk; [tauto |].
  destruct (String.eqb_spec k' k) as [-> | Hne]; simpl; [reflexivity |].
  rewrite IH; [reflexivity |]. destruct Hk; congruence.
Qed.

Lemma JsMap_get_set {V} (k : string) (v : V) (m : JsMap.t V) :
  JsMap.get k (JsMap.set k v m) = Some v.
Proof.
  induction m as [| [k' v'] m IH]; simpl.
  - now rewrite String.eqb_refl.
  - destruct (String.eqb_spec k' k) as [-> | Hne]; simpl.
    + now rewrite String.eqb_refl.
    + destruct (String.eqb_spec k' k); [congruence | exact IH].
Qed.

Lemma JsMap_get_set_other {V} (k k0 : string) (v : V) (m : JsMap.t V) :
  k <> k0 -> JsMap.get k0 (JsMap.set k v m) = JsMap.get k0 m.
Proof.
  intros Hne. induction m as [| [k' v'] m IH]; simpl.
  - destruct (String.eqb_spec k k0); [congruence | reflexivity].
  - destruct (String.eqb_spec k' k) as [-> | Hne']; simpl.
    + destruct (String.eqb_spec k k0); [congruence | reflexivity].
    + destruct (String.eqb_spec k' k0); [reflexivity | exact IH].
Qed.


(** Deleting a list of keys one after the other. *)
Lemma JsMap_delete_all {V} (ks : list string) (m : JsMap.t V) :
  List.fold_left (fun q k => JsMap.delete k q) ks m
  = List.filter (fun kv => negb (List.existsb (String.eqb (fst kv)) ks)) m.
Proof.
  revert m. induction ks as [| k ks IH]; intros m; simpl.
  - induction m as [| kv m IHm]; simpl; [reflexivity | now rewrite <- IHm].
  - rewrite IH. unfold JsMap.delete.
    induction m as [| kv m IHm]; simpl; [reflexivity |].
    destruct (String.eqb (fst kv) k); simpl; rewrite IHm; reflexivity.
Qed.

Lemma delete_contexts_filter (batch : list SessionContext) (m : JsMap.t SessionContext) :
  List.fold_left (fun q ctx => JsMap.delete (s_id (session ctx)) q) batch m
  = List.filter
      (fun kv => negb (List.existsb (String.eqb (fst kv))
                         (List.map (fun ctx => s_id (session ctx)) batch))) m.
Proof.
  rewrite <- JsMap_delete_all.
  revert m. induction batch as [| ctx batch IH]; intros m; simpl; [reflexivity | apply IH].
Qed.

(** A batch that takes every pending session empties the map. *)
Lemma delete_all_pending (m : JsMap.t SessionContext) :
  keyed_by_id m ->
  List.fold_left (fun q ctx => JsMap.delete (s_id (session ctx)) q) (JsMap.values m) m = [].
Proof.
  intros Hk. rewrite delete_contexts_filter.
  assert (H : forall m0, (forall kv, In kv m0 -> In kv m) ->
            List.filter
              (fun kv => negb (List.existsb (String.eqb (fst kv))
                                 (List.map (fun ctx => s_id (session ctx)) (JsMap.values m)))) m0
            = []).
  { induction m0 as [| [k ctx] m0 IH]; intros Hsub; simpl; [reflexivity |].
    assert (Hin : In (k, ctx) m) by (apply Hsub; now left).
    replace (List.existsb _ _) with true.
    - simpl. apply IH. intros kv Hkv. apply Hsub. now right.
    - symmetry. apply List.existsb_exists. exists k. split; [| apply String.eqb_refl].
      apply List.in_map_iff. exists ctx. split.
      + symmetry. apply (Hk k ctx Hin).
      + unfold JsMap.values. apply List.in_map_iff. exists (k, ctx). auto. }
  apply H. auto.
Qed.

Lemma slice_to_all {A} (n : Z) (xs : list A) :
  (Z.of_nat (List.length xs) <= n)%Z -> slice_to n xs = xs.
Proof.
  intros H. unfold slice_to.
  destruct (Z.ltb_spec n 0); [lia |].
  apply List.firstn_all2. lia.
Qed.

(** *** Traces of the batch path *)

#[global] Instance grows_by_preorder P : PreOrder (grows_by P).
Proof.
  split.
  - intros w. split; [| reflexivity]. exists []. now rewrite app_nil_r.
  - intros w1 w2 w3 [[n1 [H1 P1]] Q1] [[n2 [H2 P2]] Q2]. split; [| congruence].
    exists (n1 ++ n2). rewrite H2, H1, <- app_assoc, List.forallb_app, P1, P2. auto.
Qed.

Ltac grows_prim :=
  split; [ first [ now (exists []; simpl; rewrite app_nil_r)
                 | now (eexists; simpl; split; reflexivity) ]
         | reflexivity ].

Section Batch.

Variable config : Config.
Variable anthropic : nat -> LlmRequest -> LlmReply.

Lemma save_loop_saves (sessions : list SessionContext) (parsedDocs : JsMap.t ParsedBatchDoc) :
  Frame (grows_by is_save) (for_of sessions (save_parsed parsedDocs)).
Proof.
  f_for. intros ctx. unfold save_parsed. destruct (JsMap.get _ _); [| f_ret].
  f_bind; [f_gets | intros t]. unfold saveDocumentation, emit.
  frame_steps grows_prim.
Qed.

Lemma messages_create_run model max_tokens prompt w :
  let request := {| rq_model := model; rq_max_tokens := max_tokens; rq_prompt := prompt |} in
  messages_create anthropic model max_tokens prompt w
  = first_text (anthropic (apiCalls w) request)
      (set_apiCalls (S (apiCalls w)) (set_trace (trace w ++ [EGenerate request]) w)).
Proof. reflexivity. Qed.

Lemma first_text_world reply w : snd (first_text reply w) = w.
Proof. destruct reply; reflexivity. Qed.

Lemma processTierBatch_nonempty sessions model w :
  sessions <> [] ->
  processTierBatch anthropic sessions model w
  = bind (messages_create anthropic model 4000 (generateBatchPrompt sessions))
      (fun responseText =>
         for_of sessions (save_parsed (parseBatchResponse responseText sessions))) w.
Proof. destruct sessions; [congruence | reflexivity]. Qed.

Lemma processTierBatch_trace sessions model w :
  let w' := snd (processTierBatch anthropic sessions model w) in
  (exists saves,
     trace w' = trace w ++ tier_call model sessions ++ saves
     /\ List.forallb is_save saves = true)
  /\ pendingQueue w' = pendingQueue w.
Proof.
  cbv zeta. destruct (list_eq_nil_dec sessions) as [-> | Hne].
  - simpl. split; [| reflexivity]. exists []. now rewrite app_nil_r.
  - rewrite (processTierBatch_nonempty _ _ _ Hne).
    replace (tier_call model sessions) with [EGenerate (batch_request model sessions)]
      by (destruct sessions; [congruence | reflexivity]).
    unfold bind. rewrite messages_create_run. cbv zeta.
    fold (batch_request model sessions).
    pose proof (first_text_world
      (anthropic (apiCalls w) (batch_request model sessions))
      (set_apiCalls (S (apiCalls w))
         (set_trace (trace w ++ [EGenerate (batch_request model sessions)]) w))) as Hw.
    destruct (first_text _ _) as [[text | error |] w1]; simpl in Hw; subst w1.
    + match goal with |- context [for_of ?xs ?body ?w1] =>
        destruct (save_loop_saves xs (parseBatchResponse text sessions) w1)
          as [[saves [Ht Hs]] Hq]
      end.
      split; [exists saves; split; [| exact Hs] | rewrite Hq; reflexivity].
      rewrite Ht. simpl. now rewrite <- app_assoc.
    + simpl. split; [exists []; split; reflexivity | reflexivity].
    + simpl. split; [exists []; split; reflexivity | reflexivity].
Qed.

Lemma filter_all_false {A} (P Q : A -> bool) (l : list A) :
  List.forallb Q l = true -> (forall x, Q x = true -> P x = false) -> List.filter P l = [].
Proof.
  intros HQ HPQ. induction l as [| x l IH]; simpl in *; [reflexivity |].
  apply andb_true_iff in HQ as [Hx Hl]. rewrite (HPQ x Hx). auto.
Qed.

Lemma generate_of_tier_call model sessions :
  List.filter is_generate (tier_call model sessions) = tier_call model sessions.
Proof. destruct sessions; reflexivity. Qed.

Lemma match_nonempty {A B} (l : list A) (x y : B) :
  l <> [] -> match l with [] => x | _ :: _ => y end = y.
Proof. destruct l; [congruence | reflexivity]. Qed.

Lemma processBatch_unfold w :
  let batch := batch_of config w in
  processBatch config anthropic w
  = match batch with
    | [] => ret tt
    | _ =>
        promise_all2
          (processTierBatch anthropic
             (List.filter (fun ctx => negb (is_premium (s_tier (session ctx)))) batch)
             (basicModel config))
          (processTierBatch anthropic
             (List.filter (fun ctx => is_premium (s_tier (session ctx))) batch)
             (premiumModel config))
    end
      (set_pendingQueue
         (List.fold_left (fun q ctx => JsMap.delete (s_id (session ctx)) q) batch
            (pendingQueue w))
         (set_batchTimer false w)).
Proof. reflexivity. Qed.

Lemma processBatch_run w :
  let batch := batch_of config w in
  let w' := snd (processBatch config anthropic w) in
  pendingQueue w'
  = List.fold_left (fun q ctx => JsMap.delete (s_id (session ctx)) q) batch (pendingQueue w)
  /\ generate_effects w w' = tier_calls config batch.
Proof.
  cbv zeta. rewrite processBatch_unfold. cbv zeta. unfold generate_effects, tier_calls.
  set (batch := batch_of config w).
  set (w1 := set_pendingQueue _ _).
  assert (Hq1 : pendingQueue w1
    = List.fold_left (fun q ctx => JsMap.delete (s_id (session ctx)) q) batch (pendingQueue w))
    by reflexivity.
  assert (Ht1 : trace w1 = trace w) by reflexivity.
  clearbody w1.
  destruct (list_eq_nil_dec batch) as [Hnil | Hne].
  - rewrite Hnil. simpl. split; [rewrite Hq1, Hnil; reflexivity |].
    rewrite (new_effects_app w w1 []); [reflexivity | now rewrite Ht1, app_nil_r].
  - rewrite (match_nonempty batch _ _ Hne).
    unfold promise_all2.
    set (basic := List.filter _ batch). set (premium := List.filter _ batch).
    pose proof (processTierBatch_trace basic (basicModel config) w1) as Hb.
    destruct (processTierBatch anthropic basic (basicModel config) w1) as [rb w2].
    pose proof (processTierBatch_trace premium (premiumModel config) w2) as Hp.
    destruct (processTierBatch anthropic premium (premiumModel config) w2) as [rp w3].
    simpl in Hb, Hp |- *.
    destruct Hb as [[sb [Htb Hsb]] Hqb]. destruct Hp as [[sp [Htp Hsp]] Hqp].
    split; [congruence |].
    rewrite (new_effects_app w w3
      (tier_call (basicModel config) basic ++ sb
       ++ tier_call (premiumModel config) premium ++ sp)).
    + rewrite !List.filter_app, !generate_of_tier_call.
      rewrite (filter_all_false is_generate is_save sb Hsb),
              (filter_all_false is_generate is_save sp Hsp).
      * now rewrite !app_nil_r.
      * intros [] ?; simpl in *; congruence.
      * intros [] ?; simpl in *; congruence.
    + rewrite Htp, Htb, Ht1. now rewrite <- !app_assoc.
Qed.

(** *** Tier grouping *)

Lemma is_premium_true tier : is_premium tier = true <-> tier = Some "premium".
Proof.
  destruct tier as [t |]; simpl; [| split; discriminate].
  rewrite String.eqb_eq. split; congruence.
Qed.

Lemma is_premium_false tier : is_premium tier = false <-> tier <> Some "premium".
Proof.
  rewrite <- is_premium_true. destruct (is_premium tier); split; congruence.
Qed.

Lemma filter_complement_permutation {A} (p : A -> bool) (l : list A) :
  Permutation (List.filter (fun x => negb (p x)) l ++ List.filter p l) l.
Proof.
  induction l as [| x l IH]; simpl; [constructor |].
  destruct (p x); simpl.
  - symmetry. apply Permutation_cons_app. symmetry. exact IH.
  - constructor. exact IH.
Qed.

(** C9: on every flush the two tier groups partition the flushed sessions
    (premium: tier ['premium']; basic: everything else, an absent tier
    included), each group gets a generation call exactly when it is not
    empty, and no flush makes more than two generation calls. *)
Theorem processBatch_tier_partition w :
  let batch := batch_of config w in
  let w' := snd (processBatch config anthropic w) in
  exists basic premium,
    generate_effects w w'
    = tier_call (basicModel config) basic ++ tier_call (premiumModel config) premium
    /\ Permutation (basic ++ premium) batch
    /\ (forall ctx, In ctx basic <-> In ctx batch /\ s_tier (session ctx) <> Some "premium")
    /\ (forall ctx, In ctx premium <-> In ctx batch /\ s_tier (session ctx) = Some "premium")
    /\ (tier_call (basicModel config) basic = [] <-> basic = [])
    /\ (tier_call (premiumModel config) premium = [] <-> premium = [])
    /\ List.length (generate_effects w w') <= 2.
Proof.
  cbv zeta. destruct (processBatch_run w) as [_ Hg].
  set (batch := batch_of config w) in *.
  exists (List.filter (fun ctx => negb (is_premium (s_tier (session ctx)))) batch),
         (List.filter (fun ctx => is_premium (s_tier (session ctx))) batch).
  split; [exact Hg |].
  split; [apply (filter_complement_permutation (fun ctx => is_premium (s_tier (session ctx)))) |].
  split; [| split; [| split; [| split]]].
  - intros ctx. rewrite List.filter_In, negb_true_iff, is_premium_false. tauto.
  - intros ctx. rewrite List.filter_In, is_premium_true. tauto.
  - destruct (List.filter _ batch); simpl; split; congruence.
  - destruct (List.filter _ batch); simpl; split; congruence.
  - rewrite Hg. unfold tier_calls. rewrite List.length_app.
    destruct (List.filter _ batch); destruct (List.filter _ batch); simpl; lia.
Qed.

(** *** The size trigger *)

Lemma queueSession_unfold ctx w :
  let id := s_id (session ctx) in
  let w1 := set_pendingQueue (JsMap.set id ctx (pendingQueue w))
              (set_trace (trace w ++ [EQueueSession id]) w) in
  queueSession config anthropic ctx w
  = if (batchSize config <=? Z.of_nat (JsMap.size (pendingQueue w1)))%Z
    then processBatch config anthropic w1
    else if batchTimer w1 then (Ok tt, w1) else (Ok tt, set_batchTimer true w1).
Proof.
  cbv zeta. unfold queueSession, bind, emit, modify, gets. cbv beta iota.
  destruct (_ <=? _)%Z; [reflexivity |].
  change (batchTimer (set_pendingQueue _ _)) with (batchTimer w).
  destruct (batchTimer w); reflexivity.
Qed.

Lemma generate_effects_trans w w1 w2 :
  trace_grows w w1 -> trace_grows w1 w2 ->
  generate_effects w w2 = generate_effects w w1 ++ generate_effects w1 w2.
Proof.
  intros [n1 H1] [n2 H2]. unfold generate_effects.
  rewrite (new_effects_app w w1 n1 H1), (new_effects_app w1 w2 n2 H2).
  rewrite (new_effects_app w w2 (n1 ++ n2)); [apply List.filter_app |].
  rewrite H2, H1. now rewrite app_assoc.
Qed.

Lemma JsMap_set_In {V} (k k' : string) (v v' : V) (m : JsMap.t V) :
  In (k', v') (JsMap.set k v m) -> In (k', v') m \/ (k', v') = (k, v).
Proof.
  induction m as [| [k0 v0] m IH]; simpl.
  - intros [H | []]. right. congruence.
  - destruct (String.eqb_spec k0 k) as [-> | Hne]; simpl.
    + intros [H | H]; [right; congruence | left; right; exact H].
    + intros [H | H]; [left; left; exact H |].
      destruct (IH H); [left; right; assumption | right; assumption].
Qed.

Lemma pending_wf_set ctx (m : JsMap.t SessionContext) :
  pending_wf m -> pending_wf (JsMap.set (s_id (session ctx)) ctx m).
Proof.
  intros [Hnd Hk]. split.
  - destruct (in_dec string_dec (s_id (session ctx)) (JsMap.keys m)) as [Hin | Hout].
    + rewrite JsMap_set_keys; assumption.
    + rewrite JsMap_set_fresh by assumption. unfold JsMap.keys in *.
      rewrite List.map_app. simpl. apply NoDup_app. split; [exact Hnd |].
      split; [| apply NoDup_singleton].
      intros x Hx Hx'. apply list_elem_of_In in Hx. apply list_elem_of_In in Hx'.
      destruct Hx' as [<- | []]. contradiction.
  - intros k c Hin. destruct (JsMap_set_In _ _ _ _ _ Hin) as [H | H].
    + apply (Hk k c H).
    + inversion H. reflexivity.
Qed.

Lemma JsMap_set_size_present {V} (k : string) (v : V) (m : JsMap.t V) :
  In k (JsMap.keys m) -> JsMap.size (JsMap.set k v m) = JsMap.size m.
Proof.
  intros Hin. unfold JsMap.size.
  rewrite <- (List.length_map fst (JsMap.set k v m)), <- (List.length_map fst m).
  fold (JsMap.keys (JsMap.set k v m)). fold (JsMap.keys m).
  now rewrite JsMap_set_keys.
Qed.

(** One call of [queueSession] below the threshold, with [batchSize >= 1]:
    a new id either brings the size to [batchSize], and then the batch of
    all pending sessions is processed inside the call and the map is left
    empty, or only appends the session and arms the timer; a pending id
    overwrites that entry and keeps the size.  In all cases the map is again
    below the threshold afterwards. *)
Lemma queueSession_step ctx w :
  (1 <= batchSize config)%Z ->
  pending_wf (pendingQueue w) ->
  (Z.of_nat (JsMap.size (pendingQueue w)) < batchSize config)%Z ->
  let id := s_id (session ctx) in
  let w' := snd (queueSession config anthropic ctx w) in
  (~ In id (JsMap.keys (pendingQueue w)) ->
   Z.of_nat (JsMap.size (pendingQueue w)) + 1 = batchSize config ->
   pendingQueue w' = []
   /\ generate_effects w w'
      = tier_calls config (JsMap.values (pendingQueue w) ++ [ctx]))%Z
  /\ (~ In id (JsMap.keys (pendingQueue w)) ->
      Z.of_nat (JsMap.size (pendingQueue w)) + 1 < batchSize config ->
      pendingQueue w' = pendingQueue w ++ [(id, ctx)]
      /\ batchTimer w' = true
      /\ generate_effects w w' = [])%Z
  /\ (In id (JsMap.keys (pendingQueue w)) ->
      pendingQueue w' = JsMap.set id ctx (pendingQueue w)
      /\ JsMap.size (pendingQueue w') = JsMap.size (pendingQueue w)
      /\ JsMap.get id (pendingQueue w') = Some ctx
      /\ generate_effects w w' = [])
  /\ pending_wf (pendingQueue w')
  /\ (Z.of_nat (JsMap.size (pendingQueue w')) < batchSize config)%Z.
Proof.
  intros Hpos Hwf Hbelow. cbv zeta.
  rewrite queueSession_unfold. cbv zeta.
  set (id := s_id (session ctx)).
  set (w1 := set_pendingQueue _ _).
  assert (Hq1 : pendingQueue w1 = JsMap.set id ctx (pendingQueue w)) by reflexivity.
  assert (Ht1 : trace w1 = trace w ++ [EQueueSession id]) by reflexivity.
  assert (Hb1 : batchTimer w1 = batchTimer w) by reflexivity.
  assert (Hg1 : generate_effects w w1 = []).
  { unfold generate_effects. now rewrite (new_effects_app _ _ _ Ht1). }
  assert (Hgrow1 : trace_grows w w1) by (eexists; exact Ht1).
  assert (Hwf1 : pending_wf (pendingQueue w1)) by (rewrite Hq1; now apply pending_wf_set).
  clearbody w1.
  assert (Hsize_fresh : ~ In id (JsMap.keys (pendingQueue w)) ->
            JsMap.size (pendingQueue w1) = S (JsMap.size (pendingQueue w))).
  { intros Hout. rewrite Hq1, JsMap_set_fresh by exact Hout.
    unfold JsMap.size. rewrite List.length_app. simpl. lia. }
  assert (Hsize_present : In id (JsMap.keys (pendingQueue w)) ->
            JsMap.size (pendingQueue w1) = JsMap.size (pendingQueue w)).
  { intros Hin. rewrite Hq1. now apply JsMap_set_size_present. }
  assert (Hflush : (batchSize config <= Z.of_nat (JsMap.size (pendingQueue w1)))%Z ->
            let w2 := snd (processBatch config anthropic w1) in
            pendingQueue w2 = []
            /\ generate_effects w w2 = tier_calls config (JsMap.values (pendingQueue w1))).
  { intros Hreach. cbv zeta. destruct (processBatch_run w1) as [Hq2 Hg2].
    assert (Hall : batch_of config w1 = JsMap.values (pendingQueue w1)).
    { assert (Hle : (Z.of_nat (JsMap.size (pendingQueue w1)) <= batchSize config)%Z).
      { destruct (in_dec string_dec id (JsMap.keys (pendingQueue w))) as [Hin | Hout];
          [rewrite (Hsize_present Hin) | rewrite (Hsize_fresh Hout)]; lia. }
      unfold batch_of. apply slice_to_all. unfold JsMap.values. rewrite List.length_map.
      exact Hle. }
    rewrite Hall in Hq2, Hg2. split.
    - rewrite Hq2. apply delete_all_pending. apply Hwf1.
    - rewrite (generate_effects_trans w w1 _ Hgrow1 (processBatch_grows config anthropic w1)).
      now rewrite Hg1, Hg2. }
  destruct (Z.leb_spec (batchSize config) (Z.of_nat (JsMap.size (pendingQueue w1))))
    as [Hreach | Hlow].
  - destruct (Hflush Hreach) as [Hq2 Hg2].
    split; [| split; [| split; [| split]]].
    + intros Hout Heq. split; [exact Hq2 |]. rewrite Hg2, Hq1, JsMap_set_fresh by exact Hout.
      unfold JsMap.values. now rewrite List.map_app.
    + intros Hout Hlt. rewrite (Hsize_fresh Hout) in Hreach. lia.
    + intros Hin. rewrite (Hsize_present Hin) in Hreach. lia.
    + rewrite Hq2. split; [constructor | intros k c []].
    + rewrite Hq2. simpl. lia.
  - assert (Hend : forall w2, (w2 = w1 \/ w2 = set_batchTimer true w1) ->
              pendingQueue w2 = pendingQueue w1 /\ generate_effects w w2 = []).
    { intros w2 [-> | ->]; (split; [reflexivity |]); [exact Hg1 |].
      unfold generate_effects, new_effects in *. exact Hg1. }
    assert (Hw2 : exists w2,
              (if batchTimer w1 then (Ok tt, w1) else (Ok tt, set_batchTimer true w1)) = (Ok tt, w2)
              /\ (w2 = w1 \/ w2 = set_batchTimer true w1) /\ batchTimer w2 = true).
    { destruct (batchTimer w1) eqn:Hbt; eexists; (split; [reflexivity |]); auto. }
    destruct Hw2 as [w2 [-> [Hcase Htimer]]]. simpl.
    destruct (Hend w2 Hcase) as [Hq2 Hg2].
    split; [| split; [| split; [| split]]].
    + intros Hout Heq. rewrite (Hsize_fresh Hout) in Hlow. lia.
    + intros Hout Hlt. rewrite Hq2, Hq1, JsMap_set_fresh by exact Hout. auto.
    + intros Hin. rewrite Hq2. rewrite (Hsize_present Hin). rewrite Hq1.
      rewrite JsMap_get_set. auto.
    + rewrite Hq2. exact Hwf1.
    + rewrite Hq2. exact Hlow.
Qed.

(** Every session of a batch is in the request of its tier group. *)
Lemma tier_calls_cover batch ctx :
  In ctx batch ->
  exists model sessions,
    In (EGenerate (batch_request model sessions)) (tier_calls config batch)
    /\ In ctx sessions.
Proof.
  intros Hin. unfold tier_calls.
  destruct (is_premium (s_tier (session ctx))) eqn:Htier.
  - exists (premiumModel config),
      (List.filter (fun c => is_premium (s_tier (session c))) batch).
    assert (Hctx : In ctx (List.filter (fun c => is_premium (s_tier (session c))) batch))
      by (apply List.filter_In; auto).
    split; [| exact Hctx]. apply List.in_or_app. right.
    destruct (List.filter _ batch); [destruct Hctx | now left].
  - exists (basicModel config),
      (List.filter (fun c => negb (is_premium (s_tier (session c)))) batch).
    assert (Hctx : In ctx (List.filter (fun c => negb (is_premium (s_tier (session c)))) batch))
      by (apply List.filter_In; rewrite Htier; auto).
    split; [| exact Hctx]. apply List.in_or_app. left.
    destruct (List.filter _ batch); [destruct Hctx | now left].
Qed.

(** C3, as the code has it: when the pending map holds no more than
    [batchSize] sessions, one [flush] takes every pending session out of
    the map, leaves the map empty and sends one request per tier group
    that is not empty, so that every pending session is in the request of
    its group; and [queueSession] keeps the map below [batchSize] when
    [batchSize >= 1], so that the maps the accumulator builds are of that
    kind.  What becomes of a session after that is up to the reply. *)
Theorem flush_drains_up_to_batchSize w :
  keyed_by_id (pendingQueue w) ->
  (Z.of_nat (JsMap.size (pendingQueue w)) <= batchSize config)%Z ->
  let w' := snd (flush config anthropic w) in
  (pendingQueue w' = []
   /\ generate_effects w w' = tier_calls config (JsMap.values (pendingQueue w))
   /\ forall ctx, In ctx (JsMap.values (pendingQueue w)) ->
        exists model sessions,
          In (EGenerate (batch_request model sessions)) (generate_effects w w')
          /\ In ctx sessions)
  /\ (forall ctx w0,
        (1 <= batchSize config)%Z ->
        pending_wf (pendingQueue w0) ->
        (Z.of_nat (JsMap.size (pendingQueue w0)) < batchSize config)%Z ->
        let w1 := snd (queueSession config anthropic ctx w0) in
        pending_wf (pendingQueue w1)
        /\ (Z.of_nat (JsMap.size (pendingQueue w1)) < batchSize config)%Z).
Proof.
  intros Hk Hsize. cbv zeta.
  assert (Hrun : pendingQueue (snd (flush config anthropic w)) = []
                 /\ generate_effects w (snd (flush config anthropic w))
                    = tier_calls config (JsMap.values (pendingQueue w))).
  { unfold flush, getPendingCount.
    unfold bind, gets. destruct (Nat.ltb_spec 0 (JsMap.size (pendingQueue w))) as [Hpos | Hzero].
    + destruct (processBatch_run w) as [Hq Hg]. rewrite Hq, Hg.
      unfold batch_of. rewrite slice_to_all.
      * split; [apply delete_all_pending; exact Hk | reflexivity].
      * unfold JsMap.values. rewrite List.length_map. exact Hsize.
    + unfold JsMap.size in Hzero. destruct (pendingQueue w) eqn:Hpq; [| simpl in Hzero; lia].
      simpl. rewrite Hpq. split; [reflexivity |].
      unfold generate_effects. rewrite new_effects_same. reflexivity. }
  destruct Hrun as [Hq Hg]. split.
  - split; [exact Hq |]. split; [exact Hg |].
    intros ctx Hctx. rewrite Hg. now apply tier_calls_cover.
  - intros ctx w0 Hpos Hwf Hbelow.
    destruct (queueSession_step ctx w0 Hpos Hwf Hbelow) as [_ [_ [_ Hinv]]]. exact Hinv.
Qed.

Lemma queueSession_grows ctx w :
  trace_grows w (snd (queueSession config anthropic ctx w)).
Proof.
  destruct (queueSession_enters config anthropic ctx w) as [new Hnew].
  eexists. exact Hnew.
Qed.

Lemma queue_all_below ctxs : forall w,
  (1 <= batchSize config)%Z ->
  pending_wf (pendingQueue w) ->
  NoDup (JsMap.keys (pendingQueue w) ++ context_ids ctxs) ->
  (Z.of_nat (JsMap.size (pendingQueue w) + List.length ctxs) < batchSize config)%Z ->
  let w' := queue_all config anthropic ctxs w in
  pendingQueue w' = pendingQueue w ++ List.map pending_entry ctxs
  /\ generate_effects w w' = []
  /\ trace_grows w w'
  /\ pending_wf (pendingQueue w').
Proof.
  induction ctxs as [| c cs IH]; intros w Hpos Hwf Hnd Hlt; cbv zeta.
  - simpl. rewrite app_nil_r. split; [reflexivity |].
    split; [unfold generate_effects; now rewrite new_effects_same |].
    split; [reflexivity | exact Hwf].
  - simpl in Hnd, Hlt |- *.
    assert (Hfresh : ~ In (s_id (session c)) (JsMap.keys (pendingQueue w))).
    { intros Hin. apply NoDup_app in Hnd as [_ [Hdis _]].
      apply (Hdis (s_id (session c))); apply list_elem_of_In; [exact Hin | now left]. }
    destruct (queueSession_step c w Hpos Hwf ltac:(lia)) as [_ [Hstep [_ [Hwf1 Hlt1]]]].
    destruct (Hstep Hfresh ltac:(lia)) as [Hq1 [_ Hg1]].
    set (w1 := snd (queueSession config anthropic c w)) in *.
    assert (Hkeys1 : JsMap.keys (pendingQueue w1)
                     = JsMap.keys (pendingQueue w) ++ [s_id (session c)]).
    { rewrite Hq1. unfold JsMap.keys. now rewrite List.map_app. }
    assert (Hsize1 : JsMap.size (pendingQueue w1) = S (JsMap.size (pendingQueue w))).
    { rewrite Hq1. unfold JsMap.size. rewrite List.length_app. simpl. lia. }
    destruct (IH w1 Hpos Hwf1) as [Hq [Hg [Hgrow Hwf']]].
    + rewrite Hkeys1, <- app_assoc. exact Hnd.
    + rewrite Hsize1. lia.
    + split; [rewrite Hq, Hq1, <- app_assoc; reflexivity |].
      split; [| split; [| exact Hwf']].
      * rewrite (generate_effects_trans w w1 _ (queueSession_grows c w) Hgrow).
        now rewrite Hg1, Hg.
      * etransitivity; [apply (queueSession_grows c w) | exact Hgrow].
Qed.

(** C4: starting below the threshold, with [batchSize >= 1], sessions with
    new, distinct ids are only appended while the size stays below
    [batchSize]; the call that brings the size to [batchSize] processes the
    batch of all pending sessions inside that call and leaves the map
    empty; a call with an id that is pending overwrites that entry without
    changing the size. *)
Theorem queueSession_size_trigger ctxs ctx w :
  (1 <= batchSize config)%Z ->
  pending_wf (pendingQueue w) ->
  NoDup (JsMap.keys (pendingQueue w) ++ context_ids (ctxs ++ [ctx])) ->
  (Z.of_nat (JsMap.size (pendingQueue w) + List.length ctxs) < batchSize config)%Z ->
  let w1 := queue_all config anthropic ctxs w in
  let w2 := snd (queueSession config anthropic ctx w1) in
  (pendingQueue w1 = pendingQueue w ++ List.map pending_entry ctxs
   /\ generate_effects w w1 = [])
  /\ (Z.of_nat (JsMap.size (pendingQueue w) + List.length ctxs) + 1 = batchSize config ->
      pendingQueue w2 = []
      /\ generate_effects w1 w2
         = tier_calls config (JsMap.values (pendingQueue w) ++ ctxs ++ [ctx]))%Z
  /\ (Z.of_nat (JsMap.size (pendingQueue w) + List.length ctxs) + 1 < batchSize config ->
      pendingQueue w2 = pendingQueue w1 ++ [pending_entry ctx]
      /\ generate_effects w1 w2 = [])%Z
  /\ (forall again,
        In (s_id (session again)) (JsMap.keys (pendingQueue w1)) ->
        let w3 := snd (queueSession config anthropic again w1) in
        JsMap.size (pendingQueue w3) = JsMap.size (pendingQueue w1)
        /\ JsMap.get (s_id (session again)) (pendingQueue w3) = Some again
        /\ generate_effects w1 w3 = []).
Proof.
  intros Hpos Hwf Hnd Hlt. cbv zeta.
  unfold context_ids in Hnd. rewrite List.map_app, app_assoc in Hnd. simpl in Hnd.
  assert (Hnd1 : NoDup (JsMap.keys (pendingQueue w) ++ context_ids ctxs)).
  { apply NoDup_app in Hnd as [H _]. exact H. }
  destruct (queue_all_below ctxs w Hpos Hwf Hnd1 Hlt) as [Hq1 [Hg1 [Hgrow1 Hwf1]]].
  set (w1 := queue_all config anthropic ctxs w) in *.
  assert (Hsize1 : JsMap.size (pendingQueue w1)
                   = JsMap.size (pendingQueue w) + List.length ctxs).
  { rewrite Hq1. unfold JsMap.size. now rewrite List.length_app, List.length_map. }
  assert (Hkeys1 : JsMap.keys (pendingQueue w1)
                   = JsMap.keys (pendingQueue w) ++ context_ids ctxs).
  { rewrite Hq1. unfold JsMap.keys, context_ids, pending_entry.
    rewrite List.map_app, List.map_map. reflexivity. }
  assert (Hfresh : ~ In (s_id (session ctx)) (JsMap.keys (pendingQueue w1))).
  { rewrite Hkeys1. intros Hin. apply NoDup_app in Hnd as [_ [Hdis _]].
    apply (Hdis (s_id (session ctx))); apply list_elem_of_In; [exact Hin | now left]. }
  assert (Hvalues1 : JsMap.values (pendingQueue w1) = JsMap.values (pendingQueue w) ++ ctxs).
  { rewrite Hq1. unfold JsMap.values, pending_entry.
    rewrite List.map_app, List.map_map. simpl. now rewrite List.map_id. }
  split; [split; assumption |].
  split; [| split].
  - intros Heq.
    destruct (queueSession_step ctx w1 Hpos Hwf1 ltac:(lia)) as [Hfull _].
    destruct (Hfull Hfresh ltac:(lia)) as [Hq2 Hg2].
    split; [exact Hq2 |]. rewrite Hg2, Hvalues1, <- app_assoc. reflexivity.
  - intros Hless.
    destruct (queueSession_step ctx w1 Hpos Hwf1 ltac:(lia)) as [_ [Happend _]].
    destruct (Happend Hfresh ltac:(lia)) as [Hq2 [_ Hg2]]. auto.
  - intros again Hin. cbv zeta.
    destruct (queueSession_step again w1 Hpos Hwf1 ltac:(lia)) as [_ [_ [Hover _]]].
    destruct (Hover Hin) as [_ [Hs [Hget Hg]]]. auto.
Qed.

End Batch.

(** The witness of [flush_drains_up_to_batchSize]: two pending sessions and
    a batch size of two. *)
Lemma flush_drains_up_to_batchSize_witness :
  keyed_by_id (pendingQueue fx_two_pending)
  /\ (Z.of_nat (JsMap.size (pendingQueue fx_two_pending))
      <= batchSize (config_with_batchSize 2))%Z
  /\ pendingQueue (snd (flush (config_with_batchSize 2) (answers "") fx_two_pending)) = [].
Proof.
  assert (H1 : keyed_by_id (pendingQueue fx_two_pending)).
  { intros k ctx [H | [H | []]]; inversion H; reflexivity. }
  assert (H2 : (Z.of_nat (JsMap.size (pendingQueue fx_two_pending))
                <= batchSize (config_with_batchSize 2))%Z) by (simpl; lia).
  split; [exact H1 | split; [exact H2 |]].
  destruct (flush_drains_up_to_batchSize (config_with_batchSize 2) (answers "")
              fx_two_pending H1 H2) as [[Hq _] _].
  exact Hq.
Defined.

(** C3 as worded fails in two ways.  With a batch size of zero, which
    [loadConfig] reads from BATCH_SIZE=0, a session that the worker has
    queued stays in the map after [flush] and after [shutdown].  And a
    flush that empties the map may still lose its sessions: with the
    default configuration and a client that rejects the request, the
    flushed session is neither documented nor put on the retry queue or
    the dead-letter list. *)
Lemma flush_leaves_or_loses_sessions :
  let zero := config_with_batchSize 0 in
  let event := fx_event "a" None in
  let pending w := JsMap.keys (pendingQueue w) in
  loadConfigFrom fx_env_zero = Ok zero
  /\ (let w := snd (handleEvent zero (answers "") event fx_small_store) in
      pending w = ["a"]
      /\ pending (snd (flush zero (answers "") w)) = ["a"]
      /\ pending (snd (shutdown zero (answers "") w)) = ["a"])
  /\ (let w := snd (handleEvent defaultConfig rejects event fx_small_store) in
      let w' := snd (flush defaultConfig rejects w) in
      pending w = ["a"]
      /\ pending w' = []
      /\ w_docs w' = ∅
      /\ retry_queue w' = []
      /\ dead_letter w' = []).
Proof. cbv zeta. repeat split; vm_compute; reflexivity. Qed.


(** The witness of [processBatch_tier_partition]: a flush of one basic and
    one premium session makes one call per tier. *)
Lemma processBatch_tier_partition_witness :
  List.length
    (generate_effects fx_two_pending
       (snd (processBatch (config_with_batchSize 2) (answers "") fx_two_pending))) <= 2.
Proof.
  destruct (processBatch_tier_partition (config_with_batchSize 2) (answers "") fx_two_pending)
    as [basic [premium [_ [_ [_ [_ [_ [_ H]]]]]]]].
  exact H.
Defined.

(** The witness of [queueSession_size_trigger]: two sessions and a batch
    size of two, starting from an empty map. *)
Lemma queueSession_size_trigger_witness :
  let config := config_with_batchSize 2 in
  let w := fx_pending [] in
  let a := fx_context "a" 1 None in
  let b := fx_context "b" 1 (Some "premium") in
  (1 <= batchSize config)%Z
  /\ pending_wf (pendingQueue w)
  /\ NoDup (JsMap.keys (pendingQueue w) ++ context_ids ([a] ++ [b]))
  /\ (Z.of_nat (JsMap.size (pendingQueue w) + List.length [a]) < batchSize config)%Z
  /\ pendingQueue (queue_all config (answers "") [a] w) = [pending_entry a]
  /\ pendingQueue (snd (queueSession config (answers "") b
                          (queue_all config (answers "") [a] w))) = [].
Proof.
  cbv zeta.
  assert (H1 : (1 <= batchSize (config_with_batchSize 2))%Z) by (simpl; lia).
  assert (H2 : pending_wf (pendingQueue (fx_pending []))).
  { split; [constructor | intros k c []]. }
  assert (H3 : NoDup (JsMap.keys (pendingQueue (fx_pending []))
                      ++ context_ids ([fx_context "a" 1 None]
                                      ++ [fx_context "b" 1 (Some "premium")]))).
  { simpl. apply NoDup_cons. split; [| apply NoDup_singleton].
    intros H. apply list_elem_of_In in H. destruct H as [H | []]. discriminate. }
  assert (H4 : (Z.of_nat (JsMap.size (pendingQueue (fx_pending []))
                          + List.length [fx_context "a" 1 None])
                < batchSize (config_with_batchSize 2))%Z) by (simpl; lia).
  split; [exact H1 |]. split; [exact H2 |]. split; [exact H3 |]. split; [exact H4 |].
  destruct (queueSession_size_trigger (config_with_batchSize 2) (answers "")
              [fx_context "a" 1 None] (fx_context "b" 1 (Some "premium"))
              (fx_pending []) H1 H2 H3 H4) as [[Hq _] [Hfull _]].
  split; [exact Hq |]. apply Hfull. simpl. lia.
Defined.

(** C4 as worded fails for a batch size of zero, which [loadConfig] reads
    from BATCH_SIZE=0: the first call finds the size at the threshold and
    runs [processBatch] at once, but the batch it takes is empty, so the
    session is still pending after the call and no request was made. *)
Lemma queueSession_zero_batchSize_stays_pending :
  let zero := config_with_batchSize 0 in
  let w' := snd (queueSession zero (answers "") (fx_context "a" 1 None) fx_small_store) in
  loadConfigFrom fx_env_zero = Ok zero
  /\ (batchSize zero <= Z.of_nat (JsMap.size (pendingQueue w')))%Z
  /\ JsMap.keys (pendingQueue w') = ["a"]
  /\ pendingQueue w' <> []
  /\ generate_effects fx_small_store w' = [].
Proof.
  cbv zeta. split; [vm_compute; reflexivity |]. split; [vm_compute; discriminate |].
  split; [vm_compute; reflexivity |]. split; [vm_compute; discriminate |].
  vm_compute; reflexivity.
Qed.

(** ** The idle session scanner *)

Lemma find_replace_session s l :
  List.find (fun x => String.eqb (s_id x) (s_id s)) l <> None ->
  List.find (fun x => String.eqb (s_id x) (s_id s)) (replace_session s l) = Some s.
Proof.
  induction l as [| x l IH]; simpl; [congruence |].
  destruct (String.eqb (s_id x) (s_id s)) eqn:E; simpl.
  - now rewrite String.eqb_refl.
  - rewrite E. exact IH.
Qed.

Lemma find_replace_session_other s k l :
  k <> s_id s ->
  List.find (fun x => String.eqb (s_id x) k) (replace_session s l)
  = List.find (fun x => String.eqb (s_id x) k) l.
Proof.
  intros Hne. induction l as [| x l IH]; simpl; [reflexivity |].
  destruct (String.eqb_spec (s_id x) (s_id s)) as [Heq | Hneq]; simpl.
  - destruct (String.eqb_spec (s_id s) k); [congruence |].
    destruct (String.eqb_spec (s_id x) k); [congruence | reflexivity].
  - destruct (String.eqb (s_id x) k); [reflexivity | exact IH].
Qed.

Lemma find_session_in s l :
  In s l -> List.find (fun x => String.eqb (s_id x) (s_id s)) l <> None.
Proof.
  intros Hin Hnone. apply (List.find_none _ _ Hnone) in Hin.
  now rewrite String.eqb_refl in Hin.
Qed.

Lemma find_session_nodup s l :
  NoDup (session_ids l) -> In s l ->
  List.find (fun x => String.eqb (s_id x) (s_id s)) l = Some s.
Proof.
  induction l as [| x l IH]; simpl; intros Hnd Hin; [tauto |].
  apply NoDup_cons in Hnd as [Hx Hnd].
  destruct Hin as [-> | Hin]; [now rewrite String.eqb_refl |].
  destruct (String.eqb_spec (s_id x) (s_id s)) as [Heq | Hne]; [| auto].
  exfalso. apply Hx. apply list_elem_of_In. rewrite Heq.
  apply List.in_map. exact Hin.
Qed.

Lemma auto_outcome_cases s w :
  (auto_outcome s w = OutcomeCompleted
   <-> exists t, In t (tasks_on_file (s_id s) w) /\ tk_status t = TaskCompleted)
  /\ (auto_outcome s w = OutcomeAbandoned
      <-> forall t, In t (tasks_on_file (s_id s) w) -> tk_status t <> TaskCompleted).
Proof.
  unfold auto_outcome. set (tks := tasks_on_file (s_id s) w).
  assert (Hcompleted : forall t, is_completed t = true <-> tk_status t = TaskCompleted).
  { intros t. unfold is_completed. destruct (tk_status t); split; congruence. }
  destruct (List.filter is_completed tks) as [| t0 rest] eqn:Hf; simpl.
  - split; split; try congruence.
    + intros [t [Hin Ht]]. exfalso.
      assert (Hin' : In t (List.filter is_completed tks))
        by (apply List.filter_In; split; [exact Hin | now apply Hcompleted]).
      rewrite Hf in Hin'. destruct Hin'.
    + intros _ t Hin Ht.
      assert (Hin' : In t (List.filter is_completed tks))
        by (apply List.filter_In; split; [exact Hin | now apply Hcompleted]).
      rewrite Hf in Hin'. destruct Hin'.
  - assert (H0 : In t0 (List.filter is_completed tks)) by (rewrite Hf; now left).
    apply List.filter_In in H0 as [Hin0 Hc0]. apply Hcompleted in Hc0.
    split; split; try congruence.
    + intros _. exists t0. auto.
    + intros Hall. exfalso. apply (Hall t0 Hin0 Hc0).
Qed.

Section Scanner.

Variable config : Config.

(** One [autoFinalize] on a session whose directory exists. *)
Lemma autoFinalize_run s w :
  List.find (fun x => String.eqb (s_id x) (s_id s)) (w_sessions w) <> None ->
  autoFinalize config s w
  = (Ok tt,
     set_trace (trace w ++ auto_effects config w s)
       (set_sessions (replace_session (auto_finalized s w) (w_sessions w)) w)).
Proof.
  intros Hfound. unfold autoFinalize, updateSession, getTasks, getSession, bind, gets, emit, modify.
  cbv beta iota. simpl s_id.
  destruct (List.find _ (w_sessions w)) eqn:E; [| congruence].
  cbv beta iota. unfold auto_effects, auto_event, auto_finalized, auto_outcome, tasks_on_file.
  simpl. rewrite <- app_assoc. reflexivity.
Qed.

Lemma find_replace_session_exists s k l :
  List.find (fun x => String.eqb (s_id x) k) (replace_session s l) <> None
  <-> List.find (fun x => String.eqb (s_id x) k) l <> None.
Proof.
  destruct (string_dec k (s_id s)) as [-> | Hne].
  - split; intros H.
    + intros Hnone. apply H. clear H.
      induction l as [| x l IH]; simpl in *; [reflexivity |].
      destruct (String.eqb (s_id x) (s_id s)) eqn:E; [discriminate |].
      simpl. rewrite E. auto.
    + rewrite (find_replace_session s l H). discriminate.
  - now rewrite find_replace_session_other.
Qed.

Lemma scan_unfold w :
  scan config w = for_of (List.filter is_listed (w_sessions w)) (scan_body config (now w)) w.
Proof. reflexivity. Qed.

Lemma scan_loop w0 xs : forall w,
  now w = now w0 -> w_tasks w = w_tasks w0 ->
  (forall x, In x xs -> List.find (fun y => String.eqb (s_id y) (s_id x)) (w_sessions w) <> None) ->
  let idle := List.filter (idle_beyond_timeout config w0) xs in
  let w' := snd (for_of xs (scan_body config (now w0)) w) in
  fst (for_of xs (scan_body config (now w0)) w) = Ok tt
  /\ trace w' = trace w ++ List.flat_map (auto_effects config w0) idle
  /\ (forall k, ~ In k (session_ids idle) ->
       List.find (fun y => String.eqb (s_id y) k) (w_sessions w')
       = List.find (fun y => String.eqb (s_id y) k) (w_sessions w))
  /\ (NoDup (session_ids xs) ->
      forall x, In x idle ->
        List.find (fun y => String.eqb (s_id y) (s_id x)) (w_sessions w')
        = Some (auto_finalized x w0)).
Proof.
  induction xs as [| x xs IH]; intros w Hnow Htasks Hpresent; cbv zeta.
  - simpl. rewrite app_nil_r. repeat split; auto. intros _ x [].
  - simpl for_of. unfold bind.
    assert (Hrest : forall y, In y xs ->
              forall w1, (forall k, List.find (fun z => String.eqb (s_id z) k) (w_sessions w1) <> None
                          <-> List.find (fun z => String.eqb (s_id z) k) (w_sessions w) <> None) ->
              List.find (fun z => String.eqb (s_id z) (s_id y)) (w_sessions w1) <> None).
    { intros y Hy w1 Hsame. apply Hsame. apply Hpresent. now right. }
    assert (Hbody : scan_body config (now w0) x
                    = if idle_beyond_timeout config w0 x
                      then autoFinalize config x else ret tt) by reflexivity.
    rewrite Hbody. simpl List.filter.
    destruct (idle_beyond_timeout config w0 x) eqn:Hidle.
    + rewrite (autoFinalize_run x w) by (apply Hpresent; now left).
      set (w1 := set_trace _ _).
      assert (Heff : auto_effects config w x = auto_effects config w0 x).
      { unfold auto_effects, auto_event, auto_finalized, auto_outcome, tasks_on_file.
        now rewrite Hnow, Htasks. }
      assert (Hfin : auto_finalized x w = auto_finalized x w0).
      { unfold auto_finalized, auto_outcome, tasks_on_file. now rewrite Hnow, Htasks. }
      assert (Hs1 : w_sessions w1 = replace_session (auto_finalized x w0) (w_sessions w))
        by (unfold w1; simpl; now rewrite Hfin).
      assert (Ht1 : trace w1 = trace w ++ auto_effects config w0 x)
        by (unfold w1; simpl; now rewrite Heff).
      destruct (IH w1) as [Hok [Htrace [Hother Hstored]]]; [exact Hnow | exact Htasks | |].
      { intros y Hy. apply (Hrest y Hy). intros k. rewrite Hs1.
        apply find_replace_session_exists. }
      clearbody w1. cbv zeta in Hok, Htrace, Hother, Hstored.
      split; [exact Hok |]. split; [| split].
      * rewrite Htrace, Ht1. simpl List.flat_map. now rewrite <- app_assoc.
      * intros k Hk. unfold session_ids in Hk, Hother. simpl in Hk.
        rewrite Hother by tauto. rewrite Hs1.
        apply find_replace_session_other. simpl. intros ->. tauto.
      * intros Hnd y Hy. simpl in Hnd. apply NoDup_cons in Hnd as [Hx Hnd].
        destruct Hy as [<- | Hy]; [| apply Hstored; assumption].
        rewrite Hother.
        -- rewrite Hs1. change (s_id x) with (s_id (auto_finalized x w0)) at 1.
           apply find_replace_session. simpl. apply Hpresent. now left.
        -- intros Hin. apply Hx. apply list_elem_of_In.
           unfold session_ids in *. apply List.in_map_iff in Hin as [z [Hz Hzin]].
           apply List.filter_In in Hzin as [Hzin _].
           rewrite <- Hz. apply List.in_map. exact Hzin.
    + unfold ret at 1 2 3 4. cbv beta iota.
      destruct (IH w Hnow Htasks) as [Hok [Htrace [Hother Hstored]]].
      { intros y Hy. apply Hpresent. now right. }
      cbv zeta in Hok, Htrace, Hother, Hstored.
      split; [exact Hok |]. split; [exact Htrace |]. split; [exact Hother |].
      intros Hnd y Hy. simpl in Hnd. apply NoDup_cons in Hnd as [_ Hnd]. now apply Hstored.
Qed.

(** C8: a listed session (active or completed) that the scan finds idle
    beyond the timeout is written back with status finalized, the
    auto-finalized flag, the current time as [updatedAt] and the outcome
    derived from its tasks (completed when some task is completed,
    abandoned otherwise), and after that write the [session.idle_timeout]
    event carrying the same outcome is published. *)
Theorem scan_auto_finalizes w s :
  NoDup (session_ids (w_sessions w)) ->
  In s (w_sessions w) ->
  is_listed s = true ->
  idle_beyond_timeout config w s = true ->
  let w' := snd (scan config w) in
  let s' := auto_finalized s w in
  let event := auto_event config s w in
  fst (scan config w) = Ok tt
  /\ (exists before after,
        new_effects w w' = before ++ [EUpdateSession s'; EPublish event] ++ after)
  /\ List.find (fun x => String.eqb (s_id x) (s_id s)) (w_sessions w') = Some s'
  /\ s_status s' = StatusFinalized
  /\ s_autoFinalized s' = Some true
  /\ s_updatedAt s' = now w
  /\ s_outcome s' = Some (auto_outcome s w)
  /\ e_type event = SessionIdleTimeout
  /\ e_sessionId event = s_id s
  /\ p_outcome (e_payload event) = Some (auto_outcome s w)
  /\ ((exists t, In t (tasks_on_file (s_id s) w) /\ tk_status t = TaskCompleted) ->
      auto_outcome s w = OutcomeCompleted)
  /\ ((forall t, In t (tasks_on_file (s_id s) w) -> tk_status t <> TaskCompleted) ->
      auto_outcome s w = OutcomeAbandoned).
Proof.
  intros Hnd Hin Hlisted Hidle. cbv zeta. rewrite scan_unfold.
  set (active := List.filter is_listed (w_sessions w)).
  assert (Hactive : forall x, In x active -> In x (w_sessions w)).
  { intros x Hx. apply List.filter_In in Hx. tauto. }
  assert (Hnd_active : NoDup (session_ids active)).
  { unfold session_ids, active. clear -Hnd.
    induction (w_sessions w) as [| x l IH]; simpl in *; [constructor |].
    apply NoDup_cons in Hnd as [Hx Hnd]. destruct (is_listed x); [| auto].
    simpl. apply NoDup_cons. split; [| auto].
    intros Hx'. apply Hx. apply list_elem_of_In. apply list_elem_of_In in Hx'.
    apply List.in_map_iff in Hx' as [z [Hz Hzin]]. apply List.filter_In in Hzin as [Hzin _].
    rewrite <- Hz. unfold session_ids. apply List.in_map. exact Hzin. }
  destruct (scan_loop w active w eq_refl eq_refl) as [Hok [Htrace [_ Hstored]]].
  { intros x Hx. apply find_session_in. now apply Hactive. }
  cbv zeta in Hok, Htrace, Hstored.
  assert (Hs_idle : In s (List.filter (idle_beyond_timeout config w) active)).
  { apply List.filter_In. split; [| exact Hidle]. apply List.filter_In. auto. }
  split; [exact Hok |]. split; [| split; [apply (Hstored Hnd_active s Hs_idle) |]].
  - destruct (List.in_split _ _ Hs_idle) as [l1 [l2 Hsplit]].
    exists (List.flat_map (auto_effects config w) l1),
           (List.flat_map (auto_effects config w) l2).
    rewrite (new_effects_app _ _ _ Htrace), Hsplit, List.flat_map_app. reflexivity.
  - repeat split; try reflexivity.
    + apply (proj1 (auto_outcome_cases s w)).
    + apply (proj2 (auto_outcome_cases s w)).
Qed.

End Scanner.

(** The witness of [scan_auto_finalizes]: the session of [fx_scanner] that
    has been idle for an hour and has a completed task. *)
Lemma scan_auto_finalizes_witness :
  let s := fx_session "idle-done" (1140 * 60000) StatusActive None in
  NoDup (session_ids (w_sessions fx_scanner))
  /\ In s (w_sessions fx_scanner)
  /\ is_listed s = true
  /\ idle_beyond_timeout defaultConfig fx_scanner s = true
  /\ fst (scan defaultConfig fx_scanner) = Ok tt
  /\ List.find (fun x => String.eqb (s_id x) "idle-done")
       (w_sessions (snd (scan defaultConfig fx_scanner)))
     = Some (auto_finalized s fx_scanner).
Proof.
  cbv zeta.
  assert (H1 : NoDup (session_ids (w_sessions fx_scanner))).
  { apply (bool_decide_unpack _). vm_compute. exact I. }
  assert (H2 : In (fx_session "idle-done" (1140 * 60000) StatusActive None)
                 (w_sessions fx_scanner)) by (simpl; auto).
  assert (H3 : is_listed (fx_session "idle-done" (1140 * 60000) StatusActive None) = true)
    by reflexivity.
  assert (H4 : idle_beyond_timeout defaultConfig fx_scanner
                 (fx_session "idle-done" (1140 * 60000) StatusActive None) = true)
    by reflexivity.
  split; [exact H1 |]. split; [exact H2 |]. split; [exact H3 |]. split; [exact H4 |].
  destruct (scan_auto_finalizes defaultConfig fx_scanner _ H1 H2 H3 H4)
    as [Hok [_ [Hfind _]]].
  split; [exact Hok | exact Hfind].
Defined.

(** ** Staged summarization *)

Lemma after_calls_zero w : after_calls [] 0 w = w.
Proof. destruct w. unfold after_calls. simpl. now rewrite app_nil_r, Nat.add_0_r. Qed.

Lemma after_calls_compose e1 e2 m1 m2 w :
  after_calls e2 m2 (after_calls e1 m1 w) = after_calls (e1 ++ e2) (m1 + m2) w.
Proof.
  destruct w. unfold after_calls. simpl. now rewrite <- app_assoc, Nat.add_assoc.
Qed.

Lemma first_text_run reply w :
  first_text reply w
  = if reply_fails reply then (Throw (reply_error reply), w) else (Ok (reply_text reply), w).
Proof. destruct reply; reflexivity. Qed.

(** The loop test [i < thoughts.length] at [i = j * STAGE_SIZE]. *)
Lemma stage_loop_test n j :
  (j * STAGE_SIZE <? n)%nat = (j <? ceil_div n STAGE_SIZE)%nat.
Proof.
  unfold ceil_div, STAGE_SIZE.
  pose proof (Nat.div_mod_eq n 20) as Hdm.
  pose proof (Nat.mod_upper_bound n 20 ltac:(lia)) as Hmod.
  destruct (Nat.eqb_spec (n mod 20) 0) as [H0 | H0].
  - destruct (Nat.ltb_spec (j * 20) n); destruct (Nat.ltb_spec j (n / 20 + 0));
      try reflexivity; exfalso; nia.
  - destruct (Nat.ltb_spec (j * 20) n); destruct (Nat.ltb_spec j (n / 20 + 1));
      try reflexivity; exfalso; nia.
Qed.

Lemma stage_index j : (j * STAGE_SIZE / STAGE_SIZE = j)%nat.
Proof. apply Nat.div_mul. discriminate. Qed.

Lemma stage_slice ths j :
  slice (j * STAGE_SIZE) (j * STAGE_SIZE + STAGE_SIZE) ths = stage ths j.
Proof. reflexivity. Qed.

Section Staged.

Variable anthropic : nat -> LlmRequest -> LlmReply.
Variable model : string.
Variable ths : list ThoughtRecord.

Lemma stage_loop_S fuel totalStages i acc :
  stage_loop anthropic (S fuel) model ths totalStages i acc
  = if (i <? List.length ths)%nat then
      bind (messages_create anthropic model 500
              (generateStagePrompt (slice i (i + STAGE_SIZE) ths)
                 (Z.of_nat (i / STAGE_SIZE) + 1)%Z totalStages))
           (fun summary =>
              stage_loop anthropic fuel model ths totalStages (i + STAGE_SIZE)
                (acc ++ [summary]))
    else ret acc.
Proof. reflexivity. Qed.

(** One iteration of the loop at stage [j]. *)
Lemma stage_loop_step fuel j acc w :
  j < stage_count ths ->
  stage_loop anthropic (S fuel) model ths (Z.of_nat (stage_count ths))
    (j * STAGE_SIZE) acc w
  = let reply := anthropic (apiCalls w) (stage_request model ths j) in
    let w1 := after_calls [EGenerate (stage_request model ths j)] 1 w in
    if reply_fails reply then (Throw (reply_error reply), w1)
    else stage_loop anthropic fuel model ths (Z.of_nat (stage_count ths))
           (S j * STAGE_SIZE) (acc ++ [reply_text reply]) w1.
Proof.
  intros Hj. cbv zeta. rewrite stage_loop_S.
  rewrite stage_loop_test. fold (stage_count ths).
  destruct (Nat.ltb_spec j (stage_count ths)) as [_ | Hge]; [| lia].
  rewrite stage_index, stage_slice.
  unfold bind. rewrite messages_create_run. cbv zeta.
  unfold generateStagePrompt.
  change {| rq_model := model; rq_max_tokens := 500;
            rq_prompt := StagePrompt (stage ths j) (Z.of_nat j + 1)
                           (Z.of_nat (stage_count ths)) |}
    with (stage_request model ths j).
  rewrite first_text_run.
  replace (set_apiCalls (S (apiCalls w))
             (set_trace (trace w ++ [EGenerate (stage_request model ths j)]) w))
    with (after_calls [EGenerate (stage_request model ths j)] 1 w)
    by (unfold after_calls; now rewrite Nat.add_1_r).
  destruct (reply_fails _); [reflexivity |].
  replace (j * STAGE_SIZE + STAGE_SIZE) with (S j * STAGE_SIZE) by (unfold STAGE_SIZE; lia).
  reflexivity.
Qed.

Lemma stage_loop_done fuel acc w :
  stage_loop anthropic fuel model ths (Z.of_nat (stage_count ths))
    (stage_count ths * STAGE_SIZE) acc w = (Ok acc, w).
Proof.
  destruct fuel; [simpl stage_loop | rewrite stage_loop_S];
    rewrite stage_loop_test; fold (stage_count ths);
    rewrite Nat.ltb_irrefl; reflexivity.
Qed.

Variable base : nat.

Lemma stage_loop_succeeds m : forall j fuel acc w,
  j + m = stage_count ths -> m <= fuel -> apiCalls w = base + j ->
  (forall j', j <= j' < stage_count ths ->
     reply_fails (stage_reply anthropic model ths base j') = false) ->
  stage_loop anthropic fuel model ths (Z.of_nat (stage_count ths)) (j * STAGE_SIZE) acc w
  = (Ok (acc ++ List.map (fun j' => reply_text (stage_reply anthropic model ths base j'))
                  (List.seq j m)),
     after_calls (List.map (fun j' => EGenerate (stage_request model ths j')) (List.seq j m))
       m w).
Proof.
  induction m as [| m IH]; intros j fuel acc w Hk Hfuel Hcalls Hok.
  - replace j with (stage_count ths) by lia. rewrite stage_loop_done.
    simpl. now rewrite app_nil_r, after_calls_zero.
  - destruct fuel as [| fuel]; [lia |].
    rewrite stage_loop_step by lia. cbv zeta.
    rewrite Hcalls. fold (stage_reply anthropic model ths base j).
    rewrite (Hok j) by lia.
    rewrite (IH (S j) fuel); try lia.
    + simpl List.seq. simpl List.map. rewrite <- app_assoc. simpl.
      rewrite after_calls_compose. reflexivity.
    + unfold after_calls. simpl. lia.
    + intros j' Hj'. apply Hok. lia.
Qed.

Lemma stage_loop_fails d : forall j fuel acc w,
  j + d < stage_count ths -> d < fuel -> apiCalls w = base + j ->
  (forall j', j <= j' < j + d ->
     reply_fails (stage_reply anthropic model ths base j') = false) ->
  reply_fails (stage_reply anthropic model ths base (j + d)) = true ->
  stage_loop anthropic fuel model ths (Z.of_nat (stage_count ths)) (j * STAGE_SIZE) acc w
  = (Throw (reply_error (stage_reply anthropic model ths base (j + d))),
     after_calls (List.map (fun j' => EGenerate (stage_request model ths j'))
                    (List.seq j (S d)))
       (S d) w).
Proof.
  induction d as [| d IH]; intros j fuel acc w Hk Hfuel Hcalls Hok Hfail.
  - destruct fuel as [| fuel]; [lia |].
    rewrite stage_loop_step by lia. cbv zeta.
    rewrite Hcalls. fold (stage_reply anthropic model ths base j).
    rewrite Nat.add_0_r in Hfail |- *. rewrite Hfail. reflexivity.
  - destruct fuel as [| fuel]; [lia |].
    rewrite stage_loop_step by lia. cbv zeta.
    rewrite Hcalls. fold (stage_reply anthropic model ths base j).
    rewrite (Hok j) by lia.
    replace (j + S d) with (S j + d) in * by lia.
    rewrite (IH (S j) fuel); try lia; try assumption.
    + rewrite after_calls_compose. reflexivity.
    + unfold after_calls. simpl. lia.
    + intros j' Hj'. apply Hok. lia.
Qed.

End Staged.

Lemma stage_count_le ths : stage_count ths <= List.length ths.
Proof.
  unfold stage_count, ceil_div, STAGE_SIZE.
  pose proof (Nat.div_mod_eq (List.length ths) 20) as Hdm.
  destruct (Nat.eqb_spec (List.length ths mod 20) 0); lia.
Qed.

(** The first failing request among [k], if any. *)
Lemma first_failure (p : nat -> bool) (k : nat) :
  (forall j, j < k -> p j = false)
  \/ (exists f, f < k /\ p f = true /\ forall j, j < f -> p j = false).
Proof.
  induction k as [| k [IH | [f [Hf [Hp Hbefore]]]]].
  - left. intros j Hj. lia.
  - destruct (p k) eqn:Hk.
    + right. exists k. repeat split; [lia | exact Hk | exact IH].
    + left. intros j Hj. destruct (Nat.eq_dec j k) as [-> | Hne]; [exact Hk | apply IH; lia].
  - right. exists f. repeat split; [lia | exact Hp | exact Hbefore].
Qed.

(** *** The partition into stages *)

Lemma firstn_add {A} (a b : nat) (l : list A) :
  List.firstn (a + b) l = List.firstn a l ++ List.firstn b (List.skipn a l).
Proof.
  revert l. induction a as [| a IH]; intros l; simpl; [reflexivity |].
  destruct l as [| x l]; simpl; [now destruct b | now rewrite IH].
Qed.

Lemma stages_concat_upto ths m :
  List.concat (List.map (stage ths) (List.seq 0 m)) = List.firstn (m * STAGE_SIZE) ths.
Proof.
  induction m as [| m IH]; [reflexivity |].
  rewrite List.seq_S, List.map_app, List.concat_app, IH.
  cbn [List.map List.concat Nat.add]. rewrite app_nil_r. unfold stage, slice.
  replace (m * STAGE_SIZE + STAGE_SIZE - m * STAGE_SIZE) with STAGE_SIZE by lia.
  rewrite <- firstn_add. f_equal. unfold STAGE_SIZE. lia.
Qed.

Lemma stage_length ths j :
  List.length (stage ths j) = Nat.min STAGE_SIZE (List.length ths - j * STAGE_SIZE).
Proof.
  unfold stage, slice.
  replace (j * STAGE_SIZE + STAGE_SIZE - j * STAGE_SIZE) with STAGE_SIZE by lia.
  now rewrite List.length_firstn, List.length_skipn.
Qed.

Lemma stages_partition ths :
  List.concat (stages ths) = ths
  /\ List.length (stages ths) = ceil_div (List.length ths) STAGE_SIZE
  /\ (forall j, j + 1 < stage_count ths -> List.length (stage ths j) = STAGE_SIZE)
  /\ (forall j, j + 1 = stage_count ths ->
        1 <= List.length (stage ths j) <= STAGE_SIZE).
Proof.
  assert (Hbound : forall j, (j <? stage_count ths)%nat = (j * STAGE_SIZE <? List.length ths)%nat).
  { intros j. symmetry. apply stage_loop_test. }
  split; [| split; [| split]].
  - unfold stages. rewrite stages_concat_upto. apply List.firstn_all2.
    specialize (Hbound (stage_count ths)). rewrite Nat.ltb_irrefl in Hbound.
    symmetry in Hbound. apply Nat.ltb_ge in Hbound. exact Hbound.
  - unfold stages. now rewrite List.length_map, List.length_seq.
  - intros j Hj. rewrite stage_length.
    specialize (Hbound (S j)). destruct (Nat.ltb_spec (S j) (stage_count ths)); [| lia].
    symmetry in Hbound. apply Nat.ltb_lt in Hbound. unfold STAGE_SIZE in *. lia.
  - intros j Hj. rewrite stage_length.
    specialize (Hbound j). destruct (Nat.ltb_spec j (stage_count ths)); [| lia].
    symmetry in Hbound. apply Nat.ltb_lt in Hbound. unfold STAGE_SIZE in *. lia.
Qed.

Section StagedRun.

Variable anthropic : nat -> LlmRequest -> LlmReply.
Variable ctx : SessionContext.
Variable model : string.

Lemma stagedSummarization_unfold w :
  stagedSummarization anthropic ctx model w
  = bind (stage_loop anthropic (List.length (thoughts ctx)) model (thoughts ctx)
            (Z.of_nat (stage_count (thoughts ctx))) (0 * STAGE_SIZE) [])
      (fun stageSummaries =>
         bind (messages_create anthropic model 3000
                 (generateSynthesisPrompt stageSummaries (tasks ctx) (session ctx)))
           (fun content =>
              bind (gets now) (fun generatedAt =>
                bind (saveDocumentation (staged_doc ctx content generatedAt))
                  (fun _ => ret (staged_doc ctx content generatedAt))))) w.
Proof. reflexivity. Qed.

(** A run in which no request fails. *)
Lemma stagedSummarization_succeeds w :
  let ths := thoughts ctx in
  let k := stage_count ths in
  let summaries := stage_summaries anthropic model ths (apiCalls w) k in
  let doc := staged_doc ctx (reply_text (synthesis_reply anthropic model ctx (apiCalls w))) (now w) in
  (forall j, j < k -> reply_fails (stage_reply anthropic model ths (apiCalls w) j) = false) ->
  reply_fails (synthesis_reply anthropic model ctx (apiCalls w)) = false ->
  stagedSummarization anthropic ctx model w
  = (Ok doc,
     set_docs (<[s_id (session ctx) := doc]> (w_docs w))
       (after_calls
          (stage_calls model ths k
           ++ [EGenerate (synthesis_request model summaries ctx); ESaveDocumentation doc])
          (S k) w)).
Proof.
  cbv zeta. intros Hstages Hsynth.
  rewrite stagedSummarization_unfold. unfold bind at 1.
  rewrite (stage_loop_succeeds anthropic model (thoughts ctx) (apiCalls w)
             (stage_count (thoughts ctx)) 0 _ [] w);
    [| lia | apply stage_count_le | lia | intros j Hj; apply Hstages; lia].
  cbn [List.app]. fold (stage_summaries anthropic model (thoughts ctx) (apiCalls w)
                          (stage_count (thoughts ctx))).
  fold (stage_calls model (thoughts ctx) (stage_count (thoughts ctx))).
  unfold bind at 1. rewrite messages_create_run. cbv zeta.
  unfold generateSynthesisPrompt.
  change {| rq_model := model; rq_max_tokens := 3000;
            rq_prompt := SynthesisPrompt ?s (tasks ctx) (session ctx) |}
    with (synthesis_request model s ctx).
  replace (apiCalls (after_calls _ _ w)) with (apiCalls w + stage_count (thoughts ctx))
    by reflexivity.
  fold (synthesis_reply anthropic model ctx (apiCalls w)).
  rewrite first_text_run, Hsynth.
  unfold bind, gets, saveDocumentation, emit, modify, ret. cbv beta iota.
  f_equal. destruct w.
  unfold after_calls, set_docs, set_apiCalls, set_trace. simpl.
  f_equal; [lia | rewrite <- !app_assoc; reflexivity].
Qed.

(** A run whose first failing request is the one of stage [f]. *)
Lemma stagedSummarization_stage_fails w f :
  let ths := thoughts ctx in
  f < stage_count ths ->
  (forall j, j < f -> reply_fails (stage_reply anthropic model ths (apiCalls w) j) = false) ->
  reply_fails (stage_reply anthropic model ths (apiCalls w) f) = true ->
  stagedSummarization anthropic ctx model w
  = (Throw (reply_error (stage_reply anthropic model ths (apiCalls w) f)),
     after_calls (stage_calls model ths (S f)) (S f) w).
Proof.
  cbv zeta. intros Hf Hbefore Hfail.
  rewrite stagedSummarization_unfold. unfold bind at 1.
  pose proof (stage_count_le (thoughts ctx)) as Hle.
  rewrite (stage_loop_fails anthropic model (thoughts ctx) (apiCalls w) f 0 _ [] w);
    [reflexivity | lia | lia | lia | intros j Hj; apply Hbefore; lia | exact Hfail].
Qed.

(** A run whose stages succeed and whose synthesis request fails. *)
Lemma stagedSummarization_synthesis_fails w :
  let ths := thoughts ctx in
  let k := stage_count ths in
  let summaries := stage_summaries anthropic model ths (apiCalls w) k in
  (forall j, j < k -> reply_fails (stage_reply anthropic model ths (apiCalls w) j) = false) ->
  reply_fails (synthesis_reply anthropic model ctx (apiCalls w)) = true ->
  stagedSummarization anthropic ctx model w
  = (Throw (reply_error (synthesis_reply anthropic model ctx (apiCalls w))),
     after_calls
       (stage_calls model ths k ++ [EGenerate (synthesis_request model summaries ctx)])
       (S k) w).
Proof.
  cbv zeta. intros Hstages Hsynth.
  rewrite stagedSummarization_unfold. unfold bind at 1.
  rewrite (stage_loop_succeeds anthropic model (thoughts ctx) (apiCalls w)
             (stage_count (thoughts ctx)) 0 _ [] w);
    [| lia | apply stage_count_le | lia | intros j Hj; apply Hstages; lia].
  cbn [List.app]. fold (stage_summaries anthropic model (thoughts ctx) (apiCalls w)
                          (stage_count (thoughts ctx))).
  fold (stage_calls model (thoughts ctx) (stage_count (thoughts ctx))).
  unfold bind at 1. rewrite messages_create_run. cbv zeta.
  unfold generateSynthesisPrompt.
  change {| rq_model := model; rq_max_tokens := 3000;
            rq_prompt := SynthesisPrompt ?s (tasks ctx) (session ctx) |}
    with (synthesis_request model s ctx).
  replace (apiCalls (after_calls _ _ w)) with (apiCalls w + stage_count (thoughts ctx))
    by reflexivity.
  fold (synthesis_reply anthropic model ctx (apiCalls w)).
  rewrite first_text_run, Hsynth.
  f_equal. destruct w.
  unfold after_calls, set_docs, set_apiCalls, set_trace. simpl.
  f_equal; [lia | rewrite <- !app_assoc; reflexivity].
Qed.

Lemma stage_calls_no_save ths m :
  List.existsb is_save (stage_calls model ths m) = false.
Proof.
  unfold stage_calls. induction (List.seq 0 m) as [| j l IH]; [reflexivity | exact IH].
Qed.

Lemma stage_calls_nth ths m j :
  j < m ->
  List.nth_error (stage_calls model ths m) j = Some (EGenerate (stage_request model ths j)).
Proof.
  intros Hj. unfold stage_calls.
  rewrite List.nth_error_map, List.nth_error_nth' with (d := 0) by (now rewrite List.length_seq).
  now rewrite List.seq_nth.
Qed.

Lemma stage_summaries_nth ths base m j :
  j < m ->
  List.nth_error (stage_summaries anthropic model ths base m) j
  = Some (reply_text (stage_reply anthropic model ths base j)).
Proof.
  intros Hj. unfold stage_summaries.
  rewrite List.nth_error_map, List.nth_error_nth' with (d := 0) by (now rewrite List.length_seq).
  now rewrite List.seq_nth.
Qed.

(** The three kinds of staged run. *)
Lemma staged_trichotomy w :
  let ths := thoughts ctx in
  let k := stage_count ths in
  ((forall j, j < k -> reply_fails (stage_reply anthropic model ths (apiCalls w) j) = false)
   /\ reply_fails (synthesis_reply anthropic model ctx (apiCalls w)) = false)
  \/ (exists f, f < k
       /\ reply_fails (stage_reply anthropic model ths (apiCalls w) f) = true
       /\ forall j, j < f -> reply_fails (stage_reply anthropic model ths (apiCalls w) j) = false)
  \/ ((forall j, j < k -> reply_fails (stage_reply anthropic model ths (apiCalls w) j) = false)
      /\ reply_fails (synthesis_reply anthropic model ctx (apiCalls w)) = true).
Proof.
  cbv zeta.
  destruct (first_failure
              (fun j => reply_fails (stage_reply anthropic model (thoughts ctx) (apiCalls w) j))
              (stage_count (thoughts ctx))) as [Hall | Hsome].
  - destruct (reply_fails (synthesis_reply anthropic model ctx (apiCalls w))) eqn:Hs; auto.
  - right. left. exact Hsome.
Qed.

End StagedRun.

(** A session of more than 20 thoughts without an up-to-date document goes
    to staged summarization. *)
Lemma processSession_staged config anthropic event w0 ctx :
  sessionContextOf (e_sessionId event) w0 = Some ctx ->
  needs_generation event ctx w0 ->
  20 < List.length (thoughts ctx) ->
  processSession config anthropic event w0
  = bind (stagedSummarization anthropic ctx (tier_model config (event_tier event)))
      (fun _ => ret tt)
      (set_trace
         (trace w0 ++ [EGenerateDocumentation (s_id (session ctx)) (event_tier event)]) w0).
Proof.
  intros Hctx Hneeds Hlong. unfold processSession.
  unfold bind at 1. rewrite getSessionContext_reads, Hctx.
  unfold bind at 1. unfold getDocumentation, gets. unfold needs_generation in Hneeds.
  replace (match w_docs w0 !! e_sessionId event with
           | Some doc => up_to_date doc ctx
           | None => false
           end) with false
    by (destruct (w_docs w0 !! e_sessionId event); [now rewrite Hneeds | reflexivity]).
  destruct (Nat.leb_spec (List.length (thoughts ctx)) 20) as [Hle | _]; [lia |].
  fold (event_tier event).
  unfold generateDocumentation, emit, modify. unfold bind at 2. cbv beta iota.
  unfold bind at 1. fold (tier_model config (event_tier event)). unfold STAGE_SIZE.
  destruct (Nat.ltb_spec 20 (List.length (thoughts ctx))) as [_ | Hge]; [| lia].
  reflexivity.
Qed.

Lemma new_effects_after effects m w :
  new_effects w (after_calls effects m w) = effects.
Proof. apply new_effects_app. reflexivity. Qed.

Lemma new_effects_after_docs effects m docs w :
  new_effects w (set_docs docs (after_calls effects m w)) = effects.
Proof. apply new_effects_app. reflexivity. Qed.

(** C5: when no request of the run fails, staged summarization cuts the
    thoughts into [ceil(n / 20)] consecutive stages of 20 thoughts, the last
    one possibly shorter, asks for one summary per stage in increasing stage
    order (stage [j+1] of [k] for the [j]-th slice), and only then asks for
    the synthesis of these summaries, in the same order, before it saves
    the document.  Sessions of more than 20 thoughts reach it through
    [generateDocumentation]. *)
Theorem stagedSummarization_stages
    (anthropic : nat -> LlmRequest -> LlmReply) (ctx : SessionContext) (model : string)
    (w : World) :
  let ths := thoughts ctx in
  let k := stage_count ths in
  let summaries := stage_summaries anthropic model ths (apiCalls w) k in
  let w' := snd (stagedSummarization anthropic ctx model w) in
  (forall j, j < k -> reply_fails (stage_reply anthropic model ths (apiCalls w) j) = false) ->
  reply_fails (synthesis_reply anthropic model ctx (apiCalls w)) = false ->
  (exists doc,
     fst (stagedSummarization anthropic ctx model w) = Ok doc
     /\ new_effects w w'
        = stage_calls model ths k
          ++ [EGenerate (synthesis_request model summaries ctx); ESaveDocumentation doc])
  /\ List.concat (stages ths) = ths
  /\ List.length (stages ths) = ceil_div (List.length ths) 20
  /\ (forall j, j + 1 < k -> List.length (stage ths j) = 20)
  /\ (forall j, j + 1 = k -> 1 <= List.length (stage ths j) <= 20)
  /\ (forall j, j < k ->
        List.nth_error (new_effects w w') j
        = Some (EGenerate {| rq_model := model;
                             rq_max_tokens := 500;
                             rq_prompt := StagePrompt (stage ths j) (Z.of_nat j + 1)
                                            (Z.of_nat k) |}))
  /\ (forall j, j < k ->
        List.nth_error summaries j
        = Some (reply_text (stage_reply anthropic model ths (apiCalls w) j)))
  /\ (forall config tier w0,
        20 < List.length ths ->
        generateDocumentation config anthropic ctx tier w0
        = stagedSummarization anthropic ctx
            (if String.eqb tier "premium" then premiumModel config else basicModel config)
            (set_trace (trace w0 ++ [EGenerateDocumentation (s_id (session ctx)) tier]) w0)).
Proof.
  cbv zeta. intros Hstages Hsynth.
  pose proof (stagedSummarization_succeeds anthropic ctx model w Hstages Hsynth) as Hrun.
  cbv zeta in Hrun. rewrite Hrun. simpl fst. simpl snd.
  rewrite new_effects_after_docs.
  destruct (stages_partition (thoughts ctx)) as [Hconcat [Hlen [Hfull Hlast]]].
  split; [eexists; split; reflexivity |].
  split; [exact Hconcat |]. split; [exact Hlen |]. split; [exact Hfull |].
  split; [exact Hlast |]. split; [| split].
  - intros j Hj. rewrite List.nth_error_app1.
    + apply stage_calls_nth. exact Hj.
    + unfold stage_calls. now rewrite List.length_map, List.length_seq.
  - intros j Hj. apply stage_summaries_nth. exact Hj.
  - intros config tier w0 Hlong. unfold generateDocumentation, bind, emit, modify.
    cbv beta iota. unfold STAGE_SIZE.
    destruct (Nat.ltb_spec 20 (List.length (thoughts ctx))); [reflexivity | lia].
Qed.

(** C6: a staged run that meets a failing request stops there with that
    failure: the later stages and the synthesis are not requested, nothing
    is saved and the stored documents are as before; the document is saved
    only in a run whose stage and synthesis requests all succeeded; a run
    ends in a document or in one failure, never in anything else. *)
Theorem stagedSummarization_aborts
    (anthropic : nat -> LlmRequest -> LlmReply) (ctx : SessionContext) (model : string)
    (w : World) :
  let ths := thoughts ctx in
  let k := stage_count ths in
  let summaries := stage_summaries anthropic model ths (apiCalls w) k in
  let run := stagedSummarization anthropic ctx model w in
  let w' := snd run in
  (forall f, f < k ->
     (forall j, j < f -> reply_fails (stage_reply anthropic model ths (apiCalls w) j) = false) ->
     reply_fails (stage_reply anthropic model ths (apiCalls w) f) = true ->
     fst run = Throw (reply_error (stage_reply anthropic model ths (apiCalls w) f))
     /\ new_effects w w' = stage_calls model ths (S f))
  /\ ((forall j, j < k -> reply_fails (stage_reply anthropic model ths (apiCalls w) j) = false) ->
      reply_fails (synthesis_reply anthropic model ctx (apiCalls w)) = true ->
      fst run = Throw (reply_error (synthesis_reply anthropic model ctx (apiCalls w)))
      /\ new_effects w w'
         = stage_calls model ths k ++ [EGenerate (synthesis_request model summaries ctx)])
  /\ ((forall doc, fst run <> Ok doc) ->
      (exists error, fst run = Throw error)
      /\ w_docs w' = w_docs w
      /\ w_sessions w' = w_sessions w
      /\ List.existsb is_save (new_effects w w') = false)
  /\ (List.existsb is_save (new_effects w w') = true ->
      (forall j, j < k -> reply_fails (stage_reply anthropic model ths (apiCalls w) j) = false)
      /\ reply_fails (synthesis_reply anthropic model ctx (apiCalls w)) = false)
  /\ (forall config event w0,
        sessionContextOf (e_sessionId event) w0 = Some ctx ->
        needs_generation event ctx w0 ->
        20 < List.length ths ->
        model = tier_model config (event_tier event) ->
        w = set_trace
              (trace w0 ++ [EGenerateDocumentation (s_id (session ctx)) (event_tier event)])
              w0 ->
        (forall doc, fst run <> Ok doc) ->
        exists error,
          processSession config anthropic event w0 = (Throw error, w')
          /\ w_docs w' = w_docs w0
          /\ (is_finalization (e_type event) = true ->
              handleEvent config anthropic event w0
              = (if (default 0%Z (p_retryCount (e_payload event)) <? maxRetries config)%Z
                 then scheduleRetry config event
                        (default 0%Z (p_retryCount (e_payload event)) + 1)%Z
                 else moveToDeadLetter config event error) w')).
Proof.
  cbv zeta.
  assert (Hfailing : (forall doc, fst (stagedSummarization anthropic ctx model w) <> Ok doc) ->
            (exists error, fst (stagedSummarization anthropic ctx model w) = Throw error)
            /\ w_docs (snd (stagedSummarization anthropic ctx model w)) = w_docs w
            /\ w_sessions (snd (stagedSummarization anthropic ctx model w)) = w_sessions w
            /\ List.existsb is_save
                 (new_effects w (snd (stagedSummarization anthropic ctx model w))) = false).
  { intros Hnot.
    destruct (staged_trichotomy anthropic ctx model w)
      as [[Hstages Hsynth] | [[f [Hf [Hfail Hbefore]]] | [Hstages Hsynth]]].
    + exfalso.
      pose proof (stagedSummarization_succeeds anthropic ctx model w Hstages Hsynth) as Hrun.
      cbv zeta in Hrun. rewrite Hrun in Hnot. eapply Hnot. reflexivity.
    + rewrite (stagedSummarization_stage_fails anthropic ctx model w f Hf Hbefore Hfail).
      simpl. rewrite new_effects_after, stage_calls_no_save. eauto.
    + pose proof (stagedSummarization_synthesis_fails anthropic ctx model w Hstages Hsynth)
        as Hrun.
      cbv zeta in Hrun. rewrite Hrun. simpl.
      rewrite new_effects_after, List.existsb_app, stage_calls_no_save. eauto. }
  split; [| split; [| split; [| split]]]; [| | exact Hfailing | |].
  - intros f Hf Hbefore Hfail.
    rewrite (stagedSummarization_stage_fails anthropic ctx model w f Hf Hbefore Hfail).
    simpl. split; [reflexivity | apply new_effects_after].
  - intros Hstages Hsynth.
    pose proof (stagedSummarization_synthesis_fails anthropic ctx model w Hstages Hsynth) as Hrun.
    cbv zeta in Hrun. rewrite Hrun. simpl. split; [reflexivity | apply new_effects_after].
  - intros Hsave.
    destruct (staged_trichotomy anthropic ctx model w)
      as [[Hstages Hsynth] | [[f [Hf [Hfail Hbefore]]] | [Hstages Hsynth]]].
    + auto.
    + exfalso. revert Hsave.
      rewrite (stagedSummarization_stage_fails anthropic ctx model w f Hf Hbefore Hfail).
      simpl. rewrite new_effects_after, stage_calls_no_save. discriminate.
    + exfalso. revert Hsave.
      pose proof (stagedSummarization_synthesis_fails anthropic ctx model w Hstages Hsynth)
        as Hrun.
      cbv zeta in Hrun. rewrite Hrun. simpl.
      rewrite new_effects_after, List.existsb_app, stage_calls_no_save. discriminate.
  - intros config event w0 Hctx Hneeds Hlong Hmodel Hw Hnot.
    destruct (Hfailing Hnot) as [[error Herror] [Hdocs _]].
    assert (Hrun : processSession config anthropic event w0
                   = (Throw error, snd (stagedSummarization anthropic ctx model w))).
    { rewrite (processSession_staged config anthropic event w0 ctx Hctx Hneeds Hlong).
      rewrite <- Hmodel, <- Hw. unfold bind.
      destruct (stagedSummarization anthropic ctx model w) as [r w1].
      simpl in Herror. subst r. reflexivity. }
    exists error. split; [exact Hrun |]. split; [rewrite Hdocs, Hw; reflexivity |].
    intros Hfinal.
    rewrite (handleEvent_catches config anthropic event w0 error Hfinal);
      rewrite Hrun; reflexivity.
Qed.

(** The witness of [stagedSummarization_stages]: 45 thoughts give the
    stages of 20, 20 and 5 thoughts, and the run ends with a document. *)
Lemma stagedSummarization_stages_witness :
  let ths := thoughts fx_big in
  let model := basicModel defaultConfig in
  let anthropic := answers "stage summary" in
  (forall j, j < stage_count ths ->
     reply_fails (stage_reply anthropic model ths (apiCalls fx_big_world) j) = false)
  /\ reply_fails (synthesis_reply anthropic model fx_big (apiCalls fx_big_world)) = false
  /\ List.map (@List.length ThoughtRecord) (stages ths) = [20; 20; 5]
  /\ List.length (stages ths) = 3
  /\ exists doc, fst (stagedSummarization anthropic fx_big model fx_big_world) = Ok doc.
Proof.
  cbv zeta.
  assert (H1 : forall j, j < stage_count (thoughts fx_big) ->
            reply_fails (stage_reply (answers "stage summary") (basicModel defaultConfig)
                           (thoughts fx_big) (apiCalls fx_big_world) j) = false)
    by (intros j _; reflexivity).
  assert (H2 : reply_fails (synthesis_reply (answers "stage summary")
                              (basicModel defaultConfig) fx_big (apiCalls fx_big_world))
               = false) by reflexivity.
  split; [exact H1 |]. split; [exact H2 |]. split; [vm_compute; reflexivity |].
  destruct (stagedSummarization_stages (answers "stage summary") fx_big
              (basicModel defaultConfig) fx_big_world H1 H2)
    as [[doc [Hdoc _]] [_ [Hlen _]]].
  split; [exact Hlen | exists doc; exact Hdoc].
Defined.

(** The requests of that run, in order: stages 1, 2, 3 of 3, then the
    synthesis of the three summaries, then the save. *)
Example staged_run_of_45_thoughts :
  let w' := snd (stagedSummarization (answers "stage summary") fx_big "haiku" fx_big_world) in
  exists doc,
    new_effects fx_big_world w'
    = [EGenerate {| rq_model := "haiku"; rq_max_tokens := 500;
                    rq_prompt := StagePrompt (fx_thoughts "big" 20) 1 3 |};
       EGenerate {| rq_model := "haiku"; rq_max_tokens := 500;
                    rq_prompt := StagePrompt
                                   (List.map (fx_thought "big") (List.seq 21 20)) 2 3 |};
       EGenerate {| rq_model := "haiku"; rq_max_tokens := 500;
                    rq_prompt := StagePrompt
                                   (List.map (fx_thought "big") (List.seq 41 5)) 3 3 |};
       EGenerate {| rq_model := "haiku"; rq_max_tokens := 3000;
                    rq_prompt := SynthesisPrompt
                                   ["stage summary"; "stage summary"; "stage summary"]
                                   [] (session fx_big) |};
       ESaveDocumentation doc].
Proof. cbv zeta. eexists. vm_compute. reflexivity. Qed.

(** The witness of [stagedSummarization_aborts]: the request of the second
    stage of three is rejected; the run stops after two requests. *)
Lemma stagedSummarization_aborts_witness :
  let ths := thoughts fx_big in
  let run := stagedSummarization (rejects_at 1) fx_big "haiku" fx_big_world in
  1 < stage_count ths
  /\ (forall j, j < 1 ->
       reply_fails (stage_reply (rejects_at 1) "haiku" ths (apiCalls fx_big_world) j) = false)
  /\ reply_fails (stage_reply (rejects_at 1) "haiku" ths (apiCalls fx_big_world) 1) = true
  /\ fst run = Throw "overloaded"
  /\ new_effects fx_big_world (snd run) = stage_calls "haiku" ths 2.
Proof.
  cbv zeta.
  assert (H1 : 1 < stage_count (thoughts fx_big)) by (vm_compute; lia).
  assert (H2 : forall j, j < 1 ->
            reply_fails (stage_reply (rejects_at 1) "haiku" (thoughts fx_big)
                           (apiCalls fx_big_world) j) = false).
  { intros j Hj. assert (j = 0) as -> by lia. reflexivity. }
  assert (H3 : reply_fails (stage_reply (rejects_at 1) "haiku" (thoughts fx_big)
                              (apiCalls fx_big_world) 1) = true) by reflexivity.
  split; [exact H1 |]. split; [exact H2 |]. split; [exact H3 |].
  destruct (stagedSummarization_aborts (rejects_at 1) fx_big "haiku" fx_big_world)
    as [Hstage _].
  exact (Hstage 1 H1 H2 H3).
Defined.

(** ** Retry and dead-letter *)

#[global] Instance processing_only_preorder : PreOrder processing_only.
Proof.
  split.
  - intros w. repeat split. exists []. now rewrite app_nil_r.
  - intros w1 w2 w3 [Hq1 [Hd1 [Hn1 [n1 [Ht1 Hp1]]]]] [Hq2 [Hd2 [Hn2 [n2 [Ht2 Hp2]]]]].
    repeat split; try congruence.
    exists (n1 ++ n2). rewrite Ht2, Ht1, <- app_assoc, List.forallb_app, Hp1, Hp2. auto.
Qed.

Ltac quiet_prim :=
  repeat split;
  first [ now (exists []; simpl; rewrite app_nil_r)
        | now (eexists; simpl; split; reflexivity) ].

Section Quiet.

Variable config : Config.
Variable anthropic : nat -> LlmRequest -> LlmReply.

Lemma messages_create_quiet model max_tokens prompt :
  Frame processing_only (messages_create anthropic model max_tokens prompt).
Proof. unfold messages_create, emit, first_text. frame_steps quiet_prim. Qed.

Lemma saveDocumentation_quiet doc : Frame processing_only (saveDocumentation doc).
Proof. unfold saveDocumentation, emit. frame_steps quiet_prim. Qed.

Lemma processTierBatch_quiet sessions model :
  Frame processing_only (processTierBatch anthropic sessions model).
Proof.
  unfold processTierBatch. destruct sessions as [| ctx sessions]; [f_ret |].
  f_bind; [apply messages_create_quiet | intros responseText].
  f_for. intros c. unfold save_parsed.
  destruct (JsMap.get _ _); [| f_ret].
  f_bind; [f_gets | intros ?; apply saveDocumentation_quiet].
Qed.

Lemma processBatch_quiet : Frame processing_only (processBatch config anthropic).
Proof.
  unfold processBatch.
  f_bind; [frame_steps quiet_prim | intros _].
  f_bind; [f_gets | intros queue].
  f_bind; [frame_steps quiet_prim | intros _].
  destruct (slice_to _ _); [f_ret |].
  f_all; apply processTierBatch_quiet.
Qed.

Lemma queueSession_quiet ctx : Frame processing_only (queueSession config anthropic ctx).
Proof.
  unfold queueSession, emit.
  f_bind; [frame_steps quiet_prim | intros _].
  f_bind; [frame_steps quiet_prim | intros _].
  f_bind; [f_gets | intros size].
  destruct (_ <=? _)%Z; [apply processBatch_quiet |].
  frame_steps quiet_prim.
Qed.

Lemma stage_loop_quiet fuel model ths totalStages i acc :
  Frame processing_only (stage_loop anthropic fuel model ths totalStages i acc).
Proof.
  revert i acc. induction fuel as [| fuel IH]; intros i acc; simpl.
  - destruct (i <? _)%nat; [f_fuel | f_ret].
  - destruct (i <? _)%nat; [| f_ret].
    f_bind; [apply messages_create_quiet | intros summary; apply IH].
Qed.

Lemma generateDocumentation_quiet ctx tier :
  Frame processing_only (generateDocumentation config anthropic ctx tier).
Proof.
  unfold generateDocumentation, emit.
  f_bind; [frame_steps quiet_prim | intros _].
  destruct (_ <? _)%nat.
  - unfold stagedSummarization.
    f_bind; [apply stage_loop_quiet | intros summaries].
    f_bind; [apply messages_create_quiet | intros content].
    f_bind; [f_gets | intros t].
    f_bind; [apply saveDocumentation_quiet | intros _; f_ret].
  - unfold singlePassSummarization.
    f_bind; [apply messages_create_quiet | intros content].
    f_bind; [f_gets | intros t].
    f_bind; [apply saveDocumentation_quiet | intros _; f_ret].
Qed.

Lemma processSession_quiet event : Frame processing_only (processSession config anthropic event).
Proof.
  unfold processSession.
  f_bind; [unfold getSessionContext, getSession, getThoughts, getTasks;
           frame_steps quiet_prim | intros sessionContext].
  destruct sessionContext as [ctx |]; [| f_throw].
  f_bind; [unfold getDocumentation; f_gets | intros existingDoc].
  destruct (match existingDoc with Some doc => up_to_date doc ctx | None => false end);
    [f_ret |].
  destruct (_ <=? 20)%nat; [apply queueSession_quiet |].
  f_bind; [apply generateDocumentation_quiet | intros _; f_ret].
Qed.

End Quiet.

Lemma lookup_last {A} (l : list A) (d : A) :
  l <> [] -> l !! (List.length l - 1) = Some (List.last l d).
Proof.
  induction l as [| x l IH]; [congruence |]. intros _.
  destruct l as [| y l]; [reflexivity |].
  specialize (IH ltac:(discriminate)). simpl in IH |- *.
  rewrite Nat.sub_0_r in IH. exact IH.
Qed.

Lemma lookup_nth_default {A} (l : list A) (i : nat) (d : A) :
  l !! i = None -> List.nth i l d = d.
Proof.
  revert i. induction l as [| x l IH]; intros [| i]; simpl; try congruence; auto.
Qed.

Lemma lookup_nth_some {A} (l : list A) (i : nat) (d x : A) :
  l !! i = Some x -> List.nth i l d = x.
Proof.
  revert i. induction l as [| y l IH]; intros [| i]; simpl; try congruence; auto.
Qed.

Lemma lookup_in {A} (l : list A) (i : nat) (x : A) : l !! i = Some x -> In x l.
Proof.
  revert i. induction l as [| y l IH]; intros [| i]; simpl; try congruence.
  - intros [= ->]. now left.
  - intros H. right. eauto.
Qed.

(** The delay [scheduleRetry] computes for retry number [k >= 1], when the
    table is not empty and has no zero entry (the table of [loadConfig] is
    such). *)
Lemma scheduleRetry_delay config (k : nat) :
  1 <= k ->
  retryDelays config <> [] ->
  Forall (fun d => (0 < d)%Z) (retryDelays config) ->
  js_or (js_index (retryDelays config) (Z.of_nat k - 1))
        (js_index (retryDelays config) (Z.of_nat (List.length (retryDelays config)) - 1))
  = Some (backoff config k).
Proof.
  intros Hk Hne Hpos. unfold js_index, backoff.
  assert (Hlen : 1 <= List.length (retryDelays config)).
  { destruct (retryDelays config); [congruence | simpl; lia]. }
  destruct (Z.ltb_spec (Z.of_nat k - 1) 0); [lia |].
  destruct (Z.ltb_spec (Z.of_nat (List.length (retryDelays config)) - 1) 0); [lia |].
  replace (Z.to_nat (Z.of_nat k - 1)) with (k - 1) by lia.
  replace (Z.to_nat (Z.of_nat (List.length (retryDelays config)) - 1))
    with (List.length (retryDelays config) - 1) by lia.
  rewrite (lookup_last _ 0%Z Hne).
  destruct (retryDelays config !! (k - 1)) as [d |] eqn:Hd; simpl.
  - rewrite (lookup_nth_some _ _ _ _ Hd).
    assert (Hd0 : (0 < d)%Z).
    { rewrite List.Forall_forall in Hpos. apply Hpos. eapply lookup_in. exact Hd. }
    destruct (Z.eqb_spec d 0); [lia | reflexivity].
  - now rewrite (lookup_nth_default _ _ _ Hd).
Qed.

Lemma backoff_pos config (k : nat) :
  retryDelays config <> [] ->
  Forall (fun d => (0 < d)%Z) (retryDelays config) ->
  (0 < backoff config k)%Z.
Proof.
  intros Hne Hpos. unfold backoff. rewrite List.Forall_forall in Hpos.
  destruct (retryDelays config !! (k - 1)) as [d |] eqn:Hd.
  - rewrite (lookup_nth_some _ _ _ _ Hd). apply Hpos. eapply lookup_in. exact Hd.
  - rewrite (lookup_nth_default _ _ _ Hd). apply Hpos.
    eapply lookup_in. apply (lookup_last _ 0%Z Hne).
Qed.

Lemma with_retryCount_twice event a b :
  with_retryCount (with_retryCount event a) b = with_retryCount event b.
Proof. reflexivity. Qed.

Lemma redelivered_next event k :
  with_retryCount (redelivered event k) (Z.of_nat k + 1) = redelivered event (S k).
Proof.
  destruct k as [| k]; simpl redelivered.
  - reflexivity.
  - rewrite with_retryCount_twice. f_equal. lia.
Qed.

Lemma redelivered_sessionId event k : e_sessionId (redelivered event k) = e_sessionId event.
Proof. destruct k; reflexivity. Qed.

Lemma redelivered_type event k : e_type (redelivered event k) = e_type event.
Proof. destruct k; reflexivity. Qed.

Lemma redelivered_retryCount event k :
  default 0%Z (p_retryCount (e_payload event)) = 0%Z ->
  default 0%Z (p_retryCount (e_payload (redelivered event k))) = Z.of_nat k.
Proof. intros H. destruct k; [exact H | reflexivity]. Qed.

Lemma filter_new_effects_trans (P : Effect -> bool) w w1 w2 :
  trace_grows w w1 -> trace_grows w1 w2 ->
  List.filter P (new_effects w w2)
  = List.filter P (new_effects w w1) ++ List.filter P (new_effects w1 w2).
Proof.
  intros [n1 H1] [n2 H2].
  rewrite (new_effects_app w w1 n1 H1), (new_effects_app w1 w2 n2 H2).
  rewrite (new_effects_app w w2 (n1 ++ n2)); [apply List.filter_app |].
  rewrite H2, H1. now rewrite app_assoc.
Qed.

Lemma processing_only_grows w w' : processing_only w w' -> trace_grows w w'.
Proof. intros [_ [_ [_ [new [H _]]]]]. exists new. exact H. Qed.

Lemma processing_only_no_bookkeeping (P : Effect -> bool) w w' :
  (forall e, P e = true -> is_bookkeeping e = true) ->
  processing_only w w' -> List.filter P (new_effects w w') = [].
Proof.
  intros HP [_ [_ [_ [new [Ht Hq]]]]]. rewrite (new_effects_app _ _ _ Ht).
  apply (filter_all_false P (fun e => negb (is_bookkeeping e)) new Hq).
  intros e He. destruct (P e) eqn:HPe; [| reflexivity].
  rewrite (HP e HPe) in He. discriminate.
Qed.

Section HandleEvent.

Variable config : Config.
Variable anthropic : nat -> LlmRequest -> LlmReply.

Lemma scheduleRetry_run event (k : nat) w :
  1 <= k ->
  retryDelays config <> [] ->
  Forall (fun d => (0 < d)%Z) (retryDelays config) ->
  scheduleRetry config event (Z.of_nat k) w
  = (Ok tt,
     set_retry_queue
       (zinsert (now w + backoff config k) (with_retryCount event (Z.of_nat k))
          (zremove (with_retryCount event (Z.of_nat k)) (retry_queue w)))
       (set_trace
          (trace w ++ [EZadd (now w + backoff config k) (with_retryCount event (Z.of_nat k))])
          w)).
Proof.
  intros Hk Hne Hpos. unfold scheduleRetry.
  rewrite (scheduleRetry_delay config k Hk Hne Hpos). reflexivity.
Qed.

Lemma moveToDeadLetter_run event error w :
  moveToDeadLetter config event error w
  = let entry := {| dl_event := event; dl_error := error; dl_failedAt := now w;
                    dl_retryCount := maxRetries config |} in
    (Ok tt, set_dead_letter (entry :: dead_letter w) (set_trace (trace w ++ [ELpush entry]) w)).
Proof. reflexivity. Qed.

End HandleEvent.

Section Retry.

Variable config : Config.
Variable anthropic : nat -> LlmRequest -> LlmReply.

(** An always-failing event: [Inv] describes the worlds in which the
    processing of the event's session throws; it is kept by that processing
    and does not look at the retry structures. *)
Variable Inv : World -> Prop.
Variable event : DevPatternEvent.

Hypothesis event_final : is_finalization (e_type event) = true.
Hypothesis event_fresh : default 0%Z (p_retryCount (e_payload event)) = 0%Z.
Hypothesis max_nonneg : (0 <= maxRetries config)%Z.
Hypothesis table_nonempty : retryDelays config <> [].
Hypothesis table_positive : Forall (fun d => (0 < d)%Z) (retryDelays config).
Hypothesis always_fails :
  forall e w, Inv w -> e_sessionId e = e_sessionId event ->
    exists error, fst (processSession config anthropic e w) = Throw error.
Hypothesis Inv_processing :
  forall e w, Inv w -> e_sessionId e = e_sessionId event ->
    Inv (snd (processSession config anthropic e w)).
Hypothesis Inv_store : forall w w', Inv w -> same_store w w' -> Inv w'.

Lemma redelivered_with k :
  with_retryCount (redelivered event k) (Z.of_nat (S k)) = redelivered event (S k).
Proof. destruct k; reflexivity. Qed.

(** One delivery of the event, for the [k]-th time after the first, with
    an empty retry queue. *)
Lemma delivery k w :
  Inv w -> retry_queue w = [] ->
  exists error,
    let w' := snd (handleEvent config anthropic (redelivered event k) w) in
    fst (handleEvent config anthropic (redelivered event k) w) = Ok tt
    /\ Inv w' /\ now w' = now w /\ trace_grows w w'
    /\ (k < retry_budget config ->
        retry_queue w' = [(now w + backoff config (S k), redelivered event (S k))%Z]
        /\ dead_letter w' = dead_letter w
        /\ List.filter is_zadd (new_effects w w')
           = [EZadd (now w + backoff config (S k)) (redelivered event (S k))]
        /\ List.filter is_lpush (new_effects w w') = [])
    /\ (retry_budget config <= k ->
        retry_queue w' = []
        /\ dead_letter w' = dead_entry config event k error (now w) :: dead_letter w
        /\ List.filter is_zadd (new_effects w w') = []
        /\ List.filter is_lpush (new_effects w w')
           = [ELpush (dead_entry config event k error (now w))]).
Proof.
  intros HInv Hempty. unfold retry_budget.
  set (e := redelivered event k).
  assert (Hsid : e_sessionId e = e_sessionId event) by apply redelivered_sessionId.
  destruct (always_fails e w HInv Hsid) as [error Herr].
  exists error. cbv zeta.
  pose proof (handleEvent_catches config anthropic (redelivered event k) w error) as Hrun.
  rewrite (redelivered_type event k), (redelivered_retryCount event k event_fresh) in Hrun.
  specialize (Hrun event_final Herr). fold e in Hrun.
  pose proof (processSession_quiet config anthropic e w) as Hquiet.
  pose proof (Inv_processing e w HInv Hsid) as HInv1.
  set (w1 := snd (processSession config anthropic e w)) in *.
  assert (Hzadd1 : List.filter is_zadd (new_effects w w1) = []).
  { apply processing_only_no_bookkeeping; [| exact Hquiet]. now intros []. }
  assert (Hlpush1 : List.filter is_lpush (new_effects w w1) = []).
  { apply processing_only_no_bookkeeping; [| exact Hquiet]. now intros []. }
  pose proof (processing_only_grows _ _ Hquiet) as Hgrow1.
  destruct Hquiet as [Hrq [Hdl [Hnow _]]].
  clearbody w1.
  destruct (Z.ltb_spec (Z.of_nat k) (maxRetries config)) as [Hlt | Hge].
  - replace (Z.of_nat k + 1)%Z with (Z.of_nat (S k)) in Hrun by lia.
    rewrite (scheduleRetry_run config e (S k) w1 ltac:(lia) table_nonempty table_positive)
      in Hrun.
    unfold e in Hrun. rewrite redelivered_with in Hrun.
    rewrite Hrq, Hempty, Hnow in Hrun. cbn [zremove List.filter zinsert] in Hrun.
    fold e in Hrun. rewrite Hrun. cbn [fst snd].
    set (w2 := set_retry_queue _ _).
    assert (Hgrow2 : trace_grows w1 w2) by (eexists; reflexivity).
    split; [reflexivity |]. split; [| split; [exact Hnow |]].
    { apply (Inv_store w1 w2 HInv1). repeat split. }
    split; [etransitivity; eassumption |].
    split; [| intros Hk; lia].
    intros _. split; [reflexivity |]. split; [exact Hdl |].
    rewrite !(filter_new_effects_trans _ w w1 w2 Hgrow1 Hgrow2), Hzadd1, Hlpush1.
    rewrite (new_effects_app w1 w2 _ eq_refl). split; reflexivity.
  - rewrite moveToDeadLetter_run in Hrun. cbv zeta in Hrun.
    rewrite Hnow, Hdl in Hrun. unfold e in Hrun.
    fold (dead_entry config event k error (now w)) in Hrun.
    fold e in Hrun. rewrite Hrun. cbn [fst snd].
    set (w2 := set_dead_letter _ _).
    assert (Hgrow2 : trace_grows w1 w2) by (eexists; reflexivity).
    split; [reflexivity |]. split; [| split; [exact Hnow |]].
    { apply (Inv_store w1 w2 HInv1). repeat split. }
    split; [etransitivity; eassumption |].
    split; [intros Hk; lia |].
    intros _. split; [exact (eq_trans Hrq Hempty) |]. split; [reflexivity |].
    rewrite !(filter_new_effects_trans _ w w1 w2 Hgrow1 Hgrow2), Hzadd1, Hlpush1.
    rewrite (new_effects_app w1 w2 _ eq_refl). split; reflexivity.
Qed.

Lemma zremove_single t (e : DevPatternEvent) : zremove e [(t, e)] = [].
Proof.
  unfold zremove. cbn [List.filter snd]. now rewrite bool_decide_eq_true_2.
Qed.

(** The interval callback when the queue holds one due event. *)
Lemma tick_redelivers e t w :
  retry_queue w = [(t, e)] -> (0 <= t)%Z -> (now w <= t)%Z ->
  let w2 := set_retry_queue [] (set_trace (trace w ++ [EZrem e]) (set_now t w)) in
  fst (handleEvent config anthropic e w2) = Ok tt ->
  retryProcessorTick config anthropic (advance_to t w)
  = (Ok tt, snd (handleEvent config anthropic e w2)).
Proof.
  intros Hq Ht Hnow w2 Hok.
  unfold advance_to. rewrite Z.max_r by exact Hnow.
  unfold retryProcessorTick, zrangebyscore.
  unfold bind at 1. unfold gets at 1. unfold bind at 1. unfold gets at 1.
  cbv beta iota.
  change (retry_queue (set_now t w)) with (retry_queue w). rewrite Hq.
  change (now (set_now t w)) with t.
  cbn [List.filter List.map fst snd].
  rewrite (proj2 (Z.leb_le 0 t) Ht), Z.leb_refl. cbn [andb List.map snd for_of].
  unfold bind at 1. unfold bind at 1. unfold zrem at 1. unfold bind at 1.
  unfold emit, modify. cbv beta iota.
  change (retry_queue (set_trace (trace (set_now t w) ++ [EZrem e]) (set_now t w)))
    with (retry_queue w).
  rewrite Hq, zremove_single.
  change (trace (set_now t w)) with (trace w). fold w2.
  destruct (handleEvent config anthropic e w2) as [r w3]. simpl in Hok. subst r.
  reflexivity.
Qed.

Lemma redeliver_idle rounds w :
  retry_queue w = [] -> redeliver config anthropic rounds w = w.
Proof. intros H. destruct rounds; simpl; [| rewrite H]; reflexivity. Qed.

Lemma due_nonneg t0 k : (0 <= t0)%Z -> (t0 <= due config t0 k)%Z.
Proof.
  intros H0. induction k as [| k IH]; simpl; [lia |].
  pose proof (backoff_pos config (S k) table_nonempty table_positive). lia.
Qed.

(** The retries from the [k]-th on, each delivered at its due time. *)
Lemma retries_run t0 r : forall k w rounds,
  (0 <= t0)%Z ->
  k + r = retry_budget config -> 1 <= k ->
  Inv w ->
  retry_queue w = [(due config t0 k, redelivered event k)] ->
  now w = due config t0 (k - 1) ->
  r < rounds ->
  exists error,
    let entry := dead_entry config event (retry_budget config) error
                   (due config t0 (retry_budget config)) in
    let w' := redeliver config anthropic rounds w in
    retry_queue w' = []
    /\ dead_letter w' = entry :: dead_letter w
    /\ List.filter is_zadd (new_effects w w')
       = List.map (retry_effect config event t0) (List.seq (S k) r)
    /\ List.filter is_lpush (new_effects w w') = [ELpush entry]
    /\ trace_grows w w'.
Proof.
  induction r as [| r IH]; intros k w rounds Ht0 Hk Hk1 HInv Hq Hnow Hrounds;
    (destruct rounds as [| rounds]; [lia |]); simpl redeliver; rewrite Hq.
  all: set (t := due config t0 k) in *; set (e := redelivered event k) in *.
  all: set (w2 := set_retry_queue [] (set_trace (trace w ++ [EZrem e]) (set_now t w))).
  all: assert (HInv2 : Inv w2) by (apply (Inv_store w w2 HInv); repeat split).
  all: assert (Hgrow2 : trace_grows w w2) by (eexists; reflexivity).
  all: assert (Hz2 : List.filter is_zadd (new_effects w w2) = [])
         by (rewrite (new_effects_app w w2 _ eq_refl); reflexivity).
  all: assert (Hl2 : List.filter is_lpush (new_effects w w2) = [])
         by (rewrite (new_effects_app w w2 _ eq_refl); reflexivity).
  all: assert (Hdue : (now w <= t)%Z).
  1, 3: (rewrite Hnow; unfold t; destruct k as [| k']; [lia |];
         replace (S k' - 1) with k' by lia; simpl due;
         pose proof (backoff_pos config (S k') table_nonempty table_positive); lia).
  all: assert (Ht : (0 <= t)%Z) by (pose proof (due_nonneg t0 k Ht0); unfold t; lia).
  all: destruct (delivery k w2 HInv2 eq_refl)
         as [error [Hok [HInv3 [Hnow3 [Hgrow3 [Hlt Hge]]]]]]; cbv zeta in *.
  all: fold e in Hok, HInv3, Hnow3, Hgrow3, Hlt, Hge.
  all: rewrite (tick_redelivers e t w Hq Ht Hdue Hok); cbn [snd]; fold w2.
  all: set (w3 := snd (handleEvent config anthropic e w2)) in *.
  - destruct (Hge ltac:(lia)) as [Hq3 [Hd3 [Hz3 Hl3]]].
    exists error. rewrite (redeliver_idle rounds w3 Hq3).
    replace (retry_budget config) with k by lia.
    split; [exact Hq3 |]. split; [exact Hd3 |].
    rewrite !(filter_new_effects_trans _ w w2 w3 Hgrow2 Hgrow3), Hz2, Hl2, Hz3, Hl3.
    split; [reflexivity |]. split; [reflexivity |]. etransitivity; eassumption.
  - destruct (Hlt ltac:(lia)) as [Hq3 [Hd3 [Hz3 Hl3]]].
    change (now w2) with t in Hq3, Hnow3, Hz3.
    destruct (IH (S k) w3 rounds Ht0 ltac:(lia) ltac:(lia) HInv3) as [error' Hrest].
    + rewrite Hq3. reflexivity.
    + rewrite Hnow3. replace (S k - 1) with k by lia. reflexivity.
    + lia.
    + cbv zeta in Hrest. destruct Hrest as [Hq' [Hd' [Hz' [Hl' Hgrow']]]].
      exists error'. split; [exact Hq' |]. split; [rewrite Hd', Hd3; reflexivity |].
      assert (Hgrow13 : trace_grows w w3) by (etransitivity; eassumption).
      rewrite !(filter_new_effects_trans _ w w3 _ Hgrow13 Hgrow').
      rewrite !(filter_new_effects_trans _ w w2 w3 Hgrow2 Hgrow3).
      rewrite Hz2, Hl2, Hz3, Hl3, Hz', Hl'.
      split; [reflexivity |]. split; [reflexivity |]. etransitivity; eassumption.
Qed.

(** C2: an event whose processing always fails is retried exactly
    [maxRetries] times: delivery [k] (for [k < maxRetries]) puts the event
    back with [retryCount = k + 1], due after the back-off for retry
    [k + 1] (entry [k] of the table, the last entry beyond the table);
    delivery [maxRetries] writes the one dead-letter entry, whose
    [retryCount] is [maxRetries], and leaves the retry queue empty. *)
Theorem handleEvent_retry_bound w0 rounds :
  Inv w0 ->
  retry_queue w0 = [] ->
  (0 <= now w0)%Z ->
  retry_budget config <= rounds ->
  let t0 := now w0 in
  let w' := redeliver config anthropic rounds (snd (handleEvent config anthropic event w0)) in
  (exists error,
     let entry := dead_entry config event (retry_budget config) error
                    (due config t0 (retry_budget config)) in
     retry_queue w' = []
     /\ dead_letter w' = entry :: dead_letter w0
     /\ dl_retryCount entry = maxRetries config
     /\ List.filter is_zadd (new_effects w0 w')
        = List.map (retry_effect config event t0) (List.seq 1 (retry_budget config))
     /\ List.filter is_lpush (new_effects w0 w') = [ELpush entry])
  /\ (forall k, 1 <= k ->
        p_retryCount (e_payload (redelivered event k)) = Some (Z.of_nat k))
  /\ (forall k, due config t0 (S k) - due config t0 k = backoff config (S k))%Z
  /\ (forall k, 1 <= k <= List.length (retryDelays config) ->
        retryDelays config !! (k - 1) = Some (backoff config k))
  /\ (forall k, List.length (retryDelays config) < k ->
        backoff config k = List.last (retryDelays config) 0%Z)
  /\ (forall k w,
        Inv w -> retry_queue w = [] ->
        let w1 := snd (handleEvent config anthropic (redelivered event k) w) in
        (k < retry_budget config ->
         List.filter is_zadd (new_effects w w1)
         = [EZadd (now w + backoff config (S k)) (redelivered event (S k))]
         /\ List.filter is_lpush (new_effects w w1) = [])
        /\ (k = retry_budget config ->
            List.filter is_zadd (new_effects w w1) = []
            /\ exists error,
                 List.filter is_lpush (new_effects w w1)
                 = [ELpush (dead_entry config event k error (now w))])).
Proof.
  intros HInv Hq H0 Hrounds. cbv zeta.
  split; [| split; [| split; [| split; [| split]]]].
  - destruct (delivery 0 w0 HInv Hq) as [error [Hok [HInv1 [Hnow1 [Hgrow1 [Hlt Hge]]]]]].
    cbv zeta in *. simpl redelivered in *.
    set (w1 := snd (handleEvent config anthropic event w0)) in *.
    destruct (Nat.eq_dec (retry_budget config) 0) as [Hzero | Hpos].
    + destruct (Hge ltac:(lia)) as [Hq1 [Hd1 [Hz1 Hl1]]].
      exists error. rewrite (redeliver_idle rounds w1 Hq1), Hzero.
      split; [exact Hq1 |]. split; [exact Hd1 |]. split; [reflexivity |].
      split; [exact Hz1 | exact Hl1].
    + destruct (Hlt ltac:(lia)) as [Hq1 [Hd1 [Hz1 Hl1]]].
      destruct (retries_run (now w0) (retry_budget config - 1) 1 w1 rounds H0
                  ltac:(lia) ltac:(lia) HInv1) as [error' Hrest].
      * rewrite Hq1. reflexivity.
      * rewrite Hnow1. reflexivity.
      * lia.
      * cbv zeta in Hrest. destruct Hrest as [Hq' [Hd' [Hz' [Hl' Hgrow']]]].
        exists error'. split; [exact Hq' |]. split; [rewrite Hd', Hd1; reflexivity |].
        split; [reflexivity |].
        rewrite !(filter_new_effects_trans _ w0 w1 _ Hgrow1 Hgrow'), Hz1, Hl1, Hz', Hl'.
        split; [| reflexivity].
        replace (retry_budget config) with (S (retry_budget config - 1)) at 2 by lia.
        reflexivity.
  - intros k Hk. destruct k; [lia | reflexivity].
  - intros k. simpl due. lia.
  - intros k Hk. unfold backoff.
    destruct (retryDelays config !! (k - 1)) as [d |] eqn:Hd.
    + now rewrite (lookup_nth_some _ _ _ _ Hd).
    + apply lookup_ge_None in Hd. lia.
  - intros k Hk. unfold backoff. apply lookup_nth_default.
    apply lookup_ge_None. lia.
  - intros k w HInv' Hq'. cbv zeta.
    destruct (delivery k w HInv' Hq') as [error [_ [_ [_ [_ [Hlt Hge]]]]]].
    cbv zeta in *. split.
    + intros Hk. destruct (Hlt Hk) as [_ [_ [Hz Hl]]]. auto.
    + intros Hk. destruct (Hge ltac:(lia)) as [_ [_ [Hz Hl]]]. split; [exact Hz |].
      exists error. exact Hl.
Qed.

End Retry.

Lemma processSession_not_found config anthropic event w :
  no_sessions w ->
  processSession config anthropic event w
  = (Throw ("Session not found: " ++ e_sessionId event)%string, w).
Proof.
  intros Hnone. unfold processSession, bind. rewrite getSessionContext_reads.
  unfold sessionContextOf. rewrite Hnone. reflexivity.
Qed.

(** The witness of [handleEvent_retry_bound]: with the default
    configuration, the event of a missing session is put back three times
    and then dead-lettered. *)
Lemma handleEvent_retry_bound_witness :
  let w' := redeliver defaultConfig rejects 3
              (snd (handleEvent defaultConfig rejects fx_ghost fx_empty_store)) in
  no_sessions fx_empty_store
  /\ retry_queue fx_empty_store = []
  /\ (0 <= now fx_empty_store)%Z
  /\ retry_budget defaultConfig <= 3
  /\ exists error,
       retry_queue w' = []
       /\ dead_letter w'
          = [dead_entry defaultConfig fx_ghost 3 error (due defaultConfig 5000 3)]
       /\ List.filter is_zadd (new_effects fx_empty_store w')
          = List.map (retry_effect defaultConfig fx_ghost 5000) [1; 2; 3].
Proof.
  cbv zeta.
  assert (H1 : no_sessions fx_empty_store) by reflexivity.
  assert (H2 : retry_queue fx_empty_store = []) by reflexivity.
  assert (H3 : (0 <= now fx_empty_store)%Z) by (simpl; lia).
  assert (H4 : retry_budget defaultConfig <= 3) by (vm_compute; lia).
  split; [exact H1 |]. split; [exact H2 |]. split; [exact H3 |]. split; [exact H4 |].
  destruct (handleEvent_retry_bound defaultConfig rejects no_sessions fx_ghost) with
    (w0 := fx_empty_store) (rounds := 3) as [[error [Hq [Hd [_ [Hz _]]]]] _].
  - reflexivity.
  - reflexivity.
  - simpl. lia.
  - discriminate.
  - simpl. repeat constructor.
  - intros e w Hnone _. rewrite (processSession_not_found _ _ _ _ Hnone). eauto.
  - intros e w Hnone _. rewrite (processSession_not_found _ _ _ _ Hnone). exact Hnone.
  - intros w w0 Hnone [Hs _]. unfold no_sessions in *. congruence.
  - exact H1.
  - exact H2.
  - exact H3.
  - exact H4.
  - exists error. split; [exact Hq |]. split; [exact Hd | exact Hz].
Defined.

(** The same run, computed: the three retries are due 5 s, 35 s and 155 s
    after the first delivery, and the dead-letter entry is written at the
    third due time. *)
Example retry_run_of_missing_session :
  let w' := redeliver defaultConfig rejects 3
              (snd (handleEvent defaultConfig rejects fx_ghost fx_empty_store)) in
  List.filter is_zadd (new_effects fx_empty_store w')
  = [EZadd 10000 (fx_event "ghost" (Some 1%Z));
     EZadd 40000 (fx_event "ghost" (Some 2%Z));
     EZadd 160000 (fx_event "ghost" (Some 3%Z))]
  /\ dead_letter w'
     = [{| dl_event := fx_event "ghost" (Some 3%Z);
           dl_error := "Session not found: ghost";
           dl_failedAt := 160000;
           dl_retryCount := 3 |}]
  /\ retry_queue w' = [].
Proof. cbv zeta. vm_compute. repeat split; reflexivity. Qed.

(** ** The response protocol *)

(** *** Strings *)

#[local] Arguments String.append : simpl nomatch.

Lemma append_assoc (a b c : string) : (a +:+ b) +:+ c = a +:+ (b +:+ c).
Proof. induction a as [| x a IH]; simpl; [reflexivity | now rewrite IH]. Qed.

Lemma append_nil_r (a : string) : a +:+ "" = a.
Proof. induction a as [| x a IH]; simpl; [reflexivity | now rewrite IH]. Qed.

Lemma length_append (a b : string) :
  String.length (a +:+ b) = String.length a + String.length b.
Proof. induction a as [| x a IH]; simpl; [reflexivity | now rewrite IH]. Qed.

Lemma strip_prefix_append lit s : Js.strip_prefix lit (lit +:+ s) = Some s.
Proof.
  induction lit as [| a lit IH]; simpl; [reflexivity |].
  now rewrite Ascii.eqb_refl.
Qed.

Lemma take_append a b : Js.take (String.length a) (a +:+ b) = a.
Proof. induction a as [| x a IH]; simpl; [now destruct b | now rewrite IH]. Qed.

Lemma drop_append a b : Js.drop (String.length a) (a +:+ b) = b.
Proof. induction a as [| x a IH]; simpl; [now destruct b | exact IH]. Qed.

Lemma skip_space_nonspace c s :
  Js.is_space c = false -> Js.skip_space (String c s) = String c s.
Proof. intros H. simpl. now rewrite H. Qed.

Lemma skip_space_append s t c u :
  Js.skip_space s = String c u -> Js.skip_space (s +:+ t) = String c u +:+ t.
Proof.
  induction s as [| x s IH]; simpl; [discriminate |].
  destruct (Js.is_space x); [exact IH |]. intros [= -> ->]. reflexivity.
Qed.

Lemma span_nonspace_run run c s :
  no_space run = true -> Js.is_space c = true ->
  Js.span_nonspace (run +:+ String c s) = (run, String c s).
Proof.
  intros Hrun Hc. induction run as [| x run IH]; simpl.
  - now rewrite Hc.
  - simpl in Hrun. apply andb_true_iff in Hrun as [Hx Hrun].
    apply negb_true_iff in Hx. rewrite Hx, (IH Hrun). reflexivity.
Qed.

Lemma no_space_append a b : no_space (a +:+ b) = no_space a && no_space b.
Proof.
  induction a as [| x a IH]; simpl; [reflexivity |].
  now rewrite IH, andb_assoc.
Qed.

(** [break_at] finds a split as soon as there is one. *)
Lemma break_at_exists p pre suf :
  p suf = true -> exists g r, Js.break_at p (pre +:+ suf) = Some (g, r).
Proof.
  intros Hp. induction pre as [| x pre [g [r IH]]]; simpl.
  - destruct suf; simpl; rewrite Hp; eauto.
  - destruct (p (String x (pre +:+ suf))); [eauto |]. rewrite IH. eauto.
Qed.

(** [break_at] returns a split of its input at a position where [p] holds
    and before which it does not. *)
Lemma break_at_Some p s g r :
  Js.break_at p s = Some (g, r) ->
  s = g +:+ r /\ p r = true
  /\ forall g' r', s = g' +:+ r' -> String.length g' < String.length g -> p r' = false.
Proof.
  revert g r. induction s as [| x s IH]; intros g r; simpl.
  - destruct (p "") eqn:Hp; [| discriminate]. intros [= <- <-].
    repeat split; auto. intros g' r' _ Hlen. simpl in Hlen. lia.
  - destruct (p (String x s)) eqn:Hp.
    + intros [= <- <-]. repeat split; auto. intros g' r' _ Hlen. simpl in Hlen. lia.
    + destruct (Js.break_at p s) as [[g0 r0] |]; [| discriminate].
      intros [= <- <-]. destruct (IH g0 r0 eq_refl) as [Hs [Hr Hfirst]].
      split; [simpl; now rewrite Hs |]. split; [exact Hr |].
      intros g' r' Hsplit Hlen. destruct g' as [| y g']; simpl in Hsplit.
      * subst r'. exact Hp.
      * injection Hsplit as _ Hsplit. apply (Hfirst g' r' Hsplit). simpl in Hlen. lia.
Qed.

Lemma break_at_None p s :
  Js.break_at p s = None -> forall g r, s = g +:+ r -> p r = false.
Proof.
  induction s as [| x s IH]; simpl.
  - destruct (p "") eqn:Hp; [discriminate |]. intros _ g r Hs.
    destruct g; simpl in Hs; [now subst | discriminate].
  - destruct (p (String x s)) eqn:Hp; [discriminate |].
    destruct (Js.break_at p s) as [[g0 r0] |] eqn:Hb; [discriminate |].
    intros _ g r Hs. destruct g as [| y g]; simpl in Hs.
    + now subst.
    + injection Hs as _ Hs. apply (IH eq_refl g r Hs).
Qed.

Lemma is_space_not_equals c : Js.is_space c = true -> c <> "="%char.
Proof. intros H ->. discriminate. Qed.

(** *** One block *)

Lemma drop_append_plus a b j : Js.drop (String.length a + j) (a +:+ b) = Js.drop j b.
Proof. induction a as [| x a IH]; simpl; [reflexivity | exact IH]. Qed.

Lemma drop_append_two a b : Js.drop (S (S (String.length a))) (a +:+ b) = Js.drop 2 b.
Proof. rewrite <- (drop_append_plus a b 2). f_equal. lia. Qed.

Lemma drop_append_one a b : Js.drop (S (String.length a)) (a +:+ b) = Js.drop 1 b.
Proof. rewrite <- (drop_append_plus a b 1). f_equal. lia. Qed.

Lemma id_backtrack_step k run after :
  id_backtrack (S k) run after
  = match block_tail (if (S k =? String.length run)%nat then Js.skip_space after
                      else Js.drop (S k) run +:+ after) with
    | Some (group, rest') => Some (Js.take (S k) run, group, rest')
    | None => id_backtrack k run after
    end.
Proof. reflexivity. Qed.

Lemma strip_prefix_cons a lit b s :
  Js.strip_prefix (String a lit) (String b s)
  = if Ascii.eqb a b then Js.strip_prefix lit s else None.
Proof. reflexivity. Qed.

Lemma strip_prefix_mismatch a lit b s :
  a <> b -> Js.strip_prefix (String a lit) (String b s) = None.
Proof.
  intros Hne. rewrite strip_prefix_cons.
  destruct (Ascii.eqb_spec a b); [congruence | reflexivity].
Qed.

Lemma block_tail_not_equals c s : c <> "="%char -> block_tail (String c s) = None.
Proof.
  intros Hc. unfold block_tail. rewrite strip_prefix_mismatch; [reflexivity | congruence].
Qed.

Lemma block_tail_one_equals c s : c <> "="%char -> block_tail ("=" +:+ String c s) = None.
Proof.
  intros Hc. unfold block_tail.
  change ("=" +:+ String c s) with (String "=" (String c s)).
  rewrite strip_prefix_cons, Ascii.eqb_refl, strip_prefix_mismatch; [reflexivity | congruence].
Qed.

Lemma block_tail_two_equals c s : c <> "="%char -> block_tail ("==" +:+ String c s) = None.
Proof.
  intros Hc. unfold block_tail.
  change ("==" +:+ String c s) with (String "=" (String "=" (String c s))).
  do 2 rewrite strip_prefix_cons, Ascii.eqb_refl.
  rewrite strip_prefix_mismatch; [reflexivity | congruence].
Qed.



(** *** The scan of the response *)

Lemma exec_sessionPattern_here s m :
  match_block s = Some m -> exec_sessionPattern s = Some m.
Proof. intros H. destruct s; cbn [exec_sessionPattern]; now rewrite H. Qed.




(** The save loop of a tier batch. *)
#[global] Instance saves_within_preorder ids : PreOrder (saves_within ids).
Proof.
  split.
  - intros w. split; [| reflexivity]. exists []. split; [now rewrite app_nil_r |].
    intros k [].
  - intros w1 w2 w3 [[n1 [H1 P1]] Q1] [[n2 [H2 P2]] Q2]. split.
    + exists (n1 ++ n2). split; [rewrite H2, H1; now rewrite app_assoc |].
      intros k Hk. unfold saved_ids in Hk. rewrite List.flat_map_app in Hk.
      apply List.in_app_or in Hk as [Hk | Hk]; [now apply P1 | now apply P2].
    + intros k Hk. rewrite (Q2 k Hk). now apply Q1.
Qed.






(** *** Sections of a block *)

(** A header that occurs nowhere gives the empty section, not an error. *)
Lemma extractSection_missing content sectionName :
  (forall g r, content = g +:+ r ->
     Js.starts_with_ci (HEADER_MARK +:+ sectionName) r = false) ->
  extractSection content sectionName = "".
Proof.
  intros Hnone. unfold extractSection.
  destruct (Js.break_at _ content) as [[g r] |] eqn:Hb; [| reflexivity].
  apply break_at_Some in Hb as [Hs [Hp _]].
  rewrite (Hnone g r Hs) in Hp. discriminate.
Qed.

Lemma extractTags_missing content :
  (forall g r, content = g +:+ r -> Js.starts_with_ci (HEADER_MARK +:+ "Tags") r = false) ->
  extractTags content = [].
Proof.
  intros Hnone. unfold extractTags. now rewrite (extractSection_missing content "Tags" Hnone).
Qed.

(** The lazy group of [extractSection] always finds its end: at the next
    ["## "] or at the end of the content. *)
Lemma section_end_found s : exists g r, Js.break_at section_end s = Some (g, r).
Proof.
  rewrite <- (append_nil_r s). apply break_at_exists. reflexivity.
Qed.

(** Header names are compared without regard to case. *)
Lemma strip_prefix_ci_canonical lit lit' s :
  List.map Js.canonicalize (list_ascii_of_string lit)
  = List.map Js.canonicalize (list_ascii_of_string lit') ->
  Js.strip_prefix_ci lit s = Js.strip_prefix_ci lit' s.
Proof.
  revert lit' s. induction lit as [| a lit IH]; intros [| a' lit'] s; simpl;
    try discriminate; [reflexivity |].
  intros [= Ha Hrest]. destruct s as [| b s]; [reflexivity |].
  rewrite Ha, (IH lit' s Hrest). reflexivity.
Qed.

Example extractSection_any_case :
  extractSection ("## TAGS" +:+ nl +:+ "a, b" +:+ nl +:+ "## outcome" +:+ nl +:+ "done") "Tags"
  = "a, b"
  /\ extractSection ("## TAGS" +:+ nl +:+ "a, b" +:+ nl +:+ "## outcome" +:+ nl +:+ "done")
       "Outcome" = "done"
  /\ extractSection ("## TAGS" +:+ nl +:+ "a, b") "Approach" = ""
  /\ extractTags "## Tags auth, jwt,  login " = ["auth"; "jwt"; "login"]
  /\ extractTags "## Outcome done" = [].
Proof. repeat split; vm_compute; reflexivity. Qed.

(** The test of the repository: one block, six sections. *)
Example parseBatchResponse_mockResponse :
  JsMap.keys (parseBatchResponse mockResponse []) = ["test-session-1"]
  /\ (pd_executiveSummary <$> JsMap.get "test-session-1" (parseBatchResponse mockResponse []))
     = Some "This session implemented user authentication."
  /\ (pd_tags <$> JsMap.get "test-session-1" (parseBatchResponse mockResponse []))
     = Some ["authentication"; "jwt"; "login"].
Proof. repeat split; vm_compute; reflexivity. Qed.

(** *** The loop of [parseBatchResponse] ends *)

Lemma length_drop n s : String.length (Js.drop n s) <= String.length s.
Proof.
  revert s. induction n as [| n IH]; intros [| c s]; simpl; try lia.
  specialize (IH s). lia.
Qed.

Lemma length_skip_space s : String.length (Js.skip_space s) <= String.length s.
Proof.
  induction s as [| c s IH]; simpl; [lia |]. destruct (Js.is_space c); simpl; lia.
Qed.

Lemma strip_prefix_length lit s s' :
  Js.strip_prefix lit s = Some s' -> String.length s = String.length lit + String.length s'.
Proof.
  revert s. induction lit as [| a lit IH]; intros s; simpl.
  - now intros [= ->].
  - destruct s as [| b s]; [discriminate |].
    destruct (Ascii.eqb a b); [| discriminate]. intros H. simpl. now rewrite (IH s H).
Qed.

Lemma span_nonspace_length s run rest :
  Js.span_nonspace s = (run, rest) -> String.length s = String.length run + String.length rest.
Proof.
  revert run rest. induction s as [| c s IH]; intros run rest; simpl.
  - now intros [= <- <-].
  - destruct (Js.is_space c); [now intros [= <- <-] |].
    destruct (Js.span_nonspace s) as [run0 rest0]. intros [= <- <-].
    simpl. now rewrite (IH run0 rest0 eq_refl).
Qed.

Lemma block_tail_length s group rest :
  block_tail s = Some (group, rest) -> String.length rest + 3 <= String.length s.
Proof.
  unfold block_tail.
  destruct (Js.strip_prefix "===" s) as [s' |] eqn:Hs; [| discriminate].
  apply strip_prefix_length in Hs.
  destruct (Js.break_at _ s') as [[g at_end] |] eqn:Hb; [| discriminate].
  intros Heq.
  assert (Hrest : rest = Js.drop (String.length SESSION_END) at_end) by congruence.
  apply break_at_Some in Hb as [Hsplit _].
  pose proof (length_drop (String.length SESSION_END) at_end).
  rewrite Hs, Hsplit, length_append, Hrest. change (String.length "===") with 3. lia.
Qed.

Lemma id_backtrack_length k run after id group rest :
  k <= String.length run ->
  id_backtrack k run after = Some (id, group, rest) ->
  String.length rest + 3 <= String.length run + String.length after.
Proof.
  induction k as [| k IH]; intros Hk; [discriminate |].
  rewrite id_backtrack_step.
  destruct (block_tail _) as [[g r] |] eqn:Htail.
  - intros [= <- <- <-]. apply block_tail_length in Htail.
    destruct (S k =? String.length run)%nat.
    + pose proof (length_skip_space after). lia.
    + rewrite length_append in Htail. pose proof (length_drop (S k) run). lia.
  - apply IH. lia.
Qed.

Lemma match_block_length s id group rest :
  match_block s = Some (id, group, rest) -> String.length rest < String.length s.
Proof.
  unfold match_block.
  destruct (Js.strip_prefix SESSION_START s) as [s1 |] eqn:Hs; [| discriminate].
  apply strip_prefix_length in Hs.
  destruct (Js.span_nonspace (Js.skip_space s1)) as [run after] eqn:Hspan.
  apply span_nonspace_length in Hspan. pose proof (length_skip_space s1).
  intros Hm. apply id_backtrack_length in Hm; [| lia]. simpl in Hs. lia.
Qed.

Lemma exec_sessionPattern_length s id group rest :
  exec_sessionPattern s = Some (id, group, rest) -> String.length rest < String.length s.
Proof.
  induction s as [| c s IH]; cbn [exec_sessionPattern].
  - destruct (match_block "") as [[[i g] r] |] eqn:Hm; [| discriminate].
    intros [= <- <- <-]. now apply match_block_length in Hm.
  - destruct (match_block (String c s)) as [[[i g] r] |] eqn:Hm.
    + intros [= <- <- <-]. now apply match_block_length in Hm.
    + intros H. specialize (IH H). simpl. lia.
Qed.

(** The bound [length response] on the number of matches is never reached:
    more fuel gives the same map. *)
Lemma parse_loop_complete fuel : forall s docs,
  String.length s <= fuel ->
  parse_loop fuel s docs = parse_loop (String.length s) s docs.
Proof.
  induction fuel as [fuel IH] using lt_wf_ind. intros s docs Hfuel.
  destruct fuel as [| fuel].
  - assert (String.length s = 0) as -> by lia. reflexivity.
  - destruct (String.length s) as [| n] eqn:Hlen.
    + destruct s; [| discriminate]. reflexivity.
    + cbn [parse_loop].
      destruct (exec_sessionPattern s) as [[[id group] rest] |] eqn:Hexec; [| reflexivity].
      apply exec_sessionPattern_length in Hexec.
      rewrite (IH fuel ltac:(lia) rest) by lia.
      rewrite (IH n ltac:(lia) rest) by lia. reflexivity.
Qed.

(** The keys of the result are ids captured by the pattern: an id that no
    match captures has no entry. *)
Lemma parse_loop_keys fuel : forall s docs id,
  JsMap.get id (parse_loop fuel s docs) <> None ->
  JsMap.get id docs <> None
  \/ exists g r s', exec_sessionPattern s' = Some (id, g, r).
Proof.
  induction fuel as [| fuel IH]; intros s docs id; simpl; [auto |].
  destruct (exec_sessionPattern s) as [[[sessionId group] rest] |] eqn:Hexec; [| auto].
  intros Hget. destruct (IH _ _ _ Hget) as [Hdocs | Hlater]; [| auto].
  destruct (string_dec sessionId id) as [-> | Hne].
  - right. eauto.
  - left. now rewrite JsMap_get_set_other in Hdocs.
Qed.

(** C7 fails on the code: the pattern's greedy [(\S+)] runs through the
    ["==="] that closes the id whenever no white space follows it, and
    stops at the last ["==="] of the run that is followed by an end marker.
    Two blocks for ["a"] and ["b"] on two lines, with bodies free of white
    space, give a single entry under ["a===x===SESSION_END==="] and none
    for ["a"] or ["b"]; a block whose body opens with a line of equals signs
    is filed under ["s1==="].  With the line breaks of the prompt's
    template the same two blocks give the two entries. *)
Theorem parseBatchResponse_overruns_id :
  JsMap.keys (parseBatchResponse fx_two_blocks []) = ["a===x===SESSION_END==="]
  /\ JsMap.get "a" (parseBatchResponse fx_two_blocks []) = None
  /\ JsMap.get "b" (parseBatchResponse fx_two_blocks []) = None
  /\ JsMap.keys (parseBatchResponse fx_ruled_block []) = ["s1==="]
  /\ JsMap.keys (parseBatchResponse fx_two_blocks_spaced []) = ["a"; "b"].
Proof. repeat split; vm_compute; reflexivity. Qed.

(* ===================================================================== *)
(** * Part III: further properties *)
(* ===================================================================== *)

(** ** Tags and sections *)

Lemma skip_space_split s : exists a, s = a +:+ Js.skip_space s /\ no_space (Js.skip_space s) = no_space (Js.skip_space s).
Proof.
  induction s as [| c s [a [IH _]]]; simpl.
  - exists "". auto.
  - destruct (Js.is_space c).
    + exists (String c a). simpl. split; [now rewrite <- IH | reflexivity].
    + exists "". auto.
Qed.

Lemma trim_end_split s : exists b, s = Js.trim_end s +:+ b.
Proof.
  induction s as [| c s [b IH]]; simpl.
  - exists "". reflexivity.
  - destruct (Js.trim_end s) as [| y t] eqn:E.
    + destruct (Js.is_space c).
      * exists (String c s). reflexivity.
      * exists s. reflexivity.
    + exists b. rewrite IH at 1. reflexivity.
Qed.

Lemma trim_infix s : exists a b, s = a +:+ Js.trim s +:+ b.
Proof.
  destruct (skip_space_split s) as [a [Ha _]].
  destruct (trim_end_split (Js.skip_space s)) as [b Hb].
  exists a, b. unfold Js.trim. now rewrite <- Hb.
Qed.

Lemma has_char_append c a b : has_char c (a +:+ b) = has_char c a || has_char c b.
Proof. induction a as [| x a IH]; simpl; [reflexivity | now rewrite IH, orb_assoc]. Qed.

Lemma has_char_trim c s : has_char c s = false -> has_char c (Js.trim s) = false.
Proof.
  intros H. destruct (trim_infix s) as [a [b Hs]]. rewrite Hs in H.
  rewrite !has_char_append in H. apply orb_false_iff in H as [_ H].
  apply orb_false_iff in H as [H _]. exact H.
Qed.

Lemma trim_end_nonempty c s :
  Js.is_space c = false -> Js.trim_end (String c s) = String c (Js.trim_end s).
Proof. intros Hc. simpl. destruct (Js.trim_end s); [now rewrite Hc | reflexivity]. Qed.

Lemma trim_end_cons c s :
  Js.trim_end (String c s)
  = match Js.trim_end s with
    | "" => if Js.is_space c then "" else String c ""
    | t => String c t
    end.
Proof. reflexivity. Qed.

Lemma trim_end_idem s : Js.trim_end (Js.trim_end s) = Js.trim_end s.
Proof.
  induction s as [| c s IH]; [reflexivity |]. rewrite trim_end_cons.
  destruct (Js.trim_end s) as [| y t] eqn:E.
  - destruct (Js.is_space c) eqn:Hc; [reflexivity |]. simpl. now rewrite Hc.
  - rewrite trim_end_cons, IH. reflexivity.
Qed.

Lemma skip_space_starts s :
  Js.skip_space s = "" \/ exists c t, Js.skip_space s = String c t /\ Js.is_space c = false.
Proof.
  induction s as [| c s IH]; simpl; [now left |].
  destruct (Js.is_space c) eqn:Hc; [exact IH |]. right. eauto.
Qed.

Lemma trim_idem s : Js.trim (Js.trim s) = Js.trim s.
Proof.
  unfold Js.trim. destruct (skip_space_starts s) as [-> | [c [t [-> Hc]]]]; [reflexivity |].
  rewrite (trim_end_nonempty c t Hc). simpl Js.skip_space. rewrite Hc.
  rewrite <- (trim_end_nonempty c _ Hc). rewrite (trim_end_nonempty c t Hc).
  rewrite (trim_end_nonempty c _ Hc). now rewrite trim_end_idem.
Qed.

Lemma split_pieces sep s p : In p (Js.split sep s) -> has_char sep p = false.
Proof.
  revert p. induction s as [| c s IH]; simpl; intros p.
  - intros [<- | []]. reflexivity.
  - destruct (Ascii.eqb_spec c sep) as [-> | Hne].
    + intros [<- | H]; [reflexivity | now apply IH].
    + destruct (Js.split sep s) as [| piece pieces] eqn:E.
      * intros [<- | []]. simpl. destruct (Ascii.eqb_spec c sep); [congruence | reflexivity].
      * intros [<- | H].
        -- simpl. destruct (Ascii.eqb_spec c sep); [congruence |]. apply IH. now left.
        -- apply IH. now right.
Qed.

Lemma extractTags_pieces content : Forall clean_tag (extractTags content).
Proof.
  unfold extractTags. destruct (negb _); [constructor |].
  apply List.Forall_forall. intros t Ht.
  apply List.filter_In in Ht as [Ht Hlen].
  apply List.in_map_iff in Ht as [p [<- Hp]].
  split; [| split].
  - intros E. rewrite E in Hlen. discriminate.
  - apply has_char_trim. eapply split_pieces. exact Hp.
  - apply trim_idem.
Qed.

(** X1: every tag that [extractTags] returns is non-empty, contains no
    comma and carries no white space at either end, whatever the content. *)
Theorem extractTags_clean content : Forall clean_tag (extractTags content).
Proof. apply extractTags_pieces. Qed.

Lemma occurs_in_trans a b c : occurs_in a b -> occurs_in b c -> occurs_in a c.
Proof.
  intros [p1 [s1 H1]] [p2 [s2 H2]]. exists (p2 +:+ p1), (s1 +:+ s2).
  rewrite H2, H1. now rewrite !append_assoc.
Qed.

Lemma occurs_in_trim s : occurs_in (Js.trim s) s.
Proof. destruct (trim_infix s) as [a [b H]]. exists a, b. exact H. Qed.

Lemma strip_prefix_ci_suffix lit s s' :
  Js.strip_prefix_ci lit s = Some s' -> exists matched, s = matched +:+ s'.
Proof.
  revert s. induction lit as [| a lit IH]; intros s; simpl.
  - intros [= ->]. exists "". reflexivity.
  - destruct s as [| b s]; [discriminate |].
    destruct (Ascii.eqb _ _); [| discriminate]. intros H.
    destruct (IH s H) as [m ->]. exists (String b m). reflexivity.
Qed.

Lemma skip_space_suffix s : exists a, s = a +:+ Js.skip_space s.
Proof. destruct (skip_space_split s) as [a [H _]]. eauto. Qed.

(** The parts [extractSection] cuts its input into. *)
Lemma extractSection_group content sectionName :
  extractSection content sectionName = ""
  \/ exists before group rest,
       content = before +:+ group +:+ rest
       /\ Js.break_at section_end (group +:+ rest) = Some (group, rest)
       /\ extractSection content sectionName = Js.trim group.
Proof.
  unfold extractSection.
  destruct (Js.break_at _ content) as [[pre at_header] |] eqn:Hb; [| now left].
  apply break_at_Some in Hb as [Hc _].
  destruct (Js.strip_prefix_ci _ at_header) as [after |] eqn:Hs; [| now left].
  apply strip_prefix_ci_suffix in Hs as [matched Hm].
  destruct (skip_space_suffix after) as [ws Hws].
  destruct (Js.break_at section_end (Js.skip_space after)) as [[group rest] |] eqn:Hg; [| now left].
  right. exists (pre +:+ matched +:+ ws), group, rest.
  pose proof Hg as Hg'. apply break_at_Some in Hg' as [Hsplit _].
  rewrite <- Hsplit. split; [| split; [exact Hg | reflexivity]].
  rewrite Hc, Hm, Hws at 1. now rewrite !append_assoc.
Qed.

Lemma extractSection_text content sectionName :
  let text := extractSection content sectionName in
  Js.trim text = text
  /\ ~ occurs_in HEADER_MARK text
  /\ occurs_in text content.
Proof.
  cbv zeta. destruct (extractSection_group content sectionName)
    as [-> | [before [group [rest [Hc [Hb ->]]]]]].
  - split; [reflexivity |]. split.
    + intros [pre [suf H]]. destruct pre; discriminate.
    + exists "", content. reflexivity.
  - split; [apply trim_idem |]. split.
    + intros [pre [suf H]]. destruct (trim_infix group) as [a [b Hg]].
      apply break_at_Some in Hb as [_ [_ Hfirst]].
      specialize (Hfirst (a +:+ pre) (HEADER_MARK +:+ suf +:+ b +:+ rest)).
      assert (Hsec : section_end (HEADER_MARK +:+ suf +:+ b +:+ rest) = true).
      { unfold section_end, Js.starts_with. now rewrite strip_prefix_append. }
      rewrite Hfirst in Hsec; [discriminate | |].
      * rewrite Hg at 1. rewrite H. now rewrite !append_assoc.
      * rewrite Hg at 1. rewrite H, !length_append. unfold HEADER_MARK. simpl. lia.
    + apply (occurs_in_trans _ group); [apply occurs_in_trim |].
      exists before, rest. exact Hc.
Qed.

Lemma strip_prefix_ci_same lit s s' :
  Js.strip_prefix_ci lit s = Some s' ->
  exists matched, s = matched +:+ s' /\ same_name lit matched.
Proof.
  revert s. induction lit as [| a lit IH]; intros s; simpl.
  - intros [= ->]. exists "". split; reflexivity.
  - destruct s as [| b s]; [discriminate |].
    destruct (Ascii.eqb_spec (Js.canonicalize a) (Js.canonicalize b)) as [Hab | _];
      [| discriminate].
    intros H. destruct (IH s H) as [m [-> Hm]]. exists (String b m).
    split; [reflexivity |]. unfold same_name in *. simpl. now rewrite Hab, Hm.
Qed.

Lemma extractSection_absent content sectionName :
  header_absent sectionName content -> extractSection content sectionName = "".
Proof.
  intros Habsent. apply extractSection_missing. intros g r Hc.
  unfold Js.starts_with_ci.
  destruct (Js.strip_prefix_ci (HEADER_MARK +:+ sectionName) r) as [s' |] eqn:E;
    [| reflexivity].
  exfalso. apply strip_prefix_ci_same in E as [matched [Hr Hsame]].
  apply (Habsent g matched s'); [| exact Hsame]. now rewrite Hc, Hr.
Qed.

(** X2: for a section name without a syntax character, the text
    [extractSection] returns is trimmed, is a piece of the content and never
    contains the header mark ["## "]: a section ends where the next header
    begins.  When the header of the section occurs nowhere in the content,
    the text is the empty string. *)
Theorem extractSection_clean content sectionName :
  literal_name sectionName = true ->
  let text := extractSection content sectionName in
  Js.trim text = text
  /\ ~ occurs_in HEADER_MARK text
  /\ occurs_in text content
  /\ (header_absent sectionName content -> text = "").
Proof.
  intros _. cbv zeta.
  destruct (extractSection_text content sectionName) as (H1 & H2 & H3).
  split; [exact H1 |]. split; [exact H2 |]. split; [exact H3 |].
  apply extractSection_absent.
Qed.

Lemma break_at_exact p x tail :
  p tail = true ->
  (forall g r, x = g +:+ r -> r <> "" -> p (r +:+ tail) = false) ->
  Js.break_at p (x +:+ tail) = Some (x, tail).
Proof.
  intros Hp. induction x as [| c x IH]; intros Hx.
  - destruct tail; simpl; rewrite Hp; reflexivity.
  - change (String c x +:+ tail) with (String c (x +:+ tail)). cbn [Js.break_at].
    change (String c (x +:+ tail)) with (String c x +:+ tail).
    rewrite (Hx "" (String c x) eq_refl) by discriminate.
    rewrite IH; [reflexivity |].
    intros g r Hs Hr. apply (Hx (String c g) r); [now rewrite Hs | exact Hr].
Qed.

Lemma break_at_here p s : p s = true -> Js.break_at p s = Some ("", s).
Proof. intros Hp. destruct s; simpl; rewrite Hp; reflexivity. Qed.

Lemma strip_prefix_ci_exact lit s x :
  Js.strip_prefix lit s = Some x -> Js.strip_prefix_ci lit s = Some x.
Proof.
  revert s. induction lit as [| a lit IH]; intros s; simpl; [auto |].
  destruct s as [| b s]; [discriminate |].
  destruct (Ascii.eqb_spec a b) as [-> | ]; [| discriminate].
  rewrite Ascii.eqb_refl. apply IH.
Qed.

Lemma strip_prefix_ci_take lit r s :
  Js.strip_prefix_ci lit (r +:+ s) <> None ->
  Js.strip_prefix_ci (Js.take (String.length r) lit) r <> None.
Proof.
  revert lit. induction r as [| b r IH]; intros lit; [discriminate |].
  destruct lit as [| a lit]; [discriminate |].
  change (String b r +:+ s) with (String b (r +:+ s)). simpl.
  destruct (Ascii.eqb _ _); [apply IH | congruence].
Qed.

Lemma begins_nowhere_spec lit s :
  begins_nowhere lit s = true ->
  forall g r t, s = g +:+ r -> r <> "" -> Js.starts_with_ci lit (r +:+ t) = false.
Proof.
  induction s as [| c s IH]; intros H g r t Hs Hr.
  - destruct g; [simpl in Hs; congruence | discriminate].
  - cbn [begins_nowhere] in H. apply andb_true_iff in H as [Hhere Hrest].
    destruct g as [| x g]; simpl in Hs.
    + subst r. apply negb_true_iff in Hhere. unfold Js.starts_with_ci in *.
      destruct (Js.strip_prefix_ci lit (String c s +:+ t)) eqn:E; [| reflexivity].
      exfalso. assert (Hne : Js.strip_prefix_ci lit (String c s +:+ t) <> None) by congruence.
      apply strip_prefix_ci_take in Hne.
      destruct (Js.strip_prefix_ci (Js.take _ lit) (String c s)); [discriminate | congruence].
    + injection Hs as _ Hs. apply (IH Hrest g r t Hs Hr).
Qed.

Lemma strip_prefix_ci_append lit s : Js.strip_prefix_ci lit (lit +:+ s) = Some s.
Proof.
  induction lit as [| a lit IH]; simpl; [reflexivity |]. now rewrite Ascii.eqb_refl.
Qed.

Lemma same_name_header a b :
  same_name a b ->
  List.map Js.canonicalize (list_ascii_of_string (HEADER_MARK +:+ a))
  = List.map Js.canonicalize (list_ascii_of_string (HEADER_MARK +:+ b)).
Proof. intros H. unfold HEADER_MARK. simpl. now rewrite H. Qed.

Lemma skip_space_all s t : Js.skip_space s = "" -> Js.skip_space (s +:+ t) = Js.skip_space t.
Proof.
  induction s as [| c s IH]; simpl; [reflexivity |].
  destruct (Js.is_space c); [exact IH | discriminate].
Qed.

Lemma section_end_skip tail : section_end tail = true -> Js.skip_space tail = tail.
Proof.
  unfold section_end. destruct tail as [| c tail]; [reflexivity |].
  simpl. rewrite orb_false_r. unfold Js.starts_with, HEADER_MARK.
  rewrite strip_prefix_cons. destruct (Ascii.eqb_spec "#" c) as [<- | ]; [| discriminate].
  reflexivity.
Qed.

Lemma begins_nowhere_suffix lit a s :
  begins_nowhere lit (a +:+ s) = true -> begins_nowhere lit s = true.
Proof.
  induction a as [| c a IH]; [auto |].
  change (String c a +:+ s) with (String c (a +:+ s)). cbn [begins_nowhere].
  intros H. apply andb_true_iff in H as [_ H]. auto.
Qed.

Lemma extractSection_of_section pre name name' text tail :
  (forall g r t, pre = g +:+ r -> r <> "" ->
     Js.starts_with_ci (HEADER_MARK +:+ name) (r +:+ t) = false) ->
  same_name name name' ->
  begins_nowhere HEADER_MARK text = true ->
  section_end tail = true ->
  extractSection (pre +:+ HEADER_MARK +:+ name' +:+ text +:+ tail) name = Js.trim text.
Proof.
  intros Hpre Hname Htext Htail. unfold extractSection.
  assert (Hheader : forall s, Js.strip_prefix_ci (HEADER_MARK +:+ name)
                                 ((HEADER_MARK +:+ name') +:+ s) = Some s).
  { intros s. rewrite (strip_prefix_ci_canonical _ _ _ (same_name_header _ _ Hname)).
    apply strip_prefix_ci_append. }
  rewrite (break_at_exact (Js.starts_with_ci (HEADER_MARK +:+ name)) pre
             (HEADER_MARK +:+ name' +:+ text +:+ tail)).
  - rewrite <- append_assoc, Hheader.
    destruct (skip_space_starts text) as [Hall | [c [u [Hskip Hc]]]].
    + rewrite (skip_space_all _ _ Hall), (section_end_skip _ Htail).
      unfold Js.trim. rewrite Hall, (break_at_here _ _ Htail). reflexivity.
    + rewrite (skip_space_append _ _ _ _ Hskip).
      rewrite (break_at_exact section_end (String c u) tail Htail).
      * unfold Js.trim. rewrite Hskip. simpl Js.skip_space. now rewrite Hc.
      * intros g r Hs Hr.
        destruct (skip_space_suffix text) as [a Ha]. rewrite Hskip in Ha.
        rewrite Ha in Htext. apply begins_nowhere_suffix in Htext.
        pose proof (begins_nowhere_spec _ _ Htext g r tail Hs Hr) as Hno.
        unfold section_end. destruct r as [| d r]; [congruence |].
        simpl. rewrite orb_false_r.
        unfold Js.starts_with_ci in Hno. unfold Js.starts_with.
        change (String d (r +:+ tail)) with (String d r +:+ tail).
        destruct (Js.strip_prefix HEADER_MARK (String d r +:+ tail)) eqn:E; [| reflexivity].
        rewrite (strip_prefix_ci_exact _ _ _ E) in Hno. discriminate.
  - unfold Js.starts_with_ci. rewrite <- append_assoc, Hheader. reflexivity.
  - intros g r Hs Hr. apply (Hpre g r _ Hs Hr).
Qed.

Lemma canonicalize_hash c : Js.canonicalize c = "#"%char -> c = "#"%char.
Proof.
  destruct c as [[] [] [] [] [] [] [] []]; vm_compute; congruence.
Qed.

Lemma starts_with_ci_first lit c s :
  c <> "#"%char -> Js.starts_with_ci (String "#" lit) (String c s) = false.
Proof.
  intros Hc. unfold Js.starts_with_ci. cbn [Js.strip_prefix_ci].
  destruct (Ascii.eqb_spec (Js.canonicalize "#") (Js.canonicalize c)) as [E | ]; [| reflexivity].
  exfalso. apply Hc. apply canonicalize_hash. now rewrite <- E.
Qed.

Lemma has_char_head c x s : has_char c (String x s) = false -> x <> c.
Proof. simpl. intros H ->. now rewrite Ascii.eqb_refl in H. Qed.

Lemma has_char_tail c x s : has_char c (String x s) = false -> has_char c s = false.
Proof. simpl. intros H. now apply orb_false_iff in H as [_ H]. Qed.

Lemma append_split a b g r :
  a +:+ b = g +:+ r ->
  (exists a2, a = g +:+ a2 /\ r = a2 +:+ b) \/ (exists g2, g = a +:+ g2 /\ b = g2 +:+ r).
Proof.
  revert g. induction a as [| x a IH]; intros g H.
  - right. exists g. simpl in *. auto.
  - destruct g as [| y g].
    + left. exists (String x a). simpl in *. auto.
    + change (String x (a +:+ b) = String y (g +:+ r)) in H. injection H as -> H.
      destruct (IH g H) as [[a2 [-> ->]] | [g2 [-> ->]]].
      * left. exists a2. auto.
      * right. exists g2. auto.
Qed.

(** No suffix of a text without ['#'] starts a header. *)
Lemma hashless_absent lit s :
  has_char "#" s = false ->
  forall g r t, s = g +:+ r -> r <> "" -> Js.starts_with_ci (String "#" lit) (r +:+ t) = false.
Proof.
  intros Hs g r t Heq Hr. destruct r as [| c r]; [congruence |].
  change (String c r +:+ t) with (String c (r +:+ t)). apply starts_with_ci_first.
  rewrite Heq, has_char_append in Hs. apply orb_false_iff in Hs as [_ Hs].
  now apply has_char_head in Hs.
Qed.

Lemma render_section_absent name sec :
  other_section name sec ->
  forall g r t, render_section sec = g +:+ r -> r <> "" ->
    Js.starts_with_ci (HEADER_MARK +:+ name) (r +:+ t) = false.
Proof.
  intros [Hn [Ht Hno]] g r t Heq Hr. unfold render_section, HEADER_MARK in *.
  destruct g as [| g0 [| g1 [| g2 g]]]; simpl in Heq.
  - subst r. change (Js.starts_with_ci name ((fst sec +:+ snd sec) +:+ t) = false).
    rewrite append_assoc. apply Hno.
  - injection Heq as _ <-. reflexivity.
  - injection Heq as _ _ <-. reflexivity.
  - injection Heq as _ _ _ Heq.
    apply (hashless_absent _ (fst sec +:+ snd sec)) with (g := g); [| exact Heq | exact Hr].
    now rewrite has_char_append, Hn, Ht.
Qed.

Lemma render_sections_absent name before :
  Forall (other_section name) before ->
  forall g r t, render_sections before = g +:+ r -> r <> "" ->
    Js.starts_with_ci (HEADER_MARK +:+ name) (r +:+ t) = false.
Proof.
  induction 1 as [| sec before Hsec _ IH]; intros g r t Heq Hr.
  - destruct g; [simpl in Heq; congruence | discriminate].
  - change (render_sections (sec :: before))
      with (render_section sec +:+ render_sections before) in Heq.
    destruct (append_split _ _ _ _ Heq) as [[a2 [Ha Hr2]] | [g2 [_ Hb]]].
    + destruct a2 as [| c a2].
      * simpl in Hr2. apply (IH "" r t); [now rewrite <- Hr2 | exact Hr].
      * rewrite Hr2, append_assoc.
        apply (render_section_absent name sec Hsec g (String c a2)); [exact Ha | discriminate].
    + apply (IH g2 r t Hb Hr).
Qed.

Lemma begins_nowhere_hashless s : has_char "#" s = false -> begins_nowhere HEADER_MARK s = true.
Proof.
  induction s as [| c s IH]; [reflexivity |]. intros H.
  cbn [begins_nowhere]. rewrite (IH (has_char_tail _ _ _ H)), andb_true_r.
  apply negb_true_iff. unfold HEADER_MARK. simpl Js.take.
  apply starts_with_ci_first. now apply has_char_head in H.
Qed.

Lemma section_end_render after : section_end (render_sections after) = true.
Proof. destruct after; reflexivity. Qed.

Lemma render_sections_app a b :
  render_sections (a ++ b) = render_sections a +:+ render_sections b.
Proof.
  induction a as [| sec a IH]; [reflexivity |].
  change (render_sections ((sec :: a) ++ b))
    with (render_section sec +:+ render_sections (a ++ b)).
  change (render_sections (sec :: a)) with (render_section sec +:+ render_sections a).
  now rewrite IH, append_assoc.
Qed.

(** X3: in a document written as a sequence of sections ["## " name text],
    [extractSection] for a name without a syntax character finds the first
    section whose name is the requested one up to letter case and returns its
    text trimmed, provided the text has no ["#"] and the sections before it
    have none either and do not start with the requested name. *)
Theorem extractSection_render before name name' text after :
  literal_name name = true ->
  Forall (other_section name) before ->
  same_name name name' ->
  has_char "#" text = false ->
  extractSection (render_sections (before ++ (name', text) :: after)) name = Js.trim text.
Proof.
  intros _ Hbefore Hname Htext.
  rewrite render_sections_app.
  change (render_sections ((name', text) :: after))
    with ((HEADER_MARK +:+ name' +:+ text) +:+ render_sections after).
  rewrite !append_assoc.
  apply extractSection_of_section.
  - apply render_sections_absent. exact Hbefore.
  - exact Hname.
  - now apply begins_nowhere_hashless.
  - apply section_end_render.
Qed.

Lemma starts_with_absent lit s :
  begins_nowhere lit s = true ->
  forall g r t, s = g +:+ r -> r <> "" -> Js.starts_with lit (r +:+ t) = false.
Proof.
  intros H g r t Hs Hr. pose proof (begins_nowhere_spec lit s H g r t Hs Hr) as Hci.
  unfold Js.starts_with, Js.starts_with_ci in *.
  destruct (Js.strip_prefix lit (r +:+ t)) eqn:E; [| reflexivity].
  now rewrite (strip_prefix_ci_exact _ _ _ E) in Hci.
Qed.

Lemma block_tail_exact body rest :
  begins_nowhere SESSION_END body = true ->
  block_tail ("===" +:+ body +:+ SESSION_END +:+ rest) = Some (body, rest).
Proof.
  intros Hbody. unfold block_tail. rewrite strip_prefix_append.
  rewrite (break_at_exact (Js.starts_with SESSION_END) body (SESSION_END +:+ rest)).
  - now rewrite drop_append.
  - unfold Js.starts_with. now rewrite strip_prefix_append.
  - intros g r Hs Hr. apply (starts_with_absent _ _ Hbody g r _ Hs Hr).
Qed.

Lemma match_block_exact id body rest :
  id <> "" -> no_space id = true -> body_starts_clean body ->
  begins_nowhere SESSION_END body = true ->
  match_block (session_block id body +:+ rest) = Some (id, body, rest).
Proof.
  intros Hid Hns [[c [body' [Hbody Hc]]] [c' [t [Hskip Hc']]]] Hend.
  unfold session_block. rewrite !append_assoc.
  unfold match_block. rewrite strip_prefix_append.
  destruct id as [| i0 id']; [congruence |].
  assert (Hi0 : Js.is_space i0 = false).
  { simpl in Hns. apply andb_true_iff in Hns as [H _]. now apply negb_true_iff in H. }
  set (id := String i0 id') in *.
  remember (body +:+ SESSION_END +:+ rest) as after eqn:Hdef.
  assert (Hafter : after = String c (body' +:+ SESSION_END +:+ rest)).
  { rewrite Hdef, Hbody. reflexivity. }
  assert (Hskip_after : Js.skip_space after = String c' (t +:+ SESSION_END +:+ rest)).
  { rewrite Hdef, (skip_space_append _ _ _ _ Hskip). reflexivity. }
  replace (Js.skip_space (" " +:+ id +:+ "===" +:+ after)) with ((id +:+ "===") +:+ after).
  2:{ rewrite append_assoc. unfold id at 2. simpl. now rewrite Hi0. }
  assert (Hspan : Js.span_nonspace ((id +:+ "===") +:+ after) = (id +:+ "===", after)).
  { rewrite Hafter. apply span_nonspace_run; [| exact Hc].
    rewrite no_space_append, Hns. reflexivity. }
  rewrite Hspan.
  assert (Hlen : String.length (id +:+ "===") = S (S (S (String.length id)))).
  { rewrite length_append. simpl. lia. }
  rewrite Hlen.
  rewrite id_backtrack_step, Hlen, Nat.eqb_refl, Hskip_after,
    (block_tail_not_equals _ _ Hc').
  rewrite id_backtrack_step, Hlen.
  replace (S (S (String.length id)) =? S (S (S (String.length id))))%nat with false
    by (symmetry; apply Nat.eqb_neq; lia).
  rewrite drop_append_two. cbn [Js.drop].
  replace (block_tail ("=" +:+ after)) with (@None (string * string))
    by (rewrite Hafter; symmetry; apply block_tail_one_equals, is_space_not_equals, Hc).
  rewrite id_backtrack_step, Hlen.
  replace (S (String.length id) =? S (S (S (String.length id))))%nat with false
    by (symmetry; apply Nat.eqb_neq; lia).
  rewrite drop_append_one. cbn [Js.drop].
  replace (block_tail ("==" +:+ after)) with (@None (string * string))
    by (rewrite Hafter; symmetry; apply block_tail_two_equals, is_space_not_equals, Hc).
  unfold id at 1. cbn [String.length]. rewrite id_backtrack_step, Hlen.
  replace (S (String.length id') =? S (S (S (String.length id))))%nat with false
    by (symmetry; apply Nat.eqb_neq; unfold id; simpl; lia).
  change (S (String.length id')) with (String.length id).
  replace (Js.drop (String.length id) (id +:+ "===")) with "==="
    by (symmetry; apply drop_append).
  rewrite take_append, Hdef, (block_tail_exact body rest Hend). reflexivity.
Qed.

Lemma match_block_needs_start s :
  Js.starts_with SESSION_START s = false -> match_block s = None.
Proof.
  unfold Js.starts_with, match_block. destruct (Js.strip_prefix SESSION_START s); [discriminate | auto].
Qed.

Lemma exec_sessionPattern_lead lead s :
  begins_nowhere SESSION_START lead = true ->
  exec_sessionPattern (lead +:+ s) = exec_sessionPattern s.
Proof.
  induction lead as [| c lead IH]; [reflexivity |]. intros H.
  change (String c lead +:+ s) with (String c (lead +:+ s)). cbn [exec_sessionPattern].
  change (String c (lead +:+ s)) with (String c lead +:+ s).
  rewrite match_block_needs_start.
  - apply IH. apply (begins_nowhere_suffix _ (String c "") lead H).
  - apply (starts_with_absent _ _ H "" (String c lead) s eq_refl). discriminate.
Qed.

Lemma exec_sessionPattern_none tail :
  begins_nowhere SESSION_START tail = true -> exec_sessionPattern tail = None.
Proof.
  intros H. rewrite <- (append_nil_r tail). now rewrite (exec_sessionPattern_lead tail "" H).
Qed.

Lemma parse_loop_render blocks tail : forall docs fuel,
  Forall clean_block blocks -> begins_nowhere SESSION_START tail = true ->
  String.length (render_reply blocks tail) <= fuel ->
  parse_loop fuel (render_reply blocks tail) docs
  = List.fold_left
      (fun docs b => JsMap.set (rb_id b) (parsed_block (rb_id b) (Js.trim (rb_body b))) docs)
      blocks docs.
Proof.
  induction blocks as [| b blocks IH]; intros docs fuel Hblocks Htail Hfuel.
  - simpl. destruct fuel; [reflexivity |]. cbn [parse_loop].
    now rewrite (exec_sessionPattern_none tail Htail).
  - apply Forall_cons in Hblocks as [[Hlead [Hid [Hns [Hclean Hend]]]] Hblocks].
    change (render_reply (b :: blocks) tail)
      with (rb_lead b +:+ session_block (rb_id b) (rb_body b) +:+ render_reply blocks tail)
      in *.
    assert (Hexec : exec_sessionPattern
                      (rb_lead b +:+ session_block (rb_id b) (rb_body b)
                       +:+ render_reply blocks tail)
                    = Some (rb_id b, rb_body b, render_reply blocks tail)).
    { rewrite (exec_sessionPattern_lead _ _ Hlead). apply exec_sessionPattern_here.
      now apply match_block_exact. }
    destruct fuel as [| fuel].
    + exfalso. rewrite !length_append in Hfuel. unfold session_block in Hfuel.
      rewrite length_append in Hfuel. simpl in Hfuel. lia.
    + cbn [parse_loop List.fold_left]. rewrite Hexec. apply IH; [exact Hblocks | exact Htail |].
      apply exec_sessionPattern_length in Hexec. lia.
Qed.

(** ** What the worker saves and keeps *)

Lemma set_spread_step xs : forall acc,
  NoDup acc ->
  let out := List.fold_left
               (fun acc x => if List.existsb (String.eqb x) acc then acc else acc ++ [x]) xs acc in
  NoDup out /\ forall x, In x out <-> In x acc \/ In x xs.
Proof.
  induction xs as [| y xs IH]; intros acc Hnd; cbv zeta; simpl.
  - split; [exact Hnd | tauto].
  - destruct (List.existsb (String.eqb y) acc) eqn:E.
    + destruct (IH acc Hnd) as [H1 H2]. split; [exact H1 |].
      intros x. rewrite H2. apply List.existsb_exists in E as [z [Hz Hyz]].
      apply String.eqb_eq in Hyz. subst z. split; [tauto |].
      intros [H | [<- | H]]; auto.
    + assert (Hy : ~ In y acc).
      { intros Hin. assert (List.existsb (String.eqb y) acc = true).
        { apply List.existsb_exists. exists y. split; [exact Hin | apply String.eqb_refl]. }
        congruence. }
      destruct (IH (acc ++ [y])) as [H1 H2].
      * apply NoDup_app. split; [exact Hnd |]. split; [| apply NoDup_singleton].
        intros x Hx Hx'. apply list_elem_of_In in Hx. apply list_elem_of_In in Hx'.
        destruct Hx' as [<- | []]. contradiction.
      * split; [exact H1 |]. intros x. rewrite H2, List.in_app_iff. simpl. tauto.
Qed.

Lemma set_spread_spec xs :
  NoDup (set_spread xs) /\ forall x, In x (set_spread xs) <-> In x xs.
Proof.
  destruct (set_spread_step xs [] (NoDup_nil_2)) as [H1 H2]. split; [exact H1 |].
  intros x. rewrite H2. simpl. tauto.
Qed.

Lemma branches_of_spec ths :
  NoDup (branches_of ths)
  /\ forall b, In b (branches_of ths)
       <-> b <> "" /\ exists t, In t ths /\ th_branchId t = Some b.
Proof.
  unfold branches_of. destruct (set_spread_spec
    (omap (fun t => match th_branchId t with
                    | Some b => if Js.truthy b then Some b else None
                    | None => None
                    end) ths)) as [H1 H2].
  split; [exact H1 |]. intros b. rewrite H2.
  rewrite <- list_elem_of_In, list_elem_of_omap. split.
  - intros [t [Ht Hb]]. apply list_elem_of_In in Ht.
    destruct (th_branchId t) as [b' |] eqn:E; [| discriminate].
    destruct b' as [| c b']; simpl in Hb; [discriminate |]. injection Hb as <-.
    split; [discriminate | eauto].
  - intros [Hb [t [Ht E]]]. exists t. apply list_elem_of_In in Ht. split; [exact Ht |].
    rewrite E. destruct b; [congruence | reflexivity].
Qed.

Lemma or_else_nonempty a b : b <> "" -> Js.or_else a b <> "".
Proof. intros Hb. unfold Js.or_else. destruct a; simpl; [exact Hb | discriminate]. Qed.

Lemma fallback_nonempty (lead : string) n c rest :
  (String c rest ++ Js.of_nat n ++ lead)%string <> "".
Proof. discriminate. Qed.

Lemma clean_section_extract content name : clean_section (Some (extractSection content name)).
Proof.
  destruct (extractSection_text content name) as [H1 [H2 _]].
  eexists. split; [reflexivity |]. split; assumption.
Qed.

Lemma branches_wf ths :
  NoDup (branches_of ths) /\ Forall (fun b => b <> "") (branches_of ths).
Proof.
  destruct (branches_of_spec ths) as [H1 H2]. split; [exact H1 |].
  apply List.Forall_forall. intros b Hb. now apply H2 in Hb.
Qed.

Lemma summarizer_doc_wf ctx content t fallback :
  fallback <> "" -> well_formed_doc (summarizer_doc ctx content t fallback).
Proof.
  intros Hf. destruct (branches_wf (thoughts ctx)) as [Hb1 Hb2].
  unfold well_formed_doc, summarizer_doc. simpl.
  repeat split; try apply clean_section_extract; try lia; try assumption.
  - now apply or_else_nonempty.
  - eexists. split; [reflexivity | apply extractTags_pieces].
Qed.

Lemma batch_doc_wf ctx id content t :
  well_formed_doc (batch_doc ctx (parsed_block id content) t).
Proof.
  destruct (branches_wf (thoughts ctx)) as [Hb1 Hb2].
  unfold well_formed_doc, batch_doc, parsed_block. simpl.
  repeat split; try apply clean_section_extract; try lia; try assumption.
  - apply or_else_nonempty. discriminate.
  - eexists. split; [reflexivity | apply extractTags_pieces].
Qed.

Lemma JsMap_get_In {V} (k : string) (v : V) (m : JsMap.t V) :
  JsMap.get k m = Some v -> In (k, v) m.
Proof.
  induction m as [| [k' v'] m IH]; simpl; [discriminate |].
  destruct (String.eqb_spec k' k) as [-> | ]; [intros [= ->]; now left | auto].
Qed.

Lemma parse_loop_values fuel : forall s docs,
  Forall (fun kv => is_parsed_block (snd kv)) docs ->
  Forall (fun kv => is_parsed_block (snd kv)) (parse_loop fuel s docs).
Proof.
  induction fuel as [| fuel IH]; intros s docs Hdocs; simpl; [exact Hdocs |].
  destruct (exec_sessionPattern s) as [[[id group] rest] |]; [| exact Hdocs].
  apply IH. apply List.Forall_forall. intros [k v] Hin.
  destruct (JsMap_set_In _ _ _ _ _ Hin) as [H | H].
  - rewrite List.Forall_forall in Hdocs. apply (Hdocs _ H).
  - injection H as -> ->. simpl. eexists _, _. reflexivity.
Qed.

Lemma parseBatchResponse_values response sessions id p :
  JsMap.get id (parseBatchResponse response sessions) = Some p -> is_parsed_block p.
Proof.
  intros H. apply JsMap_get_In in H.
  pose proof (parse_loop_values (String.length response) response JsMap.empty (List.Forall_nil _)) as Hall.
  rewrite List.Forall_forall in Hall. apply (Hall _ H).
Qed.

#[global] Instance processing_preorder : PreOrder processing.
Proof.
  split.
  - intros w. do 9 (split; [now auto |]).
    exists []. split; [now rewrite app_nil_r | constructor].
  - intros w1 w2 w3 (Hs1 & Ht1 & Hk1 & Hp1 & Hq1 & Hl1 & Hc1 & Hd1 & Ho1 & n1 & Hn1 & Hf1)
      (Hs2 & Ht2 & Hk2 & Hp2 & Hq2 & Hl2 & Hc2 & Hd2 & Ho2 & n2 & Hn2 & Hf2).
    do 7 (split; [congruence |]). split; [now auto |]. split; [now auto |].
    exists (n1 ++ n2). split; [rewrite Hn2, Hn1; now rewrite app_assoc |].
    apply Forall_app. auto.
Qed.

#[global] Instance handling_preorder : PreOrder handling.
Proof.
  split.
  - intros w. do 4 (split; [reflexivity |]). split; [lia |].
    split; [now exists [] |]. split; [now auto |]. split; [now auto |].
    exists []. split; [now rewrite app_nil_r | constructor].
  - intros w1 w2 w3 (Hs1 & Ht1 & Hk1 & Hc1 & Hp1 & [a1 Hl1] & Hd1 & Ho1 & n1 & Hn1 & Hf1)
      (Hs2 & Ht2 & Hk2 & Hc2 & Hp2 & [a2 Hl2] & Hd2 & Ho2 & n2 & Hn2 & Hf2).
    do 4 (split; [congruence |]). split; [lia |].
    split; [exists (a2 ++ a1); rewrite Hl2, Hl1; now rewrite app_assoc |].
    split; [now auto |]. split; [now auto |].
    exists (n1 ++ n2). split; [rewrite Hn2, Hn1; now rewrite app_assoc |].
    apply Forall_app. auto.
Qed.

Lemma processing_handling w w' : processing w w' -> handling w w'.
Proof.
  intros (Hs & Ht & Hk & Hp & Hq & Hl & Hc & Hd & Ho & new & Hn & Hf).
  do 4 (split; [assumption |]). split; [lia |].
  split; [exists []; exact Hl |]. split; [assumption |]. split; [assumption |].
  exists new. split; [exact Hn |].
  eapply List.Forall_impl; [| exact Hf]. now intros e [_ He].
Qed.

Lemma frame_weaken (R R' : relation World) {A} (m : M A) :
  (forall w w', R w w' -> R' w w') -> Frame R m -> Frame R' m.
Proof. intros H Hm w. apply H, Hm. Qed.

Ltac processing_prim :=
  do 9 (split; [now auto |]);
  first [ now (exists []; split; [simpl; now rewrite app_nil_r | constructor])
        | now (eexists; split; [reflexivity | constructor; [now split | constructor]]) ].

Lemma saveDocumentation_processing doc :
  well_formed_doc doc -> Frame processing (saveDocumentation doc).
Proof.
  intros Hwf. unfold saveDocumentation, emit.
  f_bind; [f_modify; intros w | intros _; f_modify; intros w].
  - do 9 (split; [now auto |]). eexists. split; [reflexivity |].
    constructor; [split; [reflexivity | exact Hwf] | constructor].
  - do 7 (split; [reflexivity |]). split; [| split].
    + intros k Hk. simpl. destruct (string_dec (d_sessionId doc) k) as [<- | Hne].
      * now rewrite lookup_insert_eq.
      * now rewrite lookup_insert_ne.
    + intros Hok k d. simpl. destruct (string_dec (d_sessionId doc) k) as [<- | Hne].
      * rewrite lookup_insert_eq. intros [= <-]. auto.
      * rewrite lookup_insert_ne by exact Hne. apply Hok.
    + exists []. split; [simpl; now rewrite app_nil_r | constructor].
Qed.

Section Processing.

Variable config : Config.
Variable anthropic : nat -> LlmRequest -> LlmReply.

Lemma messages_create_processing model max_tokens prompt :
  Frame processing (messages_create anthropic model max_tokens prompt).
Proof. unfold messages_create, emit, first_text. frame_steps processing_prim. Qed.

Lemma processTierBatch_processing sessions model :
  Frame processing (processTierBatch anthropic sessions model).
Proof.
  unfold processTierBatch. destruct sessions as [| ctx sessions]; [f_ret |].
  f_bind; [apply messages_create_processing | intros responseText].
  f_for. intros c. unfold save_parsed.
  destruct (JsMap.get _ _) as [p |] eqn:E; [| f_ret].
  f_bind; [f_gets | intros t].
  destruct (parseBatchResponse_values _ _ _ _ E) as [id [content ->]].
  apply saveDocumentation_processing, batch_doc_wf.
Qed.

Lemma processBatch_processing : Frame processing (processBatch config anthropic).
Proof.
  unfold processBatch.
  f_bind; [frame_steps processing_prim | intros _].
  f_bind; [f_gets | intros queue].
  f_bind; [frame_steps processing_prim | intros _].
  destruct (slice_to _ _); [f_ret |].
  f_all; apply processTierBatch_processing.
Qed.

Lemma queueSession_processing ctx : Frame processing (queueSession config anthropic ctx).
Proof.
  unfold queueSession, emit.
  f_bind; [frame_steps processing_prim | intros _].
  f_bind; [frame_steps processing_prim | intros _].
  f_bind; [f_gets | intros size].
  destruct (_ <=? _)%Z; [apply processBatch_processing |].
  frame_steps processing_prim.
Qed.

Lemma stage_loop_processing fuel model ths totalStages i acc :
  Frame processing (stage_loop anthropic fuel model ths totalStages i acc).
Proof.
  revert i acc. induction fuel as [| fuel IH]; intros i acc; simpl.
  - destruct (i <? _)%nat; [f_fuel | f_ret].
  - destruct (i <? _)%nat; [| f_ret].
    f_bind; [apply messages_create_processing | intros summary; apply IH].
Qed.

Lemma generateDocumentation_processing ctx tier :
  Frame processing (generateDocumentation config anthropic ctx tier).
Proof.
  unfold generateDocumentation, emit.
  f_bind; [frame_steps processing_prim | intros _].
  destruct (_ <? _)%nat.
  - unfold stagedSummarization.
    f_bind; [apply stage_loop_processing | intros summaries].
    f_bind; [apply messages_create_processing | intros content].
    f_bind; [f_gets | intros t].
    f_bind; [apply saveDocumentation_processing, summarizer_doc_wf; discriminate
            | intros _; f_ret].
  - unfold singlePassSummarization.
    f_bind; [apply messages_create_processing | intros content].
    f_bind; [f_gets | intros t].
    f_bind; [apply saveDocumentation_processing, summarizer_doc_wf; discriminate
            | intros _; f_ret].
Qed.

Lemma processSession_processing event :
  Frame processing (processSession config anthropic event).
Proof.
  unfold processSession.
  f_bind; [unfold getSessionContext, getSession, getThoughts, getTasks;
           frame_steps processing_prim | intros sessionContext].
  destruct sessionContext as [ctx |]; [| f_throw].
  f_bind; [unfold getDocumentation; f_gets | intros existingDoc].
  destruct (match existingDoc with Some doc => up_to_date doc ctx | None => false end);
    [f_ret |].
  destruct (_ <=? 20)%nat; [apply queueSession_processing |].
  f_bind; [apply generateDocumentation_processing | intros _; f_ret].
Qed.

End Processing.

Ltac handling_prim :=
  do 4 (split; [reflexivity |]); (split; [simpl; lia |]);
  (split; [first [now exists [] | now (eexists [_]; reflexivity)] |]);
  (split; [now auto |]); (split; [now auto |]);
  first [ now (exists []; split; [simpl; now rewrite app_nil_r | constructor])
        | now (eexists; split; [reflexivity | constructor; [exact I | constructor]]) ].

Section Handling.

Variable config : Config.
Variable anthropic : nat -> LlmRequest -> LlmReply.

Lemma scheduleRetry_handling event retryCount :
  Frame handling (scheduleRetry config event retryCount).
Proof.
  unfold scheduleRetry. destruct (js_or _ _); [| f_throw].
  unfold zadd, emit. frame_steps handling_prim.
Qed.

Lemma moveToDeadLetter_handling event error :
  Frame handling (moveToDeadLetter config event error).
Proof. unfold moveToDeadLetter, lpush, emit. frame_steps handling_prim. Qed.

Lemma handleEvent_handling event : Frame handling (handleEvent config anthropic event).
Proof.
  unfold handleEvent. destruct (negb _); [f_ret |].
  f_catch.
  - f_bind; [| intros _; f_modify; intros w; handling_prim].
    apply (frame_weaken processing handling); [apply processing_handling |].
    apply processSession_processing.
  - intros error. destruct (_ <? _)%Z;
      [apply scheduleRetry_handling | apply moveToDeadLetter_handling].
Qed.

Lemma retryProcessorTick_handling : Frame handling (retryProcessorTick config anthropic).
Proof.
  unfold retryProcessorTick, zrangebyscore.
  f_bind; [f_gets | intros t]. f_bind; [f_gets | intros items].
  f_for. intros event. f_bind; [| intros _; apply handleEvent_handling].
  unfold zrem, emit. frame_steps handling_prim.
Qed.

Lemma processBatch_handling : Frame handling (processBatch config anthropic).
Proof.
  apply (frame_weaken processing handling); [apply processing_handling |].
  apply processBatch_processing.
Qed.

Lemma flush_handling : Frame handling (flush config anthropic).
Proof.
  unfold flush, getPendingCount. f_bind; [f_gets | intros size].
  destruct (_ <? _)%nat; [apply processBatch_handling | f_ret].
Qed.

Lemma batchTimerFires_handling : Frame handling (batchTimerFires config anthropic).
Proof.
  unfold batchTimerFires. f_bind; [f_gets | intros timer].
  destruct timer; [apply processBatch_handling | f_ret].
Qed.

End Handling.

Lemma returns_ret {A} (a : A) : returns (ret a).
Proof. intros w. discriminate. Qed.

Lemma returns_throw {A} error : returns (@throw A error).
Proof. intros w. discriminate. Qed.

Lemma returns_gets {A} (f : World -> A) : returns (gets f).
Proof. intros w. discriminate. Qed.

Lemma returns_modify f : returns (modify f).
Proof. intros w. discriminate. Qed.

Lemma returns_bind {A B} (m : M A) (k : A -> M B) :
  returns m -> (forall a, returns (k a)) -> returns (bind m k).
Proof.
  intros Hm Hk w. unfold bind. specialize (Hm w).
  destruct (m w) as [[a | error |] w1]; simpl in *; [apply Hk | discriminate | congruence].
Qed.

Lemma returns_try_catch {A} (body : M A) (handler : string -> M A) :
  returns body -> (forall error, returns (handler error)) -> returns (try_catch body handler).
Proof.
  intros Hb Hh w. unfold try_catch. specialize (Hb w).
  destruct (body w) as [[a | error |] w1]; simpl in *; [discriminate | apply Hh | congruence].
Qed.

Lemma returns_for_of {A} (xs : list A) (body : A -> M unit) :
  (forall x, returns (body x)) -> returns (for_of xs body).
Proof.
  intros Hb. induction xs as [| x xs IH]; simpl; [apply returns_ret |].
  apply returns_bind; auto.
Qed.

Lemma returns_promise_all2 (a b : M unit) :
  returns a -> returns b -> returns (promise_all2 a b).
Proof.
  intros Ha Hb w. unfold promise_all2. specialize (Ha w).
  destruct (a w) as [ra w1]. specialize (Hb w1). destruct (b w1) as [rb w2].
  simpl in *. destruct ra; auto.
Qed.

Ltac returns_steps :=
  repeat first
    [ apply returns_ret | apply returns_throw | apply returns_gets | apply returns_modify
    | apply returns_bind; [ | intros ? ]
    | apply returns_try_catch; [ | intros ? ]
    | apply returns_for_of; intros ?
    | apply returns_promise_all2
    | match goal with
      | |- returns (match ?x with _ => _ end) => destruct x
      | |- returns (if ?x then _ else _) => destruct x
      end ].

Section Returns.

Variable config : Config.
Variable anthropic : nat -> LlmRequest -> LlmReply.

Lemma first_text_returns reply : returns (first_text reply).
Proof. destruct reply; intros w; discriminate. Qed.

Lemma messages_create_returns model max_tokens prompt :
  returns (messages_create anthropic model max_tokens prompt).
Proof.
  unfold messages_create, emit.
  apply returns_bind; [apply returns_modify | intros _].
  apply returns_bind; [apply returns_gets | intros n].
  apply returns_bind; [apply returns_modify | intros _; apply first_text_returns].
Qed.

Lemma processTierBatch_returns sessions model :
  returns (processTierBatch anthropic sessions model).
Proof.
  unfold processTierBatch. destruct sessions as [| ctx sessions]; [apply returns_ret |].
  apply returns_bind; [apply messages_create_returns | intros responseText].
  apply returns_for_of. intros c. unfold save_parsed.
  destruct (JsMap.get _ _); [| apply returns_ret].
  apply returns_bind; [apply returns_gets | intros t].
  unfold saveDocumentation, emit.
  apply returns_bind; [apply returns_modify | intros _; apply returns_modify].
Qed.

Lemma processBatch_returns : returns (processBatch config anthropic).
Proof.
  unfold processBatch.
  apply returns_bind; [apply returns_modify | intros _].
  apply returns_bind; [apply returns_gets | intros queue].
  apply returns_bind; [apply returns_modify | intros _].
  destruct (slice_to _ _); [apply returns_ret |].
  apply returns_promise_all2; apply processTierBatch_returns.
Qed.

Lemma queueSession_returns ctx : returns (queueSession config anthropic ctx).
Proof.
  unfold queueSession, emit.
  apply returns_bind; [returns_steps | intros _].
  apply returns_bind; [returns_steps | intros _].
  apply returns_bind; [returns_steps | intros size].
  destruct (_ <=? _)%Z; [apply processBatch_returns | returns_steps].
Qed.

(** The bound on the iterations of the stage loop is large enough. *)
Lemma stage_loop_returns model ths totalStages fuel : forall i acc,
  List.length ths <= i + fuel * STAGE_SIZE ->
  returns (stage_loop anthropic fuel model ths totalStages i acc).
Proof.
  induction fuel as [| fuel IH]; intros i acc Hfuel; simpl.
  - destruct (Nat.ltb_spec i (List.length ths)); [simpl in Hfuel; lia | apply returns_ret].
  - destruct (i <? _)%nat; [| apply returns_ret].
    apply returns_bind; [apply messages_create_returns | intros summary].
    apply IH. unfold STAGE_SIZE in *. lia.
Qed.

Lemma generateDocumentation_returns ctx tier :
  returns (generateDocumentation config anthropic ctx tier).
Proof.
  unfold generateDocumentation, emit.
  apply returns_bind; [returns_steps | intros _].
  destruct (_ <? _)%nat.
  - unfold stagedSummarization.
    apply returns_bind; [apply stage_loop_returns; unfold STAGE_SIZE; lia | intros summaries].
    apply returns_bind; [apply messages_create_returns | intros content].
    unfold saveDocumentation, emit. returns_steps.
  - unfold singlePassSummarization.
    apply returns_bind; [apply messages_create_returns | intros content].
    unfold saveDocumentation, emit. returns_steps.
Qed.

Lemma processSession_returns event : returns (processSession config anthropic event).
Proof.
  unfold processSession.
  apply returns_bind;
    [unfold getSessionContext, getSession, getThoughts, getTasks; returns_steps
    | intros sessionContext].
  destruct sessionContext as [ctx |]; [| apply returns_throw].
  apply returns_bind; [apply returns_gets | intros existingDoc].
  destruct (match existingDoc with Some doc => up_to_date doc ctx | None => false end);
    [apply returns_ret |].
  destruct (_ <=? 20)%nat; [apply queueSession_returns |].
  apply returns_bind; [apply generateDocumentation_returns | intros _; apply returns_ret].
Qed.

End Returns.

Lemma scheduleRetry_delay_any config k :
  retryDelays config <> [] ->
  exists delay,
    js_or (js_index (retryDelays config) (k - 1))
          (js_index (retryDelays config) (Z.of_nat (List.length (retryDelays config)) - 1))
    = Some delay
    /\ In delay (retryDelays config).
Proof.
  intros Hne.
  assert (Hlen : 1 <= List.length (retryDelays config)).
  { destruct (retryDelays config); [congruence | simpl; lia]. }
  assert (Hlast : js_index (retryDelays config)
                    (Z.of_nat (List.length (retryDelays config)) - 1)
                  = Some (List.last (retryDelays config) 0%Z)).
  { unfold js_index. destruct (Z.ltb_spec (Z.of_nat (List.length (retryDelays config)) - 1) 0);
      [lia |].
    replace (Z.to_nat (Z.of_nat (List.length (retryDelays config)) - 1))
      with (List.length (retryDelays config) - 1) by lia.
    apply lookup_last. exact Hne. }
  rewrite Hlast.
  assert (Hin : In (List.last (retryDelays config) 0%Z) (retryDelays config)).
  { eapply lookup_in. apply (lookup_last _ 0%Z Hne). }
  unfold js_index. destruct (k - 1 <? 0)%Z; simpl; [eauto |].
  destruct (retryDelays config !! Z.to_nat (k - 1)) as [d |] eqn:Hd; simpl; [| eauto].
  destruct (d =? 0)%Z; [eauto |]. exists d. split; [reflexivity |]. eapply lookup_in. exact Hd.
Qed.

Lemma handleEvent_cases config anthropic event w :
  retryDelays config <> [] ->
  let retryCount := default 0%Z (p_retryCount (e_payload event)) in
  let run := processSession config anthropic event w in
  let w1 := snd run in
  let w' := snd (handleEvent config anthropic event w) in
  fst (handleEvent config anthropic event w) = Ok tt
  /\ (is_finalization (e_type event) = false -> w' = w)
  /\ (is_finalization (e_type event) = true ->
      (fst run = Ok tt /\ w' = set_processedCount (S (processedCount w)) w1)
      \/ (exists error delay,
            fst run = Throw error
            /\ (retryCount < maxRetries config)%Z
            /\ In delay (retryDelays config)
            /\ w' = snd (zadd (now w + delay)%Z (with_retryCount event (retryCount + 1)%Z) w1))
      \/ (exists error,
            fst run = Throw error
            /\ (maxRetries config <= retryCount)%Z
            /\ w' = snd (lpush {| dl_event := event;
                                  dl_error := error;
                                  dl_failedAt := now w;
                                  dl_retryCount := maxRetries config |} w1)))
  /\ processedCount w1 = processedCount w
  /\ retry_queue w1 = retry_queue w
  /\ dead_letter w1 = dead_letter w.
Proof.
  intros Htable. cbv zeta.
  pose proof (processSession_processing config anthropic event w)
    as (_ & _ & _ & Hcount & Hqueue & Hdead & Hnow & _).
  pose proof (processSession_returns config anthropic event w) as Hreturns.
  assert (Hcases : is_finalization (e_type event) = false
                   \/ is_finalization (e_type event) = true)
    by (destruct (is_finalization _); auto).
  destruct Hcases as [Hother | Hfinal].
  - assert (Hrun : handleEvent config anthropic event w = (Ok tt, w)).
    { unfold handleEvent. rewrite Hother. reflexivity. }
    rewrite Hrun. simpl. repeat split; auto. intros H. congruence.
  - destruct (processSession config anthropic event w) as [[[] | error |] w1] eqn:Hrun;
      simpl in *; [| | congruence].
    + assert (Hh : handleEvent config anthropic event w
                   = (Ok tt, set_processedCount (S (processedCount w1)) w1)).
      { rewrite (handleEvent_processes config anthropic event w Hfinal);
          rewrite Hrun; reflexivity. }
      rewrite Hh. simpl. rewrite Hcount.
      split; [reflexivity |]. split; [congruence |]. split; [| auto]. intros _. left. auto.
    + pose proof (handleEvent_catches config anthropic event w error Hfinal) as Hh.
      rewrite Hrun in Hh. specialize (Hh eq_refl). simpl in Hh. rewrite Hh.
      destruct (Z.ltb_spec (default 0%Z (p_retryCount (e_payload event))) (maxRetries config))
        as [Hlt | Hge].
      * destruct (scheduleRetry_delay_any config
                    (default 0%Z (p_retryCount (e_payload event)) + 1) Htable)
          as [delay [Hdelay Hin]].
        assert (Hsched : scheduleRetry config event
                           (default 0%Z (p_retryCount (e_payload event)) + 1) w1
                         = zadd (now w + delay)%Z
                             (with_retryCount event
                                (default 0%Z (p_retryCount (e_payload event)) + 1)%Z) w1).
        { unfold scheduleRetry. rewrite Hdelay. unfold bind at 1. unfold gets at 1.
          cbv beta iota. now rewrite Hnow. }
        rewrite Hsched.
        split; [reflexivity |]. split; [congruence |]. split; [| auto].
        intros _. right. left. exists error, delay. auto.
      * rewrite moveToDeadLetter_run. cbv zeta. simpl. rewrite Hnow.
        split; [reflexivity |]. split; [congruence |]. split; [| auto].
        intros _. right. right. exists error. auto.
Qed.

Lemma handling_effects w w' :
  handling w w' -> Forall saved_ok (new_effects w w').
Proof.
  intros (_ & _ & _ & _ & _ & _ & _ & _ & new & Hn & Hf).
  now rewrite (new_effects_app _ _ _ Hn).
Qed.

Lemma worker_operations_handling config anthropic event op :
  In op (worker_operations config anthropic event) -> Frame handling op.
Proof.
  intros [<- | [<- | [<- | [<- | [<- | []]]]]].
  - apply handleEvent_handling.
  - apply retryProcessorTick_handling.
  - apply flush_handling.
  - apply batchTimerFires_handling.
  - apply flush_handling.
Qed.

(** X5: none of the worker's operations (handling an event, a run of the
    retry processor, a flush, the batch timer, shutdown) changes a session,
    its thoughts or its tasks, removes a document, lowers the counter of
    processed events or drops an entry of the dead-letter list. *)
Theorem worker_keeps_store config anthropic event w :
  Forall
    (fun op : M unit =>
       let w' := snd (op w) in
       w_sessions w' = w_sessions w
       /\ w_thoughts w' = w_thoughts w
       /\ w_tasks w' = w_tasks w
       /\ now w' = now w
       /\ (forall k, w_docs w !! k <> None -> w_docs w' !! k <> None)
       /\ processedCount w <= processedCount w'
       /\ exists added, dead_letter w' = added ++ dead_letter w)
    (worker_operations config anthropic event).
Proof.
  apply List.Forall_forall. intros op Hop. cbv zeta.
  destruct (worker_operations_handling config anthropic event op Hop w)
    as (Hs & Ht & Hk & Hn & Hp & Hd & Hdocs & _).
  auto 10.
Qed.

(** X6: every document the worker saves, by whichever operation and
    whatever the model replied, is well formed: its summary is not empty, its
    counts are not negative, its branches are distinct and non-empty, its
    five sections are trimmed and free of header marks and its tags are
    clean.  If every stored document is well formed and filed under its own
    session id, this still holds afterwards. *)
Theorem saved_documents_well_formed config anthropic event w :
  Forall
    (fun op : M unit =>
       let w' := snd (op w) in
       Forall saved_ok (new_effects w w') /\ (docs_ok w -> docs_ok w'))
    (worker_operations config anthropic event).
Proof.
  apply List.Forall_forall. intros op Hop. cbv zeta.
  pose proof (worker_operations_handling config anthropic event op Hop w) as H.
  split; [now apply handling_effects |].
  destruct H as (_ & _ & _ & _ & _ & _ & _ & Hok & _). exact Hok.
Qed.

(** ** The discipline of the batch accumulator *)

#[global] Instance disciplined_preorder config : PreOrder (disciplined config).
Proof.
  split.
  - intros w Hok. split; [exact Hok |]. exists []. split; [now rewrite app_nil_r | constructor].
  - intros w1 w2 w3 H1 H2 Hok. destruct (H1 Hok) as [Hok2 [n1 [Hn1 Hf1]]].
    destruct (H2 Hok2) as [Hok3 [n2 [Hn2 Hf2]]]. split; [exact Hok3 |].
    exists (n1 ++ n2). split; [rewrite Hn2, Hn1; now rewrite app_assoc |].
    apply Forall_app. auto.
Qed.

Ltac disc_prim :=
  let Hok := fresh "Hok" in
  intros Hok; split; [exact Hok |];
  first [ now (exists []; split; [simpl; now rewrite app_nil_r | constructor])
        | now (eexists; split; [reflexivity | constructor; [exact I | constructor]]) ].

Section Discipline.

Variable config : Config.
Variable anthropic : nat -> LlmRequest -> LlmReply.

Hypothesis batchSize_pos : (1 <= batchSize config)%Z.

Lemma messages_create_disciplined model max_tokens prompt :
  bounded_request config
    {| rq_model := model; rq_max_tokens := max_tokens; rq_prompt := prompt |} ->
  Frame (disciplined config) (messages_create anthropic model max_tokens prompt).
Proof.
  intros Hrq. unfold messages_create, emit.
  f_bind; [f_modify; intros w Hok | intros _].
  - split; [exact Hok |]. eexists. split; [reflexivity |]. constructor; [exact Hrq | constructor].
  - f_bind; [f_gets | intros n]. f_bind; [f_modify; intros w; disc_prim | intros _].
    unfold first_text. frame_steps disc_prim.
Qed.

Lemma saveDocumentation_disciplined doc : Frame (disciplined config) (saveDocumentation doc).
Proof. unfold saveDocumentation, emit. frame_steps disc_prim. Qed.

Lemma processTierBatch_disciplined sessions model :
  (sessions <> [] -> bounded_request config (batch_request model sessions)) ->
  Frame (disciplined config) (processTierBatch anthropic sessions model).
Proof.
  intros Hrq. unfold processTierBatch. destruct sessions as [| ctx sessions]; [f_ret |].
  f_bind; [apply messages_create_disciplined; apply Hrq; discriminate | intros responseText].
  f_for. intros c. unfold save_parsed. destruct (JsMap.get _ _); [| f_ret].
  f_bind; [f_gets | intros t; apply saveDocumentation_disciplined].
Qed.

Lemma small_pending_values q : small_pending q -> Forall small_context (JsMap.values q).
Proof.
  unfold small_pending, JsMap.values. rewrite !List.Forall_forall. intros H ctx Hin.
  apply List.in_map_iff in Hin as [kv [<- Hkv]]. now apply H.
Qed.

Lemma tier_request_bounded (p : SessionContext -> bool) batch model :
  (model = basicModel config \/ model = premiumModel config) ->
  Forall small_context batch ->
  (Z.of_nat (List.length batch) <= batchSize config)%Z ->
  List.filter p batch <> [] ->
  bounded_request config (batch_request model (List.filter p batch)).
Proof.
  intros Hmodel Hsmall Hlen Hne. split; [exact Hmodel |]. simpl.
  split; [reflexivity |]. split; [| split].
  - destruct (List.filter p batch); [congruence | simpl; lia].
  - pose proof (List.filter_length_le p batch). lia.
  - rewrite List.Forall_forall in *. intros ctx Hin. apply List.filter_In in Hin as [Hin _].
    now apply Hsmall.
Qed.

(** A batch taken from a well-formed map of at most [batchSize] small
    sessions: the map is left empty and the timer cleared. *)
Lemma processBatch_discipline w :
  pending_wf (pendingQueue w) ->
  (Z.of_nat (JsMap.size (pendingQueue w)) <= batchSize config)%Z ->
  small_pending (pendingQueue w) ->
  let w' := snd (processBatch config anthropic w) in
  queue_ok config w'
  /\ exists new, trace w' = trace w ++ new /\ Forall (bounded_effect config) new.
Proof.
  intros Hwf Hsize Hsmall. cbv zeta. rewrite processBatch_unfold. cbv zeta.
  assert (Hall : batch_of config w = JsMap.values (pendingQueue w)).
  { unfold batch_of. apply slice_to_all. unfold JsMap.values. now rewrite List.length_map. }
  rewrite Hall. rewrite (delete_all_pending (pendingQueue w) (proj2 Hwf)).
  set (w1 := set_pendingQueue [] (set_batchTimer false w)).
  assert (Hok1 : queue_ok config w1).
  { split; [split; [constructor | intros k c []] |]. split; [simpl; lia |].
    split; [simpl; split; [discriminate | congruence] | constructor]. }
  assert (Hdisc : forall w2, disciplined config w1 w2 ->
            queue_ok config w2
            /\ exists new, trace w2 = trace w ++ new /\ Forall (bounded_effect config) new).
  { intros w2 H. exact (H Hok1). }
  apply Hdisc.
  destruct (JsMap.values (pendingQueue w)) as [| c0 cs] eqn:Hvalues; [reflexivity |].
  rewrite <- Hvalues.
  assert (Hlen : (Z.of_nat (List.length (JsMap.values (pendingQueue w))) <= batchSize config)%Z).
  { unfold JsMap.values. now rewrite List.length_map. }
  apply (frame_promise_all2 (disciplined config)); apply processTierBatch_disciplined;
    intros Hne; apply tier_request_bounded; auto using small_pending_values.
Qed.

Lemma processBatch_disciplined : Frame (disciplined config) (processBatch config anthropic).
Proof.
  intros w Hok. destruct Hok as [Hwf [Hsize [_ Hsmall]]].
  apply processBatch_discipline; [exact Hwf | lia | exact Hsmall].
Qed.

Lemma JsMap_set_size_le {V} (k : string) (v : V) (m : JsMap.t V) :
  JsMap.size (JsMap.set k v m) <= S (JsMap.size m) /\ JsMap.set k v m <> [].
Proof.
  induction m as [| [k' v'] m [IH _]]; simpl; [split; [lia | discriminate] |].
  destruct (String.eqb k' k); simpl; split; try discriminate; unfold JsMap.size in *; simpl; lia.
Qed.

Lemma small_pending_set ctx (q : JsMap.t SessionContext) :
  small_context ctx -> small_pending q ->
  small_pending (JsMap.set (s_id (session ctx)) ctx q).
Proof.
  intros Hctx Hq. unfold small_pending in *. rewrite List.Forall_forall in *.
  intros [k c] Hin. destruct (JsMap_set_In _ _ _ _ _ Hin) as [H | H].
  - apply (Hq _ H).
  - injection H as _ ->. exact Hctx.
Qed.

Lemma queueSession_disciplined ctx :
  small_context ctx -> Frame (disciplined config) (queueSession config anthropic ctx).
Proof.
  intros Hctx w [Hwf [Hsize [Htimer Hsmall]]].
  rewrite queueSession_unfold. cbv zeta.
  set (id := s_id (session ctx)).
  set (w1 := set_pendingQueue _ _).
  assert (Hq1 : pendingQueue w1 = JsMap.set id ctx (pendingQueue w)) by reflexivity.
  assert (Ht1 : trace w1 = trace w ++ [EQueueSession id]) by reflexivity.
  assert (Hwf1 : pending_wf (pendingQueue w1)) by (rewrite Hq1; now apply pending_wf_set).
  assert (Hsmall1 : small_pending (pendingQueue w1))
    by (rewrite Hq1; now apply small_pending_set).
  destruct (JsMap_set_size_le id ctx (pendingQueue w)) as [Hle Hne]. rewrite <- Hq1 in Hle, Hne.
  clearbody w1.
  destruct (Z.leb_spec (batchSize config) (Z.of_nat (JsMap.size (pendingQueue w1))))
    as [Hreach | Hlow].
  - destruct (processBatch_discipline w1 Hwf1 ltac:(lia) Hsmall1) as [Hok2 [new [Hn Hf]]].
    split; [exact Hok2 |]. exists (EQueueSession id :: new).
    split; [rewrite Hn, Ht1, <- app_assoc; reflexivity |]. constructor; [exact I | exact Hf].
  - assert (Hend : forall w2,
              pendingQueue w2 = pendingQueue w1 -> batchTimer w2 = true -> trace w2 = trace w1 ->
              queue_ok config w2
              /\ exists new, trace w2 = trace w ++ new /\ Forall (bounded_effect config) new).
    { intros w2 Hq2 Hb2 Ht2. split.
      - rewrite <- Hq2 in Hwf1, Hlow, Hne, Hsmall1.
        split; [exact Hwf1 |]. split; [exact Hlow |]. split; [tauto | exact Hsmall1].
      - exists [EQueueSession id]. split; [congruence | constructor; [exact I | constructor]]. }
    destruct (batchTimer w1) eqn:Hb;
      [apply (Hend w1) | apply (Hend (set_batchTimer true w1))]; auto.
Qed.

Lemma stage_request_bounded model ths j :
  (model = basicModel config \/ model = premiumModel config) ->
  j < stage_count ths ->
  bounded_request config (stage_request model ths j).
Proof.
  intros Hmodel Hj. split; [exact Hmodel |]. simpl. split; [reflexivity |].
  rewrite stage_length.
  pose proof (stage_loop_test (List.length ths) j) as Htest. fold (stage_count ths) in Htest.
  destruct (Nat.ltb_spec j (stage_count ths)); [| lia].
  apply Nat.ltb_lt in Htest. unfold STAGE_SIZE in *. lia.
Qed.

Lemma stage_calls_bounded model ths m :
  (model = basicModel config \/ model = premiumModel config) ->
  m <= stage_count ths ->
  Forall (bounded_effect config) (stage_calls model ths m).
Proof.
  intros Hmodel Hm. unfold stage_calls. apply List.Forall_forall. intros e He.
  apply List.in_map_iff in He as [j [<- Hj]]. apply List.in_seq in Hj.
  apply stage_request_bounded; [exact Hmodel | lia].
Qed.

Lemma stage_count_large ths : 20 < List.length ths -> 2 <= stage_count ths.
Proof.
  intros Hlen. pose proof (stage_loop_test (List.length ths) 1) as Htest.
  fold (stage_count ths) in Htest. unfold STAGE_SIZE in Htest.
  destruct (Nat.ltb_spec (1 * 20) (List.length ths)); [| lia].
  symmetry in Htest. apply Nat.ltb_lt in Htest. lia.
Qed.

Lemma stagedSummarization_disciplined ctx model :
  (model = basicModel config \/ model = premiumModel config) ->
  20 < List.length (thoughts ctx) ->
  Frame (disciplined config) (stagedSummarization anthropic ctx model).
Proof.
  intros Hmodel Hlong w Hok.
  assert (Hsynth : forall summaries,
            List.length summaries = stage_count (thoughts ctx) ->
            bounded_effect config (EGenerate (synthesis_request model summaries ctx))).
  { intros summaries Hlen. split; [exact Hmodel |]. simpl. split; [reflexivity |].
    rewrite Hlen. now apply stage_count_large. }
  assert (Hsum : List.length (stage_summaries anthropic model (thoughts ctx) (apiCalls w)
                                (stage_count (thoughts ctx)))
                 = stage_count (thoughts ctx)).
  { unfold stage_summaries. now rewrite List.length_map, List.length_seq. }
  destruct (staged_trichotomy anthropic ctx model w)
    as [[Hstages Hs] | [[f [Hf [Hfail Hbefore]]] | [Hstages Hs]]].
  - pose proof (stagedSummarization_succeeds anthropic ctx model w Hstages Hs) as Hrun.
    cbv zeta in Hrun. rewrite Hrun. simpl snd.
    split; [exact Hok |]. eexists. split; [reflexivity |].
    apply Forall_app. split; [apply stage_calls_bounded; [exact Hmodel | lia] |].
    constructor; [apply Hsynth, Hsum | constructor; [exact I | constructor]].
  - rewrite (stagedSummarization_stage_fails anthropic ctx model w f Hf Hbefore Hfail).
    simpl snd. split; [exact Hok |]. eexists. split; [reflexivity |].
    apply stage_calls_bounded; [exact Hmodel | lia].
  - pose proof (stagedSummarization_synthesis_fails anthropic ctx model w Hstages Hs) as Hrun.
    cbv zeta in Hrun. rewrite Hrun. simpl snd.
    split; [exact Hok |]. eexists. split; [reflexivity |].
    apply Forall_app. split; [apply stage_calls_bounded; [exact Hmodel | lia] |].
    constructor; [apply Hsynth, Hsum | constructor].
Qed.

Lemma processSession_disciplined event :
  Frame (disciplined config) (processSession config anthropic event).
Proof.
  unfold processSession.
  f_bind; [unfold getSessionContext, getSession, getThoughts, getTasks;
           frame_steps disc_prim | intros sessionContext].
  destruct sessionContext as [ctx |]; [| f_throw].
  f_bind; [unfold getDocumentation; f_gets | intros existingDoc].
  destruct (match existingDoc with Some doc => up_to_date doc ctx | None => false end);
    [f_ret |].
  destruct (Nat.leb_spec (List.length (thoughts ctx)) 20) as [Hsmall | Hlong];
    [now apply queueSession_disciplined |].
  f_bind; [| intros _; f_ret].
  unfold generateDocumentation, emit. f_bind; [f_modify; intros w; disc_prim | intros _].
  unfold STAGE_SIZE. destruct (Nat.ltb_spec 20 (List.length (thoughts ctx))); [| lia].
  apply stagedSummarization_disciplined; [| exact Hlong].
  destruct (String.eqb _ _); auto.
Qed.

Lemma handleEvent_disciplined event :
  Frame (disciplined config) (handleEvent config anthropic event).
Proof.
  unfold handleEvent. destruct (negb _); [f_ret |].
  f_catch.
  - f_bind; [apply processSession_disciplined | intros _; f_modify; intros w; disc_prim].
  - intros error. destruct (_ <? _)%Z.
    + unfold scheduleRetry. destruct (js_or _ _); [| f_throw].
      unfold zadd, emit. frame_steps disc_prim.
    + unfold moveToDeadLetter, lpush, emit. frame_steps disc_prim.
Qed.

Lemma retryProcessorTick_disciplined :
  Frame (disciplined config) (retryProcessorTick config anthropic).
Proof.
  unfold retryProcessorTick, zrangebyscore.
  f_bind; [f_gets | intros t]. f_bind; [f_gets | intros items].
  f_for. intros event. f_bind; [| intros _; apply handleEvent_disciplined].
  unfold zrem, emit. frame_steps disc_prim.
Qed.

Lemma flush_disciplined : Frame (disciplined config) (flush config anthropic).
Proof.
  unfold flush, getPendingCount. f_bind; [f_gets | intros size].
  destruct (_ <? _)%nat; [apply processBatch_disciplined | f_ret].
Qed.

Lemma batchTimerFires_disciplined : Frame (disciplined config) (batchTimerFires config anthropic).
Proof.
  unfold batchTimerFires. f_bind; [f_gets | intros timer].
  destruct timer; [apply processBatch_disciplined | f_ret].
Qed.

Lemma worker_operations_disciplined event op :
  In op (worker_operations config anthropic event) -> Frame (disciplined config) op.
Proof.
  intros [<- | [<- | [<- | [<- | [<- | []]]]]].
  - apply handleEvent_disciplined.
  - apply retryProcessorTick_disciplined.
  - apply flush_disciplined.
  - apply batchTimerFires_disciplined.
  - apply flush_disciplined.
Qed.

End Discipline.

(** X7: with a batch size of at least 1, every operation of the worker
    keeps the invariant of the batch accumulator: the pending map has
    distinct keys, each the id of its session, it holds fewer than
    [batchSize] sessions, each of at most 20 thoughts, and the window timer
    is armed exactly when the map is not empty.  So a session never waits in
    the map without a timer that will flush it. *)
Theorem pending_sessions_have_timer config anthropic event w :
  (1 <= batchSize config)%Z ->
  queue_ok config w ->
  Forall
    (fun op : M unit =>
       let w' := snd (op w) in
       queue_ok config w'
       /\ (pendingQueue w' <> [] -> batchTimer w' = true)
       /\ (Z.of_nat (JsMap.size (pendingQueue w')) < batchSize config)%Z)
    (worker_operations config anthropic event).
Proof.
  intros Hpos Hok. apply List.Forall_forall. intros op Hop. cbv zeta.
  destruct (worker_operations_disciplined config anthropic Hpos event op Hop w Hok)
    as [Hok' _].
  split; [exact Hok' |]. destruct Hok' as [_ [Hsize [Htimer _]]]. split; [tauto | exact Hsize].
Qed.

(** X8: from a state that satisfies the invariant of the accumulator,
    every request an operation of the worker sends to the model is bounded:
    it names the basic or the premium model; a batch request asks for 4000
    tokens and carries between 1 and [batchSize] sessions of at most 20
    thoughts each; a stage request asks for 500 tokens, carries between 1 and
    20 thoughts and a stage number between 1 and the number of stages; a
    synthesis request asks for 3000 tokens and carries at least two stage
    summaries.  The worker never sends a single-session request. *)
Theorem worker_requests_bounded config anthropic event w :
  (1 <= batchSize config)%Z ->
  queue_ok config w ->
  Forall
    (fun op : M unit => Forall (bounded_effect config) (new_effects w (snd (op w))))
    (worker_operations config anthropic event).
Proof.
  intros Hpos Hok. apply List.Forall_forall. intros op Hop.
  destruct (worker_operations_disciplined config anthropic Hpos event op Hop w Hok)
    as [_ [new [Hn Hf]]].
  now rewrite (new_effects_app _ _ _ Hn).
Qed.

Lemma new_effects_none w w' : trace w' = trace w -> new_effects w w' = [].
Proof. intros H. apply new_effects_app. now rewrite H, app_nil_r. Qed.

Section SizeZero.

Variable config : Config.
Variable anthropic : nat -> LlmRequest -> LlmReply.
Hypothesis size_zero : batchSize config = 0%Z.

Lemma processBatch_size_zero w :
  processBatch config anthropic w = (Ok tt, set_batchTimer false w).
Proof.
  rewrite processBatch_unfold. cbv zeta. unfold batch_of, slice_to. rewrite size_zero.
  simpl. destruct w. reflexivity.
Qed.

Lemma queueSession_size_zero ctx w :
  queueSession config anthropic ctx w
  = (Ok tt,
     set_batchTimer false
       (set_pendingQueue (JsMap.set (s_id (session ctx)) ctx (pendingQueue w))
          (set_trace (trace w ++ [EQueueSession (s_id (session ctx))]) w))).
Proof.
  rewrite queueSession_unfold. cbv zeta. rewrite size_zero.
  destruct (Z.leb_spec 0 (Z.of_nat (JsMap.size
    (pendingQueue (set_pendingQueue (JsMap.set (s_id (session ctx)) ctx (pendingQueue w))
       (set_trace (trace w ++ [EQueueSession (s_id (session ctx))]) w)))))); [| lia].
  apply processBatch_size_zero.
Qed.

Lemma flush_size_zero w :
  flush config anthropic w
  = (Ok tt, if (0 <? JsMap.size (pendingQueue w))%nat then set_batchTimer false w else w).
Proof.
  unfold flush, getPendingCount, bind, gets.
  destruct (0 <? _)%nat; [apply processBatch_size_zero | reflexivity].
Qed.

End SizeZero.

(** A session of at most 20 thoughts is skipped or queued. *)
Lemma processSession_small config anthropic event w ctx :
  sessionContextOf (e_sessionId event) w = Some ctx ->
  List.length (thoughts ctx) <= 20 ->
  processSession config anthropic event w
  = if match w_docs w !! e_sessionId event with
       | Some doc => up_to_date doc ctx
       | None => false
       end
    then (Ok tt, w)
    else queueSession config anthropic ctx w.
Proof.
  intros Hctx Hsmall. unfold processSession. unfold bind at 1.
  rewrite getSessionContext_reads, Hctx.
  unfold bind at 1. unfold getDocumentation, gets.
  destruct (match w_docs w !! e_sessionId event with
            | Some doc => up_to_date doc ctx
            | None => false
            end); [reflexivity |].
  destruct (Nat.leb_spec (List.length (thoughts ctx)) 20); [reflexivity | lia].
Qed.

(** X9: with a batch size of 0 the accumulator never generates anything.
    [queueSession] stores the session in the pending map and runs
    [processBatch] at once, which takes no session: the session stays
    pending, no timer is armed, no request is made and nothing is stored.
    [processBatch], [flush], the batch timer and [shutdown] leave the map as
    it is, so handling an event for a session of at most 20 thoughts never
    produces a document. *)
Theorem batchSize_zero_never_generates config anthropic :
  batchSize config = 0%Z ->
  (forall ctx w,
     let w' := snd (queueSession config anthropic ctx w) in
     fst (queueSession config anthropic ctx w) = Ok tt
     /\ pendingQueue w' = JsMap.set (s_id (session ctx)) ctx (pendingQueue w)
     /\ batchTimer w' = false
     /\ new_effects w w' = [EQueueSession (s_id (session ctx))]
     /\ w_docs w' = w_docs w)
  /\ (forall op w,
        In op [processBatch config anthropic; flush config anthropic;
               batchTimerFires config anthropic; shutdown config anthropic] ->
        let w' := snd (op w) in
        fst (op w) = Ok tt
        /\ pendingQueue w' = pendingQueue w
        /\ new_effects w w' = []
        /\ w_docs w' = w_docs w)
  /\ (forall event w ctx,
        sessionContextOf (e_sessionId event) w = Some ctx ->
        List.length (thoughts ctx) <= 20 ->
        let w' := snd (handleEvent config anthropic event w) in
        List.filter is_generate (new_effects w w') = []
        /\ w_docs w' = w_docs w).
Proof.
  intros Hzero. split; [| split].
  - intros ctx w. cbv zeta. rewrite (queueSession_size_zero config anthropic Hzero).
    simpl. repeat split; auto. now apply new_effects_app.
  - intros op w Hop. cbv zeta.
    assert (Hcases : op w = (Ok tt, set_batchTimer false w) \/ op w = (Ok tt, w)).
    { destruct Hop as [<- | [<- | [<- | [<- | []]]]].
      - left. now apply processBatch_size_zero.
      - rewrite (flush_size_zero config anthropic Hzero). destruct (0 <? _)%nat; auto.
      - unfold batchTimerFires, bind, gets. destruct (batchTimer w); [| now right].
        left. now apply processBatch_size_zero.
      - unfold shutdown. rewrite (flush_size_zero config anthropic Hzero).
        destruct (0 <? _)%nat; auto. }
    destruct Hcases as [-> | ->]; simpl; repeat split; auto; now apply new_effects_none.
  - intros event w ctx Hctx Hsmall. cbv zeta.
    pose proof (processSession_small config anthropic event w ctx Hctx Hsmall) as Hrun.
    unfold handleEvent. destruct (negb _).
    { simpl. rewrite new_effects_same. auto. }
    unfold try_catch, bind. rewrite Hrun.
    destruct (match w_docs w !! e_sessionId event with
              | Some doc => up_to_date doc ctx
              | None => false
              end); [| rewrite (queueSession_size_zero config anthropic Hzero)];
      simpl; split; auto.
    + now rewrite new_effects_none.
    + now rewrite (new_effects_app w _ [EQueueSession (s_id (session ctx))]).
Qed.

Section FailedBatch.

Variable config : Config.
Variable anthropic : nat -> LlmRequest -> LlmReply.
Hypothesis all_fail : forall n rq, reply_fails (anthropic n rq) = true.

Lemma processTierBatch_all_fail sessions model w :
  processTierBatch anthropic sessions model w
  = match sessions with
    | [] => (Ok tt, w)
    | _ => (Throw (reply_error (anthropic (apiCalls w) (batch_request model sessions))),
            after_calls [EGenerate (batch_request model sessions)] 1 w)
    end.
Proof.
  destruct sessions as [| c cs]; [reflexivity |].
  rewrite processTierBatch_nonempty by discriminate.
  unfold bind. rewrite messages_create_run. cbv zeta.
  fold (batch_request model (c :: cs)). rewrite first_text_run, all_fail.
  unfold after_calls. now rewrite Nat.add_1_r.
Qed.

Lemma processBatch_all_fail w :
  keyed_by_id (pendingQueue w) -> pendingQueue w <> [] ->
  (Z.of_nat (JsMap.size (pendingQueue w)) <= batchSize config)%Z ->
  let w' := snd (processBatch config anthropic w) in
  (exists error, fst (processBatch config anthropic w) = Throw error)
  /\ pendingQueue w' = []
  /\ batchTimer w' = false
  /\ w_docs w' = w_docs w
  /\ retry_queue w' = retry_queue w
  /\ dead_letter w' = dead_letter w
  /\ now w' = now w
  /\ processedCount w' = processedCount w.
Proof.
  intros Hkeyed Hne Hsize. cbv zeta. rewrite processBatch_unfold. cbv zeta.
  assert (Hall : batch_of config w = JsMap.values (pendingQueue w)).
  { unfold batch_of. apply slice_to_all. unfold JsMap.values. now rewrite List.length_map. }
  rewrite Hall, (delete_all_pending _ Hkeyed).
  destruct (JsMap.values (pendingQueue w)) as [| c0 cs] eqn:Hvalues.
  { destruct (pendingQueue w); [congruence | discriminate]. }
  set (batch := c0 :: cs).
  assert (Hsome : List.filter (fun ctx => negb (is_premium (s_tier (session ctx)))) batch <> []
                  \/ List.filter (fun ctx => is_premium (s_tier (session ctx))) batch <> []).
  { unfold batch. simpl. destruct (is_premium (s_tier (session c0))); simpl;
      [right | left]; discriminate. }
  unfold promise_all2. rewrite processTierBatch_all_fail.
  destruct (List.filter (fun ctx => negb (is_premium (s_tier (session ctx)))) batch)
    as [| b0 bs]; cbv beta iota; rewrite processTierBatch_all_fail;
    destruct (List.filter (fun ctx => is_premium (s_tier (session ctx))) batch)
      as [| p0 ps]; cbv beta iota; try (destruct Hsome; congruence);
    cbn [fst snd]; (split; [eexists; reflexivity |]); repeat split.
Qed.

End FailedBatch.

(** X10: a batch whose request fails is lost.  When the model rejects
    every request, [processBatch] on a non-empty pending map within the batch
    size throws after it has emptied the map and cleared the timer; it stores
    nothing and puts nothing on the retry queue or the dead-letter list.
    When the batch was started by the event whose session filled it, only
    that event is scheduled for a retry: the other sessions of the batch are
    neither documented nor retried. *)
Theorem failed_batch_is_dropped config anthropic :
  (forall n rq, reply_fails (anthropic n rq) = true) ->
  (forall w,
     keyed_by_id (pendingQueue w) -> pendingQueue w <> [] ->
     (Z.of_nat (JsMap.size (pendingQueue w)) <= batchSize config)%Z ->
     let w' := snd (processBatch config anthropic w) in
     (exists error, fst (processBatch config anthropic w) = Throw error)
     /\ pendingQueue w' = []
     /\ batchTimer w' = false
     /\ w_docs w' = w_docs w
     /\ retry_queue w' = retry_queue w
     /\ dead_letter w' = dead_letter w)
  /\ (forall event w ctx,
        retryDelays config <> [] ->
        is_finalization (e_type event) = true ->
        (default 0 (p_retryCount (e_payload event)) < maxRetries config)%Z ->
        sessionContextOf (e_sessionId event) w = Some ctx ->
        needs_generation event ctx w ->
        List.length (thoughts ctx) <= 20 ->
        pending_wf (pendingQueue w) ->
        ~ In (s_id (session ctx)) (JsMap.keys (pendingQueue w)) ->
        (Z.of_nat (JsMap.size (pendingQueue w)) + 1 = batchSize config)%Z ->
        let retryEvent :=
          with_retryCount event (default 0 (p_retryCount (e_payload event)) + 1)%Z in
        let w' := snd (handleEvent config anthropic event w) in
        fst (handleEvent config anthropic event w) = Ok tt
        /\ pendingQueue w' = []
        /\ batchTimer w' = false
        /\ w_docs w' = w_docs w
        /\ processedCount w' = processedCount w
        /\ dead_letter w' = dead_letter w
        /\ exists delay,
             In delay (retryDelays config)
             /\ retry_queue w'
                = zinsert (now w + delay)%Z retryEvent (zremove retryEvent (retry_queue w))).
Proof.
  intros Hfail. split.
  - intros w Hkeyed Hne Hsize. cbv zeta.
    destruct (processBatch_all_fail config anthropic Hfail w Hkeyed Hne Hsize)
      as (H1 & H2 & H3 & H4 & H5 & H6 & _). auto 10.
  - intros event w ctx Htable Hfinal Hbudget Hctx Hneeds Hsmall Hwf Hfresh Hreach. cbv zeta.
    assert (Hrun : processSession config anthropic event w
                   = queueSession config anthropic ctx w).
    { rewrite (processSession_small config anthropic event w ctx Hctx Hsmall).
      unfold needs_generation in Hneeds.
      destruct (w_docs w !! e_sessionId event); [now rewrite Hneeds | reflexivity]. }
    rewrite queueSession_unfold in Hrun. cbv zeta in Hrun.
    set (w1 := set_pendingQueue _ _) in Hrun.
    assert (Hq1 : pendingQueue w1 = JsMap.set (s_id (session ctx)) ctx (pendingQueue w))
      by reflexivity.
    assert (Hwf1 : pending_wf (pendingQueue w1)) by (rewrite Hq1; now apply pending_wf_set).
    destruct (JsMap_set_size_le (s_id (session ctx)) ctx (pendingQueue w)) as [Hle Hne].
    rewrite <- Hq1 in Hle, Hne.
    assert (Hsame : w_docs w1 = w_docs w /\ retry_queue w1 = retry_queue w
                    /\ dead_letter w1 = dead_letter w /\ now w1 = now w
                    /\ processedCount w1 = processedCount w) by (repeat split).
    destruct Hsame as (Hd1 & Hr1 & Hl1 & Hn1 & Hp1).
    assert (Hsize1 : JsMap.size (pendingQueue w1) = S (JsMap.size (pendingQueue w))).
    { rewrite Hq1, JsMap_set_fresh by exact Hfresh. unfold JsMap.size.
      rewrite List.length_app. simpl. lia. }
    clearbody w1.
    destruct (Z.leb_spec (batchSize config) (Z.of_nat (JsMap.size (pendingQueue w1))))
      as [Hfull | Hlow].
    + destruct (processBatch_all_fail config anthropic Hfail w1 (proj2 Hwf1) Hne ltac:(lia))
        as ([error Herr] & H2 & H3 & H4 & H5 & H6 & H7 & H8).
      assert (Hthrow : fst (processSession config anthropic event w) = Throw error)
        by (rewrite Hrun; exact Herr).
      rewrite (handleEvent_catches config anthropic event w error Hfinal Hthrow).
      rewrite Hrun.
      set (w2 := snd (processBatch config anthropic w1)) in *.
      destruct (Z.ltb_spec (default 0%Z (p_retryCount (e_payload event))) (maxRetries config));
        [| lia].
      destruct (scheduleRetry_delay_any config
                  (default 0%Z (p_retryCount (e_payload event)) + 1) Htable)
        as [delay [Hdelay Hin]].
      unfold scheduleRetry. rewrite Hdelay. unfold bind at 1. unfold gets at 1.
      cbv beta iota. simpl.
      repeat split; try congruence.
      exists delay. split; [exact Hin |]. congruence.
    + lia.
Qed.

(** ** The scanner, once more *)

Lemma replace_session_nodup s' l :
  NoDup (session_ids l) ->
  replace_session s' l
  = List.map (fun y => if String.eqb (s_id y) (s_id s') then s' else y) l.
Proof.
  induction l as [| y l IH]; simpl; intros Hnd; [reflexivity |].
  apply NoDup_cons in Hnd as [Hy Hnd].
  destruct (String.eqb_spec (s_id y) (s_id s')) as [Heq | Hne].
  - f_equal. clear IH. induction l as [| z l IHl]; simpl; [reflexivity |].
    simpl in Hy, Hnd. apply NoDup_cons in Hnd as [_ Hnd].
    destruct (String.eqb_spec (s_id z) (s_id s')) as [Hz | Hz].
    + exfalso. apply Hy. apply list_elem_of_In. left. congruence.
    + f_equal. apply IHl; [| exact Hnd].
      intros Hin. apply Hy. apply list_elem_of_In. right. now apply list_elem_of_In.
  - f_equal. now apply IH.
Qed.

Lemma session_ids_map (f : Session -> Session) l :
  (forall y, s_id (f y) = s_id y) -> session_ids (List.map f l) = session_ids l.
Proof.
  intros Hf. unfold session_ids. rewrite List.map_map. apply List.map_ext. exact Hf.
Qed.

Lemma same_id_same_session l x y :
  NoDup (session_ids l) -> In x l -> In y l -> s_id x = s_id y -> x = y.
Proof.
  intros Hnd Hx Hy Hid.
  pose proof (find_session_nodup x l Hnd Hx) as Fx.
  pose proof (find_session_nodup y l Hnd Hy) as Fy.
  rewrite Hid in Fx. congruence.
Qed.

Lemma world_sets w s1 t1 s2 t2 :
  set_trace t2 (set_sessions s2 (set_trace t1 (set_sessions s1 w)))
  = set_trace t2 (set_sessions s2 w).
Proof. destruct w. reflexivity. Qed.

Lemma world_sets_id w : set_trace (trace w) (set_sessions (w_sessions w) w) = w.
Proof. destruct w. reflexivity. Qed.

Section ScanResult.

Variable config : Config.

Lemma scan_loop_world w0 xs : forall w,
  now w = now w0 -> w_tasks w = w_tasks w0 ->
  NoDup (session_ids (w_sessions w)) ->
  NoDup (session_ids xs) ->
  (forall x, In x xs -> In x (w_sessions w)) ->
  let idle := List.filter (idle_beyond_timeout config w0) xs in
  for_of xs (scan_body config (now w0)) w
  = (Ok tt,
     set_trace (trace w ++ List.flat_map (auto_effects config w0) idle)
       (set_sessions (List.map (scanned_among w0 idle) (w_sessions w)) w)).
Proof.
  induction xs as [| x xs IH]; intros w Hnow Htasks Hnd Hndx Hin; cbv zeta.
  - simpl. unfold ret. f_equal. rewrite app_nil_r.
    replace (List.map (scanned_among w0 []) (w_sessions w)) with (w_sessions w)
      by (symmetry; apply List.map_id).
    symmetry. apply world_sets_id.
  - simpl for_of. unfold bind.
    assert (Hbody : scan_body config (now w0) x
                    = if idle_beyond_timeout config w0 x
                      then autoFinalize config x else ret tt) by reflexivity.
    rewrite Hbody. simpl List.filter.
    apply NoDup_cons in Hndx as [Hx Hndx].
    destruct (idle_beyond_timeout config w0 x) eqn:Hidle.
    + rewrite (autoFinalize_run config x w)
        by (apply find_session_in; apply Hin; now left).
      assert (Heff : auto_effects config w x = auto_effects config w0 x).
      { unfold auto_effects, auto_event, auto_finalized, auto_outcome, tasks_on_file.
        now rewrite Hnow, Htasks. }
      assert (Hfin : auto_finalized x w = auto_finalized x w0).
      { unfold auto_finalized, auto_outcome, tasks_on_file. now rewrite Hnow, Htasks. }
      rewrite Heff, Hfin.
      rewrite (replace_session_nodup _ _ Hnd).
      set (repl := fun y => if String.eqb (s_id y) (s_id (auto_finalized x w0))
                            then auto_finalized x w0 else y).
      set (w1 := set_trace _ _).
      assert (Hs1 : w_sessions w1 = List.map repl (w_sessions w)) by reflexivity.
      assert (Hrepl_id : forall y, s_id (repl y) = s_id y).
      { intros y. unfold repl. simpl.
        destruct (String.eqb_spec (s_id y) (s_id x)); [simpl; congruence | reflexivity]. }
      rewrite (IH w1); [| exact Hnow | exact Htasks | | exact Hndx |].
      * cbv zeta. unfold w1. rewrite world_sets. f_equal. f_equal.
        -- simpl. now rewrite <- app_assoc.
        -- f_equal. simpl w_sessions. rewrite List.map_map.
           apply List.map_ext_in. intros y Hy. unfold scanned_among, repl.
           simpl List.existsb. simpl s_id.
           destruct (String.eqb_spec (s_id y) (s_id x)) as [Heq | Hne].
           ++ assert (y = x) as ->
                by (apply (same_id_same_session (w_sessions w)); auto; apply Hin; now left).
              rewrite String.eqb_refl. simpl.
              replace (List.existsb _ _) with false; [reflexivity |].
              symmetry. apply not_true_is_false. intros Hex.
              apply List.existsb_exists in Hex as [z [Hz Hzx]].
              apply List.filter_In in Hz as [Hz _]. apply String.eqb_eq in Hzx.
              apply Hx. apply list_elem_of_In. unfold session_ids.
              simpl in Hzx. rewrite <- Hzx. now apply List.in_map.
           ++ destruct (String.eqb_spec (s_id x) (s_id y)); [congruence | reflexivity].
      * rewrite Hs1, session_ids_map; assumption.
      * intros z Hz. rewrite Hs1. apply List.in_map_iff. exists z. split.
        -- unfold repl. simpl.
           destruct (String.eqb_spec (s_id z) (s_id x)) as [Heq | Hne]; [| reflexivity].
           exfalso. apply Hx. apply list_elem_of_In. unfold session_ids. rewrite <- Heq.
           now apply List.in_map.
        -- apply Hin. now right.
    + unfold ret at 1. cbv beta iota.
      apply IH; auto. intros z Hz. apply Hin. now right.
Qed.

End ScanResult.

Lemma filter_filter {A} (p q : A -> bool) l :
  List.filter q (List.filter p l) = List.filter (fun x => p x && q x) l.
Proof.
  induction l as [| x l IH]; simpl; [reflexivity |].
  destruct (p x); simpl; [destruct (q x); now rewrite IH | exact IH].
Qed.

Lemma NoDup_filter_ids (p : Session -> bool) l :
  NoDup (session_ids l) -> NoDup (session_ids (List.filter p l)).
Proof.
  unfold session_ids. induction l as [| x l IH]; simpl; intros Hnd; [constructor |].
  apply NoDup_cons in Hnd as [Hx Hnd]. destruct (p x); [| auto].
  simpl. apply NoDup_cons. split; [| auto].
  intros Hx'. apply Hx. apply list_elem_of_In. apply list_elem_of_In in Hx'.
  apply List.in_map_iff in Hx' as [z [Hz Hzin]]. apply List.filter_In in Hzin as [Hzin _].
  rewrite <- Hz. now apply List.in_map.
Qed.

Lemma scan_run config w :
  NoDup (session_ids (w_sessions w)) ->
  scan config w = (Ok tt, after_scan config w).
Proof.
  intros Hnd. rewrite scan_unfold.
  rewrite (scan_loop_world config w (List.filter is_listed (w_sessions w)) w eq_refl eq_refl Hnd).
  - cbv zeta. unfold after_scan. rewrite filter_filter.
    fold (scan_finalizes config w). f_equal. f_equal. f_equal.
    apply List.map_ext_in. intros y Hy. unfold scanned_among, scanned.
    destruct (scan_finalizes config w y) eqn:Hy'.
    + replace (List.existsb _ _) with true; [reflexivity |].
      symmetry. apply List.existsb_exists. exists y.
      split; [apply List.filter_In; auto | apply String.eqb_refl].
    + replace (List.existsb _ _) with false; [reflexivity |].
      symmetry. apply not_true_is_false. intros Hex.
      apply List.existsb_exists in Hex as [z [Hz Hzy]].
      apply List.filter_In in Hz as [Hz Hfin]. apply String.eqb_eq in Hzy.
      assert (z = y) as -> by (apply (same_id_same_session (w_sessions w)); auto).
      congruence.
  - now apply NoDup_filter_ids.
  - intros x Hx. apply List.filter_In in Hx. tauto.
Qed.

Lemma scanned_id config w s : s_id (scanned config w s) = s_id s.
Proof. unfold scanned. destruct (scan_finalizes config w s); reflexivity. Qed.

Lemma scanned_settled config w s :
  scan_finalizes config (after_scan config w) (scanned config w s) = false.
Proof.
  unfold scanned. destruct (scan_finalizes config w s) eqn:H; [reflexivity |]. exact H.
Qed.

Lemma filter_none {A} (p : A -> bool) l :
  (forall x, In x l -> p x = false) -> List.filter p l = [].
Proof.
  induction l as [| x l IH]; intros H; simpl; [reflexivity |].
  rewrite (H x) by now left. apply IH. intros y Hy. apply H. now right.
Qed.

(** X11: on a store with distinct session ids, a scan that returns
    normally (every write and every publication it awaited succeeded) leaves
    the store in which every listed session that was idle beyond the timeout
    is replaced by its finalized record, the trace extended by one write and
    one published event per such session, in the order of the store.  After
    such a scan no listed session is idle beyond the timeout, and a second
    scan at the same time finds nothing to finalize: it makes no write, no
    publication and changes nothing. *)
Theorem scan_settles config w :
  NoDup (session_ids (w_sessions w)) ->
  fst (scan config w) = Ok tt ->
  let w' := snd (scan config w) in
  w' = after_scan config w
  /\ (forall s, In s (w_sessions w') -> is_listed s = true ->
        idle_beyond_timeout config w' s = false)
  /\ List.filter (scan_finalizes config w') (w_sessions w') = []
  /\ scan config w' = (Ok tt, w').
Proof.
  intros Hnd _. cbv zeta. rewrite (scan_run config w Hnd). simpl snd.
  split; [reflexivity |].
  assert (Hsettled : forall s, In s (w_sessions (after_scan config w)) ->
            scan_finalizes config (after_scan config w) s = false).
  { intros s Hs. simpl in Hs. apply List.in_map_iff in Hs as [y [<- _]].
    apply scanned_settled. }
  split; [| split].
  - intros s Hs Hlisted. specialize (Hsettled s Hs). unfold scan_finalizes in Hsettled.
    now rewrite Hlisted in Hsettled.
  - apply filter_none. exact Hsettled.
  - rewrite scan_run.
    + f_equal. unfold after_scan at 1.
      rewrite (filter_none _ _ Hsettled).
      replace (List.map _ (w_sessions (after_scan config w)))
        with (w_sessions (after_scan config w)).
      * simpl List.flat_map. rewrite app_nil_r. apply world_sets_id.
      * symmetry. erewrite List.map_ext_in; [apply List.map_id |].
        intros y Hy. unfold scanned. now rewrite (Hsettled y Hy).
    + simpl. rewrite session_ids_map; [exact Hnd | apply scanned_id].
Qed.

Lemma find_map_ids (f : Session -> Session) k l :
  (forall y, s_id (f y) = s_id y) ->
  List.find (fun x => String.eqb (s_id x) k) (List.map f l)
  = option_map f (List.find (fun x => String.eqb (s_id x) k) l).
Proof.
  intros Hf. induction l as [| y l IH]; simpl; [reflexivity |].
  rewrite Hf. destruct (String.eqb (s_id y) k); [reflexivity | exact IH].
Qed.

Lemma handler_grows config event error :
  Frame trace_grows
    (if (default 0%Z (p_retryCount (e_payload event)) <? maxRetries config)%Z
     then scheduleRetry config event (default 0%Z (p_retryCount (e_payload event)) + 1)
     else moveToDeadLetter config event error).
Proof.
  destruct (_ <? _)%Z.
  - unfold scheduleRetry. destruct (js_or _ _); [| f_throw].
    unfold zadd, emit. frame_steps trace_prim.
  - unfold moveToDeadLetter, lpush, emit. frame_steps trace_prim.
Qed.

Lemma handleEvent_extends config anthropic event w :
  is_finalization (e_type event) = true ->
  trace_grows (snd (processSession config anthropic event w))
    (snd (handleEvent config anthropic event w)).
Proof.
  intros Hfinal.
  destruct (fst (processSession config anthropic event w)) as [[] | error |] eqn:Hrun.
  - rewrite (handleEvent_processes config anthropic event w Hfinal Hrun).
    exists []. simpl. now rewrite app_nil_r.
  - rewrite (handleEvent_catches config anthropic event w error Hfinal Hrun).
    apply handler_grows.
  - exfalso. apply (processSession_returns config anthropic event w Hrun).
Qed.

(** X12: the event the scanner publishes for an idle session is a
    finalization event that carries the session's tier (basic when the
    session has none).  When the worker handles it after the scan, it finds
    the finalized session with the thoughts and tasks on file and, no stored
    document being stamped in the future, never skips it as up to date: it
    queues the session when it has at most 20 thoughts and starts the direct
    generation with the event's tier otherwise. *)
Theorem scan_event_enters_generation config anthropic w s :
  NoDup (session_ids (w_sessions w)) ->
  In s (w_sessions w) ->
  is_listed s = true ->
  idle_beyond_timeout config w s = true ->
  not_from_the_future w ->
  let w' := snd (scan config w) in
  let event := auto_event config s w in
  let ctx := {| session := auto_finalized s w;
                thoughts := default [] (w_thoughts w !! s_id s);
                tasks := tasks_on_file (s_id s) w |} in
  In (EPublish event) (new_effects w w')
  /\ is_finalization (e_type event) = true
  /\ sessionContextOf (e_sessionId event) w' = Some ctx
  /\ event_tier event
     = match s_tier s with Some t => Js.or_else t "basic" | None => "basic" end
  /\ exists rest,
       new_effects w' (snd (handleEvent config anthropic event w'))
       = (if (List.length (thoughts ctx) <=? 20)%nat
          then EQueueSession (s_id s)
          else EGenerateDocumentation (s_id s) (event_tier event)) :: rest.
Proof.
  intros Hnd Hin Hlisted Hidle Hpast. cbv zeta.
  rewrite (scan_run config w Hnd). simpl snd.
  assert (Hfin : scan_finalizes config w s = true)
    by (unfold scan_finalizes; now rewrite Hlisted, Hidle).
  assert (Hctx : sessionContextOf (s_id s) (after_scan config w)
                 = Some {| session := auto_finalized s w;
                           thoughts := default [] (w_thoughts w !! s_id s);
                           tasks := tasks_on_file (s_id s) w |}).
  { unfold sessionContextOf. simpl w_sessions.
    rewrite (find_map_ids _ _ _ (scanned_id config w)).
    rewrite (find_session_nodup s _ Hnd Hin). simpl. unfold scanned. now rewrite Hfin. }
  split; [| split; [reflexivity | split; [exact Hctx | split]]].
  - rewrite (new_effects_app w (after_scan config w) _ eq_refl).
    apply List.in_flat_map. exists s. split; [apply List.filter_In; auto |].
    right. now left.
  - unfold event_tier. simpl. destruct (s_tier s) as [[| c t] |]; reflexivity.
  - set (w' := after_scan config w) in *.
    set (event := auto_event config s w).
    set (ctx := {| session := auto_finalized s w;
                   thoughts := default [] (w_thoughts w !! s_id s);
                   tasks := tasks_on_file (s_id s) w |}) in *.
    assert (Hrun : processSession config anthropic event w'
                   = if (List.length (thoughts ctx) <=? 20)%nat
                     then queueSession config anthropic ctx w'
                     else bind (generateDocumentation config anthropic ctx (event_tier event))
                            (fun _ => ret tt) w').
    { unfold processSession. unfold bind at 1.
      rewrite getSessionContext_reads. change (e_sessionId event) with (s_id s). rewrite Hctx.
      unfold bind at 1. unfold getDocumentation, gets.
      replace (match w_docs w' !! s_id s with
               | Some doc => up_to_date doc ctx
               | None => false
               end) with false;
        [fold (event_tier event); destruct (_ <=? 20)%nat; reflexivity |].
      destruct (w_docs w' !! s_id s) as [doc |] eqn:Hdoc; [| reflexivity].
      symmetry. unfold up_to_date. simpl s_updatedAt.
      specialize (Hpast (s_id s) doc Hdoc).
      destruct (Z.ltb_spec (now w) (d_generatedAt doc)); [lia | reflexivity]. }
    assert (Henter : exists new,
              trace (snd (processSession config anthropic event w'))
              = trace w' ++ (if (List.length (thoughts ctx) <=? 20)%nat
                             then EQueueSession (s_id s)
                             else EGenerateDocumentation (s_id s) (event_tier event)) :: new).
    { rewrite Hrun. destruct (List.length (thoughts ctx) <=? 20)%nat.
      - apply (queueSession_enters config anthropic ctx w').
      - destruct (generateDocumentation_enters config anthropic ctx (event_tier event) w')
          as [new Hnew].
        exists new. unfold bind.
        destruct (generateDocumentation config anthropic ctx (event_tier event) w')
          as [[d | error |] w1]; exact Hnew. }
    destruct Henter as [new Hnew].
    destruct (handleEvent_extends config anthropic event w' eq_refl) as [more Hmore].
    exists (new ++ more). apply new_effects_app.
    rewrite Hmore, Hnew, <- app_assoc. reflexivity.
Qed.

(** ** Generated documents and the store *)

Lemma generated_for_fresh ctx t doc :
  generated_for ctx t doc -> up_to_date doc ctx = (s_updatedAt (session ctx) <? t)%Z.
Proof.
  intros (_ & Ht & Hth & Htk & _). unfold up_to_date. rewrite Ht, Hth, Htk, !Z.eqb_refl.
  now rewrite !andb_true_r.
Qed.

Lemma summarizer_doc_generated ctx content t fallback :
  fallback <> "" -> generated_for ctx t (summarizer_doc ctx content t fallback).
Proof.
  intros Hf. unfold generated_for.
  split; [reflexivity |]. split; [reflexivity |]. split; [reflexivity |].
  split; [reflexivity |]. split; [reflexivity |].
  exact (summarizer_doc_wf ctx content t fallback Hf).
Qed.

Lemma batch_doc_generated ctx id content t :
  generated_for ctx t (batch_doc ctx (parsed_block id content) t).
Proof.
  unfold generated_for.
  split; [reflexivity |]. split; [reflexivity |]. split; [reflexivity |].
  split; [reflexivity |]. split; [reflexivity |].
  exact (batch_doc_wf ctx id content t).
Qed.

Lemma sessionContextOf_id sessionId w ctx :
  sessionContextOf sessionId w = Some ctx -> s_id (session ctx) = sessionId.
Proof.
  unfold sessionContextOf. destruct (List.find _ _) as [s |] eqn:E; [| discriminate].
  intros [= <-]. simpl. apply List.find_some in E as [_ E]. now apply String.eqb_eq.
Qed.

Section Contract.

Variable config : Config.
Variable anthropic : nat -> LlmRequest -> LlmReply.

Lemma singlePassSummarization_run ctx model w :
  let request := {| rq_model := model; rq_max_tokens := 2000;
                    rq_prompt := SingleSessionPrompt ctx |} in
  let reply := anthropic (apiCalls w) request in
  let doc := summarizer_doc ctx (reply_text reply) (now w)
               ("Session with " ++ Js.of_nat (List.length (thoughts ctx)) ++ " thoughts")%string in
  singlePassSummarization anthropic ctx model w
  = if reply_fails reply
    then (Throw (reply_error reply), after_calls [EGenerate request] 1 w)
    else (Ok doc,
          set_docs (<[s_id (session ctx) := doc]> (w_docs w))
            (after_calls [EGenerate request; ESaveDocumentation doc] 1 w)).
Proof.
  cbv zeta. unfold singlePassSummarization. unfold bind at 1.
  rewrite messages_create_run. cbv zeta. unfold generateSingleSessionPrompt.
  rewrite first_text_run.
  destruct (reply_fails _).
  - f_equal. unfold after_calls. now rewrite Nat.add_1_r.
  - unfold bind, gets, saveDocumentation, emit, modify, ret. cbv beta iota.
    f_equal. destruct w. unfold after_calls, set_docs, set_apiCalls, set_trace. simpl.
    f_equal; [lia | now rewrite <- app_assoc].
Qed.

Lemma filter_stage_calls model ths m :
  List.filter is_generate (stage_calls model ths m) = stage_calls model ths m
  /\ List.filter is_save (stage_calls model ths m) = []
  /\ List.length (stage_calls model ths m) = m.
Proof.
  unfold stage_calls. split; [| split].
  - induction (List.seq 0 m) as [| j l IH]; simpl; [reflexivity | now rewrite IH].
  - induction (List.seq 0 m) as [| j l IH]; simpl; [reflexivity | exact IH].
  - now rewrite List.length_map, List.length_seq.
Qed.

Lemma singlePass_outcome ctx model w :
  generation_outcome ctx 1 w (singlePassSummarization anthropic ctx model w)
  /\ exists new, trace (snd (singlePassSummarization anthropic ctx model w)) = trace w ++ new.
Proof.
  rewrite singlePassSummarization_run. cbv zeta.
  destruct (reply_fails _); unfold generation_outcome; cbv zeta; cbn [fst snd].
  - rewrite new_effects_after. simpl. split; [| eauto].
    repeat split; try lia. right. eauto.
  - rewrite new_effects_after_docs. simpl. split; [| eauto].
    repeat split; try lia. left.
    eexists. split; [reflexivity |]. split; [| auto].
    apply summarizer_doc_generated. discriminate.
Qed.

Lemma staged_outcome ctx model w :
  generation_outcome ctx (S (stage_count (thoughts ctx))) w
    (stagedSummarization anthropic ctx model w)
  /\ exists new, trace (snd (stagedSummarization anthropic ctx model w)) = trace w ++ new.
Proof.
  destruct (filter_stage_calls model (thoughts ctx) (stage_count (thoughts ctx)))
    as [Hg [Hs Hl]].
  destruct (staged_trichotomy anthropic ctx model w)
    as [[Hstages Hsy] | [[f [Hf [Hfail Hbefore]]] | [Hstages Hsy]]].
  - pose proof (stagedSummarization_succeeds anthropic ctx model w Hstages Hsy) as Hrun.
    cbv zeta in Hrun. rewrite Hrun. unfold generation_outcome. cbv zeta. cbn [fst snd].
    rewrite new_effects_after_docs, !List.filter_app, Hg, Hs. simpl.
    rewrite List.length_app, Hl. simpl. split; [| eauto].
    repeat split; try lia. left. eexists. split; [reflexivity |].
    split; [apply summarizer_doc_generated; discriminate |].
    repeat split. lia.
  - rewrite (stagedSummarization_stage_fails anthropic ctx model w f Hf Hbefore Hfail).
    unfold generation_outcome. cbv zeta. cbn [fst snd].
    destruct (filter_stage_calls model (thoughts ctx) (S f)) as [Hg' [Hs' Hl']].
    rewrite new_effects_after, Hg', Hs', Hl'. split; [| simpl; eauto].
    repeat split; try lia. right. eauto.
  - pose proof (stagedSummarization_synthesis_fails anthropic ctx model w Hstages Hsy) as Hrun.
    cbv zeta in Hrun. rewrite Hrun. unfold generation_outcome. cbv zeta. cbn [fst snd].
    rewrite new_effects_after, !List.filter_app, Hg, Hs. simpl.
    rewrite List.length_app, Hl. simpl. split; [| eauto].
    repeat split; try lia. right. eauto.
Qed.

Lemma generation_outcome_enter ctx requests w e run :
  is_generate e = false -> is_save e = false ->
  generation_outcome ctx requests (set_trace (trace w ++ [e]) w) run ->
  (exists new, trace (snd run) = trace (set_trace (trace w ++ [e]) w) ++ new) ->
  generation_outcome ctx requests w run.
Proof.
  intros Hg Hs Hout [new Hnew]. unfold generation_outcome in *. cbv zeta in *.
  assert (Hn0 : new_effects (set_trace (trace w ++ [e]) w) (snd run) = new)
    by (now apply new_effects_app).
  assert (Hn : new_effects w (snd run) = e :: new).
  { apply new_effects_app. rewrite Hnew. destruct w. simpl. now rewrite <- app_assoc. }
  rewrite Hn0 in Hout. rewrite Hn. simpl. rewrite Hg, Hs.
  destruct w. exact Hout.
Qed.

End Contract.

Lemma generateDocumentation_outcome config anthropic ctx tier w :
  generation_outcome ctx
    (if (20 <? List.length (thoughts ctx))%nat then S (stage_count (thoughts ctx)) else 1)
    w (generateDocumentation config anthropic ctx tier w).
Proof.
  unfold generateDocumentation. unfold bind at 1. unfold emit at 1, modify at 1.
  cbv beta iota. unfold STAGE_SIZE.
  apply generation_outcome_enter with (e := EGenerateDocumentation (s_id (session ctx)) tier);
    try reflexivity.
  - destruct (20 <? _)%nat; [apply staged_outcome | apply singlePass_outcome].
  - destruct (20 <? _)%nat; [apply staged_outcome | apply singlePass_outcome].
Qed.

(** X13: [generateDocumentation] makes at least one request and at most one
    (up to 20 thoughts) or one per stage of 20 thoughts plus one.  It either
    returns a document, which it has then stored under the session's id, which
    carries the context's counts and branches and the current time, and for
    which it made all of these requests; or it throws, and then it has stored
    nothing.  It never touches the sessions, thoughts and tasks on file. *)
Theorem generateDocumentation_contract config anthropic ctx tier w :
  generation_outcome ctx
    (if (20 <? List.length (thoughts ctx))%nat then S (stage_count (thoughts ctx)) else 1)
    w (generateDocumentation config anthropic ctx tier w).
Proof. apply generateDocumentation_outcome. Qed.

Lemma sessionContextOf_same sessionId w w' :
  w_sessions w' = w_sessions w -> w_thoughts w' = w_thoughts w -> w_tasks w' = w_tasks w ->
  sessionContextOf sessionId w' = sessionContextOf sessionId w.
Proof. intros Hs Ht Hk. unfold sessionContextOf. now rewrite Hs, Ht, Hk. Qed.

(** X14: a finalization event for a session of more than 20 thoughts whose
    processing succeeded has stored a document stamped with the current time.
    A second event for the session, delivered before anything else changes,
    is skipped without any effect when the session was last updated before
    that time; when the session's [updatedAt] is not earlier than the clock,
    the second event starts the generation again. *)
Theorem redelivery_after_generation config anthropic event event' w ctx :
  sessionContextOf (e_sessionId event) w = Some ctx ->
  20 < List.length (thoughts ctx) ->
  needs_generation event ctx w ->
  fst (processSession config anthropic event w) = Ok tt ->
  e_sessionId event' = e_sessionId event ->
  let w1 := snd (processSession config anthropic event w) in
  (exists doc, w_docs w1 !! e_sessionId event = Some doc /\ generated_for ctx (now w) doc)
  /\ if (s_updatedAt (session ctx) <? now w)%Z
     then processSession config anthropic event' w1 = (Ok tt, w1)
     else exists new,
            trace (snd (processSession config anthropic event' w1))
            = trace w1
              ++ EGenerateDocumentation (e_sessionId event) (event_tier event') :: new.
Proof.
  intros Hctx Hlong Hneeds Hok Hid. cbv zeta.
  pose proof (sessionContextOf_id _ _ _ Hctx) as Hsid.
  assert (Hgen : processSession config anthropic event w
                 = bind (generateDocumentation config anthropic ctx (event_tier event))
                     (fun _ => ret tt) w).
  { rewrite (processSession_staged config anthropic event w ctx Hctx Hneeds Hlong).
    unfold generateDocumentation. unfold bind at 2 3. unfold emit, modify. cbv beta iota.
    unfold STAGE_SIZE, tier_model.
    destruct (Nat.ltb_spec 20 (List.length (thoughts ctx))) as [_ | Hle]; [reflexivity | lia]. }
  rewrite Hgen in Hok |- *. unfold bind in Hok |- *.
  pose proof (generateDocumentation_outcome config anthropic ctx (event_tier event) w) as Hout.
  destruct (generateDocumentation config anthropic ctx (event_tier event) w) as [r w1].
  unfold generation_outcome in Hout. cbv zeta in Hout. cbn [fst snd] in Hout.
  destruct Hout as (Hs & Ht & Hk & Hnow & _ & [(doc & Hr & Hdoc & Hdocs & _) | (error & Hr & _)]);
    subst r; [| discriminate Hok].
  unfold ret. cbn [fst snd].
  assert (Hlook : w_docs w1 !! e_sessionId event = Some doc).
  { rewrite Hdocs, Hsid. apply lookup_insert_eq. }
  split; [exists doc; auto |].
  assert (Hctx' : sessionContextOf (e_sessionId event') w1 = Some ctx).
  { rewrite Hid, (sessionContextOf_same _ w w1 Hs Ht Hk). exact Hctx. }
  assert (Hlook' : w_docs w1 !! e_sessionId event' = Some doc) by (now rewrite Hid).
  rewrite (processSession_with_document config anthropic event' w1 ctx doc Hctx' Hlook').
  rewrite (generated_for_fresh ctx (now w) doc Hdoc).
  destruct (s_updatedAt (session ctx) <? now w)%Z; [reflexivity |].
  destruct (Nat.leb_spec (List.length (thoughts ctx)) 20) as [Hle | _]; [lia |].
  fold (event_tier event'). unfold bind.
  destruct (generateDocumentation_enters config anthropic ctx (event_tier event') w1)
    as [new Hnew].
  destruct (generateDocumentation config anthropic ctx (event_tier event') w1) as [r2 w2].
  simpl in Hnew. exists new.
  destruct r2; unfold ret; cbn [snd]; rewrite Hnew, Hsid; reflexivity.
Qed.

Lemma replace_session_same_length s l :
  List.length (replace_session s l) = List.length l.
Proof.
  induction l as [| s' l IH]; simpl; [reflexivity |].
  destruct (String.eqb _ _); simpl; congruence.
Qed.

(** X15: what the storage writes, it reads back.  For a session that is on
    file, [updateSession] succeeds, [getSessionContext] then returns the
    written session with the thoughts and tasks on file, every other session
    reads as before and no session is added; [saveDocumentation] for such a
    session makes [getDocumentation] return the saved document and leaves
    the documents of other sessions and all sessions as they were. *)
Theorem storage_round_trip s doc w :
  session_on_file (s_id s) w ->
  session_on_file (d_sessionId doc) w ->
  (let w' := snd (updateSession s w) in
   fst (updateSession s w) = Ok tt
   /\ getSessionContext (s_id s) w'
      = (Ok (Some {| session := s;
                     thoughts := default [] (w_thoughts w !! s_id s);
                     tasks := default [] (w_tasks w !! s_id s) |}), w')
   /\ (forall id, id <> s_id s ->
         fst (getSessionContext id w') = fst (getSessionContext id w))
   /\ List.length (w_sessions w') = List.length (w_sessions w)
   /\ w_docs w' = w_docs w)
  /\ (let w' := snd (saveDocumentation doc w) in
      fst (saveDocumentation doc w) = Ok tt
      /\ getDocumentation (d_sessionId doc) w' = (Ok (Some doc), w')
      /\ (forall id, id <> d_sessionId doc ->
            fst (getDocumentation id w') = fst (getDocumentation id w))
      /\ (forall id, fst (getSessionContext id w') = fst (getSessionContext id w))).
Proof.
  intros Hs Hd. unfold session_on_file in Hs, Hd. split; cbv zeta.
  - assert (Hrun : updateSession s w
                   = (Ok tt, set_sessions (replace_session s (w_sessions w))
                               (set_trace (trace w ++ [EUpdateSession s]) w))).
    { unfold updateSession. unfold bind at 1. unfold getSession, gets. cbv beta iota.
      destruct (List.find _ _); [reflexivity | congruence]. }
    rewrite Hrun. cbn [fst snd].
    split; [reflexivity |]. split; [| split; [| split]].
    + rewrite getSessionContext_reads. unfold sessionContextOf. simpl.
      rewrite find_replace_session; [reflexivity | exact Hs].
    + intros id Hne. rewrite !getSessionContext_reads. unfold sessionContextOf. simpl.
      now rewrite find_replace_session_other.
    + simpl. apply replace_session_same_length.
    + reflexivity.
  - unfold saveDocumentation, bind, emit, modify, getDocumentation, gets. cbv beta iota.
    cbn [fst snd]. split; [reflexivity |]. split; [| split].
    + simpl. now rewrite lookup_insert_eq.
    + intros id Hne. simpl. rewrite lookup_insert_ne; [reflexivity | congruence].
    + intros id. rewrite !getSessionContext_reads. reflexivity.
Qed.

(** ** The retry processor *)

Local Open Scope Z_scope.

Lemma zinsert_In score member q x :
  In x (zinsert score member q) <-> x = (score, member) \/ In x q.
Proof.
  induction q as [| [s m] q IH]; simpl.
  - intuition.
  - destruct (score <? s); simpl; [intuition |]. rewrite IH. intuition.
Qed.

Lemma zremove_In member q x :
  In x (zremove member q) <-> In x q /\ snd x <> member.
Proof.
  unfold zremove. rewrite List.filter_In. rewrite negb_true_iff, bool_decide_eq_false.
  reflexivity.
Qed.

#[global] Instance retries_ahead_preorder config : PreOrder (retries_ahead config).
Proof.
  split.
  - intros w. split; [reflexivity | auto].
  - intros w1 w2 w3 [Hn1 H1] [Hn2 H2]. split; [congruence |].
    intros x Hx. destruct (H2 x Hx) as [Hin | [d [Hd Hs]]].
    + apply H1, Hin.
    + right. exists d. split; [exact Hd | congruence].
Qed.

Lemma processing_retries_ahead config w w' : processing w w' -> retries_ahead config w w'.
Proof.
  intros (_ & _ & _ & _ & Hq & _ & Hn & _). split; [exact Hn |].
  intros x Hx. left. now rewrite <- Hq.
Qed.

Section Tick.

Variable config : Config.
Variable anthropic : nat -> LlmRequest -> LlmReply.
Hypothesis table : retryDelays config <> [].

Lemma no_zadd_processing new :
  Forall processing_effect new -> List.filter is_zadd new = [].
Proof.
  induction 1 as [| e new [He _] _ IH]; [reflexivity |].
  simpl. rewrite IH. destruct e; try reflexivity; discriminate He.
Qed.

Lemma handleEvent_settles event w :
  let w' := snd (handleEvent config anthropic event w) in
  settled w' = (settled w + if is_finalization (e_type event) then 1 else 0)%nat
  /\ retries_ahead config w w'.
Proof.
  cbv zeta.
  destruct (handleEvent_cases config anthropic event w table) as (_ & Hother & Hfinal & Hc & Hq & Hd).
  pose proof (processSession_processing config anthropic event w)
    as (_ & _ & _ & _ & _ & _ & Hnow & _ & _ & new & Htrace & Hnew).
  apply no_zadd_processing in Hnew.
  assert (Hz : List.filter is_zadd (trace (snd (processSession config anthropic event w)))
               = List.filter is_zadd (trace w)).
  { rewrite Htrace, List.filter_app, Hnew. apply app_nil_r. }
  destruct (is_finalization (e_type event)) eqn:Hf.
  - destruct (Hfinal eq_refl) as [[_ Hw] | [(error & delay & _ & _ & Hin & Hw) | (error & _ & _ & Hw)]];
      rewrite Hw; clear Hw.
    + split.
      * unfold settled. simpl. rewrite Hz, Hd. lia.
      * split; [exact Hnow |]. simpl. intros x Hx. left. now rewrite <- Hq.
    + split.
      * unfold settled. simpl. rewrite List.filter_app, Hz, Hd, Hc, List.length_app. simpl. lia.
      * split; [exact Hnow |]. simpl. intros x Hx.
        apply zinsert_In in Hx as [-> | Hx].
        -- right. exists delay. auto.
        -- apply zremove_In in Hx as [Hx _]. left. now rewrite <- Hq.
    + split.
      * unfold settled. simpl. rewrite List.filter_app, Hz, Hd, Hc. simpl.
        rewrite app_nil_r. lia.
      * split; [exact Hnow |]. simpl. intros x Hx. left. now rewrite <- Hq.
  - rewrite (Hother eq_refl). split; [lia | reflexivity].
Qed.

Lemma retry_step event w :
  let m := bind (zrem event) (fun _ => handleEvent config anthropic event) in
  fst (m w) = Ok tt
  /\ settled (snd (m w)) = (settled w + if is_finalization (e_type event) then 1 else 0)%nat
  /\ now (snd (m w)) = now w
  /\ forall x, In x (retry_queue (snd (m w))) ->
       (In x (retry_queue w) /\ snd x <> event)
       \/ exists delay, In delay (retryDelays config) /\ fst x = now w + delay.
Proof.
  cbv zeta. unfold bind at 1 2 3 4, zrem at 1 2 3 4. unfold bind, emit, modify. cbv beta iota.
  set (w1 := set_retry_queue _ _).
  destruct (handleEvent_cases config anthropic event w1 table) as (Hok & _).
  destruct (handleEvent_settles event w1) as [Hs [Hn Hq]].
  split; [exact Hok |]. split; [| split].
  - rewrite Hs. unfold settled, w1. simpl. rewrite List.filter_app. simpl.
    now rewrite app_nil_r.
  - rewrite Hn. reflexivity.
  - intros x Hx. destruct (Hq x Hx) as [Hin | Hnew].
    + left. unfold w1 in Hin. simpl in Hin. now apply zremove_In in Hin.
    + right. exact Hnew.
Qed.

Lemma retry_loop items : forall w,
  let m := for_of items (fun event => bind (zrem event) (fun _ => handleEvent config anthropic event)) in
  fst (m w) = Ok tt
  /\ settled (snd (m w))
     = (settled w + List.length (List.filter (fun e => is_finalization (e_type e)) items))%nat
  /\ now (snd (m w)) = now w
  /\ forall x, In x (retry_queue (snd (m w))) ->
       (In x (retry_queue w) /\ ~ In (snd x) items)
       \/ exists delay, In delay (retryDelays config) /\ fst x = now w + delay.
Proof.
  induction items as [| event items IH]; intros w; cbv zeta.
  - simpl. split; [reflexivity |]. split; [lia |]. split; [reflexivity |]. auto.
  - destruct (retry_step event w) as (Hok & Hs & Hn & Hq). cbv zeta in Hok, Hs, Hn, Hq.
    assert (Hstep : for_of (event :: items)
                      (fun event => bind (zrem event)
                                      (fun _ => handleEvent config anthropic event)) w
                    = for_of items
                        (fun event => bind (zrem event)
                                        (fun _ => handleEvent config anthropic event))
                        (snd (bind (zrem event)
                                (fun _ => handleEvent config anthropic event) w))).
    { cbn [for_of]. unfold bind at 1.
      destruct (bind (zrem event) (fun _ => handleEvent config anthropic event) w) as [r w1].
      cbn [fst snd] in Hok |- *. now subst r. }
    rewrite Hstep.
    set (w1 := snd (bind (zrem event) (fun _ => handleEvent config anthropic event) w)) in *.
    clearbody w1.
    destruct (IH w1) as (Hok' & Hs' & Hn' & Hq'). cbv zeta in Hok', Hs', Hn', Hq'.
    split; [exact Hok' |]. split; [| split].
    + rewrite Hs', Hs. simpl. destruct (is_finalization (e_type event)); simpl; lia.
    + congruence.
    + intros x Hx. destruct (Hq' x Hx) as [[Hin Hnot] | [d [Hd Hsc]]].
      * destruct (Hq x Hin) as [[Hin0 Hne] | Hnew]; [| right; exact Hnew].
        left. split; [exact Hin0 |]. simpl. intros [He | Hi]; [congruence | contradiction].
      * right. exists d. split; [exact Hd | congruence].
Qed.

Lemma retryProcessorTick_run w :
  let w' := snd (retryProcessorTick config anthropic w) in
  fst (retryProcessorTick config anthropic w) = Ok tt
  /\ settled w'
     = (settled w
        + List.length (List.filter (fun e => is_finalization (e_type e)) (due_events w)))%nat
  /\ now w' = now w
  /\ forall x, In x (retry_queue w') ->
       (In x (retry_queue w) /\ is_due (now w) x = false)
       \/ exists delay, In delay (retryDelays config) /\ fst x = now w + delay.
Proof.
  cbv zeta.
  assert (Hrun : retryProcessorTick config anthropic w
                 = for_of (due_events w)
                     (fun event => bind (zrem event)
                                     (fun _ => handleEvent config anthropic event)) w)
    by reflexivity.
  rewrite Hrun.
  destruct (retry_loop (due_events w) w) as (Hok & Hs & Hn & Hq). cbv zeta in Hok, Hs, Hn, Hq.
  split; [exact Hok |]. split; [exact Hs |]. split; [exact Hn |].
  intros x Hx. destruct (Hq x Hx) as [[Hin Hnot] | Hnew]; [| right; exact Hnew].
  left. split; [exact Hin |].
  destruct (is_due (now w) x) eqn:Hdue; [| reflexivity].
  exfalso. apply Hnot. unfold due_events. apply List.in_map, List.filter_In. auto.
Qed.

End Tick.

(** X16: a run of the retry processor that returns normally (every Redis
    command it awaited succeeded), with a retry table that is not empty, has
    taken every entry that was due off the retry queue and handed each to
    [handleEvent] once: each due finalization event is counted as processed,
    parked for one more retry or put on the dead-letter list, so the three
    together grow by the number of these events.  Every entry on the queue
    afterwards was there before or was scheduled during the run, one delay
    of the table ahead; with delays that are all positive, no entry that is
    due is left. *)
Theorem retryProcessorTick_drains config anthropic w :
  retryDelays config <> [] ->
  Forall (fun delay => 0 < delay) (retryDelays config) ->
  fst (retryProcessorTick config anthropic w) = Ok tt ->
  let w' := snd (retryProcessorTick config anthropic w) in
  now w' = now w
  /\ settled w'
     = (settled w
        + List.length (List.filter (fun e => is_finalization (e_type e)) (due_events w)))%nat
  /\ due_events w' = []
  /\ forall x, In x (retry_queue w') ->
       In x (retry_queue w)
       \/ exists delay, In delay (retryDelays config) /\ fst x = now w + delay.
Proof.
  intros Htable Hpos _. cbv zeta.
  destruct (retryProcessorTick_run config anthropic Htable w) as (_ & Hs & Hn & Hq).
  cbv zeta in Hs, Hn, Hq.
  split; [exact Hn |]. split; [exact Hs |]. split.
  - unfold due_events. rewrite Hn.
    match goal with |- List.map snd (List.filter ?P ?l) = [] =>
      assert (Hnone : List.filter P l = []); [| now rewrite Hnone] end.
    apply filter_none.
    intros x Hx. destruct (Hq x Hx) as [[_ Hnot] | [d [Hd Hsc]]]; [exact Hnot |].
    rewrite List.Forall_forall in Hpos. specialize (Hpos d Hd).
    unfold is_due. rewrite Hsc. apply andb_false_iff. right. apply Z.leb_gt. lia.
  - intros x Hx. destruct (Hq x Hx) as [[Hin _] | Hnew]; auto.
Qed.

Local Close Scope Z_scope.

(** ** Rendered replies and the batch path *)

Lemma find_app {A} (p : A -> bool) l1 l2 :
  List.find p (l1 ++ l2) = match List.find p l1 with Some x => Some x | None => List.find p l2 end.
Proof. induction l1 as [| x l1 IH]; simpl; [reflexivity |]. destruct (p x); auto. Qed.

Lemma parsed_blocks_get id blocks : forall docs,
  JsMap.get id
    (List.fold_left
       (fun docs b => JsMap.set (rb_id b) (parsed_block (rb_id b) (Js.trim (rb_body b))) docs)
       blocks docs)
  = match last_block id blocks with
    | Some b => Some (parsed_block id (Js.trim (rb_body b)))
    | None => JsMap.get id docs
    end.
Proof.
  unfold last_block. induction blocks as [| b blocks IH]; intros docs; [reflexivity |].
  cbn [List.fold_left List.rev]. rewrite IH, find_app.
  destruct (List.find _ (List.rev blocks)); [reflexivity |].
  cbn [List.find]. destruct (String.eqb_spec (rb_id b) id) as [<- | Hne].
  - apply JsMap_get_set.
  - now apply JsMap_get_set_other.
Qed.

Lemma parseBatchResponse_blocks blocks tail sessions :
  Forall clean_block blocks -> begins_nowhere SESSION_START tail = true ->
  parseBatchResponse (render_reply blocks tail) sessions = parsed_blocks blocks.
Proof.
  intros Hblocks Htail. unfold parseBatchResponse, parsed_blocks.
  now apply parse_loop_render.
Qed.



Lemma save_loop_docs (parsed : JsMap.t ParsedBatchDoc) sessions : forall w,
  NoDup (context_ids sessions) ->
  let run := for_of sessions (save_parsed parsed) w in
  fst run = Ok tt
  /\ now (snd run) = now w
  /\ (forall ctx, In ctx sessions ->
        w_docs (snd run) !! s_id (session ctx)
        = match JsMap.get (s_id (session ctx)) parsed with
          | Some p => Some (batch_doc ctx p (now w))
          | None => w_docs w !! s_id (session ctx)
          end)
  /\ (forall id, ~ In id (context_ids sessions) -> w_docs (snd run) !! id = w_docs w !! id).
Proof.
  induction sessions as [| ctx sessions IH]; intros w Hnd; cbv zeta.
  - simpl. repeat split; auto. intros ctx [].
  - change (context_ids (ctx :: sessions))
      with (s_id (session ctx) :: context_ids sessions) in Hnd.
    apply NoDup_cons in Hnd as [Hfresh Hnd].
    assert (Hfresh' : ~ In (s_id (session ctx)) (context_ids sessions))
      by (intros Hin; apply Hfresh, list_elem_of_In, Hin).
    assert (Hstep : exists w1,
      save_parsed parsed ctx w = (Ok tt, w1)
      /\ now w1 = now w
      /\ w_docs w1 !! s_id (session ctx)
         = match JsMap.get (s_id (session ctx)) parsed with
           | Some p => Some (batch_doc ctx p (now w))
           | None => w_docs w !! s_id (session ctx)
           end
      /\ forall id, id <> s_id (session ctx) -> w_docs w1 !! id = w_docs w !! id).
    { unfold save_parsed. destruct (JsMap.get _ _) as [p |].
      - eexists. split; [reflexivity |]. split; [reflexivity |]. split.
        + simpl. apply lookup_insert_eq.
        + intros id Hne. simpl. apply lookup_insert_ne. congruence.
      - exists w. auto. }
    destruct Hstep as (w1 & Hrun & Hnow & Hhere & Hother).
    cbn [for_of]. unfold bind. rewrite Hrun.
    destruct (IH w1 Hnd) as (Hok & Hnow' & Hin & Hout). cbv zeta in Hok, Hnow', Hin, Hout.
    split; [exact Hok |]. split; [congruence |]. split.
    + intros ctx' [<- | Hin'].
      * rewrite (Hout _ Hfresh'). exact Hhere.
      * rewrite (Hin ctx' Hin'), Hnow.
        destruct (JsMap.get (s_id (session ctx')) parsed); [reflexivity |]. apply Hother.
        intros Heq. apply Hfresh'. rewrite <- Heq. unfold context_ids.
        now apply (List.in_map (fun c => s_id (session c))).
    + intros id Hid. simpl in Hid. rewrite (Hout id); [| tauto]. apply Hother. intuition.
Qed.

Lemma batch_doc_document ctx body t :
  document_of_body ctx body t
    (batch_doc ctx (parsed_block (s_id (session ctx)) (Js.trim body)) t).
Proof.
  unfold document_of_body. cbv zeta.
  destruct (branches_of_spec (thoughts ctx)) as [Hnd Hin].
  split; [reflexivity |]. split; [reflexivity |].
  split.
  { intros Hne. cbn [batch_doc d_summary parsed_block pd_executiveSummary]. unfold Js.or_else.
    destruct (extractSection (Js.trim body) "Executive Summary"); [congruence | reflexivity]. }
  split.
  { intros He. cbn [batch_doc d_summary parsed_block pd_executiveSummary]. unfold Js.or_else.
    rewrite He. reflexivity. }
  split; [reflexivity |]. split; [reflexivity |].
  split; [exact Hnd |]. split; [exact Hin |].
  repeat split.
Qed.

(** X18: a batch reply made of clean blocks is filed block by block.  When
    the sessions of a non-empty tier group are on file and have distinct
    ids, and the model answers the group's request with such a reply,
    [processTierBatch] returns normally and has stored, for every session of
    the group with a block, a document under the session's id that is
    stamped with the current time and carries the session's counts and
    branches, as content the trimmed body of the last block with the
    session's id, the sections and tags extracted from it, and as summary its
    executive summary (or a line counting the thoughts when it has none).  A
    session without a block keeps the document it had, or none, and no error
    is raised; documents of sessions outside the group are not touched. *)
Theorem processTierBatch_stores anthropic sessions model blocks tail w :
  sessions <> [] ->
  NoDup (context_ids sessions) ->
  Forall (fun ctx => session_on_file (s_id (session ctx)) w) sessions ->
  anthropic (apiCalls w) (batch_request model sessions) = ReplyText (render_reply blocks tail) ->
  Forall clean_block blocks ->
  begins_nowhere SESSION_START tail = true ->
  let w' := snd (processTierBatch anthropic sessions model w) in
  fst (processTierBatch anthropic sessions model w) = Ok tt
  /\ (forall ctx, In ctx sessions ->
        match last_block (s_id (session ctx)) blocks with
        | Some b =>
            exists doc,
              w_docs w' !! s_id (session ctx) = Some doc
              /\ document_of_body ctx (rb_body b) (now w) doc
        | None => w_docs w' !! s_id (session ctx) = w_docs w !! s_id (session ctx)
        end)
  /\ (forall id, ~ In id (context_ids sessions) -> w_docs w' !! id = w_docs w !! id).
Proof.
  intros Hne Hnd _ Hreply Hclean Htail. cbv zeta.
  rewrite (processTierBatch_nonempty anthropic sessions model w Hne).
  unfold bind. rewrite messages_create_run. cbv zeta.
  unfold generateBatchPrompt. fold (batch_request model sessions). rewrite Hreply.
  cbn [first_text ret].
  rewrite (parseBatchResponse_blocks blocks tail sessions Hclean Htail).
  unfold parsed_blocks.
  match goal with |- context [for_of sessions ?body ?w1] =>
    destruct (save_loop_docs
                (List.fold_left
                   (fun docs b =>
                      JsMap.set (rb_id b) (parsed_block (rb_id b) (Js.trim (rb_body b))) docs)
                   blocks JsMap.empty) sessions w1 Hnd) as (Hok & _ & Hin & Hout)
  end.
  cbv zeta in Hok, Hin, Hout.
  split; [exact Hok |]. split; [| exact Hout].
  intros ctx Hctx. rewrite (Hin ctx Hctx), parsed_blocks_get.
  destruct (last_block _ _) as [b |]; [| reflexivity].
  eexists. split; [reflexivity |]. apply batch_doc_document.
Qed.

(** ** The content hash *)

Local Open Scope Z_scope.

Lemma to_int32_range x : - 2 ^ 31 <= to_int32 x < 2 ^ 31.
Proof.
  unfold to_int32. pose proof (Z.mod_pos_bound (x + 2 ^ 31) (2 ^ 32) ltac:(lia)). lia.
Qed.

Lemma to_int32_congr x y : (x - y) mod 2 ^ 32 = 0 -> to_int32 x = to_int32 y.
Proof.
  intros H. unfold to_int32. f_equal.
  apply Z.mod_divide in H; [| lia]. destruct H as [k Hk].
  replace (x + 2 ^ 31) with (y + 2 ^ 31 + k * 2 ^ 32) by lia.
  apply Z.mod_add. lia.
Qed.

Lemma to_int32_diff x : (to_int32 x - x) mod 2 ^ 32 = 0.
Proof.
  unfold to_int32. apply Z.mod_divide; [lia |].
  exists (- ((x + 2 ^ 31) / 2 ^ 32)).
  pose proof (Z.div_mod (x + 2 ^ 31) (2 ^ 32) ltac:(lia)). lia.
Qed.

Lemma to_int32_eq x y : to_int32 x = to_int32 y <-> (x - y) mod 2 ^ 32 = 0.
Proof.
  split; [| apply to_int32_congr].
  intros H. pose proof (to_int32_diff x) as Hx. pose proof (to_int32_diff y) as Hy.
  apply Z.mod_divide in Hx; [| lia]. apply Z.mod_divide in Hy; [| lia].
  destruct Hx as [a Ha]. destruct Hy as [b Hb].
  apply Z.mod_divide; [lia |]. exists (b - a). lia.
Qed.

Lemma to_int32_id x : - 2 ^ 31 <= x < 2 ^ 31 -> to_int32 x = x.
Proof. intros H. unfold to_int32. rewrite Z.mod_small; lia. Qed.

Lemma hash_step_wrapped x char :
  hash_step (to_int32 x) char = to_int32 (31 * x + char).
Proof.
  unfold hash_step. apply to_int32_congr.
  pose proof (to_int32_diff (to_int32 x * 32)) as H1.
  pose proof (to_int32_diff x) as H2.
  apply Z.mod_divide in H1; [| lia]. apply Z.mod_divide in H2; [| lia].
  destruct H1 as [a Ha]. destruct H2 as [b Hb].
  apply Z.mod_divide; [lia |]. exists (a + 31 * b). lia.
Qed.

Lemma hash_loop_wrapped content : forall x,
  List.fold_left hash_step content (to_int32 x)
  = to_int32 (List.fold_left (fun acc char => 31 * acc + char) content x).
Proof.
  induction content as [| c content IH]; intros x; simpl; [reflexivity |].
  rewrite hash_step_wrapped. apply IH.
Qed.

Lemma content_hash_base_31 content : content_hash content = to_int32 (base_31 content).
Proof.
  unfold content_hash, base_31. rewrite <- hash_loop_wrapped. reflexivity.
Qed.

Lemma base_31_from content : forall x,
  List.fold_left (fun acc char => 31 * acc + char) content x
  = x * 31 ^ Z.of_nat (List.length content) + base_31 content.
Proof.
  unfold base_31. induction content as [| c content IH]; intros x.
  - simpl. lia.
  - cbn [List.fold_left List.length]. rewrite IH, (IH (31 * 0 + c)).
    rewrite Nat2Z.inj_succ, Z.pow_succ_r by lia. lia.
Qed.

Lemma base_31_app a b :
  base_31 (a ++ b) = base_31 a * 31 ^ Z.of_nat (List.length b) + base_31 b.
Proof. unfold base_31 at 1. rewrite List.fold_left_app. apply base_31_from. Qed.

Lemma to_hex_int_proper n :
  Z.to_hex_int n <> Hexadecimal.Pos Hexadecimal.Nil
  /\ Z.to_hex_int n <> Hexadecimal.Neg Hexadecimal.Nil.
Proof.
  split; intros H; pose proof (HexadecimalZ.of_to n) as E; rewrite H in E;
    simpl in E; subst n; discriminate H.
Qed.

Lemma to_string_16_inj n n' : to_string_16 n = to_string_16 n' -> n = n'.
Proof.
  unfold to_string_16. intros H.
  destruct (to_hex_int_proper n) as [H1 H2]. destruct (to_hex_int_proper n') as [H1' H2'].
  apply HexadecimalZ.to_int_inj.
  pose proof (HexadecimalString.NilZero.isi _ H1 H2) as E.
  pose proof (HexadecimalString.NilZero.isi _ H1' H2') as E'.
  rewrite H in E. congruence.
Qed.

(** X19: [getContentHash] never fails and changes nothing; for a session
    without thoughts and tasks on file it hashes the rendering of two empty
    lists.  The number it renders in base 16 is the content read as a number
    in base 31, wrapped into the signed 32-bit range, so the hash of a
    concatenation is determined by the hashes of its parts and the length of
    the second; two sessions get the same string exactly when their base-31
    values differ by a multiple of [2^32]. *)
Theorem getContentHash_base_31 stringify sessionId sessionId' w :
  let content id :=
    stringify (default [] (w_thoughts w !! id)) (default [] (w_tasks w !! id)) in
  getContentHash stringify sessionId w
  = (Ok (to_string_16 (to_int32 (base_31 (content sessionId)))), w)
  /\ - 2 ^ 31 <= content_hash (content sessionId) < 2 ^ 31
  /\ (fst (getContentHash stringify sessionId w) = fst (getContentHash stringify sessionId' w)
      <-> (base_31 (content sessionId) - base_31 (content sessionId')) mod 2 ^ 32 = 0)
  /\ forall a b,
       content_hash (a ++ b)
       = to_int32 (content_hash a * 31 ^ Z.of_nat (List.length b) + content_hash b).
Proof.
  cbv zeta.
  assert (Hrun : forall id,
    getContentHash stringify id w
    = (Ok (to_string_16
             (to_int32 (base_31 (stringify (default [] (w_thoughts w !! id))
                                   (default [] (w_tasks w !! id)))))), w)).
  { intros id. unfold getContentHash, bind, getThoughts, getTasks, gets, ret.
    cbv beta iota. now rewrite content_hash_base_31. }
  split; [apply Hrun |]. split; [rewrite content_hash_base_31; apply to_int32_range |].
  split.
  - rewrite !Hrun. cbn [fst]. rewrite <- to_int32_eq. split.
    + intros [= H]. now apply to_string_16_inj.
    + intros H. now rewrite H.
  - intros a b. rewrite !content_hash_base_31, base_31_app.
    apply to_int32_congr.
    pose proof (to_int32_diff (base_31 a)) as Ha. pose proof (to_int32_diff (base_31 b)) as Hb.
    apply Z.mod_divide in Ha; [| lia]. apply Z.mod_divide in Hb; [| lia].
    destruct Ha as [x Hx]. destruct Hb as [y Hy].
    apply Z.mod_divide; [lia |].
    exists (- x * 31 ^ Z.of_nat (List.length b) - y). lia.
Qed.

(** X20: the hash does not tell apart contents that differ in a piece with
    the same hash and the same length: whatever stands before and behind the
    piece, the two contents hash alike, so a change of this kind is not seen
    by a cache keyed on the hash. *)
Theorem content_hash_collides a b before behind :
  List.length a = List.length b ->
  content_hash a = content_hash b ->
  content_hash (before ++ a ++ behind) = content_hash (before ++ b ++ behind).
Proof.
  intros Hlen Hhash.
  rewrite !content_hash_base_31 in *. apply to_int32_eq in Hhash. apply to_int32_congr.
  rewrite !base_31_app, !List.length_app, Hlen.
  apply Z.mod_divide in Hhash; [| lia]. destruct Hhash as [k Hk].
  apply Z.mod_divide; [lia |].
  exists (k * 31 ^ Z.of_nat (List.length behind)).
  replace (base_31 a) with (base_31 b + k * 2 ^ 32) by lia. ring.
Qed.

(** The witness of [content_hash_collides]: the code units of [Aa] and of
    [BB] between two others. *)
Lemma content_hash_collides_witness :
  content_hash [1; 65; 97; 2] = content_hash [1; 66; 66; 2]
  /\ content_hash [1; 65; 97; 2] = 95265.
Proof.
  split; [| reflexivity].
  apply (content_hash_collides [65; 97] [66; 66] [1] [2]); reflexivity.
Defined.

Local Close Scope Z_scope.

(** ** The environment *)

Local Open Scope Z_scope.

Lemma of_uint_acc_value d : forall p,
  Z.pos (Pos.of_uint_acc d p) = digits_value d (Z.pos p).
Proof.
  induction d; intros p; simpl; try reflexivity; rewrite IHd; f_equal; lia.
Qed.

Lemma of_uint_value d : Z.of_uint d = digits_value d 0.
Proof.
  unfold Z.of_uint. induction d; simpl; try reflexivity; try exact IHd;
    rewrite of_uint_acc_value; reflexivity.
Qed.

Lemma parse_digits_junk junk acc :
  starts_with_digit junk = false -> parse_digits junk acc true = Some acc.
Proof. destruct junk as [| c junk]; simpl; [reflexivity |]. now intros ->. Qed.

Lemma parse_digits_uint junk d : forall acc,
  starts_with_digit junk = false ->
  parse_digits (NilEmpty.string_of_uint d +:+ junk) acc true = Some (digits_value d acc).
Proof.
  intros acc Hjunk. revert acc.
  induction d; intros acc; cbn [NilEmpty.string_of_uint digits_value];
    [apply parse_digits_junk, Hjunk | ..];
    (change (String ?c ?s +:+ junk) with (String c (s +:+ junk)));
    cbn [parse_digits]; apply IHd.
Qed.

Lemma parse_digits_start junk d :
  starts_with_digit junk = false ->
  parse_digits (NilZero.string_of_uint d +:+ junk) 0 false = Some (Z.of_uint d)
  /\ exists c t, NilZero.string_of_uint d +:+ junk = String c t /\ is_digit c = true.
Proof.
  intros Hjunk. rewrite of_uint_value.
  destruct d; cbn [NilZero.string_of_uint NilEmpty.string_of_uint digits_value];
    (change (String ?c ?s +:+ junk) with (String c (s +:+ junk)));
    cbn [parse_digits];
    (split; [first [apply parse_digits_junk, Hjunk | apply parse_digits_uint, Hjunk]
            | eexists _, _; split; [reflexivity | reflexivity]]).
Qed.

Lemma digit_not_space c : is_digit c = true -> Js.is_space c = false.
Proof.
  unfold is_digit, Js.is_space. cbv zeta. intros H.
  apply andb_true_iff in H as [H1 H2]. apply Nat.leb_le in H1. apply Nat.leb_le in H2.
  repeat (apply orb_false_iff; split).
  - apply andb_false_iff. right. apply Nat.leb_gt. lia.
  - apply Nat.eqb_neq. lia.
  - apply Nat.eqb_neq. lia.
Qed.

Lemma digit_not_sign c : is_digit c = true -> c <> "-"%char /\ c <> "+"%char.
Proof. intros H. split; intros ->; discriminate H. Qed.

Lemma parseInt_decimal lead z junk :
  Js.skip_space lead = ""%string ->
  starts_with_digit junk = false ->
  parseInt (lead +:+ decimal z +:+ junk) = Some z
  /\ lead +:+ decimal z +:+ junk <> ""%string.
Proof.
  intros Hlead Hjunk. unfold parseInt, decimal.
  rewrite (skip_space_all lead _ Hlead).
  rewrite <- (DecimalZ.of_to z) at 2.
  destruct (Z.to_int z) as [d | d]; cbn [NilZero.string_of_int Z.of_int].
  - destruct (parse_digits_start junk d Hjunk) as [Hparse (c & t & Heq & Hc)].
    rewrite Heq in *. cbn [Js.skip_space]. rewrite (digit_not_space c Hc).
    destruct (digit_not_sign c Hc) as [Hm Hp].
    apply Ascii.eqb_neq in Hm, Hp. rewrite Hm, Hp. split; [exact Hparse |].
    destruct lead; discriminate.
  - change (String "-" ?s +:+ junk) with (String "-" (s +:+ junk)).
    cbn [Js.skip_space]. change (Js.is_space "-") with false. cbv iota.
    change (Ascii.eqb "-" "-") with true. cbv iota.
    destruct (parse_digits_start junk d Hjunk) as [Hparse _]. rewrite Hparse.
    split; [reflexivity |]. destruct lead; discriminate.
Qed.

(** X21: [getEnvIntOrDefault] returns the integer written in the variable,
    whatever its sign and also when it is [0], with white space before it
    and anything that does not start with a digit behind it; the default is
    not used then. *)
Theorem getEnvIntOrDefault_reads env key defaultValue lead z junk :
  Z.abs z < 2 ^ 53 ->
  env !! key = Some (lead +:+ decimal z +:+ junk) ->
  Js.skip_space lead = ""%string ->
  starts_with_digit junk = false ->
  getEnvIntOrDefault env key defaultValue = z.
Proof.
  intros _ Henv Hlead Hjunk. unfold getEnvIntOrDefault. rewrite Henv.
  destruct (parseInt_decimal lead z junk Hlead Hjunk) as [Hparse Hne].
  rewrite Hparse.
  destruct (lead +:+ decimal z +:+ junk); [congruence | reflexivity].
Qed.

Lemma getEnvIntOrDefault_unset env key defaultValue :
  unset env key -> getEnvIntOrDefault env key defaultValue = defaultValue.
Proof. unfold getEnvIntOrDefault. intros [-> | ->]; reflexivity. Qed.

Lemma getEnvOrDefault_unset env key defaultValue :
  unset env key -> getEnvOrDefault env key defaultValue = defaultValue.
Proof. unfold getEnvOrDefault. intros [-> | ->]; reflexivity. Qed.

(** X22: [loadConfig] throws exactly when ANTHROPIC_API_KEY is not set or
    empty, and then with the message that names the variable.  Every
    configuration it returns has the fixed back-off table of three positive
    delays; a variable that is not set, is empty or does not hold a number
    falls back to its default, so an environment with nothing but the key
    gives the default configuration. *)
Theorem loadConfigFrom_contract env :
  (unset env "ANTHROPIC_API_KEY"
   <-> loadConfigFrom env
       = Throw "Required environment variable ANTHROPIC_API_KEY is not set")
  /\ (~ unset env "ANTHROPIC_API_KEY" -> exists config, loadConfigFrom env = Ok config)
  /\ (forall config, loadConfigFrom env = Ok config ->
        retryDelays config = [5000; 30000; 120000]
        /\ Forall (fun delay => 0 < delay) (retryDelays config)
        /\ (unset env "BATCH_SIZE" -> batchSize config = 5)
        /\ (forall value, env !! "BATCH_SIZE" = Some value -> parseInt value = None ->
              batchSize config = 5)
        /\ ((unset env "BASIC_MODEL" /\ unset env "PREMIUM_MODEL"
             /\ unset env "IDLE_TIMEOUT_MINUTES" /\ unset env "BATCH_SIZE"
             /\ unset env "BATCH_WINDOW_SECONDS" /\ unset env "MAX_RETRIES") ->
            config = defaultConfig)).
Proof.
  unfold loadConfigFrom, getEnvOrThrow, unset.
  destruct (env !! "ANTHROPIC_API_KEY"%string) as [[| c key] |] eqn:Hkey; cbn [Js.truthy].
  - split; [split; [reflexivity | auto] |]. split; [intros H; exfalso; apply H; auto |].
    intros config [=].
  - split; [split; [intros [H | H]; discriminate H | discriminate] |].
    split; [eauto |]. intros config [= <-]. cbn [retryDelays batchSize loadConfig].
    split; [reflexivity |]. split; [repeat constructor |]. split; [| split].
    + apply getEnvIntOrDefault_unset.
    + intros value Hv Hnan. unfold getEnvIntOrDefault. rewrite Hv, Hnan.
      now destruct (Js.truthy value).
    + intros (H1 & H2 & H3 & H4 & H5 & H6).
      rewrite !getEnvIntOrDefault_unset, !getEnvOrDefault_unset by assumption.
      reflexivity.
  - split; [split; [reflexivity | auto] |]. split; [intros H; exfalso; apply H; auto |].
    intros config [=].
Qed.

Local Close Scope Z_scope.

(** ** Witnesses on the fixtures *)

(** The witness of [extractSection_clean]: the tags of a document of two
    sections. *)
Lemma extractSection_clean_witness :
  let content := render_sections (fx_sections_before ++ fx_sections_after) in
  literal_name "Tags" = true
  /\ extractSection content "Tags" = "a, b"
  /\ occurs_in (extractSection content "Tags") content.
Proof.
  cbv zeta. split; [reflexivity |]. split; [vm_compute; reflexivity |].
  destruct (extractSection_clean
              (render_sections (fx_sections_before ++ fx_sections_after)) "Tags" eq_refl)
    as (_ & _ & H & _).
  exact H.
Defined.

(** The witness of [extractSection_render]: the section asked for as
    [Outcome] is written [OUTCOME] and stands between two others. *)
Lemma extractSection_render_witness :
  extractSection
    (render_sections
       (fx_sections_before ++ ("OUTCOME", nl +:+ "Shipped." +:+ nl) :: fx_sections_after))
    "Outcome"
  = "Shipped.".
Proof.
  apply (extractSection_render fx_sections_before "Outcome" "OUTCOME"
           (nl +:+ "Shipped." +:+ nl) fx_sections_after).
  - reflexivity.
  - constructor; [| constructor].
    split; [reflexivity |]. split; [reflexivity |]. intros rest. reflexivity.
  - reflexivity.
  - reflexivity.
Defined.

(** The blocks of [fx_blocks] are clean. *)
Lemma fx_blocks_clean : Forall clean_block fx_blocks.
Proof.
  repeat (constructor; [
    split; [reflexivity |]; split; [discriminate |]; split; [reflexivity |];
    split; [| reflexivity];
    split; [eexists _, _; split; reflexivity
           | eexists _, _; split; [reflexivity | discriminate]] |]).
  constructor.
Qed.


(** Two pending sessions with an armed timer, below the default batch
    size of five. *)
Lemma fx_two_pending_ok : queue_ok defaultConfig fx_two_pending.
Proof.
  split; [split |].
  - apply (bool_decide_unpack _). vm_compute. exact I.
  - intros k ctx [[= <- <-] | [[= <- <-] | []]]; reflexivity.
  - split; [simpl; lia |]. split; [split; [discriminate | reflexivity] |].
    repeat constructor; unfold small_context; simpl; lia.
Qed.

(** The witness of [pending_sessions_have_timer]: a flush of two pending
    sessions. *)
Lemma pending_sessions_have_timer_witness :
  (1 <= batchSize defaultConfig)%Z
  /\ queue_ok defaultConfig fx_two_pending
  /\ queue_ok defaultConfig (snd (flush defaultConfig (answers "") fx_two_pending)).
Proof.
  assert (H1 : (1 <= batchSize defaultConfig)%Z) by (simpl; lia).
  split; [exact H1 |]. split; [exact fx_two_pending_ok |].
  pose proof (pending_sessions_have_timer defaultConfig (answers "") fx_ghost fx_two_pending
                H1 fx_two_pending_ok) as H.
  apply List.Forall_forall with (x := flush defaultConfig (answers "")) in H;
    [| simpl; auto].
  exact (proj1 H).
Defined.

(** The witness of [worker_requests_bounded]: the requests of that
    flush. *)
Lemma worker_requests_bounded_witness :
  (1 <= batchSize defaultConfig)%Z
  /\ queue_ok defaultConfig fx_two_pending
  /\ Forall (bounded_effect defaultConfig)
       (new_effects fx_two_pending (snd (flush defaultConfig (answers "") fx_two_pending))).
Proof.
  assert (H1 : (1 <= batchSize defaultConfig)%Z) by (simpl; lia).
  split; [exact H1 |]. split; [exact fx_two_pending_ok |].
  pose proof (worker_requests_bounded defaultConfig (answers "") fx_ghost fx_two_pending
                H1 fx_two_pending_ok) as H.
  apply List.Forall_forall with (x := flush defaultConfig (answers "")) in H;
    [| simpl; auto].
  exact H.
Defined.

(** The witness of [batchSize_zero_never_generates]: a flush with a batch
    size of zero leaves the two pending sessions where they are. *)
Lemma batchSize_zero_never_generates_witness :
  batchSize (config_with_batchSize 0) = 0%Z
  /\ pendingQueue (snd (flush (config_with_batchSize 0) (answers "") fx_two_pending))
     = pendingQueue fx_two_pending.
Proof.
  split; [reflexivity |].
  destruct (batchSize_zero_never_generates (config_with_batchSize 0) (answers "") eq_refl)
    as [_ [H _]].
  destruct (H (flush (config_with_batchSize 0) (answers "")) fx_two_pending) as [_ [Hq _]];
    [simpl; auto | exact Hq].
Defined.

(** The witness of [failed_batch_is_dropped]: two pending sessions, a batch
    size of two and a client that rejects every request. *)
Lemma failed_batch_is_dropped_witness :
  (forall n rq, reply_fails (rejects n rq) = true)
  /\ pendingQueue (snd (processBatch (config_with_batchSize 2) rejects fx_two_pending)) = []
  /\ retry_queue (snd (processBatch (config_with_batchSize 2) rejects fx_two_pending)) = [].
Proof.
  assert (H1 : forall n rq, reply_fails (rejects n rq) = true) by reflexivity.
  split; [exact H1 |].
  destruct (failed_batch_is_dropped (config_with_batchSize 2) rejects H1) as [H _].
  destruct (H fx_two_pending) as (_ & Hq & _ & _ & Hr & _).
  - intros k ctx [[= <- <-] | [[= <- <-] | []]]; reflexivity.
  - discriminate.
  - simpl. lia.
  - split; [exact Hq | exact Hr].
Defined.

(** The sessions of [fx_scanner] have distinct ids. *)
Lemma fx_scanner_distinct : NoDup (session_ids (w_sessions fx_scanner)).
Proof. apply (bool_decide_unpack _). vm_compute. exact I. Qed.

(** The witness of [scan_settles]: a scan of [fx_scanner] returns, and a
    second scan changes nothing. *)
Lemma scan_settles_witness :
  NoDup (session_ids (w_sessions fx_scanner))
  /\ fst (scan defaultConfig fx_scanner) = Ok tt
  /\ scan defaultConfig (snd (scan defaultConfig fx_scanner))
     = (Ok tt, snd (scan defaultConfig fx_scanner)).
Proof.
  assert (H : fst (scan defaultConfig fx_scanner) = Ok tt) by (vm_compute; reflexivity).
  split; [exact fx_scanner_distinct |]. split; [exact H |].
  destruct (scan_settles defaultConfig fx_scanner fx_scanner_distinct H) as (_ & _ & _ & H4).
  exact H4.
Defined.

(** The witness of [scan_event_enters_generation]: the premium session of
    [fx_scanner] that has been idle for an hour. *)
Lemma scan_event_enters_generation_witness :
  let s := fx_session "idle-open" (1140 * 60000) StatusActive (Some "premium") in
  idle_beyond_timeout defaultConfig fx_scanner s = true
  /\ not_from_the_future fx_scanner
  /\ In (EPublish (auto_event defaultConfig s fx_scanner))
       (new_effects fx_scanner (snd (scan defaultConfig fx_scanner)))
  /\ event_tier (auto_event defaultConfig s fx_scanner) = "premium".
Proof.
  cbv zeta.
  assert (H2 : In (fx_session "idle-open" (1140 * 60000) StatusActive (Some "premium"))
                 (w_sessions fx_scanner)) by (simpl; auto).
  assert (H4 : idle_beyond_timeout defaultConfig fx_scanner
                 (fx_session "idle-open" (1140 * 60000) StatusActive (Some "premium")) = true)
    by reflexivity.
  assert (H5 : not_from_the_future fx_scanner).
  { intros k doc H. change (w_docs fx_scanner) with (∅ : gmap string DocumentationEntry) in H.
    rewrite lookup_empty in H. discriminate H. }
  split; [exact H4 |]. split; [exact H5 |].
  destruct (scan_event_enters_generation defaultConfig (answers "") fx_scanner _
              fx_scanner_distinct H2 eq_refl H4 H5) as (Hpub & _ & _ & Htier & _).
  split; [exact Hpub | exact Htier].
Defined.

(** The witness of [redelivery_after_generation]: the session of 45
    thoughts, last updated before the clock of the store. *)
Lemma redelivery_after_generation_witness :
  let w1 := snd (processSession defaultConfig (answers "stage summary")
                   (fx_event "big" None) fx_big_world) in
  sessionContextOf "big" fx_big_world = Some fx_big
  /\ fst (processSession defaultConfig (answers "stage summary")
            (fx_event "big" None) fx_big_world) = Ok tt
  /\ processSession defaultConfig (answers "stage summary") (fx_event "big" (Some 1%Z)) w1
     = (Ok tt, w1).
Proof.
  cbv zeta.
  assert (H1 : sessionContextOf (e_sessionId (fx_event "big" None)) fx_big_world = Some fx_big)
    by (vm_compute; reflexivity).
  assert (H2 : 20 < List.length (thoughts fx_big)) by (vm_compute; lia).
  assert (H3 : needs_generation (fx_event "big" None) fx_big fx_big_world)
    by (vm_compute; exact I).
  assert (H4 : fst (processSession defaultConfig (answers "stage summary")
                      (fx_event "big" None) fx_big_world) = Ok tt)
    by (vm_compute; reflexivity).
  split; [exact H1 |]. split; [exact H4 |].
  destruct (redelivery_after_generation defaultConfig (answers "stage summary")
              (fx_event "big" None) (fx_event "big" (Some 1%Z)) fx_big_world fx_big
              H1 H2 H3 H4 eq_refl) as [_ H].
  exact H.
Defined.

(** The witness of [storage_round_trip]: the one session of [fx_fresh]. *)
Lemma storage_round_trip_witness :
  let s := fx_session "s1" 3000 StatusFinalized None in
  let doc := fx_doc "s1" 4000 0 0 in
  session_on_file "s1" fx_fresh
  /\ fst (getSessionContext "s1" (snd (updateSession s fx_fresh)))
     = Ok (Some {| session := s; thoughts := []; tasks := [] |})
  /\ fst (getDocumentation "s1" (snd (saveDocumentation doc fx_fresh))) = Ok (Some doc).
Proof.
  cbv zeta.
  assert (H : session_on_file "s1" fx_fresh) by (unfold session_on_file; simpl; discriminate).
  split; [exact H |].
  destruct (storage_round_trip (fx_session "s1" 3000 StatusFinalized None)
              (fx_doc "s1" 4000 0 0) fx_fresh H H) as [(_ & Hs & _) (_ & Hd & _)].
  cbv zeta in Hs, Hd. split.
  - exact (f_equal fst Hs).
  - exact (f_equal fst Hd).
Defined.

(** The witness of [retryProcessorTick_drains]: of the two retries of
    [fx_retries] one is due; its session is missing and the client rejects,
    so it is parked again. *)
Lemma retryProcessorTick_drains_witness :
  due_events fx_retries = [fx_event "ghost" (Some 1%Z)]
  /\ fst (retryProcessorTick defaultConfig rejects fx_retries) = Ok tt
  /\ due_events (snd (retryProcessorTick defaultConfig rejects fx_retries)) = []
  /\ settled (snd (retryProcessorTick defaultConfig rejects fx_retries)) = 1.
Proof.
  assert (H : fst (retryProcessorTick defaultConfig rejects fx_retries) = Ok tt)
    by (vm_compute; reflexivity).
  split; [reflexivity |]. split; [exact H |].
  destruct (retryProcessorTick_drains defaultConfig rejects fx_retries)
    as (_ & Hs & Hd & _).
  - discriminate.
  - repeat constructor.
  - exact H.
  - split; [exact Hd | exact Hs].
Defined.

(** The witness of [processTierBatch_stores]: the two sessions of
    [fx_pair], on file, and the reply of [fx_blocks]; the document of the
    first session is made from the last block. *)
Lemma processTierBatch_stores_witness :
  let anthropic := answers (render_reply fx_blocks nl) in
  let run := processTierBatch anthropic fx_pair (basicModel defaultConfig) fx_pair_world in
  NoDup (context_ids fx_pair)
  /\ Forall (fun ctx => session_on_file (s_id (session ctx)) fx_pair_world) fx_pair
  /\ fst run = Ok tt
  /\ exists doc,
       w_docs (snd run) !! "s1" = Some doc
       /\ d_generatedAt doc = 5000%Z
       /\ d_content doc = "## Executive Summary" +:+ nl +:+ "Again."
       /\ d_summary doc = "Again.".
Proof.
  cbv zeta.
  assert (H1 : NoDup (context_ids fx_pair)).
  { apply (bool_decide_unpack _). vm_compute. exact I. }
  assert (H2 : Forall (fun ctx => session_on_file (s_id (session ctx)) fx_pair_world) fx_pair).
  { repeat constructor; unfold session_on_file; simpl; discriminate. }
  split; [exact H1 |]. split; [exact H2 |].
  destruct (processTierBatch_stores (answers (render_reply fx_blocks nl)) fx_pair
              (basicModel defaultConfig) fx_blocks nl fx_pair_world)
    as (Hok & Hin & _); [discriminate | exact H1 | exact H2 | reflexivity
                          | exact fx_blocks_clean | reflexivity |].
  split; [exact Hok |].
  specialize (Hin (fx_context "s1" 1 None) (or_introl eq_refl)).
  change (last_block (s_id (session (fx_context "s1" 1 None))) fx_blocks)
    with (Some {| rb_lead := nl; rb_id := "s1";
                  rb_body := nl +:+ "## Executive Summary" +:+ nl +:+ "Again." +:+ nl |}) in Hin.
  destruct Hin as [doc [Hdoc (_ & Ht & Hsum & _ & _ & _ & _ & _ & Hc & _)]].
  exists doc. split; [exact Hdoc |]. split; [exact Ht |]. split; [exact Hc |].
  apply Hsum. discriminate.
Defined.

(** The witness of [getEnvIntOrDefault_reads]: BATCH_SIZE set to a zero
    with a blank before it and a unit behind. *)
Lemma getEnvIntOrDefault_reads_witness :
  fx_env !! "BATCH_SIZE" = Some (" " +:+ decimal 0 +:+ "px")
  /\ getEnvIntOrDefault fx_env "BATCH_SIZE" 5 = 0%Z.
Proof.
  assert (H : fx_env !! "BATCH_SIZE" = Some (" " +:+ decimal 0 +:+ "px"))
    by (vm_compute; reflexivity).
  split; [exact H |].
  apply (getEnvIntOrDefault_reads fx_env "BATCH_SIZE" 5%Z " " 0%Z "px");
    [vm_compute; reflexivity | exact H | reflexivity | reflexivity].
Defined.
